(* ===== verification/_CoqProject ===== *)
-Q . S2P
Prelude.v
Solana.v
State.v
Effects.v
Logic.v
Rpc.v
Liveness.v
Util.v
MarginfiBank.v
ChainReader.v
BankRegistry.v
Config.v
Signer.v
SwbCranker.v
Metrics.v
Handlers.v
Promoter.v
Claimer.v
CuratorFeeClaimer.v
MatchCranker.v
Liquidator.v
HealthServer.v
Main.v
Footprint.v
Keeper.v
Progress.v
CrankProgress.v
Boot.v
Shutdown.v
Guarantee.v
Process.v
Stopping.v
Testbed.v
Witness.v
ProcessWitness.v
