(* ===== verification/Prelude.v ===== *)
(** * Verification of the yDelta crankers

    The crankers are one Rust process (crate [src/]) that performs the
    permissionless upkeep of the yDelta lending program on Solana: it promotes
    matched loans, sweeps repaid funds, liquidates and settles loans, claims
    curator fees and cranks order matching. This library models the process as
    written and proves what makes each part correct.

    ** The program and its parts

    - [src/main.rs] reads the configuration ([config.rs]) and the keys
      ([signer.rs]), builds the RPC wrapper ([rpc.rs]) and the account reader
      ([chain_reader.rs]), discovers the marginfi banks of the markets
      ([bank_registry.rs], decoding accounts with [marginfi_bank.rs]), creates
      missing token accounts, boots the Switchboard cranker ([swb_cranker.rs]),
      starts the background tasks ([metrics.rs], [health_server.rs]) and one
      supervised task per enabled handler ([handlers/mod.rs]).
    - The handlers, [handlers/promoter.rs], [claimer.rs], [liquidator.rs],
      [curator_fee_claimer.rs] and [match_cranker.rs], wake at an interval, read
      the chain, simulate what they would do, and submit what the simulation
      accepts.
    - The tasks share the stop flag, the low-balance flag, the market cache, the
      bank registry and the table of token balances; each handler keeps a private
      set of the items it is working on.

    ** The model

    - Third-party code is a parameter. [Solana.Crates] holds the functions of the
      SDK and of bs58, base64 and serde_json; [Solana.YDelta] those of the program
      crate (layouts, tree walks, addresses, instruction builders). No definition
      is invented for them; a theorem that needs a law of them has it as a
      hypothesis ([parse_fills_roundtrip], for one, that base64 decoding undoes the
      encoding). The theorems of what is achieved assume, in [Liveness.signs], [Progress.accepting] and
      [Boot.honest], that signing, and where a v0 transaction is built its
      compilation, succeeds: an idealisation, since both fail on a bad message.
    - [Effects.Env] is the environment of one task: the node, the gateways, the
      clocks and [interfere], what the other tasks do to the shared memory, which
      runs before every access to it. A theorem over an arbitrary [Env] thus holds
      whatever the node answers and however the tasks interleave. Theorems that
      need an honest node, a quiet or monotone neighbour or a sane clock say so
      as a hypothesis, and are instantiated on the node of [Testbed].
    - A computation is a function of a [World] (environment state, shared memory,
      in-flight sets, trace) to an [outcome] ([Ok], [Err] with the chain of
      contexts of an anyhow error, or [Panic]) and a new world. Every external
      action a property speaks about is an [Event] of the trace: reads, status
      checks, simulations, submissions, gateway fetches, metrics, sleeps. Log
      lines are not modelled.
    - [Logic] is the program logic: [wp] speaks of the events a run appends, its
      outcome and its final world; [keeps R] says that a computation respects a
      relation composed along its run, and is what the components export to each
      other through the hint database [crank].
    - Machine integers are [Z] with the source's saturating, wrapping and casting
      operations written out; durations are nanoseconds; a HashMap with no visible
      order is a [gmap], whose iteration order stands for the unspecified one.
      The [f64] ratio of the liquidator is computed with Stdlib's binary64.

    ** Files

    - [Prelude]: bytes, little-endian integers, widths, strings, stable sorting,
      and the scope and hints of the library.
    - [Solana], [State]: the data. [State] has the views, the registry, the
      configuration, the signers and the shared memory of the source.
    - [Effects], [Logic]: the monad and its logic.
    - [Rpc] (rpc.rs): simulation, both send paths with their retry loops, single
      and batched reads. The abstract contract of a send is [Rpc.retry_log]; the
      contract of sim-gating is [Rpc.gated].
    - [Liveness]: what a send achieves on a node that recovers.
    - [Util] (handlers/util.rs), [MarginfiBank] (marginfi_bank.rs), [ChainReader]
      (chain_reader.rs), [BankRegistry] (bank_registry.rs), [Config] (config.rs),
      [Signer] (signer.rs), [SwbCranker] (swb_cranker.rs), [Metrics] (metrics.rs).
    - [Handlers] (handlers/mod.rs): the interface [Handlers.Handler], a tick with
      the laws a supervisor relies on, and the supervisor, whose contract is
      [Handlers.sup_log]. [Promoter], [Claimer], [CuratorFeeClaimer],
      [MatchCranker], [Liquidator] are the five handlers, each of which
      discharges the interface.
    - [Keeper]: what the liquidator hands the node, for which loans, banks and amounts,
      under an invariant of the shared memory.
    - [Progress], [CrankProgress]: what the promoter, the claimer and the liquidator,
      and the match cranker and the curator service, achieve on a node that accepts
      what they simulate.
    - [HealthServer] (health_server.rs), [Main] (main.rs): the health routes from
      bytes to the operations on the socket, and the boot, the signal task, the log
      set-up and the panic hook.
    - [Boot]: how the boot ends on an honest node before any task runs
      ([Boot.honest], [Boot.boot_post]). The node answers batched reads up to a
      [limit], because the boot, unlike the balance task, reads without chunking;
      [BankRegistry.resolve_over_limit] is what happens beyond it.
    - [Footprint]: the interface [Footprint.Footprint] of a relation that no client
      call breaks, and that the shared accesses and the submissions of a task
      respect; every tick, every task and the boot keep such a relation. An invariant
      of the shared memory that the environment keeps is one ([Footprint.stays]),
      which [Keeper] and [Process] use. [Shutdown]
      instantiates it with the stop flag and states what holds of every handler the
      boot spawns.
    - [Guarantee]: the tasks of the process, the accesses each may make
      ([Guarantee.allowed]), and an environment that records the accesses and the
      submissions of the task that runs in it.
    - [Process]: the interleavings of all tasks as chains of accesses
      ([Process.interleaving]), and the invariants along them. [Stopping]: rely
      conditions derived from the guarantees ([Stopping.Peers]), and the end of the
      process.
    - [Testbed], [Witness], [ProcessWitness]: a concrete node, program crate and
      configuration, and the properties with hypotheses applied to them; [Witness]
      ends with a whole boot, run on that node, and [ProcessWitness] has an
      interleaving in which the stop flag is stored between a promoter's check and
      its submission.

    ** What the theorems show

    - Submission: a run of a send is a three-attempt retry protocol
      ([send_retry_refines_protocol]); a transaction is sent again only after a
      transient failure, a pause and a status check that does not find the first
      one landed ([resubmission_safe]); success means delivery
      ([submission_ok_delivered]), and two transient failures do not prevent it
      ([submission_recovers]); batched reads are pointwise whatever the order
      of completion ([batch_get_multiple_accounts_pointwise]).
    - The process: every transaction of every handler but the curator service was
      first accepted by a free simulation ([process_submissions_gated]); a tick that
      starts once the stop flag is set sends nothing ([no_submission_after_stop]),
      whereas one that has already checked the flag may ([submissions_precede_stop],
      and the interleaving of [ProcessWitness]); the
      supervisor refines its protocol and pauses on a low balance
      ([supervisor_refines_protocol], [supervisor_idle_while_low]).
    - Interleaving: along every interleaving of all tasks, whatever the node answers
      to each, the shared memory stays well formed, nothing is lost from the registry
      and every access is one its task may make ([process_invariant]); each cell
      holds what its one writer left ([process_single_writers]); a transaction
      follows a stop check made before the flag was set ([submissions_precede_stop]);
      the boot hands the tasks a well-formed state ([boot_starts_well_formed]); and
      among tasks that keep their guarantees every looping one, that is any but the
      signal and the health task, ends once the flag is set ([tasks_end_after_stop]).
    - Handlers: which items are acted on, with which instruction, and what success
      and refusal mean ([scan_loans_sound], [settle_or_liquidate_outcome],
      [vault_settle_iff], [to_sweep_exact], [curator_fee_claims_sound],
      [parse_fills_roundtrip], [parse_match_crank_log_line] and the [_tick_safe]
      theorems), and the arithmetic behind them ([repay_for_balance_spec], [is_matured_exact],
      [static_accrued_ratio_spec]).
    - Progress: the safety theorems also hold of a handler that does nothing, so
      [Progress] and [CrankProgress] show the converse: on an accepting node that
      fails at most two sends, every due item is acted on ([promoter_promotes_all],
      [claimer_sweeps_all], [liquidator_acts_on_due], [match_cranks_all_crossed],
      [curator_claims_all_due]).
    - Data: the bank decoder reads the documented layout and never runs out of
      range ([bank_decoder_layout], [bank_decoder_total]); discovery keeps exactly the
      accounts of the right size and discriminator, field by field
      ([discovery_exact], against [ChainReader.market_of] and [ChainReader.loan_of]), and
      the claims of the vaults' seats ([pending_claims_exact], against
      [ChainReader.claim_row]); the registry is
      well formed ([resolve_registry_wf]), holds exactly what the accounts say of each
      pair ([resolve_exact], against the pure [BankRegistry.resolved]), refuses
      conflicting banks and only grows ([bind_markets_exact],
      [refresh_banks_only_adds]); the market cache follows its policy
      ([list_markets_cache_policy]).
    - Boot and background tasks: on an honest node the boot starts the configured
      process exactly when markets and accounts agree ([boot_outcome]); whatever the
      node does, what it starts is what was configured ([main_boots_configured]);
      [from_env_wf], [signers_load_sound]; the token accounts created are those
      missing, by the instruction of the associated token program
      ([ensure_atas_exact]); the Switchboard cranker refines its failover, with at most
      one signed post through each gateway ([crank_refines_failover]); the bounded
      sleeps, the balance gauges, and the health routes.
    - Where the code departs from its documents, a lemma or an example says how:
      [HealthServer.not_ready_length_mismatch], [Liquidator.p2pool_partial_below_floor],
      [MarginfiBank.interior_zero_oracle_dropped], [Witness.crank_posts_again],
      [BankRegistry.resolve_over_limit],
      [Liquidator.huge_buffer_matures_early], [Config.redact_url_first_at].

    ** Fuel

    Loops that the source runs until the stop flag is set ([Handlers.spawn],
    [Metrics.task_loop], [SwbCranker.swb_crank_loop]) take the number of passes as
    fuel: a theorem about them holds for every number of passes, and [Ok false]
    is a run that is still going. The sleeps inside them ([Metrics.wait_loop],
    [SwbCranker.swb_sleep]) get fuel for the whole duration in their steps, which
    [sleep_until_or_stop_returns] and [swb_sleep_returns] show to be enough on a
    clock that advances. The retry loops, the chunking, the decimal, hexadecimal,
    octal and UTF-8 routines are structural in, or fuelled by the length of, what
    they consume. [Stopping.loop_more] shows that more fuel only goes on from where
    less fuel stopped, and [tasks_end_after_stop] that one round more than the stop
    needs is enough. The accept loop of the health server is given the ends of its
    rounds.

    ** Not modelled

    Log lines (only the choice of their filter and format, and what the panic hook
    reports, are), the Prometheus exporter, the listener and the sockets themselves
    (what they answer is an argument of [Metrics.install] and [HealthServer]), the
    readiness flag as a shared cell (it is an argument of [handle_conn]), lock
    poisoning (it needs a panic, which ends the process), the overflow panic of an
    [Instant] plus an interval of about 2^64 seconds (an instant is an unbounded
    integer), [.env] loading, and the
    struct fields no code reads. In an interleaving the tasks share the memory but
    not the node: each is answered arbitrarily, which covers every common node. The
    crate root [lib.rs] only declares modules.

    ** Plan

    Next: the freshness of the market
    snapshot a handler acts on, along interleavings; interleavings over one common
    node, so that two handlers' submissions are ordered; the order-book reads with a
    model of the hypertree region. *)

From Stdlib Require Import ZArith Lia Strings.Byte Ascii.
From stdpp Require Import gmap strings list fin_maps sorting.

Declare Scope crank_scope.
Delimit Scope crank_scope with crank.

(** ** Bytes and little-endian integers *)

Abbreviation byte := Byte.byte.
Abbreviation bytes := (list Byte.byte).

#[export] Instance byte_eq_dec : EqDecision byte := Byte.byte_eq_dec.

Lemma byte_of_to_N (b : byte) : default x00 (Byte.of_N (Byte.to_N b)) = b.
Proof. by rewrite Byte.of_to_N. Qed.

#[export] Instance byte_countable : Countable byte :=
  inj_countable' Byte.to_N (fun n => default x00 (Byte.of_N n)) byte_of_to_N.

Definition byte_Z (b : byte) : Z := Z.of_N (Byte.to_N b).
Definition Z_byte (z : Z) : byte := default x00 (Byte.of_N (Z.to_N z)).

(** [uN::from_le_bytes] on a slice of the right length. *)
Fixpoint le_Z (bs : bytes) : Z :=
  match bs with
  | [] => 0%Z
  | b :: bs' => (byte_Z b + 256 * le_Z bs')%Z
  end.

(** [uN::to_le_bytes]. *)
Fixpoint le_bytes (n : nat) (z : Z) : bytes :=
  match n with
  | O => []
  | S n' => Z_byte (z mod 256)%Z :: le_bytes n' (z / 256)%Z
  end.

(** Two's complement: the signed reading of a [w]-bit word, Rust's [as iN]. *)
Definition to_signed (w : Z) (u : Z) : Z :=
  let u' := (u mod 2 ^ w)%Z in
  if (u' <? 2 ^ (w - 1))%Z then u' else (u' - 2 ^ w)%Z.

(** ** Machine integers *)

Definition U16_MAX : Z := (2 ^ 16 - 1)%Z.
Definition U32_MAX : Z := (2 ^ 32 - 1)%Z.
Definition U64_MAX : Z := (2 ^ 64 - 1)%Z.
Definition U128_MAX : Z := (2 ^ 128 - 1)%Z.
Definition I64_MAX : Z := (2 ^ 63 - 1)%Z.
Definition I64_MIN : Z := (- 2 ^ 63)%Z.

Definition is_u8 (z : Z) : Prop := (0 <= z < 2 ^ 8)%Z.
Definition is_u16 (z : Z) : Prop := (0 <= z <= U16_MAX)%Z.
Definition is_u32 (z : Z) : Prop := (0 <= z <= U32_MAX)%Z.
Definition is_u64 (z : Z) : Prop := (0 <= z <= U64_MAX)%Z.
Definition is_i64 (z : Z) : Prop := (I64_MIN <= z <= I64_MAX)%Z.

(** [u64::saturating_add], [u64::saturating_sub], [u128::saturating_mul],
    [i64::saturating_add]. *)
Definition u64_sat_add (a b : Z) : Z := (Z.min (a + b) U64_MAX)%Z.
Definition u64_sat_sub (a b : Z) : Z := (Z.max (a - b) 0)%Z.
Definition u128_sat_mul (a b : Z) : Z := (Z.min (a * b) U128_MAX)%Z.
Definition i64_sat_add (a b : Z) : Z := (Z.max I64_MIN (Z.min (a + b) I64_MAX))%Z.

(** Wrapping [i64] addition: the release profile has no overflow checks. *)
Definition i64_wrap_add (a b : Z) : Z := to_signed 64 (a + b).

(** ** Slices *)

(** [s.get(a..b)]. *)
Definition get_range {A} (a b : nat) (l : list A) : option (list A) :=
  if decide (a <= b /\ b <= length l)%nat then Some (take (b - a) (drop a l)) else None.

(** ** Strings *)

Definition ascii_lower (c : ascii) : ascii :=
  let n := nat_of_ascii c in
  if decide (65 <= n <= 90)%nat then ascii_of_nat (n + 32) else c.

Fixpoint to_lower (s : string) : string :=
  match s with
  | EmptyString => EmptyString
  | String c s' => String (ascii_lower c) (to_lower s')
  end.

(** [s.strip_prefix(p)]. *)
Fixpoint strip_prefix (p s : string) : option string :=
  match p, s with
  | EmptyString, _ => Some s
  | String a p', String b s' => if decide (a = b) then strip_prefix p' s' else None
  | String _ _, EmptyString => None
  end.

(** [s.contains(p)]. *)
Fixpoint str_contains (s p : string) : bool :=
  match strip_prefix p s with
  | Some _ => true
  | None => match s with EmptyString => false | String _ s' => str_contains s' p end
  end.

(** The UTF-8 encodings of the characters with the Unicode property White_Space, which is
    what Rust's [trim] and [split_whitespace] look for. None starts inside the encoding of
    another character, so looking for them byte by byte finds exactly those characters. *)
Definition utf8_string (bs : list nat) : string :=
  fold_right (fun b s => String (ascii_of_nat b) s) EmptyString bs.
Definition white_space : list string :=
  map (fun b => utf8_string [b]) [9; 10; 11; 12; 13; 32] ++
  map utf8_string [[194; 133]; [194; 160]; [225; 154; 128]] ++
  map (fun b => utf8_string [226; 128; b]) (seq 128 11 ++ [168; 169; 175]) ++
  map utf8_string [[226; 129; 159]; [227; 128; 128]].

(** [s] without its first character, if that is one of [ws]. *)
Fixpoint strip_ws (ws : list string) (s : string) : option string :=
  match ws with
  | [] => None
  | p :: ws' => match strip_prefix p s with Some s' => Some s' | None => strip_ws ws' s end
  end.

Fixpoint trim_fuel (fuel : nat) (ws : list string) (s : string) : string :=
  match fuel with
  | O => s
  | S fuel' => match strip_ws ws s with Some s' => trim_fuel fuel' ws s' | None => s end
  end.
Definition trim_start (s : string) : string := trim_fuel (String.length s) white_space s.

Fixpoint until_ws (s : string) : string :=
  match s with
  | EmptyString => EmptyString
  | String c s' =>
      match strip_ws white_space s with Some _ => EmptyString | None => String c (until_ws s') end
  end.

(** [s.split_whitespace().next()]. *)
Definition first_word (s : string) : option string :=
  match trim_start s with
  | EmptyString => None
  | s' => Some (until_ws s')
  end.

Fixpoint str_rev_app (s acc : string) : string :=
  match s with
  | EmptyString => acc
  | String c s' => str_rev_app s' (String c acc)
  end.
Definition str_rev (s : string) : string := str_rev_app s EmptyString.

(** [s.trim()]. *)
Definition str_trim (s : string) : string :=
  let s' := trim_start s in
  str_rev (trim_fuel (String.length s') (map str_rev white_space) (str_rev s')).

Example str_trim_unicode :
  str_trim (utf8_string [226; 128; 137] +:+ " a b" +:+ utf8_string [194; 160; 10]) = "a b"%string.
Proof. vm_compute. reflexivity. Qed.

(** [{:#x}]. *)
Definition hex_digit (n : Z) : ascii :=
  ascii_of_nat (Z.to_nat (if (n <? 10)%Z then 48 + n else 87 + n)%Z).
Fixpoint hex_fuel (fuel : nat) (z : Z) (acc : string) : string :=
  match fuel with
  | O => acc
  | S fuel' =>
      let acc' := String (hex_digit (z mod 16)%Z) acc in
      if (z / 16 =? 0)%Z then acc' else hex_fuel fuel' (z / 16)%Z acc'
  end.
Definition show_hex (z : Z) : string := "0x" +:+ hex_fuel 32 z "".

(** ** Stable sorting and de-duplication ([slice::sort_by_key], [Vec::dedup]) *)

Section sorting.
Context {A : Type} (leb : A -> A -> bool).

Fixpoint insert_sorted (x : A) (l : list A) : list A :=
  match l with
  | [] => [x]
  | y :: l' => if leb x y then x :: l else y :: insert_sorted x l'
  end.

Fixpoint stable_sort (l : list A) : list A :=
  match l with
  | [] => []
  | x :: l' => insert_sorted x (stable_sort l')
  end.
End sorting.

Fixpoint dedup_adj `{EqDecision A} (l : list A) : list A :=
  match l with
  | x :: ((y :: _) as l') => if decide (x = y) then dedup_adj l' else x :: dedup_adj l'
  | _ => l
  end.

(** Lexicographic order on byte strings: Rust's [Ord] on [[u8; 32]]. *)
Fixpoint bytes_leb (a b : bytes) : bool :=
  match a, b with
  | [], _ => true
  | _ :: _, [] => false
  | x :: a', y :: b' =>
      if (byte_Z x <? byte_Z y)%Z then true
      else if (byte_Z y <? byte_Z x)%Z then false
      else bytes_leb a' b'
  end.

(** ** Tactics and hint databases *)

Create HintDb crank.
Create Rewrite HintDb crank_rw.

(** Case analysis on the scrutinee of the goal or of a hypothesis. *)
Ltac destr_match :=
  match goal with
  | |- context [match ?x with _ => _ end] => destruct x eqn:?
  | H : context [match ?x with _ => _ end] |- _ => destruct x eqn:?
  end.

(** Booleans of integer comparison to propositions. *)
Ltac zbool :=
  repeat match goal with
  | H : (_ <? _)%Z = true |- _ => apply Z.ltb_lt in H
  | H : (_ <? _)%Z = false |- _ => apply Z.ltb_ge in H
  | H : (_ <=? _)%Z = true |- _ => apply Z.leb_le in H
  | H : (_ <=? _)%Z = false |- _ => apply Z.leb_gt in H
  | H : (_ =? _)%Z = true |- _ => apply Z.eqb_eq in H
  | H : (_ =? _)%Z = false |- _ => apply Z.eqb_neq in H
  end.

(** [lia] with the division equations and the widths unfolded. *)
Ltac zlia :=
  unfold is_u8, is_u16, is_u32, is_u64, is_i64, u64_sat_add, u64_sat_sub,
    u128_sat_mul, i64_sat_add, U16_MAX, U32_MAX, U64_MAX, U128_MAX, I64_MAX, I64_MIN in *;
  Z.div_mod_to_equations; lia.

(** ** Lemmas *)

Lemma byte_Z_range b : (0 <= byte_Z b < 256)%Z.
Proof. unfold byte_Z. pose proof (Byte.to_N_bounded b). lia. Qed.

Lemma byte_Z_inj : Inj (=) (=) byte_Z.
Proof.
  intros a b H. unfold byte_Z in H. apply N2Z.inj in H.
  pose proof (of_to_N a). pose proof (of_to_N b). congruence.
Qed.

Lemma byte_Z_Z_byte z : (0 <= z < 256)%Z -> byte_Z (Z_byte z) = z.
Proof.
  intros Hz. unfold byte_Z, Z_byte.
  destruct (Byte.of_N (Z.to_N z)) eqn:E; simpl.
  - apply to_of_N in E. rewrite E. lia.
  - apply of_N_None_iff in E. lia.
Qed.

Lemma Z_byte_byte_Z b : Z_byte (byte_Z b) = b.
Proof. apply byte_Z_inj, byte_Z_Z_byte, byte_Z_range. Qed.

Lemma le_Z_range bs : (0 <= le_Z bs < 256 ^ Z.of_nat (length bs))%Z.
Proof.
  induction bs as [|b bs IH]; [simpl; lia|].
  cbn [le_Z length]. rewrite Nat2Z.inj_succ, Z.pow_succ_r by lia.
  pose proof (byte_Z_range b). nia.
Qed.

Lemma length_le_bytes n z : length (le_bytes n z) = n.
Proof. revert z. induction n as [|n IH]; intros z; simpl; [done|]. by rewrite IH. Qed.

(** Encoding then decoding is reduction to the width. *)
Lemma le_Z_le_bytes n z : le_Z (le_bytes n z) = (z mod 256 ^ Z.of_nat n)%Z.
Proof.
  revert z. induction n as [|n IH]; intros z.
  - cbn [le_bytes le_Z]. by rewrite Z.mod_1_r.
  - cbn [le_bytes le_Z]. rewrite IH, byte_Z_Z_byte by (apply Z.mod_pos_bound; lia).
    rewrite Nat2Z.inj_succ, Z.pow_succ_r by lia.
    rewrite Z.rem_mul_r by lia. lia.
Qed.

(** Decoding then encoding gives the bytes back. *)
Lemma le_bytes_le_Z bs : le_bytes (length bs) (le_Z bs) = bs.
Proof.
  induction bs as [|b bs IH]; [done|]. cbn [length le_bytes le_Z].
  pose proof (byte_Z_range b).
  replace ((byte_Z b + 256 * le_Z bs) mod 256)%Z with (byte_Z b)
    by (rewrite (Z.mul_comm 256), Z.mod_add, Z.mod_small; lia).
  replace ((byte_Z b + 256 * le_Z bs) / 256)%Z with (le_Z bs)
    by (rewrite (Z.mul_comm 256), Z.div_add, Z.div_small; lia).
  by rewrite IH, Z_byte_byte_Z.
Qed.

Lemma get_range_Some {A} a b (l : list A) :
  (a <= b <= length l)%nat -> get_range a b l = Some (take (b - a) (drop a l)).
Proof. intros. unfold get_range. by rewrite decide_True by lia. Qed.

Lemma get_range_length {A} a b (l r : list A) :
  get_range a b l = Some r -> length r = (b - a)%nat /\ (b <= length l)%nat.
Proof.
  unfold get_range. case_decide as Hc; [|done]. intros [= <-].
  rewrite length_take, length_drop. lia.
Qed.

Lemma insert_sorted_perm {A} (leb : A -> A -> bool) x l :
  insert_sorted leb x l ≡ₚ x :: l.
Proof.
  induction l as [|y l IH]; simpl; [done|]. destruct (leb x y); [done|].
  rewrite IH. constructor.
Qed.

Lemma stable_sort_perm {A} (leb : A -> A -> bool) l : stable_sort leb l ≡ₚ l.
Proof. induction l as [|x l IH]; simpl; [done|]. by rewrite insert_sorted_perm, IH. Qed.

Lemma insert_sorted_Sorted {A} (leb : A -> A -> bool) x l :
  (forall a b, leb a b = false -> leb b a = true) ->
  Sorted (fun a b => leb a b = true) l ->
  Sorted (fun a b => leb a b = true) (insert_sorted leb x l).
Proof.
  intros Htot. induction l as [|y l IH]; intros Hs; simpl; [constructor; constructor|].
  destruct (leb x y) eqn:E; [constructor; [done|by constructor]|].
  inversion Hs as [|? ? Hs' Hd]; subst. constructor; [by apply IH|].
  destruct l as [|z l]; simpl; [constructor; by apply Htot|].
  destruct (leb x z); constructor; [by apply Htot|]. by inversion Hd.
Qed.

Lemma stable_sort_Sorted {A} (leb : A -> A -> bool) l :
  (forall a b, leb a b = false -> leb b a = true) ->
  Sorted (fun a b => leb a b = true) (stable_sort leb l).
Proof.
  intros Htot. induction l as [|x l IH]; simpl; [constructor|].
  by apply insert_sorted_Sorted.
Qed.

Lemma bytes_leb_total a b : bytes_leb a b = false -> bytes_leb b a = true.
Proof.
  revert b. induction a as [|x a IH]; intros [|y b]; simpl; try done.
  destruct (Z.ltb_spec (byte_Z x) (byte_Z y)), (Z.ltb_spec (byte_Z y) (byte_Z x));
    try done; try lia. apply IH.
Qed.

Lemma bytes_leb_trans a b c :
  bytes_leb a b = true -> bytes_leb b c = true -> bytes_leb a c = true.
Proof.
  revert b c. induction a as [|x a IH]; intros [|y b] [|z c]; simpl; try done.
  repeat match goal with
  | |- context [(?p <? ?q)%Z] => destruct (Z.ltb_spec p q)
  end; try done; try lia. apply IH.
Qed.

Lemma bytes_leb_antisym a b : bytes_leb a b = true -> bytes_leb b a = true -> a = b.
Proof.
  revert b. induction a as [|x a IH]; intros [|y b]; simpl; try done.
  destruct (Z.ltb_spec (byte_Z x) (byte_Z y)), (Z.ltb_spec (byte_Z y) (byte_Z x));
    try done; try lia.
  intros. f_equal; [apply byte_Z_inj; lia | by apply IH].
Qed.

Lemma elem_of_dedup_adj `{EqDecision A} (l : list A) x : x ∈ dedup_adj l <-> x ∈ l.
Proof.
  induction l as [|y [|z l] IH]; [done..|].
  cbn [dedup_adj]. case_decide; subst; rewrite ?elem_of_cons, ?IH, ?elem_of_cons; tauto.
Qed.

Lemma strip_prefix_app p s : strip_prefix p (p +:+ s) = Some s.
Proof. induction p as [|c p IH]; simpl; [done|]. by rewrite decide_True. Qed.

Lemma strip_prefix_Some p s r : strip_prefix p s = Some r -> s = p +:+ r.
Proof.
  revert s. induction p as [|c p IH]; intros [|d s] H; simpl in H; simplify_eq; [done..|].
  case_decide; [|done]. subst. by rewrite (IH s H).
Qed.

Lemma str_contains_prefix p s : str_contains (p +:+ s) p = true.
Proof.
  pose proof (strip_prefix_app p s) as E. destruct (p +:+ s) eqn:E'; cbn [str_contains];
    by rewrite E.
Qed.

Lemma string_app_assoc (a b c : string) : a +:+ b +:+ c = (a +:+ b) +:+ c.
Proof.
  induction a as [|x a IH]; [done|].
  exact (f_equal (String x) IH).
Qed.

Lemma string_app_nil_r (s : string) : s +:+ "" = s.
Proof. induction s as [|x s IH]; [done|]. exact (f_equal (String x) IH). Qed.

Lemma strip_prefix_app_r p s t r : strip_prefix p s = Some r -> strip_prefix p (s +:+ t) = Some (r +:+ t).
Proof.
  intros ->%strip_prefix_Some. rewrite <-string_app_assoc. apply strip_prefix_app.
Qed.

Lemma str_contains_app_l s t p : str_contains s p = true -> str_contains (s +:+ t) p = true.
Proof.
  induction s as [|c s IH]; cbn [str_contains].
  - destruct (strip_prefix p "") as [r|] eqn:E; [|done]. intros _.
    apply (strip_prefix_app_r _ _ t) in E. change ("" +:+ t) with t in *.
    destruct t; cbn [str_contains]; by rewrite E.
  - change (String c s +:+ t) with (String c (s +:+ t)). cbn [str_contains].
    destruct (strip_prefix p (String c s)) as [r|] eqn:E.
    + intros _. apply (strip_prefix_app_r _ _ t) in E.
      change (String c s +:+ t) with (String c (s +:+ t)) in E. by rewrite E.
    + intros H. destruct (strip_prefix p (String c (s +:+ t))); [done|]. by apply IH.
Qed.

Lemma str_contains_app_r a s p : str_contains s p = true -> str_contains (a +:+ s) p = true.
Proof.
  intros H. induction a as [|c a IH]; [done|].
  change (String c a +:+ s) with (String c (a +:+ s)). cbn [str_contains].
  by destruct (strip_prefix p _).
Qed.

Lemma to_lower_app a b : to_lower (a +:+ b) = to_lower a +:+ to_lower b.
Proof. induction a as [|c a IH]; [done|]. exact (f_equal (String (ascii_lower c)) IH). Qed.

Section dedup.
Context {A : Type} `{EqDecision A} (leb : A -> A -> bool).

Lemma dedup_adj_head (x : A) l : exists l', dedup_adj (x :: l) = x :: l'.
Proof.
  revert x. induction l as [|y l IH]; intros x; [by exists []|].
  cbn [dedup_adj]. case_decide as E; [|by eexists].
  subst. apply IH.
Qed.

Lemma dedup_adj_Sorted (l : list A) :
  Sorted (fun a b => leb a b = true) l -> Sorted (fun a b => leb a b = true) (dedup_adj l).
Proof.
  induction l as [|x [|y l] IH]; [done..|]. intros Hs. inversion Hs as [|? ? Hs' Hd]; subst.
  specialize (IH Hs'). cbn [dedup_adj]. case_decide; [done|]. constructor; [done|].
  destruct (dedup_adj_head y l) as [l' E]. cbn [dedup_adj] in E. rewrite E.
  constructor. by inversion Hd.
Qed.

(** De-duplicating a sorted list leaves no duplicate. *)
Lemma dedup_adj_NoDup (l : list A) :
  (forall a b, leb a b = true -> leb b a = true -> a = b) ->
  (forall a b c, leb a b = true -> leb b c = true -> leb a c = true) ->
  Sorted (fun a b => leb a b = true) l -> NoDup (dedup_adj l).
Proof.
  intros Hanti Htrans. induction l as [|x [|y l] IH]; intros Hs; [constructor|..].
  { constructor; [by apply not_elem_of_nil|constructor]. }
  inversion Hs as [|? ? Hs' Hd]; subst. specialize (IH Hs'). cbn [dedup_adj].
  case_decide as Hxy; [done|]. constructor; [|done].
  intros Hin. apply (elem_of_dedup_adj (y :: l)) in Hin. apply Hxy.
  apply HdRel_inv in Hd. apply Hanti; [done|].
  apply Sorted_StronglySorted in Hs'; [|intros ? ? ?; apply Htrans].
  apply elem_of_cons in Hin as [->|Hin]; [done|].
  inversion Hs' as [|? ? _ Hall]; subst. rewrite Forall_forall in Hall. by apply Hall.
Qed.
End dedup.

#[export] Hint Resolve byte_Z_range le_Z_range bytes_leb_total : crank.
#[export] Hint Rewrite length_le_bytes @length_take @length_drop : crank_rw.
