(* ===== verification/Solana.v ===== *)
(** The data of the Solana SDK and of the two on-chain programs as the
    crankers see them, and the third-party functions the crankers call.

    Nothing here is code of this repository: the records are the SDK's (or the
    program crate's) types, restricted to the fields the crankers read, and
    the two classes [Crates] and [YDelta] are parameters of every later
    definition that uses them. *)

From Stdlib Require Import ZArith Lia.
From stdpp Require Import gmap strings list pretty.
From S2P Require Import Prelude.

(** ** solana-sdk / solana-client data *)

(** A [Pubkey] is a newtype over 32 bytes. *)
Record Pubkey := mkPubkey { to_bytes : bytes }.

#[export] Instance Pubkey_eq_dec : EqDecision Pubkey.
Proof. solve_decision. Defined.

Lemma Pubkey_eta p : mkPubkey (to_bytes p) = p.
Proof. by destruct p. Qed.

#[export] Instance Pubkey_countable : Countable Pubkey :=
  inj_countable' to_bytes mkPubkey Pubkey_eta.

(** [Pubkey::default()]: all zero bytes. *)
Definition Pubkey_default : Pubkey := mkPubkey (replicate 32 Byte.x00).

Definition Pubkey_leb (a b : Pubkey) : bool := bytes_leb (to_bytes a) (to_bytes b).

Record Account := mkAccount { acct_data : bytes; acct_owner : Pubkey }.

Record AccountMeta := mkMeta { am_pubkey : Pubkey; am_is_signer : bool; am_is_writable : bool }.
Definition AccountMeta_new pk signer := mkMeta pk signer true.
Definition AccountMeta_new_readonly pk signer := mkMeta pk signer false.

Record Instruction := mkIx {
  ix_program_id : Pubkey; ix_accounts : list AccountMeta; ix_data : bytes }.

(** An address lookup table account. *)
Record Lut := mkLut { lut_key : Pubkey; lut_addresses : list Pubkey }.

Abbreviation Signature := bytes.
Abbreviation Blockhash := bytes.

Record Keypair := mkKeypair { kp_secret : bytes }.

(** What a message carries: the payer, the instructions in order, the lookup
    tables and the blockhash. A legacy message has no lookup table. *)
Record Message := mkMessage {
  msg_payer : Pubkey; msg_ixs : list Instruction; msg_luts : list Lut;
  msg_blockhash : Blockhash }.

Record Transaction := mkTx { tx_message : Message; tx_signatures : list Signature }.

Inductive RpcError :=
| ForUser (msg : string)
| RpcResponseError (code : Z)
| RpcErrorOther.

Inductive ClientErrorKind :=
| CeIo | CeReqwest | CeRpc (e : RpcError) | CeOther.

(** [ce_chain] is the display string of the error and of its sources, the
    error itself first: what anyhow prints for it. *)
Record ClientError := mkClientError { ce_kind : ClientErrorKind; ce_chain : list string }.
Definition ce_display (e : ClientError) : string := default ""%string (head (ce_chain e)).

Record SimValue := mkSim { sv_err : option string; sv_logs : option (list string) }.

Inductive MemcmpEncodedBytes := Base58 (s : string) | Bytes (bs : bytes).
Inductive RpcFilterType := DataSize (n : Z) | Memcmp (offset : nat) (b : MemcmpEncodedBytes).

(** ** Third-party crates *)

Class Crates := {
  (* bs58, base64, serde_json *)
  bs58_encode : bytes -> string;
  bs58_decode : string -> string + bytes;
  base64_decode : string -> option bytes;
  (* [serde_json::from_str::<Vec<String>>], [serde_json::from_slice::<Vec<u8>>] *)
  json_string_array : string -> string + list string;
  json_u8_array : bytes -> string + bytes;
  (* solana-sdk *)
  pubkey_from_str : string -> string + Pubkey;
  (* [Pubkey::from_str(lit).unwrap()] on a base58 key written in the source *)
  pubkey_literal : string -> Pubkey;
  keypair_try_from : bytes -> string + Keypair;
  keypair_pubkey : Keypair -> Pubkey;
  find_program_address : list bytes -> Pubkey -> Pubkey * Z;
  create_program_address : list bytes -> Pubkey -> string + Pubkey;
  system_program_id : Pubkey;
  set_compute_unit_limit : Z -> Instruction;
  set_compute_unit_price : Z -> Instruction;
  (* [v0::Message::try_compile]: [None] when it compiles, else its error *)
  v0_compile_error : Message -> option string;
  num_required_signatures : Message -> nat;
  (* [Transaction::new_signed_with_payer] panics when signing fails *)
  sign_legacy : Message -> list Keypair -> option (list Signature);
  (* [VersionedTransaction::try_new] *)
  sign_v0 : Message -> list Keypair -> string + list Signature
}.

(** A [Pubkey] is displayed in base58. *)
Definition show_pk `{Crates} (p : Pubkey) : string := bs58_encode (to_bytes p).

(** ** The ydelta program crate *)

(** Fields of [MarketFixed] the crankers read. *)
Record MarketFixed := {
  mf_discriminator : Z;
  mf_debt_mint : Pubkey; mf_collateral_mint : Pubkey;
  mf_debt_lending_pool : Pubkey; mf_collateral_lending_pool : Pubkey;
  mf_is_paused : Z; mf_admin : Pubkey;
  mf_grace_period_seconds : Z;
  mf_liquidation_keeper_bps : Z; mf_liquidation_protocol_bps : Z;
  mf_matched_loans_root_index : Z; mf_claimed_seats_root_index : Z;
  mf_asks_root_index : Z; mf_asks_best_index : Z; mf_bids_best_index : Z }.

Record LoanFixed := {
  lf_discriminator : Z; lf_market : Pubkey; lf_state : Z; lf_loan_type : Z;
  lf_principal_debt_atoms : Z; lf_outstanding_debt_atoms : Z;
  lf_matures_at_unix : Z; lf_matched_loan_sequence : Z;
  lf_lender_kind : Z; lf_lender_global_vault : Pubkey; lf_lender_sub_vault_id : Z;
  lf_borrower_rate_bps : Z; lf_lender_rate_bps : Z }.

Record GlobalVaultFixed := {
  gv_discriminator : Z; gv_mint : Pubkey; gv_lending_pool : Pubkey;
  gv_is_paused : Z; gv_sub_vaults_root_index : Z }.

Record SubVault := {
  sv_sub_vault_id : Z; sv_curator : Pubkey; sv_accumulated_curator_fee_atoms : Z;
  sv_pending_claim_atoms : Z; sv_is_sunset : Z }.

Record MatchedLoan := {
  ml_sequence : Z; ml_flags : Z; ml_loan_type : Z;
  ml_lender_seat_index : Z; ml_borrower_seat_index : Z;
  ml_principal_atoms : Z; ml_origination_atoms : Z }.

Record ClaimedSeat := {
  cs_owner : Pubkey; cs_owner_kind : Z; cs_sub_vault_id : Z;
  cs_debt_withdrawable_shares : Z }.

Record RestingOrder := {
  ro_sequence_number : Z; ro_side : Z; ro_rate_bps : Z; ro_term_seconds : Z;
  ro_principal_atoms : Z; ro_trader_seat_index : Z }.

(** The account bundle of [process_matched_loan_instruction]. *)
Record VaultSettleAddrs := {
  vs_global_vault : Pubkey; vs_global_vault_signer : Pubkey;
  vs_global_vault_staging : Pubkey; vs_global_vault_integration_account : Pubkey;
  vs_market_debt_vault : Pubkey; vs_market_lender_integration_account : Pubkey;
  vs_market_signer : Pubkey; vs_debt_liquidity_vault : Pubkey;
  vs_debt_bank_liquidity_vault_authority : Pubkey; vs_debt_oracles : list Pubkey;
  vs_debt_mint : Pubkey; vs_token_program : Pubkey;
  vs_marginfi_group : Pubkey; vs_marginfi_program : Pubkey }.

Class YDelta := {
  ydelta_id : Pubkey;
  LoanState_Active : Z; LoanState_Repaid : Z; LoanType_P2Pool : Z;
  MATCHED_LOAN_FLAG_VAULT_LENDER : Z; MATCHED_LOAN_FLAG_VAULT_PRESETTLED : Z;
  OWNER_KIND_SUB_VAULT : Z; NIL : Z;
  MARKET_FIXED_SIZE : nat; LOAN_FIXED_SIZE : nat; GLOBAL_VAULT_FIXED_SIZE : nat;
  MARKET_FIXED_DISCRIMINANT : Z; LOAN_FIXED_DISCRIMINANT : Z;
  GLOBAL_VAULT_FIXED_DISCRIMINANT : Z;
  MatchCrankLog_discriminant : bytes;
  (* [bytemuck::from_bytes] panics on a misaligned slice: [None] *)
  market_from_bytes : bytes -> option MarketFixed;
  loan_from_bytes : bytes -> option LoanFixed;
  global_vault_try_from_bytes : bytes -> option GlobalVaultFixed;
  (* hypertree walks over the dynamic region, in iteration order; [None]
     when the walk indexes outside the region and panics *)
  iter_matched_loans : bytes -> Z -> Z -> option (list MatchedLoan);
  iter_sub_vaults : bytes -> Z -> Z -> option (list SubVault);
  iter_claimed_seats : bytes -> Z -> Z -> option (list ClaimedSeat);
  iter_bookside : bytes -> Z -> Z -> option (list RestingOrder);
  get_helper_seat : bytes -> Z -> option ClaimedSeat;
  get_helper_order : bytes -> Z -> option RestingOrder;
  (* program-derived addresses *)
  global_vault_pda : Pubkey -> Pubkey * Z;
  global_vault_signer_pda : Pubkey -> Pubkey * Z;
  global_vault_staging_pda : Pubkey -> Pubkey * Z;
  global_vault_integration_account_pda : Pubkey -> Pubkey * Z;
  get_vault_address : Pubkey -> Pubkey -> Pubkey * Z;
  get_lender_integration_account_address : Pubkey -> Pubkey * Z;
  get_market_signer_address : Pubkey -> Pubkey * Z;
  (* instruction builders *)
  process_matched_loan_instruction :
    Pubkey -> Pubkey -> Pubkey -> Pubkey -> Z -> option Pubkey ->
    option VaultSettleAddrs -> Instruction;
  check_maturity_liquidatable_instruction :
    Pubkey -> Pubkey -> Z -> Pubkey -> Pubkey -> Instruction;
  check_ltv_liquidatable_instruction :
    Pubkey -> Pubkey -> Z -> Pubkey -> Pubkey -> list Pubkey -> list Pubkey -> Pubkey ->
    Instruction;
  settle_matured_loan_instruction :
    Pubkey -> Pubkey -> Z -> Pubkey -> Pubkey -> Pubkey -> Pubkey -> Pubkey -> Pubkey ->
    Pubkey -> Pubkey -> Pubkey -> list Pubkey -> list Pubkey -> Pubkey -> Pubkey -> Pubkey ->
    Z -> Pubkey -> option Pubkey -> Instruction;
  liquidate_loan_instruction :
    Pubkey -> Pubkey -> Z -> Pubkey -> Pubkey -> Pubkey -> Pubkey -> Pubkey -> Pubkey ->
    Pubkey -> Pubkey -> Pubkey -> list Pubkey -> list Pubkey -> Pubkey -> Pubkey -> Pubkey ->
    Z -> Pubkey -> option Pubkey -> Instruction;
  claim_repayment_for_sub_vault_instruction :
    Pubkey -> Pubkey -> Z -> Pubkey -> Pubkey -> Pubkey -> Pubkey -> Pubkey -> list Pubkey ->
    Pubkey -> Pubkey -> Pubkey -> Pubkey -> Instruction;
  claim_curator_fee_instruction :
    Pubkey -> Pubkey -> Pubkey -> Pubkey -> Pubkey -> Pubkey -> Pubkey -> Pubkey -> Pubkey ->
    Pubkey -> Pubkey -> Z -> Instruction;
  match_crank_instruction :
    Pubkey -> Pubkey -> Pubkey -> Pubkey -> Pubkey -> Pubkey -> list Pubkey -> list Pubkey ->
    Z -> Instruction
}.

(** Order facts of [Pubkey], for sorting. *)
Lemma Pubkey_leb_total a b : Pubkey_leb a b = false -> Pubkey_leb b a = true.
Proof. apply bytes_leb_total. Qed.

Lemma Pubkey_leb_antisym a b : Pubkey_leb a b = true -> Pubkey_leb b a = true -> a = b.
Proof.
  intros H1 H2. pose proof (bytes_leb_antisym _ _ H1 H2) as E.
  destruct a, b; simpl in E; by subst.
Qed.

Lemma Pubkey_leb_trans a b c :
  Pubkey_leb a b = true -> Pubkey_leb b c = true -> Pubkey_leb a c = true.
Proof. apply bytes_leb_trans. Qed.

#[export] Hint Resolve Pubkey_leb_total : crank.
