(* ===== verification/State.v ===== *)
(** In-process data of the crankers: the views [chain_reader.rs] decodes
    accounts into, the bank registry, the typed configuration, the signers, the
    RPC handle, and the cells the tasks of one process share. *)

From Stdlib Require Import ZArith Lia.
From stdpp Require Import gmap strings list.
From S2P Require Import Prelude Solana.

(** ** Time *)

(** [Duration] and [Instant] in nanoseconds. *)
Abbreviation Duration := Z.
Abbreviation Instant := Z.
Definition from_secs (s : Z) : Duration := (s * 1000000000)%Z.
Definition from_millis (ms : Z) : Duration := (ms * 1000000)%Z.
Definition as_secs (d : Duration) : Z := (d / 1000000000)%Z.

(** [deadline.saturating_duration_since(now)], and [Instant::elapsed] at [now]. *)
Definition saturating_duration_since (later earlier : Instant) : Duration :=
  Z.max 0 (later - earlier).

(** ** chain_reader.rs: views *)

Record MarketView := {
  mv_address : Pubkey; mv_debt_mint : Pubkey; mv_collateral_mint : Pubkey;
  mv_debt_bank : Pubkey; mv_collateral_bank : Pubkey; mv_is_paused : bool;
  mv_admin : Pubkey; mv_grace_period_seconds : Z;
  mv_liquidation_keeper_bps : Z; mv_liquidation_protocol_bps : Z }.

Record LoanView := {
  lv_address : Pubkey; lv_market : Pubkey; lv_state : Z; lv_loan_type : Z;
  lv_principal_debt_atoms : Z; lv_outstanding_debt_atoms : Z;
  lv_matures_at_unix : Z; lv_matched_loan_sequence : Z;
  lv_lender_kind : Z; lv_lender_global_vault : Pubkey; lv_lender_sub_vault_id : Z;
  lv_borrower_rate_bps : Z; lv_lender_rate_bps : Z }.

Record OrderView := {
  ov_sequence : Z; ov_side : Z; ov_rate_bps : Z; ov_term_seconds : Z;
  ov_principal_atoms : Z; ov_owner : Pubkey; ov_owner_kind : Z; ov_sub_vault_id : Z }.

Record PendingMatchedLoan := {
  pm_market : Pubkey; pm_sequence : Z; pm_flags : Z; pm_loan_type : Z;
  pm_lender_seat_index : Z; pm_borrower_seat_index : Z;
  pm_principal_atoms : Z; pm_origination_atoms : Z }.

Record SeatView := { sw_owner : Pubkey; sw_owner_kind : Z; sw_sub_vault_id : Z }.

Record SubVaultView := {
  vw_vault : Pubkey; vw_vault_mint : Pubkey; vw_vault_bank : Pubkey;
  vw_sub_vault_id : Z; vw_curator : Pubkey; vw_accumulated_curator_fee_atoms : Z;
  vw_vault_is_paused : bool; vw_pending_claim_atoms : Z; vw_is_sunset : bool }.

Record PendingVaultClaim := {
  pc_market : Pubkey; pc_debt_mint : Pubkey; pc_debt_bank : Pubkey;
  pc_lender_global_vault : Pubkey; pc_sub_vault_id : Z;
  pc_debt_withdrawable_shares : Z }.

Record MarketCache := { mc_fetched_at : Instant; mc_markets : list MarketView }.

Section predicates.
Context `{YDelta}.

Definition LoanView_is_active (l : LoanView) : bool := (lv_state l =? LoanState_Active)%Z.
Definition LoanView_is_repaid (l : LoanView) : bool := (lv_state l =? LoanState_Repaid)%Z.
Definition LoanView_is_p2pool (l : LoanView) : bool := (lv_loan_type l =? LoanType_P2Pool)%Z.

Definition has_vault_lender (e : PendingMatchedLoan) : bool :=
  negb (Z.land (pm_flags e) MATCHED_LOAN_FLAG_VAULT_LENDER =? 0)%Z.
Definition is_vault_presettled (e : PendingMatchedLoan) : bool :=
  negb (Z.land (pm_flags e) MATCHED_LOAN_FLAG_VAULT_PRESETTLED =? 0)%Z.
Definition Pending_is_p2pool (e : PendingMatchedLoan) : bool :=
  (pm_loan_type e =? LoanType_P2Pool)%Z.
End predicates.

(** ** bank_registry.rs: data *)

Record BankInfo := {
  bi_mint : Pubkey; bi_bank : Pubkey; bi_liquidity_vault : Pubkey;
  bi_liquidity_vault_authority : Pubkey; bi_oracles : list Pubkey;
  bi_token_program : Pubkey; bi_oracle_setup : Z }.

#[export] Instance BankInfo_eq_dec : EqDecision BankInfo.
Proof. solve_decision. Defined.

Record BankRegistry := { by_mint : gmap Pubkey BankInfo }.
Definition BankRegistry_default : BankRegistry := {| by_mint := ∅ |}.

(** ** config.rs: data *)

Inductive KeypairSource := Path (p : string) | KsBase58 (s : string).

Inductive Network := Localhost | Mainnet.

Record HandlersConfig := {
  promoter_enabled : bool; claimer_enabled : bool; liquidator_enabled : bool;
  curator_fee_claimer_enabled : bool; match_cranker_enabled : bool;
  promoter_interval : Duration; claimer_interval : Duration;
  liquidator_interval : Duration; curator_fee_claimer_interval : Duration;
  match_cranker_interval : Duration; match_cranker_max_fills : Z }.

Record ThresholdsConfig := {
  min_liquidation_profit_atoms : Z; maturity_extra_buffer : Duration;
  min_curator_fee_claim_atoms : Z }.

(** The [banks] cell of the source's [Config] is shared memory: see [Shared]. *)
Record Config := {
  cfg_network : Network; cfg_rpc_url : string;
  cfg_program_id : Pubkey; cfg_marginfi_program_id : Pubkey; cfg_marginfi_group : Pubkey;
  cfg_fee_payer_keypair : KeypairSource; cfg_fee_payer_expected_pubkey : option Pubkey;
  cfg_handlers : HandlersConfig; cfg_thresholds : ThresholdsConfig;
  cfg_priority_fee_micro_lamports : Z; cfg_compute_unit_limit : Z;
  cfg_min_signer_balance_lamports : Z; cfg_banks_refresh_interval : Duration;
  cfg_curator_keypairs_base58 : list string }.

(** ** signer.rs, rpc.rs, swb_cranker.rs, handlers/mod.rs: data *)

Record Signers := { sg_fee_payer : Keypair; sg_curators : gmap Pubkey Keypair }.

(** [rpc_has_stop]: whether [with_stop_signal] attached the process' stop flag. *)
Record Rpc := {
  rpc_priority_fee_micro_lamports : Z; rpc_compute_unit_limit : Z; rpc_has_stop : bool }.

(** A Switchboard gateway is known by its URL. *)
Record Gateway := { gw_url : string }.
Record SwbCranker := { swb_gateways : list Gateway; swb_payer : Keypair }.

(** The handle [ChainReader] is the RPC handle and the program id; its cache is
    shared memory. *)
Record ChainReader := { cr_rpc : Rpc; cr_program_id : Pubkey }.

Record HandlerContext := {
  ctx_cfg : Config; ctx_rpc : Rpc; ctx_chain : ChainReader; ctx_signers : Signers;
  ctx_swb_cranker : option SwbCranker }.

(** ** Shared memory of the process

    Every cell is behind an [Arc] with an atomic, a mutex or a lock. The
    in-flight sets are private to one handler's task and live in [Inflight]. *)
Record Shared := mkShared {
  sh_stop : bool;
  sh_fee_payer_low : bool;
  sh_markets : option MarketCache;
  sh_banks : BankRegistry;
  sh_ata_balances : gmap Pubkey Z }.

Record Inflight := mkInflight {
  if_promoter : gset (Pubkey * Z);
  if_liquidator : gset Pubkey;
  if_claimer : gset (Pubkey * Pubkey * Z);
  if_curator : gset (Pubkey * Z);
  if_match : gset Pubkey }.
