(* ===== verification/Effects.v ===== *)
(** The effects of the crankers: a state and error monad over a world that
    holds the external environment (RPC node, gateways, clocks, other tasks),
    the shared memory, the private in-flight sets, and the trace of this
    task's external actions; and the program logic used by every component. *)

From Stdlib Require Import ZArith Lia.
From stdpp Require Import gmap strings list.
From S2P Require Import Prelude Solana State.

(** ** Results *)

(** An [anyhow::Error]: its context messages, outermost first. *)
Abbreviation Error := (list string).

(** [Ok] and [Err] are [Result]'s; [Panic] ends the process (main.rs installs a
    hook that exits on the first panic). *)
Inductive outcome (A : Type) :=
| Ok (a : A)
| Err (e : Error)
| Panic (msg : string).
Arguments Ok {A} a.
Arguments Err {A} e.
Arguments Panic {A} msg.

Definition obind {A B} (o : outcome A) (f : A -> outcome B) : outcome B :=
  match o with Ok a => f a | Err e => Err e | Panic s => Panic s end.

(** [v.context(msg)]. *)
Definition ocontext {A} (msg : string) (o : outcome A) : outcome A :=
  match o with Err e => Err (msg :: e) | _ => o end.

Definition o_of_option {A} (e : Error) (o : option A) : outcome A :=
  match o with Some a => Ok a | None => Err e end.

(** Indexing and [unwrap]: [None] panics. *)
Definition o_or_panic {A} (msg : string) (o : option A) : outcome A :=
  match o with Some a => Ok a | None => Panic msg end.

(** [for x in l { out.push(f(x)?) }]. *)
Fixpoint traverse {A B} (f : A -> outcome B) (l : list A) : outcome (list B) :=
  match l with
  | [] => Ok []
  | x :: l' => obind (f x) (fun y => obind (traverse f l') (fun ys => Ok (y :: ys)))
  end.

Definition is_panic {A} (o : outcome A) : bool :=
  match o with Panic _ => true | _ => false end.

Notation "'let?' x ':=' o 'in' k" := (obind o (fun x => k))
  (at level 10, x pattern, o at level 100, k at level 200) : crank_scope.
Open Scope crank_scope.

(** ** External actions *)

Inductive ReadCall :=
| RdAccount (p : Pubkey)
| RdMultiple (ps : list Pubkey)
| RdProgramAccounts (pid : Pubkey) (filters : list RpcFilterType)
| RdBlockhash
| RdBalance (p : Pubkey)
| RdSlot.

Inductive Event :=
| EvRead (c : ReadCall)
| EvStatus (sigs : list Signature) (r : ClientError + list bool)
| EvSimulate (m : Message) (r : ClientError + SimValue)
| EvSubmit (tx : Transaction) (r : ClientError + Signature)
| EvGateway (g : Gateway) (feeds : list Pubkey)
    (r : string + (list Instruction * list Lut))
| EvCounter (name : string) (labels : list (string * string))
| EvHistogram (name : string) (labels : list (string * string))
| EvGauge (name : string) (labels : list (string * string))
| EvSleep (d : Duration).

(** The environment of a task. [X] is its state; no law is assumed here, so
    every theorem over an arbitrary [Env] holds whatever the node answers and
    whatever the other tasks do ([interfere] runs before each access to the
    shared memory). *)
Class Env (X : Type) := {
  cl_get_account : Pubkey -> X -> (ClientError + Account) * X;
  cl_get_multiple_accounts : list Pubkey -> X -> (ClientError + list (option Account)) * X;
  cl_get_program_accounts :
    Pubkey -> list RpcFilterType -> X -> (ClientError + list (Pubkey * Account)) * X;
  (* one entry per signature; [true] when a status is known *)
  cl_get_signature_statuses : list Signature -> X -> (ClientError + list bool) * X;
  cl_get_latest_blockhash : X -> (ClientError + Blockhash) * X;
  cl_send_and_confirm : Transaction -> X -> (ClientError + Signature) * X;
  cl_simulate : Message -> X -> (ClientError + SimValue) * X;
  cl_get_balance : Pubkey -> X -> (ClientError + Z) * X;
  cl_get_slot : X -> (ClientError + Z) * X;
  gw_fetch_update :
    Gateway -> list Pubkey -> Pubkey -> X -> (string + (list Instruction * list Lut)) * X;
  instant_now : X -> Instant * X;
  (* seconds since the epoch, [None] before it *)
  system_now : X -> option Z * X;
  do_sleep : Duration -> X -> X;
  (* completion order of [n] spawned tasks *)
  join_order : nat -> X -> list nat * X;
  interfere : X -> Shared -> X * Shared
}.

Record World (X : Type) := mkWorld {
  ext : X; shared : Shared; inflight : Inflight; trace : list Event }.
Arguments mkWorld {X} _ _ _ _.
Arguments ext {X} _.
Arguments shared {X} _.
Arguments inflight {X} _.
Arguments trace {X} _.

Section monad.
Context {X : Type}.

Definition M (A : Type) : Type := World X -> outcome A * World X.

Definition ret {A} (a : A) : M A := fun w => (Ok a, w).
Definition throw {A} (e : Error) : M A := fun w => (Err e, w).
Definition panic {A} (msg : string) : M A := fun w => (Panic msg, w).

Definition bind {A B} (m : M A) (f : A -> M B) : M B := fun w =>
  match m w with
  | (Ok a, w') => f a w'
  | (Err e, w') => (Err e, w')
  | (Panic s, w') => (Panic s, w')
  end.

(** [match m { Ok(a) => .., Err(e) => .. }]: the error becomes a value. *)
Definition attempt {A} (m : M A) : M (Error + A) := fun w =>
  match m w with
  | (Ok a, w') => (Ok (inr a), w')
  | (Err e, w') => (Ok (inl e), w')
  | (Panic s, w') => (Panic s, w')
  end.

Definition with_context {A} (msg : string) (m : M A) : M A := fun w =>
  match m w with (o, w') => (ocontext msg o, w') end.

Definition lift {A} (o : outcome A) : M A := fun w => (o, w).

(** [for x in l { .. }] with the loop's accumulator threaded. *)
Fixpoint for_fold {A B} (l : list A) (b : B) (body : B -> A -> M B) : M B :=
  match l with
  | [] => ret b
  | x :: l' => bind (body b x) (fun b' => for_fold l' b' body)
  end.

(** Append to the trace. *)
Definition emit (e : Event) : M unit := fun w =>
  (Ok tt, mkWorld (ext w) (shared w) (inflight w) (trace w ++ [e])).

(** An external call: runs in the environment and is recorded. *)
Definition call {A} (f : X -> A * X) (ev : A -> list Event) : M A := fun w =>
  let '(a, x') := f (ext w) in
  (Ok a, mkWorld x' (shared w) (inflight w) (trace w ++ ev a)).

Definition get_inflight : M Inflight := fun w => (Ok (inflight w), w).
Definition put_inflight (i : Inflight) : M unit := fun w =>
  (Ok tt, mkWorld (ext w) (shared w) i (trace w)).
End monad.

Arguments M X A : clear implicits.

Notation "'let!' x ':=' m 'in' k" := (bind m (fun x => k))
  (at level 10, x pattern, m at level 100, k at level 200) : crank_scope.
Notation "m ;; k" := (bind m (fun _ => k))
  (at level 100, right associativity) : crank_scope.

(** ** Client calls *)

Section client.
Context {X : Type} `{!Env X}.

(** [r?] on a client result: the client error becomes an anyhow error. *)
Definition try_client {A} (r : ClientError + A) : M X A :=
  match r with inl e => throw (ce_chain e) | inr a => ret a end.

Definition read_call {A} (c : ReadCall) (f : X -> (ClientError + A) * X) :
  M X (ClientError + A) := call f (fun _ => [EvRead c]).

Definition get_account p := read_call (RdAccount p) (cl_get_account p).
Definition get_multiple_accounts ps :=
  read_call (RdMultiple ps) (cl_get_multiple_accounts ps).
Definition get_program_accounts_with_config pid fs :=
  read_call (RdProgramAccounts pid fs) (cl_get_program_accounts pid fs).
Definition get_signature_statuses sigs : M X (ClientError + list bool) :=
  call (cl_get_signature_statuses sigs) (fun r => [EvStatus sigs r]).
Definition get_latest_blockhash := read_call RdBlockhash cl_get_latest_blockhash.
Definition get_balance p := read_call (RdBalance p) (cl_get_balance p).
Definition get_slot := read_call RdSlot cl_get_slot.

Definition send_and_confirm_transaction (tx : Transaction) : M X (ClientError + Signature) :=
  call (cl_send_and_confirm tx) (fun r => [EvSubmit tx r]).
Definition simulate_transaction_with_config (m : Message) : M X (ClientError + SimValue) :=
  call (cl_simulate m) (fun r => [EvSimulate m r]).

Definition gateway_fetch g feeds payer :=
  call (gw_fetch_update g feeds payer) (fun r => [EvGateway g feeds r]).

Definition now_instant : M X Instant := call instant_now (fun _ => []).
Definition now_system : M X (option Z) := call system_now (fun _ => []).
Definition sleep (d : Duration) : M X unit :=
  call (fun x => (tt, do_sleep d x)) (fun _ => [EvSleep d]).
Definition joined_tasks (n : nat) : M X (list nat) := call (join_order n) (fun _ => []).

(** One atomic access to the shared memory, after whatever the other tasks
    did to it. *)
Definition shared_op {A} (f : Shared -> A * Shared) : M X A := fun w =>
  let '(x', s') := interfere (ext w) (shared w) in
  let '(a, s'') := f s' in
  (Ok a, mkWorld x' s'' (inflight w) (trace w)).

(** The same, when the clock is read while the lock is held. *)
Definition shared_op_at {A} (f : Instant -> Shared -> A * Shared) : M X A := fun w =>
  let '(x1, s1) := interfere (ext w) (shared w) in
  let '(now, x2) := instant_now x1 in
  let '(a, s2) := f now s1 in
  (Ok a, mkWorld x2 s2 (inflight w) (trace w)).

Definition load_stop : M X bool := shared_op (fun s => (sh_stop s, s)).
Definition load_fee_payer_low : M X bool := shared_op (fun s => (sh_fee_payer_low s, s)).
Definition store_fee_payer_low (b : bool) : M X unit :=
  shared_op (fun s => (tt, mkShared (sh_stop s) b (sh_markets s) (sh_banks s)
                             (sh_ata_balances s))).
Definition store_ata_balances (m : gmap Pubkey Z) : M X unit :=
  shared_op (fun s => (tt, mkShared (sh_stop s) (sh_fee_payer_low s) (sh_markets s)
                             (sh_banks s) m)).
End client.

(** ** In-flight sets *)

(** A handler's private set of keys, as a lens into [Inflight]. *)
Record KeySet (K : Type) `{Countable K} := {
  ks_get : Inflight -> gset K;
  ks_put : gset K -> Inflight -> Inflight;
  ks_get_put : forall s i, ks_get (ks_put s i) = s;
  ks_put_get : forall i, ks_put (ks_get i) i = i;
  ks_put_put : forall s s' i, ks_put s (ks_put s' i) = ks_put s i }.
Arguments ks_get {K _ _} _ _.
Arguments ks_put {K _ _} _ _ _.
Arguments ks_get_put {K _ _} _ _ _.
Arguments ks_put_get {K _ _} _ _.
Arguments ks_put_put {K _ _} _ _ _ _.

Section keysets.
Context {X : Type} {K : Type} `{Countable K}.

(** [HashSet::insert]: whether the key was new. *)
Definition set_insert (L : KeySet K) (k : K) : M X bool :=
  let! i := get_inflight in
  put_inflight (ks_put L ({[k]} ∪ ks_get L i) i) ;;
  ret (bool_decide (k ∉ ks_get L i)).

(** [HashSet::remove]. *)
Definition set_remove (L : KeySet K) (k : K) : M X unit :=
  let! i := get_inflight in
  put_inflight (ks_put L (ks_get L i ∖ {[k]}) i).
End keysets.
