(* ===== verification/Logic.v ===== *)
(** The program logic of [Effects]: a weakest precondition over the events a
    computation appends to the trace, and [keeps], the judgement that a
    computation respects a relation composed along its run. *)

From Stdlib Require Import ZArith Lia.
From stdpp Require Import gmap strings list.
From S2P Require Import Prelude Solana State Effects.

Lemma bind_ext {X A B} (m : M X A) (f g : A -> M X B) w :
  (forall a w', f a w' = g a w') -> bind m f w = bind m g w.
Proof. intros H. unfold bind. by destruct (m w) as [[a|e|s] w']. Qed.

Section wp.
Context {X : Type}.

(** From [w], [m] appends some events [tr], and [Q] holds of them, of the
    outcome and of the final world. *)
Definition wp {A} (m : M X A) (Q : list Event -> outcome A -> World X -> Prop)
  (w : World X) : Prop :=
  exists tr, trace (m w).2 = trace w ++ tr /\ Q tr (m w).1 (m w).2.

Lemma wp_mono {A} (m : M X A) (Q Q' : list Event -> outcome A -> World X -> Prop) w :
  wp m Q w -> (forall tr r w', Q tr r w' -> Q' tr r w') -> wp m Q' w.
Proof. intros (tr & E & HQ) Himp. exists tr. eauto. Qed.

Lemma wp_ret {A} (a : A) (Q : list Event -> outcome A -> World X -> Prop) w :
  Q [] (Ok a) w -> wp (ret a) Q w.
Proof. intros HQ. exists []. by rewrite app_nil_r. Qed.

Lemma wp_throw {A} e (Q : list Event -> outcome A -> World X -> Prop) w :
  Q [] (Err e) w -> wp (throw e) Q w.
Proof. intros HQ. exists []. by rewrite app_nil_r. Qed.

Lemma wp_panic {A} s (Q : list Event -> outcome A -> World X -> Prop) w :
  Q [] (Panic s) w -> wp (panic s) Q w.
Proof. intros HQ. exists []. by rewrite app_nil_r. Qed.

Lemma wp_lift {A} o (Q : list Event -> outcome A -> World X -> Prop) w :
  Q [] o w -> wp (lift o) Q w.
Proof. intros HQ. exists []. by rewrite app_nil_r. Qed.

Lemma wp_bind {A B} (m : M X A) (f : A -> M X B) Q w :
  wp m (fun tr1 r1 w1 =>
    match r1 with
    | Ok a => wp (f a) (fun tr2 r2 w2 => Q (tr1 ++ tr2) r2 w2) w1
    | Err e => Q tr1 (Err e) w1
    | Panic s => Q tr1 (Panic s) w1
    end) w ->
  wp (bind m f) Q w.
Proof.
  intros (tr1 & E1 & H1). unfold wp, bind.
  destruct (m w) as [[a|e|s] w1]; simpl in *; [|by exists tr1..].
  destruct H1 as (tr2 & E2 & H2). exists (tr1 ++ tr2).
  by rewrite E2, E1, (assoc_L (++)).
Qed.

Lemma wp_attempt {A} (m : M X A) Q w :
  wp m (fun tr r w' =>
    match r with
    | Ok a => Q tr (Ok (inr a)) w'
    | Err e => Q tr (Ok (inl e)) w'
    | Panic s => Q tr (Panic s) w'
    end) w ->
  wp (attempt m) Q w.
Proof.
  intros (tr & E & H). unfold wp, attempt.
  destruct (m w) as [[a|e|s] w1]; by exists tr.
Qed.

Lemma wp_with_context {A} msg (m : M X A) Q w :
  wp m (fun tr r w' => Q tr (ocontext msg r) w') w -> wp (with_context msg m) Q w.
Proof.
  intros (tr & E & H). unfold wp, with_context.
  destruct (m w) as [o w1]; by exists tr.
Qed.

Lemma wp_emit e (Q : list Event -> outcome unit -> World X -> Prop) w :
  Q [e] (Ok tt) (mkWorld (ext w) (shared w) (inflight w) (trace w ++ [e])) ->
  wp (emit e) Q w.
Proof. intros HQ. by exists [e]. Qed.

(** Whatever the environment answers. *)
Lemma wp_call {A} (f : X -> A * X) ev (Q : list Event -> outcome A -> World X -> Prop) w :
  (forall a x', f (ext w) = (a, x') ->
     Q (ev a) (Ok a) (mkWorld x' (shared w) (inflight w) (trace w ++ ev a))) ->
  wp (call f ev) Q w.
Proof.
  intros HQ. unfold wp, call. destruct (f (ext w)) as [a x'] eqn:E.
  exists (ev a). split; [done|]. by apply HQ.
Qed.

Lemma wp_get_inflight (Q : list Event -> outcome Inflight -> World X -> Prop) w :
  Q [] (Ok (inflight w)) w -> wp get_inflight Q w.
Proof. intros HQ. exists []. by rewrite app_nil_r. Qed.

Lemma wp_put_inflight i (Q : list Event -> outcome unit -> World X -> Prop) w :
  Q [] (Ok tt) (mkWorld (ext w) (shared w) i (trace w)) -> wp (put_inflight i) Q w.
Proof. intros HQ. exists []. by rewrite app_nil_r. Qed.

Lemma wp_shared_op `{!Env X} {A} (f : Shared -> A * Shared)
  (Q : list Event -> outcome A -> World X -> Prop) w :
  (forall x' s', interfere (ext w) (shared w) = (x', s') ->
     Q [] (Ok (f s').1) (mkWorld x' (f s').2 (inflight w) (trace w))) ->
  wp (shared_op f) Q w.
Proof.
  intros HQ. unfold wp, shared_op. destruct (interfere _ _) as [x' s'] eqn:E.
  specialize (HQ _ _ eq_refl). destruct (f s') as [a s'']. exists [].
  by rewrite app_nil_r.
Qed.

Lemma wp_shared_op_at `{!Env X} {A} (f : Instant -> Shared -> A * Shared)
  (Q : list Event -> outcome A -> World X -> Prop) w :
  (forall x1 s1 now x2, interfere (ext w) (shared w) = (x1, s1) -> instant_now x1 = (now, x2) ->
     Q [] (Ok (f now s1).1) (mkWorld x2 (f now s1).2 (inflight w) (trace w))) ->
  wp (shared_op_at f) Q w.
Proof.
  intros HQ. unfold wp, shared_op_at. destruct (interfere _ _) as [x1 s1] eqn:E1.
  destruct (instant_now x1) as [now x2] eqn:E2. specialize (HQ _ _ _ _ eq_refl E2).
  destruct (f now s1) as [a s2]. exists []. by rewrite app_nil_r.
Qed.

Lemma wp_try_client `{!Env X} {A} (r : ClientError + A)
  (Q : list Event -> outcome A -> World X -> Prop) w :
  match r with inl e => Q [] (Err (ce_chain e)) w | inr a => Q [] (Ok a) w end ->
  wp (try_client r) Q w.
Proof. destruct r; [apply wp_throw|apply wp_ret]. Qed.

(** The events of a run are determined. *)
Lemma wp_and {A} (m : M X A) (Q Q' : list Event -> outcome A -> World X -> Prop) w :
  wp m Q w -> wp m Q' w -> wp m (fun tr r w' => Q tr r w' /\ Q' tr r w') w.
Proof.
  intros (tr & E & H) (tr' & E' & H'). rewrite E in E'. simplify_eq. by exists tr'.
Qed.

(** The run itself, from a [wp]. *)
Lemma wp_run {A} (m : M X A) Q w r w' :
  wp m Q w -> m w = (r, w') -> exists tr, trace w' = trace w ++ tr /\ Q tr r w'.
Proof. intros (tr & E & HQ) Hm. rewrite Hm in *. eauto. Qed.

(** Loops with the same bodies on their list run alike. *)
Lemma wp_for_fold_ext {A B} (body body' : B -> A -> M X B) l b Q w :
  (forall b x, x ∈ l -> body b x = body' b x) -> wp (for_fold l b body') Q w -> wp (for_fold l b body) Q w.
Proof.
  intros Hb. assert (E : for_fold l b body w = for_fold l b body' w).
  { revert b w. induction l as [|x l IH]; intros b w; [done|]. cbn [for_fold].
    rewrite Hb by set_solver. apply bind_ext. intros b' w'. apply IH. set_solver. }
  unfold wp. by rewrite E.
Qed.
End wp.

(** ** Relations kept along a run *)

(** A relation on runs (initial world, events, whether the run panicked, final
    world) that holds of the empty run and composes. *)
Class Composable {X} (R : World X -> list Event -> bool -> World X -> Prop) : Prop := {
  comp_refl : forall w p, R w [] p w;
  comp_trans : forall w1 t1 w2 t2 p w3,
    R w1 t1 false w2 -> R w2 t2 p w3 -> R w1 (t1 ++ t2) p w3 }.

Definition keeps {X A} (R : World X -> list Event -> bool -> World X -> Prop)
  (m : M X A) : Prop :=
  forall w, wp m (fun tr r w' => R w tr (is_panic r) w') w.

Section keeps.
Context {X : Type} (R : World X -> list Event -> bool -> World X -> Prop) `{!Composable R}.

Lemma keeps_ret {A} (a : A) : keeps R (ret a).
Proof. intros w. apply wp_ret, comp_refl. Qed.

Lemma keeps_throw {A} e : keeps R (@throw X A e).
Proof. intros w. apply wp_throw, comp_refl. Qed.

Lemma keeps_panic {A} s : keeps R (@panic X A s).
Proof. intros w. apply wp_panic, comp_refl. Qed.

Lemma keeps_lift {A} (o : outcome A) : keeps R (@lift X A o).
Proof. intros w. apply wp_lift, comp_refl. Qed.

Lemma keeps_bind {A B} (m : M X A) (f : A -> M X B) :
  keeps R m -> (forall a, keeps R (f a)) -> keeps R (bind m f).
Proof.
  intros Hm Hf w. apply wp_bind. eapply wp_mono; [apply Hm|].
  intros tr [a|e|s] w1 H1; [|done..]. eapply wp_mono; [apply Hf|].
  intros tr2 r2 w2 H2. by eapply comp_trans.
Qed.

(** The value of a pure step is known after it. *)
Lemma keeps_bind_lift {A B} (o : outcome A) (f : A -> M X B) :
  (forall a, o = Ok a -> keeps R (f a)) -> keeps R (bind (lift o) f).
Proof.
  intros Hf w. apply wp_bind, wp_lift. destruct o as [a|e|s]; [|apply comp_refl..].
  by apply Hf.
Qed.

(** A step whose value is known to satisfy [V] after it. *)
Lemma keeps_bind_val {A B} (V : A -> Prop) (m : M X A) (f : A -> M X B) :
  (forall w, wp m (fun tr r w' => R w tr (is_panic r) w' /\
     match r with Ok a => V a | _ => True end) w) ->
  (forall a, V a -> keeps R (f a)) -> keeps R (bind m f).
Proof.
  intros Hm Hf w. apply wp_bind. eapply wp_mono; [apply Hm|].
  intros tr [a|e|s] w1 [H1 HV]; [|done..]. eapply wp_mono; [by apply Hf|].
  intros tr2 r2 w2 H2. by eapply comp_trans.
Qed.

Lemma keeps_attempt {A} (m : M X A) : keeps R m -> keeps R (attempt m).
Proof.
  intros Hm w. apply wp_attempt. eapply wp_mono; [apply Hm|]. by intros tr [] w'.
Qed.

Lemma keeps_with_context {A} msg (m : M X A) : keeps R m -> keeps R (with_context msg m).
Proof.
  intros Hm w. apply wp_with_context. eapply wp_mono; [apply Hm|]. by intros tr [] w'.
Qed.

Lemma keeps_for_fold {A B} (l : list A) (b : B) body :
  (forall b x, x ∈ l -> keeps R (body b x)) -> keeps R (@for_fold X A B l b body).
Proof.
  revert b. induction l as [|x l IH]; intros b Hb; simpl; [apply keeps_ret|].
  apply keeps_bind; [apply Hb; set_solver|]. intros b'. apply IH. set_solver.
Qed.

Lemma keeps_try_client `{!Env X} {A} (r : ClientError + A) : keeps R (try_client r).
Proof. destruct r; [apply keeps_throw|apply keeps_ret]. Qed.
End keeps.

(** Relations that only read the events, or only the in-flight sets. A panic
    ends the process, so it owes nothing to the in-flight sets. *)
Definition on_trace {X} (G : list Event -> Prop) :
  World X -> list Event -> bool -> World X -> Prop := fun _ tr _ _ => G tr.
Definition same_inflight {X} : World X -> list Event -> bool -> World X -> Prop :=
  fun w _ p w' => p = false -> inflight w' = inflight w.

Class TraceMonoid (G : list Event -> Prop) : Prop := {
  tm_nil : G [];
  tm_app : forall t1 t2, G t1 -> G t2 -> G (t1 ++ t2) }.

#[export] Instance on_trace_composable {X} G `{!TraceMonoid G} :
  Composable (@on_trace X G).
Proof. split; unfold on_trace; intros; [apply tm_nil|by apply tm_app]. Qed.

#[export] Instance same_inflight_composable {X} : Composable (@same_inflight X).
Proof.
  split; unfold same_inflight; [done|]. intros w1 t1 w2 t2 p w3 H1 H2 ->.
  rewrite H2, H1; done.
Qed.

(** A property of each event separately. *)
#[export] Instance Forall_trace_monoid (P : Event -> Prop) : TraceMonoid (Forall P).
Proof. split; [constructor|]. intros. by apply Forall_app. Qed.

(** Structural automation: one step of a [keeps] goal. *)
Ltac keeps_step :=
  match goal with
  | |- forall _, _ => intro
  | |- keeps _ (ret _) => apply keeps_ret; apply _
  | |- keeps _ (throw _) => apply keeps_throw; apply _
  | |- keeps _ (panic _) => apply keeps_panic; apply _
  | |- keeps _ (lift _) => apply keeps_lift; apply _
  | |- keeps _ (bind (lift _) _) => apply keeps_bind_lift; [apply _|]
  | |- keeps _ (bind _ _) => apply keeps_bind; [apply _| |]
  | |- keeps _ (attempt _) => apply keeps_attempt
  | |- keeps _ (with_context _ _) => apply keeps_with_context
  | |- keeps _ (for_fold _ _ _) => apply keeps_for_fold; [apply _|]
  | |- keeps _ (try_client _) => apply keeps_try_client; apply _
  | |- keeps _ (match ?x with _ => _ end) => destruct x eqn:?
  end.

(** The goals left by the structure are closed from the [crank] hints. *)
Ltac keeps_go := repeat (keeps_step || (progress (eauto 3 with crank))).

(** One step of a [wp] goal. *)
Ltac wp_step0 :=
  match goal with
  | |- wp (ret _) _ _ => apply wp_ret
  | |- wp (throw _) _ _ => apply wp_throw
  | |- wp (panic _) _ _ => apply wp_panic
  | |- wp (lift _) _ _ => apply wp_lift
  | |- wp (bind _ _) _ _ => apply wp_bind
  | |- wp (attempt _) _ _ => apply wp_attempt
  | |- wp (with_context _ _) _ _ => apply wp_with_context
  | |- wp (emit _) _ _ => apply wp_emit
  | |- wp (call _ _) _ _ => apply wp_call; intros
  | |- wp get_inflight _ _ => apply wp_get_inflight
  | |- wp (put_inflight _) _ _ => apply wp_put_inflight
  | |- wp (shared_op _) _ _ => apply wp_shared_op; intros
  | |- wp (shared_op_at _) _ _ => apply wp_shared_op_at; intros
  | |- wp (try_client ?r) _ _ => apply wp_try_client; destruct r
  | |- wp (match ?x with _ => _ end) _ _ => destruct x eqn:?
  end.

Ltac wp_step := wp_step0; cbn beta iota delta [ocontext obind o_of_option o_or_panic app].

(** ** In-flight sections *)

Section inflight_sections.
Context {X : Type} {K : Type} `{Countable K} (L : KeySet K).

Lemma wp_set_insert k (Q : list Event -> outcome bool -> World X -> Prop) w :
  Q [] (Ok (bool_decide (k ∉ ks_get L (inflight w))))
    (mkWorld (ext w) (shared w) (ks_put L ({[k]} ∪ ks_get L (inflight w)) (inflight w)) (trace w)) ->
  wp (set_insert L k) Q w.
Proof. intros HQ. exists []. by rewrite app_nil_r. Qed.

Lemma wp_set_remove k (Q : list Event -> outcome unit -> World X -> Prop) w :
  Q [] (Ok tt)
    (mkWorld (ext w) (shared w) (ks_put L (ks_get L (inflight w) ∖ {[k]}) (inflight w)) (trace w)) ->
  wp (set_remove L k) Q w.
Proof. intros HQ. exists []. by rewrite app_nil_r. Qed.

Lemma keeps_set_insert_trace G `{!TraceMonoid G} k : keeps (@on_trace X G) (set_insert L k).
Proof. intros w. apply wp_set_insert, tm_nil. Qed.

Lemma keeps_set_remove_trace G `{!TraceMonoid G} k : keeps (@on_trace X G) (set_remove L k).
Proof. intros w. apply wp_set_remove, tm_nil. Qed.

(** Claim, run, release: on every path that does not end the process the
    set is back where it was. *)
Lemma keeps_claim_release {A B} k (skip : M X B) (body : M X A) (rest : Error + A -> M X B) :
  keeps same_inflight skip -> keeps same_inflight body ->
  (forall r, keeps same_inflight (rest r)) ->
  keeps same_inflight
    (let! fresh := set_insert L k in
     if negb fresh then skip
     else let! res := attempt body in
          set_remove L k ;; rest res).
Proof.
  intros Hskip Hbody Hrest w. apply wp_bind, wp_set_insert. case_bool_decide as Hk; simpl.
  - apply wp_bind, wp_attempt.
    set (w1 := mkWorld _ _ _ _). eapply wp_mono; [apply Hbody|].
    assert (Hback : forall w2 : World X, inflight w2 = inflight w1 ->
      ks_put L (ks_get L (inflight w2) ∖ {[k]}) (inflight w2) = inflight w).
    { intros w2 ->. unfold w1. simpl. rewrite ks_get_put, ks_put_put.
      rewrite <-(ks_put_get L (inflight w)) at 3. f_equal. set_solver. }
    intros tr [a|e|s] w2 H2; [| |by intros ?];
      apply wp_bind, wp_set_remove; rewrite Hback by (by apply H2);
      (eapply wp_mono; [apply Hrest|]); intros ? r ? H3 Hp; by rewrite H3.
  - assert (Hsame : ks_put L ({[k]} ∪ ks_get L (inflight w)) (inflight w) = inflight w).
    { rewrite <-(ks_put_get L (inflight w)) at 3. f_equal. set_solver. }
    rewrite Hsame. eapply wp_mono; [apply Hskip|]. intros ? r ? H3 Hp. by rewrite H3.
Qed.
End inflight_sections.

#[export] Hint Extern 1 (TraceMonoid _) => apply _ : crank.
#[export] Hint Resolve keeps_set_insert_trace keeps_set_remove_trace : crank.
