(* ===== verification/Rpc.v ===== *)
(** rpc.rs: the RPC wrapper. Simulation, the two submit paths with their
    retry policy, single and batched account reads, and the compute-budget
    preamble. *)

From Stdlib Require Import ZArith Lia.
From stdpp Require Import gmap strings list pretty.
From S2P Require Import Prelude Solana State Effects Logic.

Local Open Scope crank_scope.

(** ** Definitions *)

Definition V0_COMPUTE_UNIT_LIMIT : Z := 1400000.

(** Prometheus metric names of metrics.rs used on the send path. *)
Definition M_IXS_SUBMITTED : string := "ydelta_cranker_ixs_submitted_total".
Definition M_IX_LATENCY : string := "ydelta_cranker_ix_latency_seconds".

Record SimulationResult := mkSimResult {
  sim_ok : bool; sim_error : option string; sim_logs : list string }.

(** Classify safe-to-retry errors. *)
Definition is_transient (e : ClientError) : bool :=
  match ce_kind e with
  | CeIo | CeReqwest => true
  | CeRpc rpc_err =>
      match rpc_err with
      | ForUser msg => str_contains msg "Blockhash not found"
      | RpcResponseError code => ((-32099 <=? code) && (code <=? -32000))%Z
      | RpcErrorOther => false
      end
  | CeOther => false
  end.

Definition Rpc_new (priority_fee_micro_lamports compute_unit_limit : Z) : Rpc :=
  {| rpc_priority_fee_micro_lamports := priority_fee_micro_lamports;
     rpc_compute_unit_limit := compute_unit_limit;
     rpc_has_stop := false |}.

Definition with_stop_signal (rpc : Rpc) : Rpc :=
  {| rpc_priority_fee_micro_lamports := rpc_priority_fee_micro_lamports rpc;
     rpc_compute_unit_limit := rpc_compute_unit_limit rpc;
     rpc_has_stop := true |}.

(** [addresses.chunks(n)]. *)
Fixpoint chunks_fuel {A} (fuel n : nat) (l : list A) : list (list A) :=
  match fuel, l with
  | _, [] => []
  | O, _ => []
  | S fuel', _ => take n l :: chunks_fuel fuel' n (drop n l)
  end.
Definition chunks {A} (n : nat) (l : list A) : list (list A) := chunks_fuel (length l) n l.

(** [out[i] = a], which panics out of range. *)
Definition write_at {A} (out : list A) (i : nat) (a : A) : outcome (list A) :=
  if decide (i < length out)%nat then Ok (<[i := a]> out) else Panic "index out of bounds".

Section rpc.
Context {X : Type} `{!Env X} {CR : Crates}.
Implicit Types rpc : Rpc.

(** A loop whose body either continues with a new state or returns. *)
Fixpoint loop_ret {A S R} (l : list A) (s : S) (body : S -> A -> M X (S + R))
  (after : M X R) : M X R :=
  match l with
  | [] => after
  | a :: l' =>
      let! o := body s a in
      match o with
      | inl s' => loop_ret l' s' body after
      | inr r => ret r
      end
  end.

Definition stopped rpc : M X bool :=
  if rpc_has_stop rpc then load_stop else ret false.

Definition priority_fee_preamble rpc (cu_limit : Z) : list Instruction :=
  set_compute_unit_limit cu_limit ::
  (if (rpc_priority_fee_micro_lamports rpc >? 0)%Z
   then [set_compute_unit_price (rpc_priority_fee_micro_lamports rpc)] else []).

(** *** Account reads *)

Definition CHUNK_SIZE : nat := 100.

(** The loop over the joined tasks. *)
Definition store_chunk (out : list (option Account)) (idx : nat)
  (accounts : list (option Account)) : outcome (list (option Account)) :=
  let base := (idx * CHUNK_SIZE)%nat in
  foldl (fun o ja => let? out := o in write_at out (base + ja.1) ja.2)
    (Ok out) (zip (seq 0 (length accounts)) accounts).

Definition batch_get_multiple_accounts (addresses : list Pubkey) :
  M X (list (option Account)) :=
  match addresses with
  | [] => ret []
  | _ =>
      let chunks := chunks CHUNK_SIZE addresses in
      let output := replicate (length addresses) None in
      let! order := joined_tasks (length chunks) in
      for_fold order output (fun output idx =>
        let! accounts :=
          with_context ("batch_get_multiple_accounts chunk " +:+ pretty idx)
            (let! r := get_multiple_accounts (default [] (chunks !! idx)) in try_client r) in
        lift (store_chunk output idx accounts))
  end.

Definition get_account_data (pk : Pubkey) : M X (option bytes) :=
  let! r := get_account pk in
  match r with
  | inr acct => if decide (acct_data acct = []) then ret None else ret (Some (acct_data acct))
  | inl e =>
      if str_contains (ce_display e) "AccountNotFound" then ret None else throw (ce_chain e)
  end.

(** *** Submission *)

(** The retry loop, shared by the legacy and the v0 path, which differ in how
    they build the signed transaction from a fresh blockhash. *)
Definition send_attempt rpc (build : Blockhash -> M X Transaction)
  (last_sig : option Signature) (attempt : nat) : M X (option Signature + Signature) :=
  let! st := stopped rpc in
  if st : bool then throw ["shutdown signal received before send attempt"]
  else
    let! landed :=
      match last_sig with
      | None => ret None
      | Some prev =>
          let! r := get_signature_statuses [prev] in
          match r with
          | inr (true :: _) => ret (Some prev)
          | _ => ret None
          end
      end in
    match landed with
    | Some prev => ret (inr prev)
    | None =>
        let! blockhash :=
          with_context "get_latest_blockhash"
            (let! r := get_latest_blockhash in try_client r) in
        let! tx := build blockhash in
        let! sig := lift (o_of_option ["tx has no signature"] (head (tx_signatures tx))) in
        let! r := send_and_confirm_transaction tx in
        match r with
        | inr sig => ret (inr sig)
        | inl e =>
            if negb (is_transient e) || (attempt =? 2)%nat
            then throw ["send_and_confirm_transaction: " +:+ ce_display e]
            else sleep (from_millis 500) ;; ret (inl (Some sig))
        end
    end.

Definition send_attempts rpc (build : Blockhash -> M X Transaction) : M X Signature :=
  loop_ret [0; 1; 2]%nat None (send_attempt rpc build)
    (panic "internal error: entered unreachable code").

(** [Transaction::new_signed_with_payer]. *)
Definition build_legacy (all_ixs : list Instruction) (signers : list Keypair)
  (fee_payer : Keypair) (blockhash : Blockhash) : M X Transaction :=
  let m := mkMessage (keypair_pubkey fee_payer) all_ixs [] blockhash in
  let! sigs := lift (o_or_panic "Transaction::sign failed" (sign_legacy m signers)) in
  ret (mkTx m sigs).

(** [v0::Message::try_compile] then [VersionedTransaction::try_new]. *)
Definition build_v0 (all_ixs : list Instruction) (luts : list Lut)
  (signers : list Keypair) (fee_payer : Keypair) (blockhash : Blockhash) : M X Transaction :=
  let m := mkMessage (keypair_pubkey fee_payer) all_ixs luts blockhash in
  match v0_compile_error m with
  | Some e => throw ["v0::Message::try_compile"; e]
  | None =>
      match sign_v0 m signers with
      | inl e => throw ["VersionedTransaction::try_new"; e]
      | inr sigs => ret (mkTx m sigs)
      end
  end.

Definition send_with_retry rpc (all_ixs : list Instruction) (signers : list Keypair)
  (fee_payer : Keypair) : M X Signature :=
  send_attempts rpc (build_legacy all_ixs signers fee_payer).

Definition send_v0_with_retry rpc (all_ixs : list Instruction) (luts : list Lut)
  (signers : list Keypair) (fee_payer : Keypair) : M X Signature :=
  send_attempts rpc (build_v0 all_ixs luts signers fee_payer).

Definition is_ok {A} (r : Error + A) : bool :=
  match r with inl _ => false | inr _ => true end.

(** The counter and the latency histogram of one submission. *)
Definition record_submission (ix_label : string) (ok : bool) : M X unit :=
  let labels := [("ix", ix_label); ("outcome", if ok then "ok" else "err")]%string in
  emit (EvCounter M_IXS_SUBMITTED labels) ;;
  emit (EvHistogram M_IX_LATENCY labels).

Definition return_result {A} (r : Error + A) : M X A :=
  lift (match r with inl e => Err e | inr a => Ok a end).

Definition send_signed_labeled rpc (ix_label : string) (ixs : list Instruction)
  (signers : list Keypair) : M X Signature :=
  match signers with
  | [] => throw ["send_signed: no signers"]
  | fee_payer :: _ =>
      let all_ixs := priority_fee_preamble rpc (rpc_compute_unit_limit rpc) ++ ixs in
      let! result := attempt (send_with_retry rpc all_ixs signers fee_payer) in
      record_submission ix_label (is_ok result) ;;
      return_result result
  end.

Definition send_signed rpc (ixs : list Instruction) (signers : list Keypair) :
  M X Signature := send_signed_labeled rpc "untagged" ixs signers.

Definition send_signed_v0_labeled rpc (ix_label : string) (ixs : list Instruction)
  (luts : list Lut) (signers : list Keypair) : M X Signature :=
  match signers with
  | [] => throw ["send_signed_v0: no signers"]
  | fee_payer :: _ =>
      let all_ixs := priority_fee_preamble rpc V0_COMPUTE_UNIT_LIMIT ++ ixs in
      let! result := attempt (send_v0_with_retry rpc all_ixs luts signers fee_payer) in
      record_submission ix_label (is_ok result) ;;
      return_result result
  end.

(** *** Simulation *)

Definition simulate_v0 (ixs : list Instruction) (luts : list Lut) (fee_payer : Pubkey) :
  M X SimulationResult :=
  let! blockhash := (let! r := get_latest_blockhash in try_client r) in
  let m := mkMessage fee_payer ixs luts blockhash in
  match v0_compile_error m with
  | Some e => throw [e]
  | None =>
      let! result := (let! r := simulate_transaction_with_config m in try_client r) in
      ret (mkSimResult (match sv_err result with None => true | Some _ => false end)
             (sv_err result) (default [] (sv_logs result)))
  end.

Definition simulate rpc (ixs : list Instruction) (fee_payer : Pubkey) :
  M X SimulationResult :=
  simulate_v0 (priority_fee_preamble rpc (rpc_compute_unit_limit rpc) ++ ixs) [] fee_payer.
End rpc.

(** ** The retry protocol *)

(** An event that submits nothing. *)
Definition no_submit (ev : Event) : Prop :=
  match ev with EvSubmit _ _ => False | _ => True end.

Definition is_submit (ev : Event) : bool :=
  match ev with EvSubmit _ _ => true | _ => false end.

(** Closes [Forall no_submit] goals about explicit traces. *)
Ltac quiet :=
  repeat first [done | apply Forall_app_2 | apply Forall_cons_2 | apply Forall_nil_2].

(** Number of transactions handed to the node. *)
Definition submits (tr : list Event) : nat := length (List.filter is_submit tr).

(** Before it sends again, an attempt asked about the previous signature, and
    the answer was not that it landed. *)
Definition checked (last : option Signature) (pre : list Event) : Prop :=
  forall p, last = Some p ->
  exists r, EvStatus [p] r ∈ pre /\ forall l, r <> inr (true :: l).

(** A quiet end is an error, or the panic of a failed legacy signature. *)
Definition quiet_end {A} (r : outcome A) : Prop :=
  match r with Ok _ => False | Err _ => True | Panic s => s = "Transaction::sign failed" end.

(** The abstract protocol of one submission with [n] attempts left and the
    signature of the previous attempt, if any: its events and its result. [P]
    holds of every transaction it sends. *)
Inductive retry_log (P : Transaction -> Prop) :
  nat -> option Signature -> list Event -> outcome Signature -> Prop :=
| rl_quiet n last pre r :
    Forall no_submit pre -> quiet_end r -> retry_log P n last pre r
| rl_landed n s pre l :
    Forall no_submit pre -> EvStatus [s] (inr (true :: l)) ∈ pre ->
    retry_log P n (Some s) pre (Ok s)
| rl_sent n last pre tx s :
    Forall no_submit pre -> checked last pre -> P tx ->
    retry_log P (S n) last (pre ++ [EvSubmit tx (inr s)]) (Ok s)
| rl_failed n last pre tx e :
    Forall no_submit pre -> checked last pre -> P tx ->
    is_transient e = false \/ n = O ->
    retry_log P (S n) last (pre ++ [EvSubmit tx (inl e)])
      (Err ["send_and_confirm_transaction: " +:+ ce_display e])
| rl_retry n last pre tx e s tr r :
    Forall no_submit pre -> checked last pre -> P tx ->
    is_transient e = true -> head (tx_signatures tx) = Some s ->
    retry_log P (S n) (Some s) tr r ->
    retry_log P (S (S n)) last
      (pre ++ EvSubmit tx (inl e) :: EvSleep (from_millis 500) :: tr) r.

(** ** Lemmas *)

Section rpc_lemmas.
Context {X : Type} `{!Env X} {CR : Crates}.
Implicit Types rpc : Rpc.

(** A build step: no event, no change of state, [P] of what it builds. *)
Definition builds (P : Transaction -> Prop) (m : M X Transaction) : Prop :=
  forall w, wp m (fun tr r w' => tr = [] /\ w' = w /\
    match r with Ok tx => P tx | _ => quiet_end r end) w.

Lemma build_legacy_builds all_ixs signers fee_payer bh :
  builds (fun tx => tx_message tx =
            mkMessage (keypair_pubkey fee_payer) all_ixs [] bh)
    (build_legacy all_ixs signers fee_payer bh).
Proof.
  intros w. unfold build_legacy. wp_step. wp_step.
  destruct (sign_legacy _ _); simpl; [by wp_step|done].
Qed.

Lemma build_v0_builds all_ixs luts signers fee_payer bh :
  builds (fun tx => tx_message tx =
            mkMessage (keypair_pubkey fee_payer) all_ixs luts bh)
    (build_v0 all_ixs luts signers fee_payer bh).
Proof. intros w. unfold build_v0. repeat wp_step; done. Qed.

Lemma wp_stopped rpc (Q : list Event -> outcome bool -> World X -> Prop) w :
  (forall b w', inflight w' = inflight w -> trace w' = trace w -> Q [] (Ok b) w') ->
  wp (stopped rpc) Q w.
Proof. intros HQ. unfold stopped, load_stop. repeat wp_step; by apply HQ. Qed.

(** What one attempt does, by its result. *)
Definition attempt_post (P : Transaction -> Prop) (last : option Signature) (n : nat)
  (tr : list Event) (r : outcome (option Signature + Signature)) : Prop :=
  match r with
  | Ok (inl last') =>
      n <> 2%nat /\ exists pre tx e s,
        tr = pre ++ [EvSubmit tx (inl e); EvSleep (from_millis 500)] /\
        Forall no_submit pre /\ checked last pre /\ P tx /\
        is_transient e = true /\ head (tx_signatures tx) = Some s /\ last' = Some s
  | Ok (inr s) => forall m, retry_log P (S m) last tr (Ok s)
  | Err e => forall m, (m = 2 - n)%nat -> retry_log P (S m) last tr (Err e)
  | Panic s => forall m, retry_log P m last tr (Panic s)
  end.

(** The status query of an attempt. *)
Lemma status_query_spec last (w : World X) :
  wp (match last with
      | None => ret None
      | Some prev =>
          let! r := get_signature_statuses [prev] in
          match r with inr (true :: _) => ret (Some prev) | _ => ret None end
      end)
    (fun tr r w' => inflight w' = inflight w /\ Forall no_submit tr /\
       match r with
       | Ok (Some p) => last = Some p /\ exists l, EvStatus [p] (inr (true :: l)) ∈ tr
       | Ok None => checked last tr
       | _ => False
       end) w.
Proof.
  destruct last as [prev|]; [|by wp_step].
  unfold get_signature_statuses. repeat wp_step; cbn [app]; simplify_eq/=;
    (split; [done|]); (split; [quiet|]).
  all: try (intros p [= <-]; eexists; split; [by left|done]).
  split; [done|]. eexists. by left.
Qed.

Lemma send_attempt_spec P rpc build last n w :
  (forall bh, builds P (build bh)) ->
  wp (send_attempt rpc build last n)
    (fun tr r w' => inflight w' = inflight w /\ attempt_post P last n tr r) w.
Proof.
  intros Hb. unfold send_attempt. wp_step. apply wp_stopped. intros st w1 Hi Ht.
  destruct st; [wp_step; split; [done|]; intros m _; apply rl_quiet; [quiet|done]|].
  wp_step. eapply wp_mono; [apply status_query_spec|].
  intros tr [[p|]|e|s] w2 (Hi2 & Hq & H2); [| |done..].
  { wp_step. rewrite app_nil_r. split; [congruence|]. intros m.
    destruct H2 as [-> [l Hl]]. by eapply rl_landed. }
  wp_step. wp_step. wp_step. unfold get_latest_blockhash, read_call. wp_step.
  wp_step.
  { split; [simpl; congruence|]. intros m _. apply rl_quiet; [|done].
    quiet. }
  wp_step. eapply wp_mono; [apply Hb|].
  intros tr3 [tx|e|s] w3 (-> & -> & H3); cbn [app]; rewrite ?app_nil_r;
    [|(split; [simpl; congruence|]; cbn [attempt_post]; intros; apply rl_quiet;
       [quiet|done])..].
  wp_step. wp_step. destruct (head (tx_signatures tx)) as [sg|] eqn:Hs; simpl.
  2: { rewrite ?app_nil_r. split; [simpl; congruence|]. cbn [attempt_post]; intros; apply rl_quiet; [|done].
       quiet. }
  wp_step. unfold send_and_confirm_transaction. wp_step.
  assert (Hq' : Forall no_submit (tr ++ [EvRead RdBlockhash]))
    by quiet.
  assert (Hc' : checked last (tr ++ [EvRead RdBlockhash])).
  { intros q Hl. destruct (H2 q Hl) as (r & Hin & Hr). exists r. set_solver. }
  match goal with |- wp (match ?r with _ => _ end) _ _ => destruct r as [e|sg'] end.
  2: { wp_step. split; [simpl; congruence|]. intros m.
       rewrite (cons_middle _ tr), (assoc_L (++)). by apply rl_sent. }
  destruct (negb (is_transient e) || (n =? 2)%nat) eqn:Ht'.
  { wp_step. split; [simpl; congruence|]. intros m ->.
    rewrite (cons_middle _ tr), (assoc_L (++)). apply rl_failed; [done..|].
    destruct (is_transient e); [right|by left]. simpl in Ht'.
    apply Nat.eqb_eq in Ht'. by subst. }
  apply orb_false_iff in Ht' as [Htr Hn%Nat.eqb_neq]. apply negb_false_iff in Htr.
  wp_step. unfold sleep. wp_step. wp_step. split; [simpl; congruence|]. split; [done|].
  exists (tr ++ [EvRead RdBlockhash]), tx, e, sg. split_and!; try done.
  by rewrite <-(assoc_L (++)).
Qed.

Lemma send_attempts_refines P rpc build w :
  (forall bh, builds P (build bh)) ->
  wp (send_attempts rpc build)
    (fun tr r w' => inflight w' = inflight w /\ retry_log P 3 None tr r) w.
Proof.
  intros Hb. unfold send_attempts.
  assert (Hloop : forall k last w, (k <= 2)%nat ->
    wp (loop_ret (seq k (3 - k)) last (send_attempt rpc build)
          (panic "internal error: entered unreachable code"))
      (fun tr r w' => inflight w' = inflight w /\ retry_log P (3 - k) last tr r) w).
  2: { apply (Hloop 0%nat None w). lia. }
  clear w. intros k. remember (2 - k)%nat as d eqn:Hd. revert k Hd.
  induction d as [|d IH]; intros k Hd last w Hk;
    (replace (3 - k)%nat with (S (2 - k)) by lia); rewrite <-Hd; cbn [seq loop_ret].
  all: apply wp_bind; eapply wp_mono; [by apply (send_attempt_spec P)|].
  all: intros tr [[last'|sg]|e|s] w1 (Hi & H1); simpl in H1.
  all: try (wp_step; rewrite app_nil_r; split; [done|by apply H1]).
  all: try (split; [done|]; by apply H1).
  { assert (k = 2)%nat by lia. by destruct H1 as [? _]. }
  destruct H1 as (_ & pre & tx & e & sg & -> & Hq & Hc & HP & Htr & Hs & ->).
  specialize (IH (S k) ltac:(lia) (Some sg) w1 ltac:(lia)).
  replace (3 - S k)%nat with (S d) in IH by lia.
  eapply wp_mono; [exact IH|]. intros tr2 r2 w2 [Hi2 H2].
  split; [congruence|]. rewrite <-(assoc_L (++)). by eapply rl_retry.
Qed.
End rpc_lemmas.

(** ** Consequences of the protocol, by rule induction *)

Definition submit_sat (P : Transaction -> Prop) (ev : Event) : Prop :=
  match ev with EvSubmit tx _ => P tx | _ => True end.

Lemma no_submit_sat P tr : Forall no_submit tr -> Forall (submit_sat P) tr.
Proof. intros H. eapply Forall_impl; [exact H|]. by intros []. Qed.

Lemma no_submit_submits tr : Forall no_submit tr -> submits tr = 0%nat.
Proof. unfold submits. induction 1 as [|ev tr Hev _ IH]; [done|]. by destruct ev. Qed.

Lemma submits_app t1 t2 : submits (t1 ++ t2) = (submits t1 + submits t2)%nat.
Proof. unfold submits. by rewrite List.filter_app, length_app. Qed.

Lemma no_submit_not_in tr tx r : Forall no_submit tr -> ~ (EvSubmit tx r ∈ tr).
Proof. intros H Hin. rewrite Forall_forall in H. by apply (H _ Hin). Qed.

Lemma retry_log_submits P n last tr r : retry_log P n last tr r -> (submits tr <= n)%nat.
Proof.
  induction 1; rewrite ?submits_app, ?no_submit_submits by done;
    unfold submits in *; simpl; lia.
Qed.

Lemma retry_log_sat P n last tr r : retry_log P n last tr r -> Forall (submit_sat P) tr.
Proof.
  induction 1; repeat first [done | by apply no_submit_sat | apply Forall_app_2
    | apply Forall_cons_2 | apply Forall_nil_2].
Qed.

(** The result [Ok s]: the node accepted a transaction as [s], or reported the
    signature [s] of an earlier attempt as landed. *)
Definition delivered (s : Signature) (tr : list Event) : Prop :=
  (exists tx, EvSubmit tx (inr s) ∈ tr) \/ (exists l, EvStatus [s] (inr (true :: l)) ∈ tr).

Lemma retry_log_delivered P n last tr s :
  retry_log P n last tr (Ok s) -> delivered s tr.
Proof.
  remember (Ok s) as r eqn:Hr. induction 1; simplify_eq/=.
  - done.
  - right. eauto.
  - left. eexists. apply elem_of_app. right. by left.
  - destruct IHretry_log as [[tx' ?]|[l ?]]; [done|left; exists tx'|right; exists l]; set_solver.
Qed.

Lemma retry_log_panic P n last tr s :
  retry_log P n last tr (Panic s) -> s = "Transaction::sign failed".
Proof. remember (Panic s) as r eqn:Hr. induction 1; simplify_eq/=; auto. Qed.

(** Between two consecutive submissions: the first failed with a transient
    error, the task slept, and the status of the first was queried and it was
    not reported as landed. *)
Definition resend_ok (tr : list Event) : Prop :=
  forall a t1 r1 b t2 r2 c,
    tr = a ++ EvSubmit t1 r1 :: b ++ EvSubmit t2 r2 :: c -> Forall no_submit b ->
    (exists e, r1 = inl e /\ is_transient e = true) /\
    EvSleep (from_millis 500) ∈ b /\
    exists s r, head (tx_signatures t1) = Some s /\ EvStatus [s] r ∈ b /\
      forall l, r <> inr (true :: l).

(** Splitting a trace at its first submission. *)
Lemma first_submit_unique pre ev post a t r b :
  Forall no_submit pre -> ~ no_submit ev ->
  pre ++ ev :: post = a ++ EvSubmit t r :: b ->
  (a = pre /\ ev = EvSubmit t r /\ b = post) \/
  (exists a', a = pre ++ ev :: a' /\ post = a' ++ EvSubmit t r :: b).
Proof.
  intros Hpre Hev. revert a. induction pre as [|x pre IH]; intros [|y a] E; simplify_eq/=.
  - by left.
  - right. eauto.
  - by apply Forall_cons in Hpre as [? _].
  - apply Forall_cons in Hpre as [_ Hpre]. destruct (IH Hpre _ H0) as [(-> & -> & ->)|(a' & -> & ->)].
    + by left.
    + right. eauto.
Qed.

(** Splitting at a submission that must lie after a quiet prefix. *)
Lemma quiet_prefix_split pre post a t r b :
  Forall no_submit pre -> pre ++ post = a ++ EvSubmit t r :: b ->
  exists a', a = pre ++ a' /\ post = a' ++ EvSubmit t r :: b.
Proof.
  intros Hpre E. apply app_eq_inv in E as [(k & -> & E)|(k & -> & E)]; [|eauto].
  destruct k as [|x k]; simplify_eq/=; [exists []; by rewrite !app_nil_r|].
  by apply Forall_app in Hpre as [_ [? _]%Forall_cons].
Qed.

(** The first submission of a run that starts with a previous signature. *)
Lemma retry_log_checked P n last tr r a t x b :
  retry_log P n last tr r -> tr = a ++ EvSubmit t x :: b -> Forall no_submit a ->
  checked last a.
Proof.
  intros Hlog E Ha.
  destruct Hlog as [n last pre r Hq _|n s pre l Hq _|n last pre tx s Hq Hc _
    |n last pre tx e Hq Hc _ _|n last pre tx e s tr r Hq Hc _ _ _ _].
  1,2: subst; by apply Forall_app in Hq as [_ [? _]%Forall_cons].
  all: apply first_submit_unique in E as [(-> & _)|(a' & -> & _)]; [done| |done|by intros []].
  all: by apply Forall_app in Ha as [_ [? _]%Forall_cons].
Qed.

Lemma retry_log_resend P n last tr r : retry_log P n last tr r -> resend_ok tr.
Proof.
  intros Hlog a t1 r1 b t2 r2 c.
  revert a. induction Hlog as [n last pre r Hq _|n s pre l Hq _|n last pre tx s Hq Hc _
    |n last pre tx e Hq Hc _ _|n last pre tx e s tr r Hq Hc _ Htr Hs Hlog IH];
    intros a E Hb.
  1,2: subst; by apply Forall_app in Hq as [_ [? _]%Forall_cons].
  1,2: apply first_submit_unique in E as [(-> & _ & E)|(a' & -> & E)]; [..|done|by intros []];
    by apply (f_equal length) in E; rewrite ?length_app in E; simpl in E; lia.
  apply first_submit_unique in E as [(-> & [= <- <-] & E)|(a' & -> & E)]; [..|done|by intros []].
  - split; [eauto|].
    destruct b as [|y b]; simplify_eq/=. apply Forall_cons in Hb as [_ Hb].
    split; [by left|]. exists s.
    destruct (retry_log_checked _ _ _ _ _ _ _ _ _ Hlog eq_refl Hb s eq_refl) as (x & Hin & Hx).
    exists x. split_and!; [done|by right|done].
  - destruct a' as [|y a']; simplify_eq/=. by apply (IH a').
Qed.

(** ** Specifications the handlers use *)

(** The transaction carries these instructions and tables, paid by [payer]. *)
Definition carries (payer : Pubkey) (ixs : list Instruction) (luts : list Lut)
  (tx : Transaction) : Prop :=
  msg_payer (tx_message tx) = payer /\ msg_ixs (tx_message tx) = ixs /\
  msg_luts (tx_message tx) = luts.

(** What a submission leaves behind. *)
Definition send_post (P : Transaction -> Prop) (tr : list Event)
  (r : outcome Signature) : Prop :=
  (submits tr <= 3)%nat /\ Forall (submit_sat P) tr /\ resend_ok tr /\
  match r with
  | Ok s => delivered s tr
  | Err _ => True
  | Panic s => s = "Transaction::sign failed"
  end.

(** A trace with no submission among the recorded metrics keeps the facts. *)
Lemma resend_ok_quiet_app tr q :
  resend_ok tr -> Forall no_submit q -> resend_ok (tr ++ q).
Proof.
  intros Htr Hq a t1 r1 b t2 r2 c E Hb.
  assert (exists c', tr = a ++ EvSubmit t1 r1 :: b ++ EvSubmit t2 r2 :: c') as [c' E'];
    [|by eapply Htr].
  change (a ++ EvSubmit t1 r1 :: b ++ EvSubmit t2 r2 :: c)
    with (a ++ (EvSubmit t1 r1 :: b) ++ EvSubmit t2 r2 :: c) in E.
  rewrite (assoc_L (++)) in E.
  apply app_eq_inv in E as [(k & -> & E)|(k & E & ->)].
  - destruct k as [|y k]; simplify_eq/=.
    + by apply Forall_cons in Hq as [? _].
    + exists k. by rewrite <-(assoc_L (++)).
  - by apply Forall_app in Hq as [_ [? _]%Forall_cons].
Qed.

Section rpc_specs.
Context {X : Type} `{!Env X} {CR : Crates}.
Implicit Types rpc : Rpc.

Lemma send_attempts_post P rpc build w :
  (forall bh, builds P (build bh)) ->
  wp (send_attempts rpc build)
    (fun tr r w' => inflight w' = inflight w /\ send_post P tr r) w.
Proof.
  intros Hb. eapply wp_mono; [by apply (send_attempts_refines P)|].
  intros tr r w' [Hi H]. split; [done|]. split_and!.
  - by eapply retry_log_submits.
  - by eapply retry_log_sat.
  - by eapply retry_log_resend.
  - destruct r; [by eapply retry_log_delivered|done|by eapply retry_log_panic].
Qed.

(** Recording the metrics and returning the result. *)
Lemma record_result_spec P label (m : M X Signature) w :
  wp m (fun tr r w' => inflight w' = inflight w /\ send_post P tr r) w ->
  wp (let! result := attempt m in
      record_submission label (is_ok result) ;; return_result result)
    (fun tr r w' => inflight w' = inflight w /\ send_post P tr r) w.
Proof.
  intros Hm. wp_step. wp_step. eapply wp_mono; [exact Hm|].
  intros tr r w' (Hi & Hn & Hs & Hre & Hr).
  unfold record_submission, return_result.
  assert (Hfin : forall q r', Forall no_submit q ->
    match r' with
    | Ok s => delivered s tr | Err _ => True
    | Panic s => s = "Transaction::sign failed" end -> send_post P (tr ++ q) r').
  { intros q r' Hq Hr'. split_and!.
    - rewrite submits_app, (no_submit_submits q) by done. lia.
    - apply Forall_app_2; [done|by apply no_submit_sat].
    - by apply resend_ok_quiet_app.
    - destruct r'; try done. destruct Hr' as [[? ?]|[? ?]]; [left|right]; set_solver. }
  destruct r; cbn beta iota; repeat wp_step; rewrite ?app_nil_r;
    (split; [done|]); try (by split_and!); apply Hfin; quiet.
Qed.

Lemma send_signed_labeled_spec rpc label ixs kp signers w :
  wp (send_signed_labeled rpc label ixs (kp :: signers))
    (fun tr r w' => inflight w' = inflight w /\
       send_post (carries (keypair_pubkey kp)
         (priority_fee_preamble rpc (rpc_compute_unit_limit rpc) ++ ixs) []) tr r) w.
Proof.
  apply record_result_spec, send_attempts_post. intros bh w1.
  eapply wp_mono; [apply build_legacy_builds|].
  intros tr [tx|e|s] w' (-> & -> & Htx); (split; [done|]; split; [done|]); [|done..].
  unfold carries. by rewrite Htx.
Qed.

Lemma send_signed_v0_labeled_spec rpc label ixs luts kp signers w :
  wp (send_signed_v0_labeled rpc label ixs luts (kp :: signers))
    (fun tr r w' => inflight w' = inflight w /\
       send_post (carries (keypair_pubkey kp)
         (priority_fee_preamble rpc V0_COMPUTE_UNIT_LIMIT ++ ixs) luts) tr r) w.
Proof.
  apply record_result_spec, send_attempts_post. intros bh w1.
  eapply wp_mono; [apply build_v0_builds|].
  intros tr [tx|e|s] w' (-> & -> & Htx); (split; [done|]; split; [done|]); [|done..].
  unfold carries. by rewrite Htx.
Qed.

(** A simulation submits nothing, and its result is the node's verdict on
    exactly these instructions. *)
Definition sim_post (payer : Pubkey) (ixs : list Instruction) (luts : list Lut)
  (tr : list Event) (r : outcome SimulationResult) : Prop :=
  Forall no_submit tr /\
  match r with
  | Ok s => exists m sv, EvSimulate m (inr sv) ∈ tr /\ msg_payer m = payer /\
      msg_ixs m = ixs /\ msg_luts m = luts /\
      (sim_ok s = true <-> sv_err sv = None) /\ sim_logs s = default [] (sv_logs sv)
  | Err _ => True
  | Panic _ => False
  end.

Lemma simulate_v0_spec ixs luts payer (w : World X) :
  wp (simulate_v0 ixs luts payer)
    (fun tr r w' => inflight w' = inflight w /\ sim_post payer ixs luts tr r) w.
Proof.
  unfold simulate_v0, get_latest_blockhash, read_call, simulate_transaction_with_config.
  repeat wp_step; (split; [done|]); (split; [quiet|]); cbn beta iota; try done.
  eexists _, _. split_and!; [right; by left|done..| |done]. simpl. by destruct (sv_err _).
Qed.

Lemma simulate_spec rpc ixs payer (w : World X) :
  wp (simulate rpc ixs payer)
    (fun tr r w' => inflight w' = inflight w /\
       sim_post payer (priority_fee_preamble rpc (rpc_compute_unit_limit rpc) ++ ixs) [] tr r) w.
Proof. apply simulate_v0_spec. Qed.

(** Account reads touch nothing else. *)
Lemma get_account_data_spec pk (w : World X) :
  wp (get_account_data pk)
    (fun tr r w' => inflight w' = inflight w /\ tr = [EvRead (RdAccount pk)] /\
       match r with
       | Ok (Some d) => d <> []
       | Panic _ => False
       | _ => True
       end) w.
Proof.
  unfold get_account_data, get_account, read_call.
  repeat wp_step; try done; case_decide; repeat wp_step; done.
Qed.
End rpc_specs.

(** ** Sim-gating: the discipline of the permissionless handlers

    A transaction is backed by a simulated message when it is paid by the same
    key, uses the same tables and carries the same instructions, up to the
    compute-budget preamble the v0 send path adds and the v0 sim path omits. *)
Definition backs {CR : Crates} (rpc : Rpc) (m : Message) (tx : Transaction) : Prop :=
  msg_payer (tx_message tx) = msg_payer m /\ msg_luts (tx_message tx) = msg_luts m /\
  (msg_ixs (tx_message tx) = msg_ixs m \/
   msg_ixs (tx_message tx) = priority_fee_preamble rpc V0_COMPUTE_UNIT_LIMIT ++ msg_ixs m).

(** Every submission is preceded by a successful simulation that backs it and
    whose logs pass [V]. *)
Definition gated_if {CR : Crates} (V : list string -> bool) (rpc : Rpc) (tr : list Event) : Prop :=
  forall pre tx r post, tr = pre ++ EvSubmit tx r :: post ->
  exists m sv, EvSimulate m (inr sv) ∈ pre /\ sv_err sv = None /\
    V (default [] (sv_logs sv)) = true /\ backs rpc m tx.

(** Every submission is preceded by a successful simulation that backs it. *)
Abbreviation gated := (gated_if (fun _ => true)).

Section gating.
Context {CR : Crates} (V : list string -> bool) (rpc : Rpc).

Lemma gated_quiet tr : Forall no_submit tr -> gated_if V rpc tr.
Proof.
  intros Hq pre tx r post ->. by apply Forall_app in Hq as [_ [? _]%Forall_cons].
Qed.

#[export] Instance gated_monoid : TraceMonoid (gated_if V rpc).
Proof.
  split; [by apply gated_quiet, Forall_nil_2|].
  intros t1 t2 H1 H2 pre tx r post E.
  apply app_eq_inv in E as [(k & -> & E)|(k & -> & E)].
  - destruct k as [|y k]; simplify_eq/=.
    + destruct (H2 [] tx r post eq_refl) as (m & sv & Hin & _). by apply not_elem_of_nil in Hin.
    + by apply (H1 pre tx r k).
  - destruct (H2 k tx r post E) as (m & sv & Hin & Hsv). exists m, sv. set_solver.
Qed.

Lemma gated_backed t1 t2 m sv :
  gated_if V rpc t1 -> EvSimulate m (inr sv) ∈ t1 -> sv_err sv = None -> V (default [] (sv_logs sv)) = true ->
  Forall (submit_sat (backs rpc m)) t2 -> gated_if V rpc (t1 ++ t2).
Proof.
  intros H1 Hm Hsv HV H2 pre tx r post E.
  apply app_eq_inv in E as [(k & -> & E)|(k & -> & E)].
  - destruct k as [|y k]; simplify_eq/=; [|by apply (H1 pre tx r k)].
    exists m, sv. rewrite app_nil_r in Hm. apply Forall_cons in H2 as [H2 _]. done.
  - exists m, sv. rewrite E in H2. apply Forall_app in H2 as [_ [H2 _]%Forall_cons].
    set_solver.
Qed.

(** A legacy submission is backed by the legacy simulation of the same
    instructions, a v0 submission by the bare v0 simulation. *)
Lemma carries_backs_legacy payer ixs m :
  msg_payer m = payer -> msg_luts m = [] -> msg_ixs m = ixs ->
  forall tx, carries payer ixs [] tx -> backs rpc m tx.
Proof. intros <- Hl <- tx (H1 & H2 & H3). unfold backs. rewrite H1, H2, H3, Hl. auto. Qed.

Lemma carries_backs_v0 payer ixs luts m :
  msg_payer m = payer -> msg_luts m = luts -> msg_ixs m = ixs ->
  forall tx, carries payer (priority_fee_preamble rpc V0_COMPUTE_UNIT_LIMIT ++ ixs) luts tx ->
  backs rpc m tx.
Proof. intros <- <- <- tx (H1 & H2 & H3). unfold backs. rewrite H1, H2, H3. auto. Qed.
End gating.
#[export] Existing Instance gated_monoid.

Lemma submit_sat_mono (P Q : Transaction -> Prop) tr :
  (forall tx, P tx -> Q tx) -> Forall (submit_sat P) tr -> Forall (submit_sat Q) tr.
Proof. intros HPQ H. eapply Forall_impl; [exact H|]. intros []; simpl; auto. Qed.

Lemma gated_if_gated {CR : Crates} V rpc tr : gated_if V rpc tr -> gated rpc tr.
Proof.
  intros H pre tx r post E. destruct (H pre tx r post E) as (m & sv & ? & ? & _ & ?).
  by exists m, sv.
Qed.

(** A run that submits nothing and leaves the in-flight sets alone: all the
    account readers. *)
Definition quiet_run {X} : World X -> list Event -> bool -> World X -> Prop :=
  fun w tr _ w' => Forall no_submit tr /\ inflight w' = inflight w.

#[export] Instance quiet_run_composable {X} : Composable (@quiet_run X).
Proof.
  split; unfold quiet_run; [done|]. intros w1 t1 w2 t2 p w3 [? H1] [? H2].
  split; [by apply Forall_app_2|congruence].
Qed.

Section quiet.
Context {X : Type} `{!Env X}.

Lemma quiet_call {A} (f : X -> A * X) ev :
  (forall a, Forall no_submit (ev a)) -> keeps quiet_run (call f ev).
Proof. intros Hev w. apply wp_call. intros a x' _. by split. Qed.

Lemma quiet_read_call {A} c (f : X -> (ClientError + A) * X) :
  keeps quiet_run (read_call c f).
Proof. apply quiet_call. intros a. quiet. Qed.

Lemma quiet_shared_op {A} (f : Shared -> A * Shared) : keeps quiet_run (shared_op f).
Proof. intros w. apply wp_shared_op. intros x' s' _. by split. Qed.

Lemma quiet_shared_op_at {A} (f : Instant -> Shared -> A * Shared) :
  keeps quiet_run (shared_op_at f).
Proof. intros w. apply wp_shared_op_at. intros x1 s1 now x2 _ _. by split. Qed.

Lemma quiet_emit e : no_submit e -> keeps quiet_run (@emit X e).
Proof. intros He w. apply wp_emit. split; [quiet|done]. Qed.

Lemma quiet_now_instant : keeps quiet_run now_instant.
Proof. apply quiet_call. intros a. quiet. Qed.

Lemma quiet_now_system : keeps quiet_run now_system.
Proof. apply quiet_call. intros a. quiet. Qed.

Lemma quiet_sleep d : keeps quiet_run (sleep d).
Proof. apply quiet_call. intros a. quiet. Qed.

Lemma quiet_gateway g feeds payer : keeps quiet_run (gateway_fetch g feeds payer).
Proof. apply quiet_call. intros a. quiet. Qed.

Lemma quiet_get_account_data pk : keeps quiet_run (get_account_data pk).
Proof.
  intros w. eapply wp_mono; [apply get_account_data_spec|].
  intros tr r w' (? & -> & _). split; [quiet|done].
Qed.

(** A quiet computation satisfies every gate and keeps the in-flight sets. *)
Lemma keeps_quiet_gated {CR : Crates} V rpc {A} (m : M X A) :
  keeps quiet_run m -> keeps (on_trace (gated_if V rpc)) m.
Proof.
  intros Hm w. eapply wp_mono; [apply Hm|]. intros tr r w' [? _]. by apply gated_quiet.
Qed.

Lemma keeps_quiet_inflight {A} (m : M X A) : keeps quiet_run m -> keeps same_inflight m.
Proof. intros Hm w. eapply wp_mono; [apply Hm|]. by intros tr r w' [_ ?] ?. Qed.
End quiet.

#[export] Hint Resolve quiet_read_call quiet_shared_op quiet_shared_op_at quiet_now_instant quiet_now_system
  quiet_sleep quiet_gateway quiet_get_account_data : crank.

(** ** Batched reads *)

Lemma chunks_fuel_lookup {A} fuel n (l : list A) i :
  (0 < n)%nat -> (length l <= fuel)%nat ->
  chunks_fuel fuel n l !! i =
    if decide (i * n < length l)%nat then Some (take n (drop (i * n) l)) else None.
Proof.
  intros Hn. revert l i. induction fuel as [|fuel IH]; intros l i Hl.
  - destruct l; [|simpl in Hl; lia]. by rewrite decide_False by (simpl; lia).
  - destruct l as [|x l]; [by rewrite decide_False by (simpl; lia)|].
    cbn [chunks_fuel]. destruct i as [|i]; [by rewrite decide_True by (simpl; lia)|].
    cbn [lookup list_lookup]. change (list_lookup i ?c) with (c !! i).
    rewrite IH by (rewrite length_drop; simpl in *; lia).
    rewrite length_drop, drop_drop. replace (n + i * n)%nat with (S i * n)%nat by lia.
    case_decide as H1; case_decide as H2; try done; simpl in *; lia.
Qed.

Lemma chunks_lookup {A} n (l : list A) i :
  (0 < n)%nat ->
  chunks n l !! i =
    if decide (i * n < length l)%nat then Some (take n (drop (i * n) l)) else None.
Proof. intros. by apply chunks_fuel_lookup. Qed.

Lemma chunks_index {A} n (l : list A) i :
  (0 < n)%nat -> (i < length (chunks n l))%nat <-> (i * n < length l)%nat.
Proof.
  intros Hn. rewrite <-lookup_lt_is_Some, chunks_lookup by done. case_decide.
  - split; [done|]. eauto.
  - split; [intros []; done|done].
Qed.

(** Writing a whole chunk at its base. *)
Lemma store_chunk_from out base j accounts :
  (base + j + length accounts <= length out)%nat ->
  foldl (fun (o : outcome (list (option Account))) ja => let? out := o in write_at out (base + ja.1) ja.2)
    (Ok out) (zip (seq j (length accounts)) accounts) =
  Ok (take (base + j) out ++ accounts ++ drop (base + j + length accounts) out).
Proof.
  revert out j. induction accounts as [|a accounts IH]; intros out j Hlen; cbn [length] in *.
  - rewrite Nat.add_0_r. simpl. by rewrite take_drop.
  - cbn [seq zip zip_with foldl obind fst snd]. unfold write_at at 2.
    rewrite decide_True by lia. rewrite IH by (rewrite length_insert; lia). f_equal.
    rewrite (insert_take_drop out (base + j)) by lia.
    assert (Hl : length (take (base + j) out) = (base + j)%nat)
      by (rewrite length_take; lia).
    rewrite take_app, drop_app, Hl.
    rewrite take_ge by lia. rewrite (drop_ge (take _ _)) by lia.
    replace (base + S j - (base + j))%nat with 1%nat by lia.
    replace (base + S j + length accounts - (base + j))%nat with (S (length accounts)) by lia.
    cbn [take drop]. rewrite drop_drop, <-(assoc_L (++)). simpl. do 4 f_equal. lia.
Qed.

Lemma store_chunk_lookup out idx accounts :
  (idx * CHUNK_SIZE + length accounts <= length out)%nat ->
  exists out', store_chunk out idx accounts = Ok out' /\ length out' = length out /\
    forall i, out' !! i =
      if decide (idx * CHUNK_SIZE <= i < idx * CHUNK_SIZE + length accounts)%nat
      then accounts !! (i - idx * CHUNK_SIZE)%nat else out !! i.
Proof.
  intros Hlen. unfold store_chunk. rewrite store_chunk_from by lia. rewrite !Nat.add_0_r.
  set (b := (idx * CHUNK_SIZE)%nat) in *.
  assert (Hl : length (take b out) = b) by (rewrite length_take; lia).
  eexists. split; [done|]. split.
  { rewrite !length_app, length_drop, Hl. lia. }
  intros i. case_decide as Hi.
  - rewrite lookup_app_r by lia. rewrite Hl. by rewrite lookup_app_l by lia.
  - destruct (decide (i < b)%nat).
    + rewrite lookup_app_l by lia. by rewrite lookup_take_lt.
    + rewrite lookup_app_r, Hl by lia. rewrite lookup_app_r by lia.
      rewrite lookup_drop. f_equal. lia.
Qed.

Section batch.
Context {X : Type} `{!Env X}.

(** The accounts known after the tasks in [done] were joined. *)
Definition batch_inv (f : Pubkey -> option Account) (addresses : list Pubkey)
  (done : list nat) (out : list (option Account)) : Prop :=
  length out = length addresses /\
  forall i a, addresses !! i = Some a -> (i / CHUNK_SIZE)%nat ∈ done -> out !! i = Some (f a).

Lemma batch_loop f addresses order done out (w : World X) :
  (forall ps x, exists x', cl_get_multiple_accounts ps x = (inr (map f ps), x')) ->
  Forall (fun i => i * CHUNK_SIZE < length addresses)%nat order ->
  batch_inv f addresses done out ->
  wp (for_fold order out (fun output idx =>
        let! accounts :=
          with_context ("batch_get_multiple_accounts chunk " +:+ pretty idx)
            (let! r := get_multiple_accounts
               (default [] (chunks CHUNK_SIZE addresses !! idx)) in try_client r) in
        lift (store_chunk output idx accounts)))
    (fun tr r w' => length tr = length order /\
       Forall (fun ev => exists ps, ev = EvRead (RdMultiple ps) /\ length ps <= CHUNK_SIZE)%nat tr /\
       exists out', r = Ok out' /\ batch_inv f addresses (order ++ done) out') w.
Proof.
  intros Hf. revert done out w. induction order as [|idx order IH];
    intros done out w Hord Hinv; cbn [for_fold].
  { apply wp_ret. split_and!; [done|constructor|]. eauto. }
  apply Forall_cons in Hord as [Hidx Hord].
  assert (Hch : default [] (chunks CHUNK_SIZE addresses !! idx) =
    take CHUNK_SIZE (drop (idx * CHUNK_SIZE) addresses)).
  { rewrite chunks_lookup, decide_True by (try done; unfold CHUNK_SIZE; lia). done. }
  rewrite Hch. set (ps := take _ _).
  wp_step. wp_step. wp_step. wp_step. unfold get_multiple_accounts, read_call. wp_step.
  destruct (Hf ps (ext w)) as [x1 Hx1].
  match goal with E : cl_get_multiple_accounts _ _ = _ |- _ =>
    rewrite Hx1 in E; injection E as <- <- end.
  cbn [try_client]. wp_step. wp_step.
  assert (Hps : length ps = min CHUNK_SIZE (length addresses - idx * CHUNK_SIZE)).
  { unfold ps. by rewrite length_take, length_drop. }
  destruct Hinv as [Hlen Hout].
  destruct (store_chunk_lookup out idx (map f ps)) as (out' & -> & Hlen' & Hlk).
  { rewrite length_map, Hps, Hlen. lia. }
  cbn beta iota. eapply wp_mono.
  { apply (IH (idx :: done) out'); [done|]. split; [lia|]. intros i a Ha Hin.
    rewrite Hlk. pose proof (lookup_lt_Some _ _ _ Ha) as Hi.
    pose proof (Nat.div_mod_eq i CHUNK_SIZE) as Hdm.
    pose proof (Nat.mod_upper_bound i CHUNK_SIZE ltac:(done)) as Hmod.
    rewrite length_map, Hps. case_decide as Hr.
    - rewrite list_lookup_fmap. unfold ps. rewrite lookup_take_lt by lia.
      rewrite lookup_drop. replace (_ + _)%nat with i by lia. by rewrite Ha.
    - apply Hout; [done|]. apply elem_of_cons in Hin as [Hi'|Hin]; [|done].
      exfalso. apply Hr. rewrite <-Hi'. rewrite Hdm at 2 3. nia. }
  intros tr r w' (Hl & Hall & out'' & -> & Hinv'). split_and!; [simpl; lia| |].
  - apply Forall_cons_2; [|done]. exists ps. split; [done|]. rewrite Hps. lia.
  - exists out''. split; [done|]. destruct Hinv' as [? Hinv']. split; [done|].
    intros i a Ha Hin. apply Hinv'; [done|]. set_solver.
Qed.

Lemma batch_reads f addresses (w : World X) :
  (forall ps x, exists x', cl_get_multiple_accounts ps x = (inr (map f ps), x')) ->
  (forall n x, (join_order n x).1 ≡ₚ seq 0 n) ->
  wp (batch_get_multiple_accounts addresses)
    (fun tr r _ => r = Ok (map f addresses) /\
       length tr = length (chunks CHUNK_SIZE addresses) /\
       Forall (fun ev => exists ps, ev = EvRead (RdMultiple ps) /\ length ps <= CHUNK_SIZE)%nat tr) w.
Proof.
  intros Hf Hord. destruct addresses as [|a0 addresses]; [by apply wp_ret|].
  set (l := a0 :: addresses). unfold batch_get_multiple_accounts. fold l.
  change (match l with [] => ret [] | _ => ?m end) with m.
  wp_step. unfold joined_tasks. wp_step.
  match goal with E : join_order _ _ = (?o, _) |- _ =>
    pose proof (Hord (length (chunks CHUNK_SIZE l)) (ext w)) as Hp; rewrite E in Hp;
    cbn [fst] in Hp end.
  eapply wp_mono.
  { apply (batch_loop f l _ []); [done| |].
    - rewrite Hp. apply Forall_forall. intros i Hi%elem_of_seq.
      apply (chunks_index CHUNK_SIZE l); [unfold CHUNK_SIZE; lia|lia].
    - split; [by rewrite length_replicate|]. intros i x _ Hi. by apply not_elem_of_nil in Hi. }
  intros tr r w' (Hl & Hall & out & -> & Hlen & Hout).
  rewrite Hp, length_seq in Hl. split_and!; [|done|done].
  f_equal. apply list_eq. intros i. rewrite list_lookup_fmap.
  destruct (l !! i) as [x|] eqn:Hx.
  - rewrite (Hout i x); [done..|]. rewrite app_nil_r, Hp. apply elem_of_seq.
    split; [lia|]. apply (chunks_index CHUNK_SIZE l); [unfold CHUNK_SIZE; lia|].
    pose proof (lookup_lt_Some _ _ _ Hx). pose proof (Nat.div_mod_eq i CHUNK_SIZE). lia.
  - apply lookup_ge_None. rewrite Hlen. by apply lookup_ge_None.
Qed.

(** C33. Chunked, concurrent account reads return, at every index, exactly what
    one read of that address would return, whatever the order in which the
    spawned tasks complete, with one request of at most 100 addresses per chunk.
    [f] is the node's state, [join_order] any permutation of the tasks. *)
Theorem batch_get_multiple_accounts_pointwise f addresses (w : World X) :
  (forall ps x, exists x', cl_get_multiple_accounts ps x = (inr (map f ps), x')) ->
  (forall n x, (join_order n x).1 ≡ₚ seq 0 n) ->
  wp (batch_get_multiple_accounts addresses)
    (fun tr r _ => r = Ok (map f addresses) /\
       length tr = length (chunks CHUNK_SIZE addresses) /\
       Forall (fun ev => exists ps, ev = EvRead (RdMultiple ps) /\ length ps <= CHUNK_SIZE)%nat tr) w.
Proof. apply batch_reads. Qed.
End batch.

(** ** Properties *)

Section rpc_properties.
Context {X : Type} `{!Env X} {CR : Crates}.
Implicit Types rpc : Rpc.

(** C2. Both retry loops implement the abstract retry protocol with three
    attempts: whatever the node, the clock and the stop flag do, the events of
    a run and its result form a [retry_log], every transaction of which carries
    exactly the caller's instructions, lookup tables and fee payer. In
    particular the [unreachable!()] after the loop is never reached. *)
Theorem send_retry_refines_protocol rpc ixs luts signers kp (w : World X) :
  wp (send_with_retry rpc ixs signers kp)
    (fun tr r _ => retry_log (carries (keypair_pubkey kp) ixs []) 3 None tr r) w /\
  wp (send_v0_with_retry rpc ixs luts signers kp)
    (fun tr r _ => retry_log (carries (keypair_pubkey kp) ixs luts) 3 None tr r) w.
Proof.
  split; (eapply wp_mono; [apply send_attempts_refines|by intros tr r w' [_ H]]);
    intros bh w1; (eapply wp_mono; [first [apply build_legacy_builds | apply build_v0_builds]|]);
    intros tr [tx|e|s] w' (-> & -> & Htx); (split; [done|]; split; [done|]); try done;
    unfold carries; by rewrite Htx.
Qed.

(** One labelled submission, on either path and with any list of signers,
    hands the node at most three transactions, each paid by the first signer and
    carrying the compute-budget preamble of its path followed by the caller's
    instructions; with no signer it hands the node nothing and fails. *)
Theorem submission_bounded rpc label ixs luts signers (w : World X) :
  wp (send_signed_labeled rpc label ixs signers)
    (fun tr r _ => (submits tr <= 3)%nat /\ match signers with
       | [] => tr = [] /\ r = Err ["send_signed: no signers"]
       | kp :: _ => Forall (submit_sat (carries (keypair_pubkey kp)
           (priority_fee_preamble rpc (rpc_compute_unit_limit rpc) ++ ixs) [])) tr
       end) w /\
  wp (send_signed_v0_labeled rpc label ixs luts signers)
    (fun tr r _ => (submits tr <= 3)%nat /\ match signers with
       | [] => tr = [] /\ r = Err ["send_signed_v0: no signers"]
       | kp :: _ => Forall (submit_sat (carries (keypair_pubkey kp)
           (priority_fee_preamble rpc V0_COMPUTE_UNIT_LIMIT ++ ixs) luts)) tr
       end) w.
Proof.
  destruct signers as [|kp signers].
  - split; apply wp_throw; (split; [|done]); unfold submits; simpl; lia.
  - split; (eapply wp_mono; [first [apply send_signed_labeled_spec
      |apply send_signed_v0_labeled_spec]|]); by intros tr r w' (_ & ? & ? & _).
Qed.

(** C3. No double submission: between two consecutive transactions of one
    labelled submission, the first failed with a transient error, the task slept
    half a second, and the node was asked about the first one's signature and did
    not report it as landed. *)
Theorem resubmission_safe rpc label ixs luts signers (w : World X) :
  wp (send_signed_labeled rpc label ixs signers) (fun tr _ _ => resend_ok tr) w /\
  wp (send_signed_v0_labeled rpc label ixs luts signers) (fun tr _ _ => resend_ok tr) w.
Proof.
  destruct signers as [|kp signers].
  - split; apply wp_throw; by intros [] ?.
  - split; (eapply wp_mono; [first [apply send_signed_labeled_spec
      |apply send_signed_v0_labeled_spec]|]); by intros tr r w' (_ & _ & _ & ? & _).
Qed.

(** A labelled submission that returns a signature was delivered: the node
    accepted one of its transactions under that signature, or reported the
    signature as landed when asked. *)
Theorem submission_ok_delivered rpc label ixs luts signers (w : World X) :
  wp (send_signed_labeled rpc label ixs signers)
    (fun tr r _ => match r with Ok s => delivered s tr | _ => True end) w /\
  wp (send_signed_v0_labeled rpc label ixs luts signers)
    (fun tr r _ => match r with Ok s => delivered s tr | _ => True end) w.
Proof.
  destruct signers as [|kp signers].
  - split; by apply wp_throw.
  - split; (eapply wp_mono; [first [apply send_signed_labeled_spec
      |apply send_signed_v0_labeled_spec]|]);
      intros tr [] w' (_ & _ & _ & _ & ?); done.
Qed.
End rpc_properties.
