(* ===== verification/Liveness.v ===== *)
(** Progress of the send paths: on a node that recovers after at most two
    transient failures a submission succeeds, within its three attempts. *)

From Stdlib Require Import ZArith Lia.
From stdpp Require Import gmap strings list.
From S2P Require Import Prelude Solana State Effects Logic Rpc.

Local Open Scope crank_scope.

(** ** A recovering node

    [fails x] is the number of sends the node still answers with a transient
    error, and no other call changes it; [I] is an invariant of the shared memory
    that the other tasks keep and under which the stop flag is down. *)
Record recovering {X} `{!Env X} (I : Shared -> Prop) (fails : X -> nat) : Prop := {
  rn_stop : forall s, I s -> sh_stop s = false;
  rn_interfere : forall x s, I s -> I (interfere x s).2 /\ fails (interfere x s).1 = fails x;
  rn_blockhash : forall x, exists bh x', cl_get_latest_blockhash x = (inr bh, x') /\ fails x' = fails x;
  rn_status : forall sigs x, fails (cl_get_signature_statuses sigs x).2 = fails x;
  rn_sleep : forall d x, fails (do_sleep d x) = fails x;
  rn_send : forall tx x, exists r x', cl_send_and_confirm tx x = (r, x') /\
    match fails x with
    | O => fails x' = O /\ exists s, r = inr s
    | S n => fails x' = n /\ exists e, r = inl e /\ is_transient e = true
    end }.
Arguments rn_stop {X _ _ _} _.
Arguments rn_interfere {X _ _ _} _.
Arguments rn_blockhash {X _ _ _} _.
Arguments rn_status {X _ _ _} _.
Arguments rn_sleep {X _ _ _} _.
Arguments rn_send {X _ _ _} _.

(** A run that goes on with [k] failures ahead. *)
Definition going {X} (I : Shared -> Prop) (fails : X -> nat) (k : nat) (w : World X) : Prop :=
  I (shared w) /\ fails (ext w) = k.

(** A signer that signs: every build step gives a transaction with a signature. *)
Definition signs {X} (build : Blockhash -> M X Transaction) : Prop :=
  forall bh (w : World X), wp (build bh) (fun tr r w' =>
    tr = [] /\ w' = w /\ exists tx s, r = Ok tx /\ head (tx_signatures tx) = Some s) w.

Section progress.
Context {X : Type} `{!Env X} {CR : Crates} {I : Shared -> Prop} {fails : X -> nat}.
Hypothesis node : recovering I fails.

Lemma wp_shared_op_going {A} (f : Shared -> A * Shared) k
  (Q : list Event -> outcome A -> World X -> Prop) w :
  going I fails k w -> (forall s, (f s).2 = s) ->
  (forall w', going I fails k w' -> Q [] (Ok (f (shared w')).1) w') -> wp (shared_op f) Q w.
Proof.
  intros [Hs Hf] Hid HQ. apply wp_shared_op. intros x' s' E.
  destruct (rn_interfere node (ext w) (shared w) Hs) as [H1 H2]. rewrite E in H1, H2.
  specialize (HQ (mkWorld x' s' (inflight w) (trace w))). rewrite Hid. apply HQ.
  split; [exact H1|]. cbn [ext snd fst] in *. congruence.
Qed.

Lemma wp_stopped_going rpc k (Q : list Event -> outcome bool -> World X -> Prop) w :
  going I fails k w -> (forall w', going I fails k w' -> Q [] (Ok false) w') -> wp (stopped rpc) Q w.
Proof.
  intros Hw HQ. unfold stopped, load_stop. destruct (rpc_has_stop rpc).
  - eapply wp_shared_op_going; [done|done|]. intros w' Hw'. cbn [fst].
    rewrite (rn_stop node) by apply Hw'. by apply HQ.
  - wp_step. by apply HQ.
Qed.

(** The status check of an attempt keeps the node's failures. *)
Lemma status_query_going last k w :
  going I fails k w ->
  wp (match last with
      | None => ret None
      | Some prev =>
          let! r := get_signature_statuses [prev] in
          match r with inr (true :: _) => ret (Some prev) | _ => ret None end
      end)
    (fun tr r w' => submits tr = 0%nat /\ exists o, r = Ok o /\ (last = None -> o = None) /\
       going I fails k w') w.
Proof.
  intros [Hs Hf]. destruct last as [prev|]; [|wp_step; split; [done|by exists None]].
  unfold get_signature_statuses. wp_step. wp_step.
  pose proof (rn_status node [prev] (ext w)) as Hst. rewrite H in Hst. cbn [snd] in Hst.
  assert (going I fails k (mkWorld x' (shared w) (inflight w) (trace w ++ [EvStatus [prev] a])))
    by (by split; [|cbn [ext]; congruence]).
  repeat wp_step; (split; [done|eexists; split; [done|by split]]).
Qed.

(** An attempt returns a signature, or uses up a failure; the first one sends. *)
Definition attempt_progress (last : option Signature) (k : nat) (tr : list Event)
  (r : outcome (option Signature + Signature)) (w' : World X) : Prop :=
  (submits tr <= 1)%nat /\ (last = None -> submits tr = 1%nat) /\
  ((exists s, r = Ok (inr s) /\ going I fails k w' /\ (last = None -> k = 0%nat)) \/
   exists last' k', r = Ok (inl (Some last')) /\ k = S k' /\ going I fails k' w').

Lemma send_attempt_progress rpc build last n k w :
  signs build -> going I fails k w -> (k = 0 \/ n <> 2)%nat ->
  wp (send_attempt rpc build last n) (attempt_progress last k) w.
Proof.
  intros Hb Hw Hn. unfold send_attempt. wp_step. eapply wp_stopped_going; [done|].
  clear w Hw. intros w Hw. cbn beta iota. wp_step.
  eapply wp_mono; [by apply status_query_going|].
  intros tr r w1 (Ht & o & -> & Ho & Hw1). destruct o as [p|].
  { wp_step. rewrite app_nil_r. split_and!; [by rewrite Ht; lia|by intros [=]%Ho|].
    left. exists p. split; [done|]. split; [done|]. by intros [=]%Ho. }
  wp_step. wp_step. wp_step. unfold get_latest_blockhash, read_call. wp_step.
  destruct (rn_blockhash node (ext w1)) as (bh & x2 & Hbh & Hf2). rewrite Hbh in H.
  injection H as <- <-. apply wp_try_client. cbn beta iota delta [ocontext app]. wp_step.
  eapply wp_mono; [apply Hb|].
  intros tr2 r2 w2 (-> & -> & tx & sg & -> & Hsg). wp_step. wp_step. rewrite Hsg.
  cbn beta iota delta [o_of_option]. wp_step. unfold send_and_confirm_transaction. wp_step.
  destruct (rn_send node tx x2) as (r3 & x3 & Hs & Hk). cbn [ext] in H. rewrite Hs in H.
  injection H as <- <-. destruct Hw1 as [Hstop Hf1]. rewrite Hf2, Hf1 in Hk.
  destruct k as [|k'].
  - destruct Hk as (Hk & s & ->). wp_step. split; [|split]; [| |left; by exists s];
      [|intros _]; rewrite submits_app, Ht; unfold submits; simpl; lia.
  - destruct Hk as (Hk & e & -> & He). rewrite He.
    destruct (Nat.eqb_spec n 2) as [->|_]; [by destruct Hn|]. cbn [negb orb]. wp_step.
    unfold sleep. wp_step. wp_step. split; [|split]; [| |right];
      [|intros _|]; [rewrite submits_app, Ht; unfold submits; simpl; lia..|].
    exists sg, k'. split; [done|]. split; [done|]. split; [done|]. cbn [ext] in *.
    injection H as _ <-. by rewrite (rn_sleep node).
Qed.

(** What a whole send leaves: a signature, after at least one transaction and at most
    one per failure used up and one more. *)
Definition send_progress (k : nat) (tr : list Event) (r : outcome Signature) (w' : World X) : Prop :=
  (1 <= submits tr <= S k)%nat /\ (exists s, r = Ok s) /\ exists k', (k' <= k)%nat /\ going I fails k' w'.

(** The three attempts absorb two transient failures. *)
Lemma send_attempts_progress rpc build k w :
  signs build -> going I fails k w -> (k <= 2)%nat ->
  wp (send_attempts rpc build) (send_progress k) w.
Proof.
  intros Hb Hw Hk. unfold send_attempts.
  assert (Hgen : forall l last w k, going I fails k w ->
    (match l with
     | [] => False
     | _ => (length l <= 3)%nat /\ l = seq (3 - length l) (length l) /\ (k < length l)%nat
     end) ->
    wp (loop_ret l last (send_attempt rpc build)
          (panic "internal error: entered unreachable code"))
      (fun tr r w' => (submits tr <= S k)%nat /\ (last = None -> 1 <= submits tr)%nat /\
         (exists s, r = Ok s) /\ exists k', (k' <= k)%nat /\ going I fails k' w') w).
  2: { eapply wp_mono; [eapply (Hgen [0; 1; 2]%nat None); [done|]|].
       - simpl. split_and!; [lia|done|lia].
       - intros tr r w' (H1 & H2 & H3). split; [|done]. split; [by apply H2|done]. }
  clear w k Hw Hk. induction l as [|n l IH]; intros last w k Hw Hl; [done|].
  destruct Hl as (Hlen & Hseq & Hk). cbn [loop_ret]. wp_step.
  cbn [length seq] in Hseq. injection Hseq as Hn Hl.
  eapply wp_mono; [apply (send_attempt_progress rpc build last n k); [done|done|]|].
  { destruct k; [by left|]. right. cbn [length] in *. lia. }
  intros tr r w' (Ht & Ht1 & [(s & -> & Hg & _)|(last' & k' & -> & -> & Hw')]).
  { cbn beta iota. wp_step. rewrite app_nil_r.
    split; [lia|]. split; [intros E; rewrite Ht1; [lia|done]|]. split; [by exists s|by exists k]. }
  cbn beta iota. eapply wp_mono; [apply (IH (Some last') w' k' Hw')|].
  - destruct l as [|m l]; [cbn [length] in Hk; lia|]. cbn [length] in *. split_and!; [lia| |lia].
    rewrite Hl. f_equal; lia.
  - intros tr2 r2 w2 (Ht2 & _ & Hs & k2 & Hk2 & Hg). rewrite submits_app. split; [lia|].
    split; [intros E; rewrite Ht1; [lia|done]|]. split; [done|]. exists k2. by split; [lia|].
Qed.

Lemma build_legacy_signs ixs kp :
  (forall m, exists s sigs, sign_legacy m [kp] = Some (s :: sigs)) ->
  @signs X (build_legacy ixs [kp] kp).
Proof.
  intros Hsig bh w. unfold build_legacy.
  destruct (Hsig (mkMessage (keypair_pubkey kp) ixs [] bh)) as (s & sigs & E). rewrite E.
  repeat wp_step. split_and!; [done|done|]. by eexists _, s.
Qed.

Lemma build_v0_signs ixs luts kp :
  (forall m, v0_compile_error m = None /\ exists s sigs, sign_v0 m [kp] = inr (s :: sigs)) ->
  @signs X (build_v0 ixs luts [kp] kp).
Proof.
  intros Hsig bh w. unfold build_v0.
  destruct (Hsig (mkMessage (keypair_pubkey kp) ixs luts bh)) as (-> & s & sigs & E). rewrite E.
  wp_step. split_and!; [done|done|]. by eexists _, s.
Qed.

(** The labels and metrics around a send change nothing of it. *)
Lemma record_progress (m : M X Signature) label k w :
  wp m (send_progress k) w ->
  wp (let! result := attempt m in
      record_submission label (is_ok result) ;; return_result result) (send_progress k) w.
Proof.
  intros Hm. wp_step. wp_step. eapply wp_mono; [exact Hm|].
  intros tr r w' (Ht & [s ->] & Hg). cbn beta iota. unfold record_submission, return_result.
  repeat wp_step. split; [|split; [by exists s|exact Hg]].
  rewrite !submits_app. unfold submits in *. simpl. lia.
Qed.

Lemma send_legacy_progress rpc label ixs kp k w :
  (forall m, exists s sigs, sign_legacy m [kp] = Some (s :: sigs)) ->
  going I fails k w -> (k <= 2)%nat ->
  wp (send_signed_labeled rpc label ixs [kp]) (send_progress k) w.
Proof.
  intros Hsig Hw Hk. apply record_progress. apply send_attempts_progress; [|done..].
  by apply build_legacy_signs.
Qed.

Lemma send_v0_progress rpc label ixs luts kp k w :
  (forall m, v0_compile_error m = None /\ exists s sigs, sign_v0 m [kp] = inr (s :: sigs)) ->
  going I fails k w -> (k <= 2)%nat ->
  wp (send_signed_v0_labeled rpc label ixs luts [kp]) (send_progress k) w.
Proof.
  intros Hsig Hw Hk. apply record_progress. apply send_attempts_progress; [|done..].
  by apply build_v0_signs.
Qed.
End progress.

(** ** Properties *)

Section liveness_properties.
Context {X : Type} `{!Env X} {CR : Crates}.

(** C4. Progress: while nobody raises the stop flag, on a node that answers the blockhash
    and fails at most two sends, each with a transient error, a submission signed by a key
    that signs succeeds on both paths, after at least one transaction and at most one per
    failure and one more. *)
Theorem submission_recovers I fails rpc label ixs luts kp (w : World X) :
  recovering I fails -> I (shared w) -> (fails (ext w) <= 2)%nat ->
  (forall m, exists s sigs, sign_legacy m [kp] = Some (s :: sigs)) ->
  (forall m, v0_compile_error m = None /\ exists s sigs, sign_v0 m [kp] = inr (s :: sigs)) ->
  wp (send_signed_labeled rpc label ixs [kp])
    (fun tr r _ => (1 <= submits tr <= S (fails (ext w)))%nat /\ exists s, r = Ok s) w /\
  wp (send_signed_v0_labeled rpc label ixs luts [kp])
    (fun tr r _ => (1 <= submits tr <= S (fails (ext w)))%nat /\ exists s, r = Ok s) w.
Proof.
  intros Hn Hs Hf Hl Hv. assert (Hw : going I fails (fails (ext w)) w) by done.
  split; (eapply wp_mono; [first [by eapply send_legacy_progress|by eapply send_v0_progress]|]);
    by intros tr r w' (Ht & Hr & _).
Qed.
End liveness_properties.
