(* ===== verification/Util.v ===== *)
(** handlers/util.rs: the clock, the SPL token amount, and the P2Pool stage and
    partial-floor arithmetic of the liquidator. *)

From Stdlib Require Import ZArith Lia.
From stdpp Require Import gmap strings list.
From S2P Require Import Prelude Solana State Effects Logic.

Local Open Scope crank_scope.

(** ** Definitions *)

(** [d.as_secs() as i64], 0 before the epoch. *)
Definition now_unix {X} `{!Env X} : M X Z :=
  let! t := now_system in
  ret (match t with Some secs => to_signed 64 secs | None => 0%Z end).

Definition spl_token_amount (data : bytes) : option Z := le_Z <$> get_range 64 72 data.

Definition p2pool_full_repay_staged_atoms (repay_atoms : Z) : Z :=
  u64_sat_add (u64_sat_add repay_atoms (repay_atoms / 50)) 64.

Definition PARTIAL_FLOOR : Z := 1000.
Definition min_partial_repay_atoms (outstanding : Z) : Z :=
  Z.max (outstanding / 100) PARTIAL_FLOOR.

(** ** Lemmas *)

Lemma spl_token_amount_is_u64 data v : spl_token_amount data = Some v -> is_u64 v.
Proof.
  unfold spl_token_amount. intros (s & Hs & ->)%fmap_Some_1.
  apply get_range_length in Hs as [Hs _]. pose proof (le_Z_range s) as H.
  rewrite Hs in H. change (256 ^ Z.of_nat (72 - 64))%Z with (2 ^ 64)%Z in H.
  unfold is_u64, U64_MAX. lia.
Qed.

Lemma staged_ge repay : is_u64 repay -> (repay <= p2pool_full_repay_staged_atoms repay)%Z.
Proof. unfold p2pool_full_repay_staged_atoms. zlia. Qed.

Lemma staged_is_u64 repay : is_u64 repay -> is_u64 (p2pool_full_repay_staged_atoms repay).
Proof. unfold p2pool_full_repay_staged_atoms. zlia. Qed.

#[export] Hint Resolve staged_ge staged_is_u64 spl_token_amount_is_u64 : crank.

Lemma now_unix_spec {X} `{!Env X} (w : World X) :
  wp now_unix (fun tr r w' => tr = [] /\ inflight w' = inflight w /\
    exists t, r = Ok t /\ is_i64 t) w.
Proof.
  unfold now_unix, now_system. repeat wp_step. split_and!; [done..|].
  eexists. split; [done|]. destruct a as [s|]; [|zlia].
  unfold to_signed. cbv zeta. change (64 - 1)%Z with 63%Z.
  pose proof (Z.mod_pos_bound s (2 ^ 64) ltac:(lia)).
  destruct (Z.ltb_spec (s mod 2 ^ 64) (2 ^ 63)); unfold is_i64, I64_MAX, I64_MIN; lia.
Qed.

(** ** Properties *)

(** The SPL amount is read exactly when the account data holds 72 bytes; a
    balance written in little-endian order at offset 64 is read back unchanged,
    whatever surrounds it, and what is read is always a [u64]. *)
Theorem spl_token_amount_spec data :
  (spl_token_amount data = None <-> (length data < 72)%nat) /\
  (forall v, spl_token_amount data = Some v -> is_u64 v) /\
  (forall pre amount post, data = pre ++ le_bytes 8 amount ++ post ->
     length pre = 64%nat -> is_u64 amount -> spl_token_amount data = Some amount).
Proof.
  split_and!; [|eauto with crank|].
  - unfold spl_token_amount, get_range. case_decide; simpl; split; (done || lia).
  - intros pre amount post -> Hpre Hu. unfold spl_token_amount.
    rewrite get_range_Some by (rewrite !length_app, length_le_bytes; lia).
    rewrite drop_app_length' by done.
    rewrite take_app_length' by by rewrite length_le_bytes.
    cbn [fmap option_fmap option_map]. rewrite le_Z_le_bytes. f_equal.
    apply Z.mod_small. unfold is_u64, U64_MAX in Hu.
    change (256 ^ Z.of_nat 8)%Z with (2 ^ 64)%Z. lia.
Qed.

(** The P2Pool over-stage: without saturation it is the repay amount plus 2%
    (rounded down) plus 64 atoms; it never exceeds [u64::MAX] and never falls
    below the amount to repay. *)
Theorem p2pool_staged_bounds repay :
  is_u64 repay ->
  let staged := p2pool_full_repay_staged_atoms repay in
  is_u64 staged /\ (repay <= staged)%Z /\
  ((repay + repay / 50 + 64 <= U64_MAX)%Z -> staged = (repay + repay / 50 + 64)%Z).
Proof.
  intros Hu. cbv zeta. split_and!; eauto with crank.
  unfold p2pool_full_repay_staged_atoms. zlia.
Qed.

Lemma p2pool_staged_bounds_witness :
  is_u64 1000 /\ p2pool_full_repay_staged_atoms 1000 = 1084%Z /\
  (let staged := p2pool_full_repay_staged_atoms 1000 in
   is_u64 staged /\ (1000 <= staged)%Z /\
   ((1000 + 1000 / 50 + 64 <= U64_MAX)%Z -> staged = (1000 + 1000 / 50 + 64)%Z)).
Proof.
  assert (is_u64 1000) as Hu by (unfold is_u64, U64_MAX; lia).
  split; [exact Hu|]. split; [reflexivity|]. exact (p2pool_staged_bounds 1000 Hu).
Defined.
