(* ===== verification/MarginfiBank.v ===== *)
(** marginfi_bank.rs: the fixed-offset decoder of the marginfi [Bank] account,
    and its agreement with the account layout the source documents. *)

From Stdlib Require Import ZArith Lia.
From stdpp Require Import gmap strings list pretty.
From S2P Require Import Prelude Solana State Effects.

Local Open Scope crank_scope.

(** ** Definitions *)

Definition DISCRIMINATOR_LEN : nat := 8.
Definition BANK_ACCOUNT_SIZE : nat := 1864.
Definition BANK_BODY_SIZE : nat := 1856.

Definition OFF_MINT : nat := 0.
Definition OFF_ASSET_SHARE_VALUE : nat := 72.
Definition OFF_LIABILITY_SHARE_VALUE : nat := 88.
Definition OFF_LIQUIDITY_VAULT : nat := 104.
Definition OFF_LVA_BUMP : nat := 137.
Definition OFF_TOTAL_LIABILITY_SHARES : nat := 248.
Definition OFF_TOTAL_ASSET_SHARES : nat := 264.

Definition BANK_CONFIG_OFFSET : nat := 288.
Definition OFF_INTEREST_RATE_CONFIG : nat := BANK_CONFIG_OFFSET + 72.
Definition OFF_OPTIMAL_UTIL : nat := OFF_INTEREST_RATE_CONFIG.
Definition OFF_PLATEAU : nat := OFF_INTEREST_RATE_CONFIG + 16.
Definition OFF_MAX_IR : nat := OFF_INTEREST_RATE_CONFIG + 32.
Definition OFF_PROTOCOL_IR_FEE : nat := OFF_INTEREST_RATE_CONFIG + 96.

Definition OFF_ZERO_UTIL_RATE : nat := OFF_INTEREST_RATE_CONFIG + 128.
Definition OFF_HUNDRED_UTIL_RATE : nat := OFF_INTEREST_RATE_CONFIG + 132.
Definition OFF_POINTS : nat := OFF_INTEREST_RATE_CONFIG + 136.
Definition OFF_CURVE_TYPE : nat := OFF_INTEREST_RATE_CONFIG + 176.
Definition NUM_CURVE_POINTS : nat := 5.

Definition OFF_ORACLE_SETUP : nat := BANK_CONFIG_OFFSET + 313.
Definition OFF_ORACLE_KEYS : nat := BANK_CONFIG_OFFSET + 314.
Definition MAX_ORACLE_KEYS : nat := 5.

(** [[142, 49, 166, 242, 50, 66, 97, 188]] *)
Definition BANK_DISCRIMINATOR : bytes :=
  map Z_byte [142; 49; 166; 242; 50; 66; 97; 188]%Z.

Record BankView := {
  bv_mint : Pubkey; bv_liquidity_vault : Pubkey; bv_lva_bump : Z;
  bv_asset_share_value_fp48 : Z; bv_liability_share_value_fp48 : Z;
  bv_total_asset_shares_fp48 : Z; bv_total_liability_shares_fp48 : Z;
  bv_optimal_utilization_fp48 : Z; bv_plateau_interest_rate_fp48 : Z;
  bv_max_interest_rate_fp48 : Z; bv_protocol_ir_fee_fp48 : Z;
  bv_curve_type : Z; bv_zero_util_rate_u32 : Z; bv_hundred_util_rate_u32 : Z;
  bv_points : list (Z * Z); bv_oracle_setup : Z; bv_oracles : list Pubkey }.

(** [body[off..off + n]]: panics out of range. *)
Definition index_range (body : bytes) (off n : nat) : outcome bytes :=
  o_or_panic "range end index out of range" (get_range off (off + n) body).

Definition read_pubkey (body : bytes) (off : nat) : outcome Pubkey :=
  let? b := index_range body off 32 in Ok (mkPubkey b).

Definition read_i128 (body : bytes) (off : nat) : outcome Z :=
  let? b := index_range body off 16 in Ok (to_signed 128 (le_Z b)).

Definition read_u32 (body : bytes) (off : nat) : outcome Z :=
  let? b := index_range body off 4 in Ok (le_Z b).

Definition read_byte (body : bytes) (off : nat) : outcome Z :=
  o_or_panic "index out of bounds" (byte_Z <$> body !! off).

Definition read_points (body : bytes) : outcome (list (Z * Z)) :=
  foldl (fun acc i =>
      let? acc := acc in
      let? util := read_u32 body (OFF_POINTS + i * 8) in
      let? rate := read_u32 body (OFF_POINTS + i * 8 + 4) in
      Ok (acc ++ [(util, rate)]))
    (Ok []) (seq 0 NUM_CURVE_POINTS).

(** [if pk != Pubkey::default() { oracles.push(pk) }]. *)
Definition push_oracle (oracles : list Pubkey) (pk : Pubkey) : list Pubkey :=
  if decide (pk <> Pubkey_default) then oracles ++ [pk] else oracles.

Definition read_oracles (body : bytes) : outcome (list Pubkey) :=
  foldl (fun acc i =>
      let? acc := acc in
      let? pk := read_pubkey body (OFF_ORACLE_KEYS + i * 32) in
      Ok (push_oracle acc pk))
    (Ok []) (seq 0 MAX_ORACLE_KEYS).

Definition try_from_account_data (data : bytes) : outcome BankView :=
  if decide (length data < BANK_ACCOUNT_SIZE)%nat then
    Err ["bank account too small: " +:+ pretty (length data) +:+ " < " +:+
         pretty BANK_ACCOUNT_SIZE]
  else
    let? disc := index_range data 0 DISCRIMINATOR_LEN in
    if decide (disc <> BANK_DISCRIMINATOR) then
      Err ["bank account discriminator mismatch (not a marginfi Bank?)"]
    else
      let? body := index_range data DISCRIMINATOR_LEN BANK_BODY_SIZE in
      let? mint := read_pubkey body OFF_MINT in
      let? liquidity_vault := read_pubkey body OFF_LIQUIDITY_VAULT in
      let? lva_bump := read_byte body OFF_LVA_BUMP in
      let? asset_share_value := read_i128 body OFF_ASSET_SHARE_VALUE in
      let? liability_share_value := read_i128 body OFF_LIABILITY_SHARE_VALUE in
      let? total_asset_shares := read_i128 body OFF_TOTAL_ASSET_SHARES in
      let? total_liability_shares := read_i128 body OFF_TOTAL_LIABILITY_SHARES in
      let? optimal_utilization := read_i128 body OFF_OPTIMAL_UTIL in
      let? plateau_interest_rate := read_i128 body OFF_PLATEAU in
      let? max_interest_rate := read_i128 body OFF_MAX_IR in
      let? protocol_ir_fee := read_i128 body OFF_PROTOCOL_IR_FEE in
      let? curve_type := read_byte body OFF_CURVE_TYPE in
      let? zero_util_rate := read_u32 body OFF_ZERO_UTIL_RATE in
      let? hundred_util_rate := read_u32 body OFF_HUNDRED_UTIL_RATE in
      let? points := read_points body in
      let? oracle_setup := read_byte body OFF_ORACLE_SETUP in
      let? oracles := read_oracles body in
      Ok {| bv_mint := mint; bv_liquidity_vault := liquidity_vault; bv_lva_bump := lva_bump;
            bv_asset_share_value_fp48 := asset_share_value;
            bv_liability_share_value_fp48 := liability_share_value;
            bv_total_asset_shares_fp48 := total_asset_shares;
            bv_total_liability_shares_fp48 := total_liability_shares;
            bv_optimal_utilization_fp48 := optimal_utilization;
            bv_plateau_interest_rate_fp48 := plateau_interest_rate;
            bv_max_interest_rate_fp48 := max_interest_rate;
            bv_protocol_ir_fee_fp48 := protocol_ir_fee; bv_curve_type := curve_type;
            bv_zero_util_rate_u32 := zero_util_rate;
            bv_hundred_util_rate_u32 := hundred_util_rate; bv_points := points;
            bv_oracle_setup := oracle_setup; bv_oracles := oracles |}.

(** ** The documented layout

    Field sizes of the account body, in order, from the layout comment of the
    source (lines 31-65): the body is [mint .. last_update] (288 bytes), the
    [BankConfig] (544 bytes, the [InterestRateConfig] inside) and an unread
    tail. *)
Definition bank_layout : list nat :=
  (* 0 *) [32; 1; 32; 7; 16; 16; 32; 1; 1] ++ (* mint .. liquidity_vault_authority_bump *)
  (* 9 *) [32; 1; 1; 4; 16] ++               (* insurance vault, its bumps, pad, fees *)
  (* 14 *) [32; 1; 1; 6; 16] ++              (* fee vault, its bumps, pad, fees *)
  (* 19 *) [16; 16; 8] ++                    (* total liability and asset shares, last_update *)
  (* 22 *) [16; 16; 16; 16; 8] ++            (* weights, deposit_limit *)
  (* 27 *) [16; 16; 16; 16; 16; 16; 16; 16] ++ (* optimal .. origination fee *)
  (* 35 *) [4; 4] ++                         (* zero and hundred util rates *)
  (* 37 *) [4; 4; 4; 4; 4; 4; 4; 4; 4; 4] ++ (* five (util, rate) points *)
  (* 47 *) [1; 63] ++                        (* curve_type, padding *)
  (* 49 *) [1; 1] ++                         (* operational_state, oracle_setup *)
  (* 51 *) [32; 32; 32; 32; 32] ++           (* oracle_keys *)
  (* 56 *) [70; 1024].                       (* rest of the config, of the body *)

(** The view the decoder promises, from the fields' bytes. The field documentation of
    [oracles] only speaks of trailing zero keys; the code drops them all. *)
Definition view_of_fields (f : list bytes) : BankView :=
  let pk i := mkPubkey (f !!! i) in
  let i128 i := to_signed 128 (le_Z (f !!! i)) in
  let u32 i := le_Z (f !!! i) in
  {| bv_mint := pk 0%nat; bv_liquidity_vault := pk 6%nat; bv_lva_bump := le_Z (f !!! 8%nat);
     bv_asset_share_value_fp48 := i128 4%nat; bv_liability_share_value_fp48 := i128 5%nat;
     bv_total_asset_shares_fp48 := i128 20%nat; bv_total_liability_shares_fp48 := i128 19%nat;
     bv_optimal_utilization_fp48 := i128 27%nat; bv_plateau_interest_rate_fp48 := i128 28%nat;
     bv_max_interest_rate_fp48 := i128 29%nat; bv_protocol_ir_fee_fp48 := i128 33%nat;
     bv_curve_type := le_Z (f !!! 47%nat);
     bv_zero_util_rate_u32 := u32 35%nat; bv_hundred_util_rate_u32 := u32 36%nat;
     bv_points := [(u32 37%nat, u32 38%nat); (u32 39%nat, u32 40%nat); (u32 41%nat, u32 42%nat);
                   (u32 43%nat, u32 44%nat); (u32 45%nat, u32 46%nat)];
     bv_oracle_setup := le_Z (f !!! 50%nat);
     bv_oracles := filter (fun pk => pk <> Pubkey_default)
                     [pk 51%nat; pk 52%nat; pk 53%nat; pk 54%nat; pk 55%nat] |}.

(** ** Lemmas *)

Lemma get_range_app_skip {A} (a b : list A) i j :
  get_range (length a + i) (length a + j) (a ++ b) = get_range i j b.
Proof.
  unfold get_range. rewrite length_app.
  case_decide; case_decide; try lia; [|done].
  rewrite drop_app_ge by lia. by replace (length a + i - length a)%nat with i by lia;
    replace (length a + j - (length a + i))%nat with (j - i)%nat by lia.
Qed.

Lemma get_range_app_hit {A} (a b : list A) : get_range 0 (length a) (a ++ b) = Some a.
Proof.
  rewrite get_range_Some by (rewrite length_app; lia).
  by rewrite Nat.sub_0_r, drop_0, take_app_length.
Qed.

Lemma push_oracle_filter acc pk l :
  push_oracle acc pk ++ filter (fun pk => pk <> Pubkey_default) l =
  acc ++ filter (fun pk => pk <> Pubkey_default) (pk :: l).
Proof.
  unfold push_oracle. rewrite filter_cons. case_decide; [|done].
  by rewrite <-(assoc_L (++)).
Qed.

Fixpoint sum_nat (l : list nat) : nat := match l with [] => 0 | n :: l' => n + sum_nat l' end.

(** The [k]-th field sits after the fields before it. *)
Lemma get_range_field (f : list bytes) k c tail :
  f !! k = Some c ->
  get_range (sum_nat (take k (map length f))) (sum_nat (take k (map length f)) + length c)
    (concat f ++ tail) = Some c.
Proof.
  revert k. induction f as [|b f IH]; intros [|k] Hk; simplify_eq/=.
  - rewrite <-(assoc_L (++)). apply get_range_app_hit.
  - rewrite <-(assoc_L (++)), <-Nat.add_assoc, get_range_app_skip. by apply IH.
Qed.

Section layout.
Context (f : list bytes) (Hf : map length f = bank_layout).

Lemma field_lookup k n : bank_layout !! k = Some n ->
  exists c, f !! k = Some c /\ length c = n /\ f !!! k = c.
Proof using Hf.
  rewrite <-Hf, list_lookup_fmap. intros (c & Hc & ->)%fmap_Some_1.
  exists c. split_and!; try done. by apply list_lookup_total_correct.
Qed.

Lemma index_field k n off :
  bank_layout !! k = Some n -> sum_nat (take k bank_layout) = off ->
  index_range (concat f) off n = Ok (f !!! k).
Proof using Hf.
  intros (c & Hk & <- & ->)%field_lookup <-. unfold index_range.
  rewrite <-Hf. pose proof (get_range_field f k c [] Hk) as E.
  rewrite app_nil_r in E. by rewrite E.
Qed.

Lemma byte_field k off :
  bank_layout !! k = Some 1%nat -> sum_nat (take k bank_layout) = off ->
  read_byte (concat f) off = Ok (le_Z (f !!! k)).
Proof using Hf.
  intros H1 H2. pose proof (index_field k 1 off H1 H2) as E.
  unfold index_range, o_or_panic in E. unfold read_byte.
  destruct (get_range off (off + 1) (concat f)) as [r|] eqn:Hr; [|done]. injection E as <-.
  unfold get_range in Hr. case_decide as Hlen; [|done]. injection Hr as <-.
  destruct (lookup_lt_is_Some_2 (concat f) off ltac:(lia)) as [b Hb]. rewrite Hb.
  rewrite (drop_S _ _ _ Hb). replace (off + 1 - off)%nat with 1%nat by lia. simpl. by f_equal; lia.
Qed.
End layout.

(** Rewrites one read of field [k] (of [n] bytes, or a single byte). *)
Ltac read_field k n :=
  match goal with
  | Hf : map length ?f = bank_layout |- context [index_range (concat ?f) ?o n] =>
      rewrite (index_field f Hf k n o eq_refl eq_refl); cbn [obind app]
  end.
Ltac read_bump k :=
  match goal with
  | Hf : map length ?f = bank_layout |- context [read_byte (concat ?f) ?o] =>
      rewrite (byte_field f Hf k o eq_refl eq_refl); cbn [obind app]
  end.

(** Any byte string of the layout's total size splits into fields. *)
Lemma split_fields (sizes : list nat) (body : bytes) :
  length body = sum_nat sizes -> exists f, map length f = sizes /\ concat f = body.
Proof.
  revert body. induction sizes as [|n sizes IH]; intros body Hlen; simpl in Hlen.
  - exists []. split; [done|]. by destruct body.
  - destruct (IH (drop n body)) as (f & Hf & Hc); [rewrite length_drop; lia|].
    exists (take n body :: f). split; simpl.
    + rewrite length_take, Hf. f_equal. lia.
    + by rewrite Hc, take_drop.
Qed.

Lemma bank_decoder_ok f trailing :
  map length f = bank_layout ->
  try_from_account_data (BANK_DISCRIMINATOR ++ concat f ++ trailing) = Ok (view_of_fields f).
Proof.
  intros Hf.
  assert (Hlen : length (concat f) = BANK_BODY_SIZE).
  { rewrite length_concat, Hf. reflexivity. }
  unfold try_from_account_data.
  rewrite decide_False by (rewrite !length_app, Hlen; unfold BANK_ACCOUNT_SIZE, BANK_BODY_SIZE;
    simpl; lia).
  assert (Hd : index_range (BANK_DISCRIMINATOR ++ concat f ++ trailing) 0 DISCRIMINATOR_LEN
    = Ok BANK_DISCRIMINATOR).
  { unfold index_range. change (0 + DISCRIMINATOR_LEN)%nat with (length BANK_DISCRIMINATOR).
    by rewrite get_range_app_hit. }
  rewrite Hd. cbn [obind]. rewrite decide_False by (intros H; by apply H).
  assert (Hb : index_range (BANK_DISCRIMINATOR ++ concat f ++ trailing) DISCRIMINATOR_LEN
    BANK_BODY_SIZE = Ok (concat f)).
  { unfold index_range.
    change DISCRIMINATOR_LEN with (length BANK_DISCRIMINATOR + 0)%nat at 1.
    change (DISCRIMINATOR_LEN + BANK_BODY_SIZE)%nat
      with (length BANK_DISCRIMINATOR + BANK_BODY_SIZE)%nat.
    rewrite get_range_app_skip, <-Hlen. by rewrite get_range_app_hit. }
  rewrite Hb. cbn [obind].
  unfold read_points, read_oracles, NUM_CURVE_POINTS, MAX_ORACLE_KEYS.
  cbn [seq foldl obind]. unfold read_pubkey, read_i128, read_u32.
  read_field 0 32. read_field 6 32. read_bump 8. read_field 4 16. read_field 5 16.
  read_field 20 16. read_field 19 16. read_field 27 16. read_field 28 16. read_field 29 16.
  read_field 33 16. read_bump 47. read_field 35 4. read_field 36 4.
  read_field 37 4. read_field 38 4. read_field 39 4. read_field 40 4. read_field 41 4.
  read_field 42 4. read_field 43 4. read_field 44 4. read_field 45 4. read_field 46 4.
  read_bump 50. read_field 51 32. read_field 52 32. read_field 53 32. read_field 54 32.
  read_field 55 32.
  unfold view_of_fields. do 2 f_equal. symmetry. rewrite <-(app_nil_l (filter _ _)), <-!push_oracle_filter, filter_nil.
  apply app_nil_r.
Qed.

(** ** Properties *)

(** C25. The decoder reads the account layout the source documents: for any bytes
    of the documented fields, at their documented sizes and order, behind the
    marginfi discriminator and before any trailing bytes, decoding succeeds and
    every field of the view is the corresponding field's value, two's complement
    for the fixed-point ones. The oracles are the keys that are not all zero, in order:
    a zero key is dropped wherever it stands, not only at the end of the list
    ([interior_zero_oracle_dropped]). *)
Theorem bank_decoder_layout f trailing :
  map length f = bank_layout ->
  try_from_account_data (BANK_DISCRIMINATOR ++ concat f ++ trailing) = Ok (view_of_fields f).
Proof. apply bank_decoder_ok. Qed.

Definition example_fields : list bytes := map (fun n => replicate n Byte.x01) bank_layout.

Lemma bank_decoder_layout_witness :
  map length example_fields = bank_layout /\
  try_from_account_data (BANK_DISCRIMINATOR ++ concat example_fields ++ []) =
    Ok (view_of_fields example_fields) /\
  bv_zero_util_rate_u32 (view_of_fields example_fields) = 16843009%Z.
Proof.
  assert (map length example_fields = bank_layout) as H by reflexivity.
  split; [exact H|]. split; [exact (bank_decoder_layout example_fields [] H)|]. reflexivity.
Defined.

(** The five oracle keys k1, 0, k2, 0, 0 are read as k1, k2: the key at index 2 moves to
    index 1. *)
Example interior_zero_oracle_dropped :
  let k1 := replicate 32 Byte.x01 in let k2 := replicate 32 Byte.x02 in
  let zero := replicate 32 Byte.x00 in
  let fields := take 51 example_fields ++ [k1; zero; k2; zero; zero] ++ drop 56 example_fields in
  map length fields = bank_layout /\
  match try_from_account_data (BANK_DISCRIMINATOR ++ concat fields) with
  | Ok v => bv_oracles v = [mkPubkey k1; mkPubkey k2]
  | _ => False
  end.
Proof. vm_compute. by split. Qed.

Lemma decode_total data :
  is_panic (try_from_account_data data) = false /\
  ((exists v, try_from_account_data data = Ok v) <->
   (BANK_ACCOUNT_SIZE <= length data)%nat /\ take DISCRIMINATOR_LEN data = BANK_DISCRIMINATOR).
Proof.
  destruct (decide (length data < BANK_ACCOUNT_SIZE)%nat) as [Hlt|Hge].
  { unfold try_from_account_data. rewrite decide_True by done. split; [done|].
    split; [by intros []|]. intros [? _]. lia. }
  assert (Hd : index_range data 0 DISCRIMINATOR_LEN = Ok (take DISCRIMINATOR_LEN data)).
  { unfold index_range. rewrite get_range_Some; [by rewrite Nat.add_0_l, Nat.sub_0_r, drop_0|].
    unfold DISCRIMINATOR_LEN, BANK_ACCOUNT_SIZE in *. lia. }
  destruct (decide (take DISCRIMINATOR_LEN data = BANK_DISCRIMINATOR)) as [Hdisc|Hdisc].
  2: { unfold try_from_account_data. rewrite decide_False by done. rewrite Hd. cbn [obind].
       rewrite decide_True by done. split; [done|]. split; [by intros []|]. by intros [_ ?]. }
  destruct (split_fields bank_layout (take BANK_BODY_SIZE (drop DISCRIMINATOR_LEN data)))
    as (f & Hf & Hcat).
  { rewrite length_take, length_drop. unfold DISCRIMINATOR_LEN, BANK_BODY_SIZE, BANK_ACCOUNT_SIZE in *.
    change (sum_nat bank_layout) with 1856%nat. lia. }
  assert (Hdata : data = BANK_DISCRIMINATOR ++ concat f ++ drop BANK_ACCOUNT_SIZE data).
  { rewrite <-Hdisc, Hcat. rewrite <-(take_drop DISCRIMINATOR_LEN data) at 1. f_equal.
    rewrite <-(take_drop BANK_BODY_SIZE (drop DISCRIMINATOR_LEN data)) at 1. f_equal.
    by rewrite drop_drop. }
  assert (Hok : try_from_account_data data = Ok (view_of_fields f)).
  { rewrite Hdata. by apply bank_decoder_ok. }
  rewrite Hok. split; [done|]. split; [intros _; split; [lia|done]|eauto].
Qed.

(** C26. Every account decodes or is refused: data shorter than a bank account or
    with another discriminator gives an error, all other data gives a view, and no
    slice of the decoder is ever out of range. *)
Theorem bank_decoder_total data :
  is_panic (try_from_account_data data) = false /\
  ((exists v, try_from_account_data data = Ok v) <->
   (BANK_ACCOUNT_SIZE <= length data)%nat /\ take DISCRIMINATOR_LEN data = BANK_DISCRIMINATOR).
Proof. apply decode_total. Qed.
