(* ===== verification/ChainReader.v ===== *)
(** chain_reader.rs: account discovery and decoding, the market cache, and the
    reads of a market's dynamic region. *)

From Stdlib Require Import ZArith Lia.
From stdpp Require Import gmap strings list pretty sorting.
From S2P Require Import Prelude Solana State Effects Logic Rpc.

Local Open Scope crank_scope.

(** ** Definitions *)

Definition MARKET_CACHE_TTL : Duration := from_secs 30.

Module loan_offsets.
Definition MARKET : nat := 8.
Definition STATE : nat := 196.
Definition LOAN_TYPE : nat := 197.
Definition LENDER_KIND : nat := 201.
Definition LENDER_SUB_VAULT_ID : nat := 202.
Definition LENDER_GLOBAL_VAULT : nat := 208.
End loan_offsets.

(** [for x in l { let Ok(y) = f(x) else { continue }; out.push(y) }]. *)
Fixpoint decode_each {A B} (f : A -> outcome B) (l : list A) : outcome (list B) :=
  match l with
  | [] => Ok []
  | x :: l' =>
      match f x with
      | Ok y => let? ys := decode_each f l' in Ok (y :: ys)
      | Err _ => decode_each f l'
      | Panic s => Panic s
      end
  end.

(** [for x in l { out.extend(f(x)) }]. *)
Fixpoint concat_each {A B} (f : A -> outcome (list B)) (l : list A) : outcome (list B) :=
  match l with
  | [] => Ok []
  | x :: l' => let? ys := f x in let? zs := concat_each f l' in Ok (ys ++ zs)
  end.

Section chain_reader.
Context {X : Type} `{!Env X} {CR : Crates} {YD : YDelta}.
Implicit Types cr : ChainReader.

(** *** Decoding *)

Definition market_view_from_fixed (address : Pubkey) (fixed : MarketFixed) : MarketView :=
  {| mv_address := address;
     mv_debt_mint := mf_debt_mint fixed;
     mv_collateral_mint := mf_collateral_mint fixed;
     mv_debt_bank := mf_debt_lending_pool fixed;
     mv_collateral_bank := mf_collateral_lending_pool fixed;
     mv_is_paused := negb (mf_is_paused fixed =? 0)%Z;
     mv_admin := mf_admin fixed;
     mv_grace_period_seconds := mf_grace_period_seconds fixed;
     mv_liquidation_keeper_bps := mf_liquidation_keeper_bps fixed;
     mv_liquidation_protocol_bps := mf_liquidation_protocol_bps fixed |}.

Definition too_small (what : string) (data : bytes) (size : nat) : Error :=
  [what +:+ " account too small: " +:+ pretty (length data) +:+ " < " +:+ pretty size].

Definition decode_market_fixed (data : bytes) : outcome MarketFixed :=
  if decide (length data < MARKET_FIXED_SIZE)%nat then
    Err (too_small "market" data MARKET_FIXED_SIZE)
  else
    let? fixed := o_or_panic "from_bytes: TargetAlignmentGreaterAndInputNotAligned"
                    (market_from_bytes (take MARKET_FIXED_SIZE data)) in
    if negb (mf_discriminator fixed =? MARKET_FIXED_DISCRIMINANT)%Z then
      Err ["market discriminator mismatch: got " +:+ show_hex (mf_discriminator fixed)]
    else Ok fixed.

Definition decode_loan_fixed (data : bytes) : outcome LoanFixed :=
  if decide (length data < LOAN_FIXED_SIZE)%nat then
    Err (too_small "loan" data LOAN_FIXED_SIZE)
  else
    let? loan := o_or_panic "from_bytes: TargetAlignmentGreaterAndInputNotAligned"
                   (loan_from_bytes (take LOAN_FIXED_SIZE data)) in
    if negb (lf_discriminator loan =? LOAN_FIXED_DISCRIMINANT)%Z then
      Err ["loan discriminator mismatch: got " +:+ show_hex (lf_discriminator loan)]
    else Ok loan.

Definition split_market (data : bytes) : outcome (MarketFixed * bytes) :=
  let? fixed := decode_market_fixed data in
  Ok (fixed, drop MARKET_FIXED_SIZE data).

Definition loan_view (pk : Pubkey) (loan : LoanFixed) : LoanView :=
  {| lv_address := pk; lv_market := lf_market loan; lv_state := lf_state loan;
     lv_loan_type := lf_loan_type loan;
     lv_principal_debt_atoms := lf_principal_debt_atoms loan;
     lv_outstanding_debt_atoms := lf_outstanding_debt_atoms loan;
     lv_matures_at_unix := lf_matures_at_unix loan;
     lv_matched_loan_sequence := lf_matched_loan_sequence loan;
     lv_lender_kind := lf_lender_kind loan;
     lv_lender_global_vault := lf_lender_global_vault loan;
     lv_lender_sub_vault_id := lf_lender_sub_vault_id loan;
     lv_borrower_rate_bps := lf_borrower_rate_bps loan;
     lv_lender_rate_bps := lf_lender_rate_bps loan |}.

Definition decode_loans (accts : list (Pubkey * Account)) : outcome (list LoanView) :=
  decode_each (fun '(pk, acct) =>
    let? loan := decode_loan_fixed (acct_data acct) in Ok (loan_view pk loan)) accts.

(** *** Program accounts *)

Definition get_program_accounts cr (filters : list RpcFilterType) :
  M X (list (Pubkey * Account)) :=
  with_context ("getProgramAccounts(" +:+ show_pk (cr_program_id cr) +:+ ")")
    (let! r := get_program_accounts_with_config (cr_program_id cr) filters in try_client r).

Definition discriminator_filter (discriminant : Z) : RpcFilterType :=
  Memcmp 0 (Base58 (bs58_encode (le_bytes 8 discriminant))).

Definition loan_discriminator_filter : RpcFilterType :=
  discriminator_filter LOAN_FIXED_DISCRIMINANT.

(** [out.sort_by_key(|m| m.address.to_bytes())]. *)
Definition market_leb (a b : MarketView) : bool := Pubkey_leb (mv_address a) (mv_address b).

Definition decode_markets (accounts : list (Pubkey * Account)) : outcome (list MarketView) :=
  let? out := decode_each (fun '(pk, acct) =>
    let? fixed := decode_market_fixed (acct_data acct) in
    Ok (market_view_from_fixed pk fixed)) accounts in
  Ok (stable_sort market_leb out).

Definition fetch_markets cr : M X (list MarketView) :=
  let! accounts := get_program_accounts cr [discriminator_filter MARKET_FIXED_DISCRIMINANT] in
  lift (decode_markets accounts).

Definition list_loans_for_market cr (market : Pubkey) : M X (list LoanView) :=
  let filters :=
    [DataSize (Z.of_nat LOAN_FIXED_SIZE); loan_discriminator_filter;
     Memcmp loan_offsets.MARKET (Base58 (show_pk market))] in
  let! accts := get_program_accounts cr filters in
  lift (decode_loans accts).

Definition list_repaid_vault_loans cr : M X (list LoanView) :=
  let filters :=
    [DataSize (Z.of_nat LOAN_FIXED_SIZE); loan_discriminator_filter;
     Memcmp loan_offsets.STATE (Bytes [Z_byte LoanState_Repaid]);
     Memcmp loan_offsets.LENDER_KIND (Bytes [Z_byte OWNER_KIND_SUB_VAULT])] in
  let! accts := get_program_accounts cr filters in
  lift (decode_loans accts).

(** *** The market cache *)

Definition markets_cache_get : M X (option (list MarketView)) :=
  let! cache := shared_op (fun s => (sh_markets s, s)) in
  match cache with
  | None => ret None
  | Some c =>
      let! now := now_instant in
      ret (if (saturating_duration_since now (mc_fetched_at c) <? MARKET_CACHE_TTL)%Z
           then Some (mc_markets c) else None)
  end.

Definition markets_cache_stale : M X (option (list MarketView)) :=
  shared_op (fun s => (mc_markets <$> sh_markets s, s)).

Definition markets_cache_put (markets : list MarketView) : M X unit :=
  shared_op_at (fun now s =>
    (tt, mkShared (sh_stop s) (sh_fee_payer_low s)
           (Some {| mc_fetched_at := now; mc_markets := markets |})
           (sh_banks s) (sh_ata_balances s))).

Definition list_markets cr : M X (list MarketView) :=
  let! hit := markets_cache_get in
  match hit with
  | Some cached => ret cached
  | None =>
      let! fresh := fetch_markets cr in
      match fresh with
      | [] =>
          let! stale := markets_cache_stale in
          match stale with
          | Some stale => ret stale
          | None => ret fresh
          end
      | _ => markets_cache_put fresh ;; ret fresh
      end
  end.

Definition refresh_markets cr : M X (list MarketView) :=
  let! fresh := fetch_markets cr in
  match fresh with
  | [] => ret fresh
  | _ => markets_cache_put fresh ;; ret fresh
  end.

(** *** Single-market reads *)

Definition market_data (market : Pubkey) (suffix : string) : M X bytes :=
  let! data := get_account_data market in
  lift (o_of_option ["market " +:+ show_pk market +:+ suffix] data).

Definition read_market (market : Pubkey) : M X MarketView :=
  let! data := market_data market " not found" in
  lift (let? fixed := decode_market_fixed data in Ok (market_view_from_fixed market fixed)).

Definition pending_of (market : Pubkey) (node : MatchedLoan) : PendingMatchedLoan :=
  {| pm_market := market; pm_sequence := ml_sequence node; pm_flags := ml_flags node;
     pm_loan_type := ml_loan_type node; pm_lender_seat_index := ml_lender_seat_index node;
     pm_borrower_seat_index := ml_borrower_seat_index node;
     pm_principal_atoms := ml_principal_atoms node;
     pm_origination_atoms := ml_origination_atoms node |}.

Definition tree_panic : string := "index out of range in hypertree walk".

Definition decode_pending (market : Pubkey) (data : bytes) : outcome (list PendingMatchedLoan) :=
  let? (fixed, dynamic) := split_market data in
  let root := mf_matched_loans_root_index fixed in
  if (root =? NIL)%Z then Ok []
  else
    let? nodes := o_or_panic tree_panic (iter_matched_loans dynamic root NIL) in
    Ok (map (pending_of market) nodes).

Definition read_pending_matched_loans (market : Pubkey) : M X (list PendingMatchedLoan) :=
  let! data := market_data market " not found" in
  lift (decode_pending market data).

Definition seat_view (seat : ClaimedSeat) : SeatView :=
  {| sw_owner := cs_owner seat; sw_owner_kind := cs_owner_kind seat;
     sw_sub_vault_id := cs_sub_vault_id seat |}.

Definition read_seat_at (market_data : bytes) (index : Z) : outcome SeatView :=
  if (index =? NIL)%Z then Err ["seat index is NIL"]
  else if decide (length market_data < MARKET_FIXED_SIZE)%nat
  then Panic "range start index out of range"
  else
    let? seat := o_or_panic tree_panic
      (get_helper_seat (drop MARKET_FIXED_SIZE market_data) index) in
    Ok (seat_view seat).

(** *** Sub-vaults *)

Definition sub_vault_view (pk : Pubkey) (header : GlobalVaultFixed) (sub_vault : SubVault) :
  SubVaultView :=
  {| vw_vault := pk; vw_vault_mint := gv_mint header; vw_vault_bank := gv_lending_pool header;
     vw_sub_vault_id := sv_sub_vault_id sub_vault; vw_curator := sv_curator sub_vault;
     vw_accumulated_curator_fee_atoms := sv_accumulated_curator_fee_atoms sub_vault;
     vw_vault_is_paused := negb (gv_is_paused header =? 0)%Z;
     vw_pending_claim_atoms := sv_pending_claim_atoms sub_vault;
     vw_is_sunset := negb (sv_is_sunset sub_vault =? 0)%Z |}.

Definition decode_vault '((pk, acct) : Pubkey * Account) : outcome (list SubVaultView) :=
  if decide (length (acct_data acct) < GLOBAL_VAULT_FIXED_SIZE)%nat then Ok []
  else
    match global_vault_try_from_bytes (take GLOBAL_VAULT_FIXED_SIZE (acct_data acct)) with
    | None => Ok []
    | Some header =>
        if negb (gv_discriminator header =? GLOBAL_VAULT_FIXED_DISCRIMINANT)%Z then Ok []
        else if (gv_sub_vaults_root_index header =? NIL)%Z then Ok []
        else
          let? subs := o_or_panic tree_panic
            (iter_sub_vaults (drop GLOBAL_VAULT_FIXED_SIZE (acct_data acct))
               (gv_sub_vaults_root_index header) NIL) in
          Ok (map (sub_vault_view pk header) subs)
    end.

Definition list_sub_vaults cr : M X (list SubVaultView) :=
  let! accts :=
    get_program_accounts cr [discriminator_filter GLOBAL_VAULT_FIXED_DISCRIMINANT] in
  lift (concat_each decode_vault accts).

(** *** Pending vault claims *)

Definition claim_of (market : MarketView) (seat : ClaimedSeat) : PendingVaultClaim :=
  {| pc_market := mv_address market; pc_debt_mint := mv_debt_mint market;
     pc_debt_bank := mv_debt_bank market; pc_lender_global_vault := cs_owner seat;
     pc_sub_vault_id := cs_sub_vault_id seat;
     pc_debt_withdrawable_shares := cs_debt_withdrawable_shares seat |}.

(** A vault-owned seat with shares to withdraw. *)
Definition seat_claimable (seat : ClaimedSeat) : bool :=
  (cs_owner_kind seat =? OWNER_KIND_SUB_VAULT)%Z &&
  negb (cs_debt_withdrawable_shares seat =? 0)%Z.

Definition decode_claims (market : MarketView) (data : bytes) :
  outcome (list PendingVaultClaim) :=
  match split_market data with
  | Panic s => Panic s
  | Err _ => Ok []
  | Ok (fixed, dynamic) =>
      if (mf_claimed_seats_root_index fixed =? NIL)%Z then Ok []
      else
        let? seats := o_or_panic tree_panic
          (iter_claimed_seats dynamic (mf_claimed_seats_root_index fixed) NIL) in
        Ok (map (claim_of market) (List.filter seat_claimable seats))
  end.

Definition list_pending_vault_claims (markets : list MarketView) :
  M X (list PendingVaultClaim) :=
  for_fold markets [] (fun out market =>
    if mv_is_paused market then ret out
    else
      let! data := get_account_data (mv_address market) in
      match data with
      | None => ret out
      | Some d => lift (let? rows := decode_claims market d in Ok (out ++ rows))
      end).

(** *** Orders *)

Definition join_order_with_seat (dynamic : bytes) (order : RestingOrder) :
  outcome (option OrderView) :=
  if (ro_trader_seat_index order =? NIL)%Z then Ok None
  else
    let? seat := o_or_panic tree_panic (get_helper_seat dynamic (ro_trader_seat_index order)) in
    Ok (Some {| ov_sequence := ro_sequence_number order; ov_side := ro_side order;
                ov_rate_bps := ro_rate_bps order; ov_term_seconds := ro_term_seconds order;
                ov_principal_atoms := ro_principal_atoms order; ov_owner := cs_owner seat;
                ov_owner_kind := cs_owner_kind seat;
                ov_sub_vault_id := cs_sub_vault_id seat |}).

Definition list_market_orders (market : Pubkey) : M X (list OrderView) :=
  let! data := market_data market " not found" in
  lift (let? (fixed, dynamic) := split_market data in
        if (mf_asks_root_index fixed =? NIL)%Z then Ok []
        else
          let? orders := o_or_panic tree_panic
            (iter_bookside dynamic (mf_asks_root_index fixed) (mf_asks_best_index fixed)) in
          concat_each (fun order =>
            let? v := join_order_with_seat dynamic order in
            Ok (match v with Some v => [v] | None => [] end)) orders).

Definition rate_crossed (data : bytes) : outcome bool :=
  let? (fixed, dynamic) := split_market data in
  if ((mf_bids_best_index fixed =? NIL) || (mf_asks_best_index fixed =? NIL))%Z then Ok false
  else
    let? best_bid := o_or_panic tree_panic (get_helper_order dynamic (mf_bids_best_index fixed)) in
    let? best_ask := o_or_panic tree_panic (get_helper_order dynamic (mf_asks_best_index fixed)) in
    Ok (ro_rate_bps best_bid >=? ro_rate_bps best_ask)%Z.

Definition market_is_rate_crossed (market : Pubkey) : M X bool :=
  let! data := market_data market " not found" in
  lift (rate_crossed data).

Definition health : M X unit :=
  let! _ := with_context "rpc.get_slot" (let! r := get_slot in try_client r) in ret tt.
End chain_reader.

(** ** Lemmas *)

Definition ok_of {A} (o : outcome A) : option A :=
  match o with Ok a => Some a | _ => None end.

(** [decode_each] keeps the decodable elements, in order; it fails on none, and
    panics only where an element does. *)
Lemma decode_each_cases {A B} (f : A -> outcome B) l :
  (decode_each f l = Ok (omap (fun x => ok_of (f x)) l)) \/
  (exists x s, x ∈ l /\ f x = Panic s /\ decode_each f l = Panic s).
Proof.
  induction l as [|x l IH]; [by left|]. cbn [decode_each omap list_omap].
  destruct (f x) as [y|e|s] eqn:Hf; cbn [ok_of].
  - destruct IH as [->|(z & s & Hz & Hs & ->)]; [by left|]. right. exists z, s.
    split_and!; [by right|done|done].
  - destruct IH as [IH|(z & s & Hz & Hs & IH)]; [by left|]. right. exists z, s.
    split_and!; [by right|done|done].
  - right. exists x, s. split_and!; [by left|done|done].
Qed.

Lemma decode_each_ok {A B} (f : A -> outcome B) l ys :
  decode_each f l = Ok ys -> ys = omap (fun x => ok_of (f x)) l.
Proof. destruct (decode_each_cases f l) as [->|(? & ? & ? & ? & ->)]; congruence. Qed.

Lemma decode_each_not_err {A B} (f : A -> outcome B) l e : decode_each f l <> Err e.
Proof. destruct (decode_each_cases f l) as [->|(? & ? & ? & ? & ->)]; congruence. Qed.

Lemma market_leb_total a b : market_leb a b = false -> market_leb b a = true.
Proof. apply Pubkey_leb_total. Qed.
#[export] Hint Resolve market_leb_total : crank.

Section chain_lemmas.
Context {X : Type} `{!Env X} {CR : Crates} {YD : YDelta}.
Implicit Types cr : ChainReader.

Lemma quiet_get_program_accounts cr fs : keeps quiet_run (get_program_accounts cr fs).
Proof. unfold get_program_accounts, get_program_accounts_with_config. keeps_go. Qed.

Lemma quiet_fetch_markets cr : keeps quiet_run (fetch_markets cr).
Proof. unfold fetch_markets. keeps_go. apply quiet_get_program_accounts. Qed.

Lemma quiet_markets_cache_put ms : keeps quiet_run (markets_cache_put ms).
Proof. unfold markets_cache_put. keeps_go. Qed.

Lemma quiet_list_markets cr : keeps quiet_run (list_markets cr).
Proof.
  unfold list_markets, markets_cache_get, markets_cache_stale.
  keeps_go; eauto using quiet_fetch_markets, quiet_markets_cache_put.
Qed.

Lemma quiet_list_loans cr market : keeps quiet_run (list_loans_for_market cr market).
Proof. unfold list_loans_for_market. keeps_go. apply quiet_get_program_accounts. Qed.

Lemma quiet_list_sub_vaults cr : keeps quiet_run (list_sub_vaults cr).
Proof. unfold list_sub_vaults. keeps_go. apply quiet_get_program_accounts. Qed.

Lemma quiet_market_data market s : keeps quiet_run (market_data market s).
Proof. unfold market_data. keeps_go. Qed.

Lemma quiet_read_pending market : keeps quiet_run (read_pending_matched_loans market).
Proof. unfold read_pending_matched_loans. keeps_go. apply quiet_market_data. Qed.

Lemma quiet_rate_crossed market : keeps quiet_run (market_is_rate_crossed market).
Proof. unfold market_is_rate_crossed. keeps_go. apply quiet_market_data. Qed.

Lemma quiet_list_pending_claims ms : keeps quiet_run (list_pending_vault_claims ms).
Proof. unfold list_pending_vault_claims. keeps_go. Qed.
End chain_lemmas.

#[export] Hint Resolve quiet_get_program_accounts quiet_list_markets quiet_list_loans
  quiet_list_sub_vaults quiet_market_data quiet_read_pending quiet_rate_crossed
  quiet_list_pending_claims : crank.

(** ** Properties *)

Section chain_properties.
Context {X : Type} `{!Env X} {CR : Crates} {YD : YDelta}.
Implicit Types cr : ChainReader.

(** The bytes of an account that the program crate reads a header from, if there are
    enough of them, and whether it refuses their alignment. *)
Definition header_of {A} (size : nat) (from_bytes : bytes -> option A) (acct : Account) : option A :=
  if decide (size <= length (acct_data acct))%nat
  then from_bytes (take size (acct_data acct)) else None.
Definition aligned {A} (size : nat) (from_bytes : bytes -> option A) (acct : Account) : Prop :=
  (size <= length (acct_data acct))%nat -> from_bytes (take size (acct_data acct)) <> None.

(** What one program account says, when it is a market or a loan. *)
Definition market_of '((pk, acct) : Pubkey * Account) : option MarketView :=
  f ← header_of MARKET_FIXED_SIZE market_from_bytes acct;
  if decide (mf_discriminator f = MARKET_FIXED_DISCRIMINANT) then
    Some {| mv_address := pk; mv_debt_mint := mf_debt_mint f;
            mv_collateral_mint := mf_collateral_mint f; mv_debt_bank := mf_debt_lending_pool f;
            mv_collateral_bank := mf_collateral_lending_pool f;
            mv_is_paused := bool_decide (mf_is_paused f <> 0%Z); mv_admin := mf_admin f;
            mv_grace_period_seconds := mf_grace_period_seconds f;
            mv_liquidation_keeper_bps := mf_liquidation_keeper_bps f;
            mv_liquidation_protocol_bps := mf_liquidation_protocol_bps f |}
  else None.
Definition loan_of '((pk, acct) : Pubkey * Account) : option LoanView :=
  l ← header_of LOAN_FIXED_SIZE loan_from_bytes acct;
  if decide (lf_discriminator l = LOAN_FIXED_DISCRIMINANT) then
    Some {| lv_address := pk; lv_market := lf_market l; lv_state := lf_state l;
            lv_loan_type := lf_loan_type l;
            lv_principal_debt_atoms := lf_principal_debt_atoms l;
            lv_outstanding_debt_atoms := lf_outstanding_debt_atoms l;
            lv_matures_at_unix := lf_matures_at_unix l;
            lv_matched_loan_sequence := lf_matched_loan_sequence l;
            lv_lender_kind := lf_lender_kind l;
            lv_lender_global_vault := lf_lender_global_vault l;
            lv_lender_sub_vault_id := lf_lender_sub_vault_id l;
            lv_borrower_rate_bps := lf_borrower_rate_bps l;
            lv_lender_rate_bps := lf_lender_rate_bps l |}
  else None.

(** One account: what its decoding makes of it. *)
Lemma market_decodes pk acct :
  match (let? fixed := decode_market_fixed (acct_data acct) in
         Ok (market_view_from_fixed pk fixed)) with
  | Ok m => market_of (pk, acct) = Some m /\ aligned MARKET_FIXED_SIZE market_from_bytes acct
  | Err _ => market_of (pk, acct) = None /\ aligned MARKET_FIXED_SIZE market_from_bytes acct
  | Panic _ => ~ aligned MARKET_FIXED_SIZE market_from_bytes acct
  end.
Proof.
  unfold decode_market_fixed, market_of, header_of, aligned.
  destruct (decide (length (acct_data acct) < MARKET_FIXED_SIZE)%nat) as [Hlt|Hge].
  { cbn. rewrite decide_False by lia. split; [done|lia]. }
  rewrite decide_True by lia.
  destruct (market_from_bytes _) as [f|]; cbn; [|intros H; apply H; [lia|done]].
  destruct (Z.eqb_spec (mf_discriminator f) MARKET_FIXED_DISCRIMINANT) as [Hd|Hd]; cbn.
  - rewrite decide_True by done. split; [|done]. unfold market_view_from_fixed. do 2 f_equal.
    destruct (Z.eqb_spec (mf_is_paused f) 0%Z); cbn;
      [by apply bool_decide_eq_false; intros H|by apply bool_decide_eq_true].
  - by rewrite decide_False.
Qed.

Lemma loan_decodes pk acct :
  match (let? loan := decode_loan_fixed (acct_data acct) in Ok (loan_view pk loan)) with
  | Ok l => loan_of (pk, acct) = Some l /\ aligned LOAN_FIXED_SIZE loan_from_bytes acct
  | Err _ => loan_of (pk, acct) = None /\ aligned LOAN_FIXED_SIZE loan_from_bytes acct
  | Panic _ => ~ aligned LOAN_FIXED_SIZE loan_from_bytes acct
  end.
Proof.
  unfold decode_loan_fixed, loan_of, header_of, aligned.
  destruct (decide (length (acct_data acct) < LOAN_FIXED_SIZE)%nat) as [Hlt|Hge].
  { cbn. rewrite decide_False by lia. split; [done|lia]. }
  rewrite decide_True by lia.
  destruct (loan_from_bytes _) as [f|]; cbn; [|intros H; apply H; [lia|done]].
  destruct (Z.eqb_spec (lf_discriminator f) LOAN_FIXED_DISCRIMINANT) as [Hd|Hd]; cbn.
  - by rewrite decide_True.
  - by rewrite decide_False.
Qed.

(** A walk that skips failures, against what each element says. *)
Section each_spec.
Context {A B : Type} (f : A -> outcome B) (g : A -> option B) (ok : A -> Prop).
Hypothesis cases : forall x, match f x with
  | Ok y => g x = Some y /\ ok x | Err _ => g x = None /\ ok x | Panic _ => ~ ok x end.

Lemma decode_each_Ok l ys : decode_each f l = Ok ys -> Forall ok l /\ ys = omap g l.
Proof.
  revert ys. induction l as [|x l IH]; intros ys; cbn [decode_each omap list_omap]; [by intros [= <-]|].
  pose proof (cases x) as Hx. destruct (f x) as [y|e|s]; [| |done].
  - destruct Hx as [-> Hok]. destruct (decode_each f l) as [zs|e|s]; [|done..]. intros [= <-].
    destruct (IH zs eq_refl) as [H1 ->]. by split; [constructor|].
  - destruct Hx as [-> Hok]. intros E. destruct (IH ys E) as [H1 ->]. by split; [constructor|].
Qed.

Lemma decode_each_spec l :
  (Forall ok l -> decode_each f l = Ok (omap g l)) /\
  (~ Forall ok l -> exists s, decode_each f l = Panic s).
Proof.
  destruct (decode_each_cases f l) as [E|(x & s & Hx & Hs & E)].
  - destruct (decode_each_Ok _ _ E) as [Hall Hg]. rewrite E, Hg. by split.
  - split; [|by exists s]. rewrite Forall_forall. intros Hall. pose proof (cases x) as H.
    rewrite Hs in H. by destruct H; apply Hall.
Qed.
End each_spec.

Lemma decode_markets_spec accts :
  (Forall (fun pa => aligned MARKET_FIXED_SIZE market_from_bytes pa.2) accts ->
   exists ms, decode_markets accts = Ok ms /\
     Sorted (fun a b => market_leb a b = true) ms /\ ms ≡ₚ omap market_of accts) /\
  (~ Forall (fun pa => aligned MARKET_FIXED_SIZE market_from_bytes pa.2) accts ->
   exists s, decode_markets accts = Panic s).
Proof.
  destruct (decode_each_spec (fun '(pk, acct) =>
      let? fixed := decode_market_fixed (acct_data acct) in Ok (market_view_from_fixed pk fixed))
    market_of (fun pa => aligned MARKET_FIXED_SIZE market_from_bytes pa.2)
    ltac:(intros [pk acct]; apply market_decodes) accts) as [H1 H2].
  unfold decode_markets. split.
  - intros Ha. rewrite (H1 Ha). cbn. eexists. split; [done|]. split.
    + apply stable_sort_Sorted. eauto with crank.
    + by rewrite stable_sort_perm.
  - intros Ha. destruct (H2 Ha) as [s ->]. by exists s.
Qed.

Lemma decode_markets_ok accts ms :
  decode_markets accts = Ok ms ->
  Sorted (fun a b => market_leb a b = true) ms /\ ms ≡ₚ omap market_of accts.
Proof.
  unfold decode_markets. destruct (decode_each _ accts) as [out|e|s] eqn:E; [|done..].
  apply (decode_each_Ok _ market_of (fun pa => aligned MARKET_FIXED_SIZE market_from_bytes pa.2)) in E
    as [_ ->]; [|intros [pk acct]; apply market_decodes].
  intros [= <-]. split; [|by rewrite stable_sort_perm].
  apply stable_sort_Sorted. eauto with crank.
Qed.

(** C31. Discovery returns what the program accounts say and skips the rest: an account
    that is long enough, reads as a market header and has the market discriminator gives
    one view, field by field; the others give none, and none makes the listing fail. The
    markets come sorted by address, the loans in the node's order. The one exception is an
    account whose bytes the program crate refuses to read for their alignment: it ends the
    listing, and the process, with a panic. *)
Theorem discovery_exact (accts : list (Pubkey * Account)) :
  (Forall (fun pa => aligned MARKET_FIXED_SIZE market_from_bytes pa.2) accts ->
   exists ms, decode_markets accts = Ok ms /\
     Sorted (fun a b => market_leb a b = true) ms /\ ms ≡ₚ omap market_of accts) /\
  (~ Forall (fun pa => aligned MARKET_FIXED_SIZE market_from_bytes pa.2) accts ->
   exists s, decode_markets accts = Panic s) /\
  (Forall (fun pa => aligned LOAN_FIXED_SIZE loan_from_bytes pa.2) accts ->
   decode_loans accts = Ok (omap loan_of accts)) /\
  (~ Forall (fun pa => aligned LOAN_FIXED_SIZE loan_from_bytes pa.2) accts ->
   exists s, decode_loans accts = Panic s).
Proof.
  destruct (decode_markets_spec accts). split_and!; [done|done|..];
    apply (decode_each_spec _ loan_of (fun pa => aligned LOAN_FIXED_SIZE loan_from_bytes pa.2));
    intros [pk acct]; apply loan_decodes.
Qed.

(** How [list_markets] ends when the snapshot it saw could not serve, from the state [x] of
    the node and the shared memory [s] at that point. *)
Definition miss_post cr (x : X) (s : Shared) (r : outcome (list MarketView)) (s' : Shared) : Prop :=
  let '(answer, x1) := cl_get_program_accounts (cr_program_id cr)
                         [discriminator_filter MARKET_FIXED_DISCRIMINANT] x in
  match answer with
  | inl e =>
      r = Err (("getProgramAccounts(" +:+ show_pk (cr_program_id cr) +:+ ")") :: ce_chain e)
      /\ s' = s
  | inr accts =>
      match decode_markets accts with
      | Ok [] =>
          let s1 := (interfere x1 s).2 in
          r = Ok (default [] (mc_markets <$> sh_markets s1)) /\ s' = s1
      | Ok ms =>
          let '(x2, s1) := interfere x1 s in
          let now := (instant_now x2).1 in
          r = Ok ms /\
          s' = mkShared (sh_stop s1) (sh_fee_payer_low s1)
                 (Some {| mc_fetched_at := now; mc_markets := ms |}) (sh_banks s1)
                 (sh_ata_balances s1)
      | o => r = o /\ s' = s
      end
  end.

Lemma miss_spec cr (w : World X) :
  wp (let! fresh := fetch_markets cr in
      match fresh with
      | [] => let! stale := markets_cache_stale in
          match stale with Some stale => ret stale | None => ret fresh end
      | _ => markets_cache_put fresh ;; ret fresh
      end) (fun tr r w' =>
    tr = [EvRead (RdProgramAccounts (cr_program_id cr)
            [discriminator_filter MARKET_FIXED_DISCRIMINANT])] /\
    miss_post cr (ext w) (shared w) r (shared w')) w.
Proof.
  unfold miss_post, fetch_markets, get_program_accounts, get_program_accounts_with_config, read_call.
  do 5 wp_step. rewrite H. apply wp_try_client.
  destruct a as [e|accts]; cbn beta iota delta [ocontext app]; [by split|]. wp_step.
  destruct (decode_markets accts) as [[|m ms]|e|s] eqn:E; cbn beta iota; [..|by split|by split].
  - unfold markets_cache_stale. wp_step. wp_step. cbn [ext shared] in H0. rewrite H0. cbn [fst snd].
    destruct (sh_markets s') as [c|]; cbn; by wp_step.
  - unfold markets_cache_put. do 2 wp_step. cbn [ext shared] in H0, H1.
    rewrite H0, H1. by wp_step.
Qed.

(** C30. The market cache, on every branch, whatever the other tasks do to the shared
    memory before each access: a snapshot younger than 30 s is served without any RPC;
    otherwise the program accounts are read once; a failed read is an error that leaves the
    cache as it was; an empty answer never wipes a snapshot: the one that is there by then,
    however old, is served instead; any other answer is served, and cached with the time
    read under the lock and nothing else of the memory changed. *)
Theorem list_markets_cache_policy cr (w : World X) :
  let fetched := EvRead (RdProgramAccounts (cr_program_id cr)
                           [discriminator_filter MARKET_FIXED_DISCRIMINANT]) in
  let '(x, s) := interfere (ext w) (shared w) in
  wp (list_markets cr) (fun tr r w' =>
    match sh_markets s with
    | None => tr = [fetched] /\ miss_post cr x s r (shared w')
    | Some c =>
        let '(now, x1) := instant_now x in
        if (saturating_duration_since now (mc_fetched_at c) <? MARKET_CACHE_TTL)%Z
        then tr = [] /\ r = Ok (mc_markets c) /\ shared w' = s
        else tr = [fetched] /\ miss_post cr x1 s r (shared w')
    end) w.
Proof.
  cbv zeta. destruct (interfere (ext w) (shared w)) as [x s] eqn:Hint.
  unfold list_markets, markets_cache_get, now_instant. wp_step. wp_step. wp_step.
  rewrite Hint in H. injection H as <- <-. cbn [fst snd].
  destruct (sh_markets s) as [c|]; cbn beta iota.
  - wp_step. wp_step. cbn [ext] in H. rewrite H. wp_step.
    destruct (_ <? _)%Z; cbn beta iota; [by wp_step|apply miss_spec].
  - wp_step. apply miss_spec.
Qed.

Lemma decode_claims_not_err m d e : decode_claims m d <> Err e.
Proof.
  unfold decode_claims. destruct (split_market d) as [[f dyn]| |]; try done.
  destruct (_ =? _)%Z; [done|]. by destruct (iter_claimed_seats _ _ _).
Qed.

(** The claimed seats the node shows of one market: none for a paused, a missing or an
    undecodable one, [None] when reading them panics. *)
Definition seats_of (read : Pubkey -> option Account) (m : MarketView) : option (list ClaimedSeat) :=
  if mv_is_paused m then Some []
  else
    match read (mv_address m) with
    | None => Some []
    | Some acct =>
        if decide (length (acct_data acct) < MARKET_FIXED_SIZE)%nat then Some []
        else
          f ← market_from_bytes (take MARKET_FIXED_SIZE (acct_data acct));
          if decide (mf_discriminator f <> MARKET_FIXED_DISCRIMINANT \/
                     mf_claimed_seats_root_index f = NIL) then Some []
          else iter_claimed_seats (drop MARKET_FIXED_SIZE (acct_data acct))
                 (mf_claimed_seats_root_index f) NIL
    end.

(** The claim a seat gives rise to: its owner is a vault and it has shares to withdraw. *)
Definition claim_row (m : MarketView) (seat : ClaimedSeat) : option PendingVaultClaim :=
  if decide (cs_owner_kind seat = OWNER_KIND_SUB_VAULT /\ cs_debt_withdrawable_shares seat <> 0%Z)
  then Some {| pc_market := mv_address m; pc_debt_mint := mv_debt_mint m;
               pc_debt_bank := mv_debt_bank m; pc_lender_global_vault := cs_owner seat;
               pc_sub_vault_id := cs_sub_vault_id seat;
               pc_debt_withdrawable_shares := cs_debt_withdrawable_shares seat |}
  else None.

Lemma claim_rows m seats :
  map (claim_of m) (List.filter seat_claimable seats) = omap (claim_row m) seats.
Proof.
  induction seats as [|seat seats IH]; [done|]. cbn [List.filter omap list_omap].
  unfold claim_row at 1, seat_claimable at 1.
  destruct (Z.eqb_spec (cs_owner_kind seat) OWNER_KIND_SUB_VAULT),
    (Z.eqb_spec (cs_debt_withdrawable_shares seat) 0); cbn [andb negb];
    [rewrite decide_False by (by intros [])|rewrite decide_True by done|
     rewrite decide_False by (by intros [])..]; cbn [map]; by rewrite ?IH.
Qed.

(** The rows of one market, or a panic. *)
Lemma decode_claims_spec read m acct :
  mv_is_paused m = false -> read (mv_address m) = Some acct ->
  match seats_of read m with
  | Some seats => decode_claims m (acct_data acct) = Ok (omap (claim_row m) seats)
  | None => exists s, decode_claims m (acct_data acct) = Panic s
  end.
Proof.
  intros Hp Hr. unfold seats_of, decode_claims, split_market, decode_market_fixed. rewrite Hp, Hr.
  case_decide; [done|]. destruct (market_from_bytes _) as [f|]; cbn; [|by eexists].
  destruct (Z.eqb_spec (mf_discriminator f) MARKET_FIXED_DISCRIMINANT) as [Hd|Hd]; cbn;
    [|by rewrite decide_True by (by left)].
  destruct (Z.eqb_spec (mf_claimed_seats_root_index f) NIL) as [Hn|Hn]; cbn;
    [by rewrite decide_True by (by right)|]. rewrite decide_False by (by intros []).
  destruct (iter_claimed_seats _ _ _) as [seats|]; cbn; [by rewrite claim_rows|by eexists].
Qed.

(** One market of the walk. *)
Definition claims_step (out : list PendingVaultClaim) (market : MarketView) :
  M X (list PendingVaultClaim) :=
  if mv_is_paused market then ret out
  else let! data := get_account_data (mv_address market) in
    match data with
    | None => ret out
    | Some d => lift (let? rows := decode_claims market d in Ok (out ++ rows))
    end.

Lemma claims_step_spec (read : Pubkey -> option Account) out m (w : World X) :
  (forall p x, exists x', cl_get_account p x =
     (match read p with
      | Some acct => inr acct
      | None => inl (mkClientError CeOther ["AccountNotFound"]) end, x')) ->
  (forall p acct, read p = Some acct -> acct_data acct <> []) ->
  wp (claims_step out m) (fun tr r _ =>
    match seats_of read m with
    | Some seats => r = Ok (out ++ omap (claim_row m) seats) /\
        tr = (if mv_is_paused m then [] else [EvRead (RdAccount (mv_address m))])
    | None => is_panic r = true
    end) w.
Proof.
  intros Hread Hne. unfold claims_step. destruct (mv_is_paused m) eqn:Hp.
  { wp_step. unfold seats_of. rewrite Hp. by rewrite app_nil_r. }
  unfold get_account_data, get_account, read_call. wp_step. wp_step. wp_step.
  destruct (Hread (mv_address m) (ext w)) as [x1 Hx]. rewrite Hx in H. injection H as <- <-.
  destruct (read (mv_address m)) as [acct|] eqn:Hr.
  - rewrite decide_False by by eapply Hne. wp_step. wp_step.
    pose proof (decode_claims_spec read m acct Hp Hr) as Hd.
    destruct (seats_of read m) as [seats|]; [by rewrite Hd|by destruct Hd as [s ->]].
  - match goal with |- context [str_contains ?s ?p] => change (str_contains s p) with true end.
    cbn. wp_step. wp_step. unfold seats_of. rewrite Hp, Hr. by rewrite app_nil_r.
Qed.

(** C32. The pending claims are exactly, in order, those of the vault-owned seats with
    shares to withdraw of the markets that are not paused, market by market: against a node
    that answers every account read from [read], paused, missing and undecodable markets are
    skipped, and only the unpaused ones are read, once each. When the program crate panics
    on one of them, so does the walk. *)
Theorem pending_claims_exact (read : Pubkey -> option Account) markets (w : World X) :
  (forall p x, exists x', cl_get_account p x =
     (match read p with
      | Some acct => inr acct
      | None => inl (mkClientError CeOther ["AccountNotFound"]) end, x')) ->
  (forall p acct, read p = Some acct -> acct_data acct <> []) ->
  wp (list_pending_vault_claims markets) (fun tr r _ =>
    (Forall (fun m => is_Some (seats_of read m)) markets ->
     r = Ok (flat_map (fun m => omap (claim_row m) (default [] (seats_of read m))) markets) /\
     tr = map (fun m => EvRead (RdAccount (mv_address m)))
            (List.filter (fun m => negb (mv_is_paused m)) markets)) /\
    (~ Forall (fun m => is_Some (seats_of read m)) markets -> is_panic r = true)) w.
Proof.
  intros Hread Hne. unfold list_pending_vault_claims.
  enough (Hgen : forall out (w : World X), wp (for_fold markets out claims_step) (fun tr r _ =>
    (Forall (fun m => is_Some (seats_of read m)) markets ->
     r = Ok (out ++ flat_map (fun m => omap (claim_row m) (default [] (seats_of read m))) markets) /\
     tr = map (fun m => EvRead (RdAccount (mv_address m)))
            (List.filter (fun m => negb (mv_is_paused m)) markets)) /\
    (~ Forall (fun m => is_Some (seats_of read m)) markets -> is_panic r = true)) w)
    by exact (Hgen [] w).
  clear w. induction markets as [|m markets IH]; intros out w; cbn [for_fold flat_map List.filter].
  { wp_step. rewrite app_nil_r. split; [done|]. intros H. by destruct H. }
  wp_step. eapply wp_mono; [by apply claims_step_spec|]. intros tr r w1 H.
  destruct (seats_of read m) as [seats|] eqn:Hs.
  - destruct H as [-> ->]. eapply wp_mono; [apply IH|]. intros tr r w2 [H1 H2].
    rewrite Forall_cons, Hs. split.
    + intros [_ Hall]. destruct (H1 Hall) as [-> ->]. cbn [default from_option id].
      rewrite (assoc_L (++)). split; [done|]. by destruct (mv_is_paused m).
    + intros Hn. apply H2. intros Hall. apply Hn. split; [by eexists|done].
  - destruct r; [done..|]. rewrite Forall_cons, Hs. split; [by intros [[? ?] _]|done].
Qed.
End chain_properties.
