(* ===== verification/BankRegistry.v ===== *)
(** bank_registry.rs: per-mint marginfi bank metadata, its discovery from the
    market accounts, its merge-only refresh, and the creation of missing
    associated token accounts. *)

From Stdlib Require Import ZArith Lia Ascii.
From stdpp Require Import gmap strings list pretty sorting.
From S2P Require Import Prelude Solana State Effects Logic Rpc ChainReader MarginfiBank.

Local Open Scope crank_scope.

(** ** Definitions *)

Definition ORACLE_SETUP_SWITCHBOARD_PULL : Z := 4.

Definition string_bytes (s : string) : bytes :=
  map (fun c => Z_byte (Z.of_nat (nat_of_ascii c))) (String.list_ascii_of_string s).

Definition LIQUIDITY_VAULT_AUTHORITY_SEED : bytes := string_bytes "liquidity_vault_auth".

(** *** [BankInfo] *)

Definition primary_oracle (b : BankInfo) : Pubkey := default Pubkey_default (head (bi_oracles b)).

Definition is_switchboard_pull (b : BankInfo) : bool :=
  (bi_oracle_setup b =? ORACLE_SETUP_SWITCHBOARD_PULL)%Z.

Section bank_registry.
Context {X : Type} `{!Env X} {CR : Crates} {YD : YDelta}.
Implicit Types (reg : BankRegistry) (rpc : Rpc).

Definition ata_program_id : Pubkey :=
  pubkey_literal "ATokenGPvbdGVxr1b2hvZbsiqW5xWH25efTNsLJA8knL".
Definition spl_token_legacy_id : Pubkey :=
  pubkey_literal "TokenkegQfeZyiNwAJbNbGKPFXCWuBvf9Ss623VQ5DA".
Definition spl_token_2022_id : Pubkey :=
  pubkey_literal "TokenzQdBNbLqP5VEhdkAS6EPFLC1PHnBqCXEpPxuEb".

Definition ata_for (b : BankInfo) (owner : Pubkey) : Pubkey :=
  (find_program_address
     [to_bytes owner; to_bytes (bi_token_program b); to_bytes (bi_mint b)]
     ata_program_id).1.

(** *** Discovery *)

(** One [mint_to_bank.insert]: a mint bound to another bank before is refused. *)
Definition bind_mint (m : MarketView) (side : string) (mint bank : Pubkey)
  (acc : gmap Pubkey Pubkey) : outcome (gmap Pubkey Pubkey) :=
  match acc !! mint with
  | Some prev =>
      if decide (prev <> bank) then
        Err ["market " +:+ show_pk (mv_address m) +:+ " " +:+ side +:+ "_bank " +:+
             show_pk bank +:+ " disagrees with prior bank " +:+ show_pk prev +:+
             " for mint " +:+ show_pk mint]
      else Ok (<[mint := bank]> acc)
  | None => Ok (<[mint := bank]> acc)
  end.

Definition bind_market (acc : gmap Pubkey Pubkey) (m : MarketView) :
  outcome (gmap Pubkey Pubkey) :=
  let? acc := bind_mint m "debt" (mv_debt_mint m) (mv_debt_bank m) acc in
  bind_mint m "collateral" (mv_collateral_mint m) (mv_collateral_bank m) acc.

Fixpoint bind_markets (acc : gmap Pubkey Pubkey) (ms : list MarketView) :
  outcome (gmap Pubkey Pubkey) :=
  match ms with
  | [] => Ok acc
  | m :: ms' => let? acc' := bind_market acc m in bind_markets acc' ms'
  end.

(** [entries.sort_by_key(|(m, _)| m.to_bytes())]. *)
Definition sorted_entries (mint_to_bank : gmap Pubkey Pubkey) : list (Pubkey * Pubkey) :=
  stable_sort (fun a b => Pubkey_leb a.1 b.1) (map_to_list mint_to_bank).

Definition banks_tag (mint : Pubkey) : string := "BANKS[" +:+ show_pk mint +:+ "]: ".

(** [xs[i].as_ref().ok_or_else(..)?]. *)
Definition account_at (xs : list (option Account)) (i : nat) (missing : Error) :
  outcome Account :=
  let? o := o_or_panic "index out of bounds" (xs !! i) in o_of_option missing o.

Definition decode_bank (marginfi_program : Pubkey) (bank_accounts : list (option Account))
  (ie : nat * (Pubkey * Pubkey)) : outcome (Pubkey * Pubkey * BankView * Pubkey) :=
  let '(i, (expected_mint, bank_pk)) := ie in
  let? acct := account_at bank_accounts i
    ["BANKS: bank " +:+ show_pk bank_pk +:+ " not found on chain"] in
  if decide (acct_owner acct <> marginfi_program) then
    Err [banks_tag expected_mint +:+ "bank " +:+ show_pk bank_pk +:+ " is owned by " +:+
         show_pk (acct_owner acct) +:+ ", not the configured MARGINFI_PROGRAM_ID " +:+
         show_pk marginfi_program]
  else
    let? view := ocontext
      (banks_tag expected_mint +:+ "decoding bank " +:+ show_pk bank_pk +:+ " failed")
      (try_from_account_data (acct_data acct)) in
    if decide (bv_mint view <> expected_mint) then
      Err [banks_tag expected_mint +:+ "bank " +:+ show_pk bank_pk +:+ " has on-chain mint " +:+
           show_pk (bv_mint view) +:+
           " — pair the env key with the correct bank or fix the mint"]
    else
      match create_program_address
              [LIQUIDITY_VAULT_AUTHORITY_SEED; to_bytes bank_pk; [Z_byte (bv_lva_bump view)]]
              marginfi_program with
      | inl e =>
          Err [banks_tag expected_mint +:+ "deriving LVA failed (bump=" +:+
               pretty (bv_lva_bump view) +:+ ")"; e]
      | inr lva => Ok (expected_mint, bank_pk, view, lva)
      end.

Definition bank_info (mint_accounts : list (option Account))
  (id : nat * (Pubkey * Pubkey * BankView * Pubkey)) : outcome (Pubkey * BankInfo) :=
  let '(i, (mint, bank, view, lva)) := id in
  let? m := account_at mint_accounts i
    ["BANKS: mint " +:+ show_pk mint +:+ " not found on chain"] in
  let? token_program :=
    (if decide (acct_owner m = spl_token_legacy_id) then Ok spl_token_legacy_id
     else if decide (acct_owner m = spl_token_2022_id) then Ok spl_token_2022_id
     else Err [banks_tag mint +:+ "mint owner " +:+ show_pk (acct_owner m) +:+
               " is neither spl-token nor token-2022"]) in
  let n := length (bv_oracles view) in
  if decide (n = 0 \/ 5 < n)%nat then
    Err [banks_tag mint +:+ "bank " +:+ show_pk bank +:+ " has " +:+ pretty n +:+
         " oracle keys (must be 1-5)"]
  else
    Ok (mint, {| bi_mint := mint; bi_bank := bank;
                 bi_liquidity_vault := bv_liquidity_vault view;
                 bi_liquidity_vault_authority := lva; bi_oracles := bv_oracles view;
                 bi_token_program := token_program;
                 bi_oracle_setup := bv_oracle_setup view |}).

Definition enumerate {A} (l : list A) : list (nat * A) := zip (seq 0 (length l)) l.

Definition resolve_from_chain (marginfi_program : Pubkey)
  (mint_to_bank : gmap Pubkey Pubkey) : M X BankRegistry :=
  if decide (mint_to_bank = ∅) then ret BankRegistry_default
  else
    let entries := sorted_entries mint_to_bank in
    let! bank_accounts :=
      with_context "BANKS resolve: get_multiple_accounts(banks) failed"
        (let! r := get_multiple_accounts (map snd entries) in try_client r) in
    let! decoded := lift (traverse (decode_bank marginfi_program bank_accounts)
                            (enumerate entries)) in
    let mint_pubkeys := map (fun d : Pubkey * Pubkey * BankView * Pubkey =>
                               bv_mint d.1.2) decoded in
    let! mint_accounts :=
      with_context "BANKS resolve: get_multiple_accounts(mints) failed"
        (let! r := get_multiple_accounts mint_pubkeys in try_client r) in
    let! infos := lift (traverse (bank_info mint_accounts) (enumerate decoded)) in
    ret {| by_mint := foldl (fun acc mi => <[mi.1 := mi.2]> acc) ∅ infos |}.

Definition discover_from_markets (cr : ChainReader) (marginfi_program : Pubkey) :
  M X BankRegistry :=
  let! markets :=
    with_context "BANKS discover: ChainReader::refresh_markets failed" (refresh_markets cr) in
  match markets with
  | [] => ret BankRegistry_default
  | _ =>
      let! mint_to_bank := lift (bind_markets ∅ markets) in
      resolve_from_chain marginfi_program mint_to_bank
  end.

(** *** Queries *)

Definition registry_get reg (mint : Pubkey) : option BankInfo := by_mint reg !! mint.

(** [HashMap::values]: some order; the callers sort or only test. *)
Definition values reg : list BankInfo := map snd (map_to_list (by_mint reg)).

Definition has_switchboard_pull reg : bool := existsb is_switchboard_pull (values reg).

Definition switchboard_pull_oracles reg : list Pubkey :=
  dedup_adj (stable_sort Pubkey_leb
    (map primary_oracle (List.filter is_switchboard_pull (values reg)))).

Definition mints reg : list Pubkey := map fst (map_to_list (by_mint reg)).
Definition registry_len reg : nat := size (by_mint reg).
Definition registry_is_empty reg : bool := bool_decide (by_mint reg = ∅).

(** [self.by_mint.entry(mint).or_insert(info)] for each entry of [other]. *)
Definition merge_from reg (other : BankRegistry) : BankRegistry :=
  {| by_mint := foldl (fun acc mi =>
       match acc !! mi.1 with Some _ => acc | None => <[mi.1 := mi.2]> acc end)
       (by_mint reg) (map_to_list (by_mint other)) |}.

(** *** Associated token accounts *)

Definition create_associated_token_account_idempotent_ix
  (funding owner mint token_program : Pubkey) : Instruction :=
  let ata := (find_program_address [to_bytes owner; to_bytes token_program; to_bytes mint]
                ata_program_id).1 in
  {| ix_program_id := ata_program_id;
     ix_accounts :=
       [AccountMeta_new funding true; AccountMeta_new ata false;
        AccountMeta_new_readonly owner false; AccountMeta_new_readonly mint false;
        AccountMeta_new_readonly system_program_id false;
        AccountMeta_new_readonly token_program false];
     ix_data := [Z_byte 1] |}.

(** The derived rows whose account does not exist; [existing[i]] panics when
    the node answered too few. *)
Definition missing_atas {A} (derived : list A) (existing : list (option Account)) :
  outcome (list A) :=
  let? rows := traverse (fun ie : nat * A =>
    let? o := o_or_panic "index out of bounds" (existing !! ie.1) in
    Ok (match o with None => [ie.2] | Some _ => [] end)) (enumerate derived) in
  Ok (concat rows).

Definition ensure_atas_for reg rpc (fee_payer : Keypair) : M X unit :=
  if decide (by_mint reg = ∅) then ret tt
  else
    let owner := keypair_pubkey fee_payer in
    let derived := map (fun info => (bi_mint info, ata_for info owner, bi_token_program info))
                     (values reg) in
    let! existing :=
      with_context "ensure_atas_for: get_multiple_accounts failed"
        (let! r := get_multiple_accounts (map (fun d : Pubkey * Pubkey * Pubkey => d.1.2) derived)
         in try_client r) in
    let! missing := lift (missing_atas derived existing) in
    match missing with
    | [] => ret tt
    | _ =>
        let ixs := map (fun d : Pubkey * Pubkey * Pubkey =>
          create_associated_token_account_idempotent_ix owner owner d.1.1 d.2) missing in
        let! _ := with_context "ensure_atas_for: create-ATAs tx failed to send"
          (send_signed_labeled rpc "create_atas" ixs [fee_payer]) in
        ret tt
    end.
End bank_registry.

(** ** Lemmas *)

(** What the rest of the program relies on of a registry. *)
Record bank_wf {CR : Crates} (mint : Pubkey) (b : BankInfo) : Prop := {
  bw_key : bi_mint b = mint;
  bw_oracles : (1 <= length (bi_oracles b) <= 5)%nat;
  bw_token : bi_token_program b = spl_token_legacy_id \/ bi_token_program b = spl_token_2022_id }.

Definition registry_wf {CR : Crates} (reg : BankRegistry) : Prop :=
  map_Forall bank_wf (by_mint reg).

Lemma traverse_Ok {A B} (f : A -> outcome B) l ys :
  traverse f l = Ok ys <-> Forall2 (fun x y => f x = Ok y) l ys.
Proof.
  revert ys. induction l as [|x l IH]; intros ys; cbn [traverse].
  - split; [by intros [= <-]|]. by inversion 1.
  - split.
    + destruct (f x) as [y|e|s] eqn:Hf; [|done..]. cbn [obind].
      destruct (traverse f l) as [ys'|e|s]; [|done..]. intros [= <-].
      constructor; [done|by apply IH].
    + inversion 1 as [|? y ? ys' Hf Hl]; subst. apply IH in Hl. by rewrite Hf, Hl.
Qed.

(** A traversal that cannot panic ends with every result or at an element that fails. *)
Lemma traverse_total {A B} (f : A -> outcome B) l :
  Forall (fun x => is_panic (f x) = false) l ->
  match traverse f l with
  | Ok ys => Forall2 (fun x y => f x = Ok y) l ys
  | Err _ => exists x e, x ∈ l /\ f x = Err e
  | Panic _ => False
  end.
Proof.
  induction 1 as [|x l Hx _ IH]; cbn [traverse]; [constructor|].
  destruct (f x) as [y|e|s] eqn:Hf; cbn [obind]; [| |done].
  - destruct (traverse f l) as [ys|e|s]; cbn [obind]; [by constructor| |done].
    destruct IH as (x' & e' & ? & ?). exists x', e'. split; [by right|done].
  - exists x, e. split; [by left|done].
Qed.

(** Walking an enumerated list with a step that looks its index up. *)
Lemma traverse_enumerate {A B} (f : nat * A -> outcome B) (g : A -> outcome B) (l : list A) :
  (forall i x, l !! i = Some x -> f (i, x) = g x) -> traverse f (enumerate l) = traverse g l.
Proof.
  intros Hfg. unfold enumerate.
  assert (Hgen : forall k, (forall i x, l !! i = Some x -> f ((k + i)%nat, x) = g x) ->
    traverse f (zip (seq k (length l)) l) = traverse g l); [|by apply (Hgen 0%nat)].
  clear Hfg. induction l as [|x l IH]; intros k Hk; [done|]. cbn [length seq zip zip_with traverse].
  pose proof (Hk 0%nat x eq_refl) as H0. rewrite Nat.add_0_r in H0. rewrite H0.
  destruct (g x); [|done..]. cbn [obind]. rewrite IH; [done|].
  intros i y Hi. rewrite Nat.add_succ_comm. by apply Hk.
Qed.

Lemma enumerate_snd {A} (l : list A) : map snd (enumerate l) = l.
Proof. apply snd_zip. by rewrite length_seq. Qed.

Lemma enumerate_lookup {A} (l : list A) i : enumerate l !! i = (fun x => (i, x)) <$> l !! i.
Proof.
  unfold enumerate. rewrite lookup_zip_with. destruct (l !! i) as [x|] eqn:E; cbn.
  - apply lookup_lt_Some in E as Hlt. by rewrite lookup_seq_lt by done.
  - by destruct (seq _ _ !! i).
Qed.

(** Building a map by insertion keeps what each inserted pair satisfies. *)
Lemma foldl_insert_Forall {V} (P : Pubkey -> V -> Prop) (l : list (Pubkey * V)) (m : gmap Pubkey V) :
  map_Forall P m -> Forall (fun kv => P kv.1 kv.2) l ->
  map_Forall P (foldl (fun acc kv => <[kv.1 := kv.2]> acc) m l).
Proof.
  revert m. induction l as [|[k v] l IH]; intros m Hm Hl; [done|].
  apply Forall_cons in Hl as [Hk Hl]. cbn [foldl]. apply IH; [|done].
  by apply map_Forall_insert_2.
Qed.

Lemma foldl_insert_dom {V} (l : list (Pubkey * V)) (m : gmap Pubkey V) :
  dom (foldl (fun acc kv => <[kv.1 := kv.2]> acc) m l) = list_to_set (map fst l) ∪ dom m.
Proof.
  revert m. induction l as [|[k v] l IH]; intros m; cbn [foldl map list_to_set]; [set_solver|].
  rewrite IH, dom_insert_L. set_solver.
Qed.

(** Inserting distinct keys one by one gives the map of the list. *)
Lemma foldl_insert_map {V} (l : list (Pubkey * V)) :
  NoDup (map fst l) ->
  foldl (fun acc kv => <[kv.1 := kv.2]> acc) (∅ : gmap Pubkey V) l = list_to_map l.
Proof.
  intros Hnd. rewrite <-(right_id_L ∅ (∪) (list_to_map l)). revert Hnd.
  generalize (∅ : gmap Pubkey V). induction l as [|[k v] l IH]; intros m Hnd;
    cbn [foldl map list_to_map foldr uncurry fst snd] in *; [by rewrite (left_id_L ∅ (∪))|].
  apply NoDup_cons in Hnd as [Hk Hnd]. rewrite IH by done.
  rewrite <-insert_union_l, insert_union_r; [done|]. by apply not_elem_of_list_to_map_1.
Qed.

Section registry_lemmas.
Context {X : Type} `{!Env X} {CR : Crates} {YD : YDelta}.
Implicit Types (reg : BankRegistry) (rpc : Rpc).

Lemma elem_of_values reg b : b ∈ values reg <-> exists mint, by_mint reg !! mint = Some b.
Proof.
  unfold values. rewrite list_elem_of_fmap. split.
  - intros ([mint b'] & -> & Hin). exists mint. by apply elem_of_map_to_list.
  - intros [mint Hm]. exists (mint, b). split; [done|]. by apply elem_of_map_to_list.
Qed.

Lemma bank_info_wf mint_accounts id mint b :
  bank_info mint_accounts id = Ok (mint, b) ->
  mint = id.2.1.1.1 /\ bank_wf mint b /\ bi_bank b = id.2.1.1.2.
Proof.
  destruct id as [i [[[m bk] view] lva]]. cbn [bank_info].
  destruct (account_at _ _ _) as [a|e|s]; [|done..]. cbn [obind].
  intros H. repeat (case_decide; cbn [obind] in H; try discriminate H);
    injection H as <- <-; (split; [done|]); (split; [|done]);
    (split; [done|cbn; lia|by (left + right)]).
Qed.

Lemma quiet_resolve mp m2b : keeps quiet_run (resolve_from_chain mp m2b).
Proof. unfold resolve_from_chain, get_multiple_accounts. keeps_go. Qed.

Lemma quiet_refresh_markets cr : keeps quiet_run (refresh_markets cr).
Proof.
  unfold refresh_markets. keeps_go; eauto using quiet_fetch_markets, quiet_markets_cache_put.
Qed.

Lemma quiet_discover cr mp : keeps quiet_run (discover_from_markets cr mp).
Proof.
  unfold discover_from_markets. keeps_go; eauto using quiet_refresh_markets, quiet_resolve.
Qed.
End registry_lemmas.

#[export] Hint Resolve quiet_resolve quiet_refresh_markets quiet_discover : crank.

(** [or_insert] over a list of distinct keys is the left-biased union. *)
Lemma foldl_or_insert {V} (l : list (Pubkey * V)) (m : gmap Pubkey V) :
  NoDup l.*1 ->
  foldl (fun acc kv => match acc !! kv.1 with Some _ => acc | None => <[kv.1 := kv.2]> acc end) m l
  = m ∪ list_to_map l.
Proof.
  revert m. induction l as [|[k v] l IH]; intros m Hnd.
  - cbn. by rewrite (right_id_L ∅ (∪)).
  - cbn [fmap list_fmap fst] in Hnd. apply NoDup_cons in Hnd as [Hk Hnd].
    cbn [foldl list_to_map foldr uncurry fst snd]. rewrite IH by done.
    apply map_eq. intros i. rewrite !lookup_union.
    destruct (m !! k) as [v'|] eqn:Hmk; (destruct (decide (i = k)) as [->|Hne];
      [|by rewrite ?lookup_insert_ne by done]).
    + rewrite Hmk, lookup_insert_eq. apply not_elem_of_list_to_map_1 in Hk. by rewrite Hk.
    + rewrite Hmk, !lookup_insert_eq. apply not_elem_of_list_to_map_1 in Hk. by rewrite Hk.
Qed.

Lemma merge_from_by_mint reg other :
  by_mint (merge_from reg other) = by_mint reg ∪ by_mint other.
Proof.
  unfold merge_from. cbn [by_mint]. rewrite foldl_or_insert by apply NoDup_fst_map_to_list.
  by rewrite list_to_map_to_list.
Qed.

Lemma registry_wf_default {CR : Crates} : registry_wf BankRegistry_default.
Proof. apply map_Forall_empty. Qed.

Lemma registry_wf_merge {CR : Crates} reg other :
  registry_wf reg -> registry_wf other -> registry_wf (merge_from reg other).
Proof.
  unfold registry_wf. rewrite merge_from_by_mint. intros H1 H2 k b Hk.
  apply lookup_union_Some_raw in Hk as [?|[_ ?]]; [by apply H1|by apply H2].
Qed.

(** The (mint, bank) pairs the markets state, in the order they are read. *)
Definition market_bindings (ms : list MarketView) : list (Pubkey * Pubkey) :=
  flat_map (fun m => [(mv_debt_mint m, mv_debt_bank m);
                      (mv_collateral_mint m, mv_collateral_bank m)]) ms.

(** No mint is bound to two banks. *)
Definition consistent (l : list (Pubkey * Pubkey)) : Prop :=
  forall k b b', (k, b) ∈ l -> (k, b') ∈ l -> b = b'.

Section binding_lemmas.
Context {CR : Crates}.

Lemma bind_mint_cases m side mint bank acc :
  (bind_mint m side mint bank acc = Ok (<[mint := bank]> acc) /\
   forall b, acc !! mint = Some b -> b = bank) \/
  (exists e b, bind_mint m side mint bank acc = Err e /\ acc !! mint = Some b /\ b <> bank).
Proof.
  unfold bind_mint. destruct (acc !! mint) as [prev|]; [|by left].
  case_decide as Hp; [right; eauto|]. left. split; [done|]. intros b [= <-].
  by destruct (decide (prev = bank)).
Qed.

(** [acc] holds exactly the pairs [l]. *)
Definition represents (acc : gmap Pubkey Pubkey) (l : list (Pubkey * Pubkey)) : Prop :=
  consistent l /\ forall k b, acc !! k = Some b <-> (k, b) ∈ l.

Lemma represents_bind m side mint bank acc l :
  represents acc l ->
  match bind_mint m side mint bank acc with
  | Ok acc' => represents acc' (l ++ [(mint, bank)])
  | Err _ => ~ consistent (l ++ [(mint, bank)])
  | Panic _ => False
  end.
Proof.
  intros [Hc Hl]. destruct (bind_mint_cases m side mint bank acc)
    as [[-> Hb]|(e & b & -> & Hb & Hne)].
  - assert (Hs : forall b, (mint, b) ∈ l -> b = bank) by (intros b ?%Hl; auto).
    split.
    + intros k b b'. rewrite !elem_of_app, !list_elem_of_singleton.
      intros [?|?] [?|?]; simplify_eq; eauto. symmetry. eauto.
    + intros k b. rewrite elem_of_app, list_elem_of_singleton.
      destruct (decide (k = mint)) as [->|Hk].
      * rewrite lookup_insert_eq. split; [intros [= <-]; by right|].
        intros [?|?]; [f_equal; symmetry; auto|by simplify_eq].
      * rewrite lookup_insert_ne by done. rewrite Hl. naive_solver.
  - intros Hc'. apply Hne. apply (Hc' mint); [|set_solver].
    apply elem_of_app. left. by apply Hl.
Qed.

Lemma consistent_app_l l l' : consistent (l ++ l') -> consistent l.
Proof. intros Hc k b b' H1 H2. apply (Hc k); set_solver. Qed.

Lemma represents_bind_markets ms acc l :
  represents acc l ->
  match bind_markets acc ms with
  | Ok acc' => represents acc' (l ++ market_bindings ms)
  | Err _ => ~ consistent (l ++ market_bindings ms)
  | Panic _ => False
  end.
Proof.
  revert acc l. induction ms as [|m ms IH]; intros acc l Hr; cbn [bind_markets market_bindings flat_map].
  { by rewrite app_nil_r. }
  unfold bind_market.
  pose proof (represents_bind m "debt" (mv_debt_mint m) (mv_debt_bank m) acc l Hr) as H1.
  destruct (bind_mint m "debt" _ _ acc) as [acc1|e|s]; cbn [obind]; [| |done].
  2: { intros Hc. apply H1.
       apply (consistent_app_l _ ((mv_collateral_mint m, mv_collateral_bank m)
         :: market_bindings ms)). by rewrite <-(assoc_L (++)). }
  pose proof (represents_bind m "collateral" (mv_collateral_mint m) (mv_collateral_bank m)
    acc1 _ H1) as H2.
  rewrite <-(assoc_L (++)) in H2. cbn [app] in H2.
  destruct (bind_mint m "collateral" _ _ acc1) as [acc2|e|s]; cbn [obind]; [| |done].
  - specialize (IH acc2 _ H2). by rewrite <-(assoc_L (++)) in IH.
  - intros Hc. apply H2. apply (consistent_app_l _ (market_bindings ms)).
    by rewrite <-(assoc_L (++)).
Qed.
End binding_lemmas.

Lemma sorted_entries_perm m2b : sorted_entries m2b ≡ₚ map_to_list m2b.
Proof. apply stable_sort_perm. Qed.

Section resolve_lemmas.
Context {CR : Crates}.

Lemma decode_bank_iff mp accts i mint bk d :
  decode_bank mp accts (i, (mint, bk)) = Ok d <->
  exists acct view lva,
    accts !! i = Some (Some acct) /\ acct_owner acct = mp /\
    try_from_account_data (acct_data acct) = Ok view /\ bv_mint view = mint /\
    create_program_address
      [LIQUIDITY_VAULT_AUTHORITY_SEED; to_bytes bk; [Z_byte (bv_lva_bump view)]] mp = inr lva /\
    d = (mint, bk, view, lva).
Proof.
  cbn [decode_bank]. unfold account_at. split.
  - destruct (accts !! i) as [[acct|]|]; cbn [o_or_panic obind o_of_option]; try done.
    case_decide as Hown; [done|].
    destruct (try_from_account_data _) as [view|e|s] eqn:Hv; cbn [ocontext obind]; try done.
    case_decide as Hm; [done|].
    destruct (create_program_address _ _) as [e|lva] eqn:Hl; [done|].
    intros [= <-]. by exists acct, view, lva.
  - intros (acct & view & lva & -> & <- & Hv & <- & Hl & ->).
    cbn [o_or_panic obind o_of_option]. rewrite decide_False by auto. rewrite Hv.
    cbn [ocontext obind]. rewrite decide_False by auto. by rewrite Hl.
Qed.

Lemma decode_bank_keys mp accts ie d :
  decode_bank mp accts ie = Ok d -> d.1.1 = ie.2.
Proof.
  destruct ie as [i [mint bk]]. intros (? & ? & ? & _ & _ & _ & _ & _ & ->)%decode_bank_iff.
  done.
Qed.

Lemma decode_banks_keys mp accts l ds :
  traverse (decode_bank mp accts) l = Ok ds -> map fst (map fst ds) = map snd l.
Proof.
  rewrite traverse_Ok. induction 1 as [|ie d l ds Hd _ IH]; [done|]. cbn [map].
  by rewrite IH, (decode_bank_keys _ _ _ _ Hd).
Qed.

(** The bank infos of decoded banks, with their keys. *)
Lemma bank_infos_spec mint_accounts l infos :
  traverse (bank_info mint_accounts) l = Ok infos ->
  map fst infos = map (fun id => id.2.1.1.1) l /\
  Forall (fun mi => bank_wf mi.1 mi.2) infos /\
  Forall (fun mi => (mi.1, bi_bank mi.2) ∈ map (fun id => id.2.1.1) l) infos.
Proof.
  rewrite traverse_Ok. induction 1 as [|id [mint b] l infos Hd _ (IH1 & IH2 & IH3)]; [done|].
  apply bank_info_wf in Hd as (-> & Hwf & Hb). cbn [map fst snd]. split; [by rewrite IH1|].
  split; [by constructor|]. constructor.
  - cbn [fst snd]. rewrite Hb, <-surjective_pairing. left.
  - eapply Forall_impl; [exact IH3|]. intros mi Hmi. by right.
Qed.
End resolve_lemmas.

(** *** The registry a table resolves to *)

Section resolved.
Context {CR : Crates}.

(** The token program that owns a mint. *)
Definition token_program_of (owner : Pubkey) : option Pubkey :=
  if decide (owner = spl_token_legacy_id) then Some spl_token_legacy_id
  else if decide (owner = spl_token_2022_id) then Some spl_token_2022_id
  else None.

(** What the accounts say of one (mint, bank) pair, if they agree with it. *)
Definition resolved (read : Pubkey -> option Account) (mp mint bank : Pubkey) : option BankInfo :=
  acct ← read bank;
  if decide (acct_owner acct <> mp) then None
  else
    match try_from_account_data (acct_data acct) with
    | Ok view =>
        if decide (bv_mint view <> mint) then None
        else
          match create_program_address
                  [LIQUIDITY_VAULT_AUTHORITY_SEED; to_bytes bank; [Z_byte (bv_lva_bump view)]] mp with
          | inl _ => None
          | inr lva =>
              m ← read mint;
              token_program ← token_program_of (acct_owner m);
              if decide (length (bv_oracles view) = 0 \/ 5 < length (bv_oracles view))%nat then None
              else Some {| bi_mint := mint; bi_bank := bank;
                           bi_liquidity_vault := bv_liquidity_vault view;
                           bi_liquidity_vault_authority := lva; bi_oracles := bv_oracles view;
                           bi_token_program := token_program;
                           bi_oracle_setup := bv_oracle_setup view |}
          end
    | _ => None
    end.

(** The two rows of code that decide one pair, on honest answers. *)
Definition decoded_of (read : Pubkey -> option Account) (mp : Pubkey) (mb : Pubkey * Pubkey) :
  outcome (Pubkey * Pubkey * BankView * Pubkey) := decode_bank mp [read mb.2] (0%nat, mb).
Definition info_of (read : Pubkey -> option Account) (d : Pubkey * Pubkey * BankView * Pubkey) :
  outcome (Pubkey * BankInfo) := bank_info [read d.1.1.1] (0%nat, d).

Lemma decode_bank_at mp accts i mb o :
  accts !! i = Some o -> decode_bank mp accts (i, mb) = decode_bank mp [o] (0%nat, mb).
Proof. destruct mb as [mint bk]. cbn [decode_bank]. unfold account_at. by intros ->. Qed.

Lemma bank_info_at accts i d o :
  accts !! i = Some o -> bank_info accts (i, d) = bank_info [o] (0%nat, d).
Proof. destruct d as [[[mint bk] view] lva]. cbn [bank_info]. unfold account_at. by intros ->. Qed.

(** One pair resolves exactly when both rows accept it. *)
Lemma resolved_rows read mp mint bank :
  match decoded_of read mp (mint, bank) with
  | Ok d => d.1.1 = (mint, bank) /\ bv_mint d.1.2 = mint /\
      match info_of read d with
      | Ok mi => resolved read mp mint bank = Some mi.2 /\ mi.1 = mint
      | Err _ => resolved read mp mint bank = None
      | Panic _ => False
      end
  | Err _ => resolved read mp mint bank = None
  | Panic _ => False
  end.
Proof.
  unfold decoded_of, decode_bank, resolved, account_at. cbn.
  destruct (read bank) as [acct|]; [|done]. cbn. case_decide; [done|].
  pose proof (proj1 (decode_total (acct_data acct))) as Hnp.
  destruct (try_from_account_data (acct_data acct)) as [view|e|s]; [|done|done].
  cbn. case_decide as Hm; [done|].
  destruct (create_program_address _ _) as [e|lva]; [done|]. cbn.
  split; [done|]. split; [done|]. unfold info_of, bank_info, account_at, token_program_of. cbn.
  destruct (read mint) as [m|]; [|done]. cbn.
  repeat case_decide; cbn; try done; by rewrite ?Hm.
Qed.

Lemma elem_of_entries m2b mint bank : (mint, bank) ∈ sorted_entries m2b <-> m2b !! mint = Some bank.
Proof. rewrite (sorted_entries_perm m2b). apply elem_of_map_to_list. Qed.

Lemma length_entries m2b : length (sorted_entries m2b) = size m2b.
Proof. by rewrite (sorted_entries_perm m2b), length_map_to_list. Qed.

(** The mints of decoded banks are those of the entries. *)
Lemma decoded_mints read mp entries decoded :
  Forall2 (fun mb d => decoded_of read mp mb = Ok d) entries decoded ->
  map (fun d : Pubkey * Pubkey * BankView * Pubkey => bv_mint d.1.2) decoded = map fst entries.
Proof.
  induction 1 as [|[mint bank] d entries decoded Hd _ IH]; [done|]. cbn [map]. rewrite IH.
  pose proof (resolved_rows read mp mint bank) as H. rewrite Hd in H. by destruct H as (_ & -> & _).
Qed.

(** The infos are what the entries resolve to. *)
Lemma resolved_infos read mp entries decoded infos :
  Forall2 (fun mb d => decoded_of read mp mb = Ok d) entries decoded ->
  Forall2 (fun d mi => info_of read d = Ok mi) decoded infos ->
  Forall2 (fun mb mi => mi.1 = mb.1 /\ resolved read mp mb.1 mb.2 = Some mi.2) entries infos.
Proof.
  intros Hd. revert infos. induction Hd as [|[mint bank] d entries decoded Hd _ IH]; intros infos Hi;
    inversion Hi as [|? mi ? infos' Hmi Hi']; subst; [constructor|].
  constructor; [|by apply IH]. pose proof (resolved_rows read mp mint bank) as H.
  rewrite Hd, Hmi in H. by destruct H as (_ & _ & ? & ?).
Qed.

Lemma infos_lookup read mp m2b infos mint :
  Forall2 (fun mb mi => mi.1 = mb.1 /\ resolved read mp mb.1 mb.2 = Some mi.2)
    (sorted_entries m2b) infos ->
  foldl (fun acc mi => <[mi.1 := mi.2]> acc) (∅ : gmap Pubkey BankInfo) infos !! mint
    = m2b !! mint ≫= resolved read mp mint.
Proof.
  intros Hres. assert (Hkeys : map fst infos = map fst (sorted_entries m2b)).
  { induction Hres as [|mb mi l l' [H _] _ IH]; [done|]. cbn [map]. by rewrite H, IH. }
  assert (Hnd : NoDup (map fst infos)).
  { rewrite Hkeys, (sorted_entries_perm m2b). apply NoDup_fst_map_to_list. }
  rewrite foldl_insert_map by done. destruct (m2b !! mint) as [bank|] eqn:Hm; cbn.
  - apply elem_of_entries in Hm. apply list_elem_of_lookup in Hm as [i Hm].
    destruct (Forall2_lookup_l _ _ _ _ _ Hres Hm) as ([k b] & Hi & Hk & Hb). cbn in Hk, Hb.
    rewrite Hb. apply elem_of_list_to_map_1; [done|]. subst k. by eapply list_elem_of_lookup_2.
  - apply not_elem_of_list_to_map_1. change (mint ∉ map fst infos).
    rewrite Hkeys, list_elem_of_fmap.
    intros ([k b] & -> & Hin%elem_of_entries). cbn in Hm. congruence.
Qed.
End resolved.

(** The table of the markets, or that there is none. *)
Lemma bind_markets_cases {CR : Crates} (ms : list MarketView) :
  match bind_markets ∅ ms with
  | Ok m2b => consistent (market_bindings ms) /\
      forall mint bank, m2b !! mint = Some bank <-> (mint, bank) ∈ market_bindings ms
  | Err _ => ~ consistent (market_bindings ms)
  | Panic _ => False
  end.
Proof.
  apply (represents_bind_markets ms ∅ []).
  split; [intros k b b' ?|intros k b; rewrite lookup_empty]; set_solver.
Qed.

(** ** Properties *)

(** C28. The boot refuses to start exactly when two markets bind one mint to
    different banks: otherwise the table it builds maps each mint of the markets, and
    nothing else, to the one bank they state. *)
Theorem bind_markets_exact {CR : Crates} (ms : list MarketView) :
  (consistent (market_bindings ms) -> exists m2b, bind_markets ∅ ms = Ok m2b /\
     forall mint bank, m2b !! mint = Some bank <-> (mint, bank) ∈ market_bindings ms) /\
  (~ consistent (market_bindings ms) -> exists e, bind_markets ∅ ms = Err e).
Proof.
  pose proof (bind_markets_cases ms) as H.
  destruct (bind_markets ∅ ms) as [m2b|e|s]; [| |done].
  - destruct H as [Hc Hl]. split; [|done]. intros _. by exists m2b.
  - split; [done|]. intros _. by exists e.
Qed.

(** A bank account is accepted exactly when it exists, is owned by the configured
    marginfi program, decodes, states the mint the markets bound it to, and its
    liquidity-vault authority derives; the row produced is then the decoded one.
    Every other answer is an error or, when the node answers too few accounts, a panic. *)
Theorem bank_accepted_iff {CR : Crates} mp accts i mint bk d :
  decode_bank mp accts (i, (mint, bk)) = Ok d <->
  exists acct view lva,
    accts !! i = Some (Some acct) /\ acct_owner acct = mp /\
    try_from_account_data (acct_data acct) = Ok view /\ bv_mint view = mint /\
    create_program_address
      [LIQUIDITY_VAULT_AUTHORITY_SEED; to_bytes bk; [Z_byte (bv_lva_bump view)]] mp = inr lva /\
    d = (mint, bk, view, lva).
Proof. apply decode_bank_iff. Qed.

(** Merging keeps every entry the registry has and adds the new mints of the
    fresh one, and keeps the registry well formed. *)
Theorem merge_from_keeps_and_adds {CR : Crates} reg other :
  (forall mint b, registry_get reg mint = Some b ->
     registry_get (merge_from reg other) mint = Some b) /\
  (forall mint, registry_get reg mint = None ->
     registry_get (merge_from reg other) mint = registry_get other mint) /\
  merge_from (merge_from reg other) other = merge_from reg other /\
  (registry_wf reg -> registry_wf other -> registry_wf (merge_from reg other)).
Proof.
  unfold registry_get. rewrite !merge_from_by_mint. split_and!.
  - intros mint b. apply lookup_union_Some_l.
  - intros mint. apply lookup_union_r.
  - enough (by_mint (merge_from (merge_from reg other) other) = by_mint (merge_from reg other))
      by (destruct (merge_from _ other), (merge_from reg other); simpl in *; congruence).
    rewrite !merge_from_by_mint. rewrite <-(assoc_L (∪)). f_equal. apply map_union_idemp.
  - apply registry_wf_merge.
Qed.

(** The feeds to crank: sorted, without duplicates, and exactly the primary oracles
    of the registry's Switchboard-pull banks; there is one exactly when the cranker is
    worth booting. *)
Theorem switchboard_pull_oracles_spec reg :
  let out := switchboard_pull_oracles reg in
  Sorted (fun a b => Pubkey_leb a b = true) out /\ NoDup out /\
  (forall o, o ∈ out <-> exists mint b, registry_get reg mint = Some b /\
     is_switchboard_pull b = true /\ primary_oracle b = o) /\
  (has_switchboard_pull reg = true <-> out <> []).
Proof.
  cbv zeta. unfold switchboard_pull_oracles.
  set (l := map primary_oracle (List.filter is_switchboard_pull (values reg))).
  assert (Hmem : forall o, o ∈ l <-> exists mint b, registry_get reg mint = Some b /\
     is_switchboard_pull b = true /\ primary_oracle b = o).
  { intros o. unfold l. rewrite list_elem_of_fmap. split.
    - intros (b & -> & Hb). apply list_elem_of_In, filter_In in Hb as [Hb Hs].
      apply list_elem_of_In, elem_of_values in Hb as [mint Hm]. by exists mint, b.
    - intros (mint & b & Hm & Hs & <-). exists b. split; [done|].
      apply list_elem_of_In, filter_In. split; [|done].
      apply list_elem_of_In, elem_of_values. by exists mint. }
  assert (Hs : Sorted (fun a b => Pubkey_leb a b = true) (stable_sort Pubkey_leb l))
    by (apply stable_sort_Sorted; eauto with crank).
  split_and!.
  - by apply dedup_adj_Sorted.
  - by apply (dedup_adj_NoDup Pubkey_leb); [apply Pubkey_leb_antisym|apply Pubkey_leb_trans|].
  - intros o. by rewrite elem_of_dedup_adj, stable_sort_perm.
  - unfold has_switchboard_pull. rewrite existsb_exists. split.
    + intros (b & Hb & Hp) Hnil.
      assert (Hin : primary_oracle b ∈ dedup_adj (stable_sort Pubkey_leb l)); [|rewrite Hnil in Hin; set_solver].
      rewrite elem_of_dedup_adj, stable_sort_perm. apply Hmem.
      apply list_elem_of_In, elem_of_values in Hb as [mint Hm]. by exists mint, b.
    + destruct (dedup_adj _) as [|o out] eqn:E; [done|]. intros _.
      assert (Ho : o ∈ dedup_adj (stable_sort Pubkey_leb l)) by (rewrite E; by left).
      rewrite elem_of_dedup_adj, stable_sort_perm in Ho.
      apply Hmem in Ho as (mint & b & Hm & Hp & _). exists b. split; [|done].
      apply list_elem_of_In, elem_of_values. by exists mint.
Qed.

(** A reader's result satisfies [P] and it submits nothing. *)
Definition reads {X A} (P : A -> Prop) (n : nat) (m : M X A) : Prop :=
  forall w, wp m (fun tr r w' => Forall no_submit tr /\ inflight w' = inflight w /\
    (length tr <= n)%nat /\ match r with Ok a => P a | _ => True end) w.

Lemma registry_of_infos {CR : Crates} m2b mp bank_accounts mint_accounts decoded infos :
  traverse (decode_bank mp bank_accounts) (enumerate (sorted_entries m2b)) = Ok decoded ->
  traverse (bank_info mint_accounts) (enumerate decoded) = Ok infos ->
  let reg := {| by_mint := foldl (fun acc mi => <[mi.1 := mi.2]> acc) ∅ infos |} in
  registry_wf reg /\ dom (by_mint reg) = dom m2b /\
  forall mint b, registry_get reg mint = Some b -> m2b !! mint = Some (bi_bank b).
Proof.
  intros Hd%decode_banks_keys Hi%bank_infos_spec reg. rewrite enumerate_snd in Hd.
  destruct Hi as (Hk & Hwf & Hb). unfold registry_wf, registry_get, reg. cbn [by_mint].
  assert (Hids : forall {B} (g : Pubkey * Pubkey -> B),
    map (fun id : nat * (Pubkey * Pubkey * BankView * Pubkey) => g id.2.1.1) (enumerate decoded)
    = map g (sorted_entries m2b)).
  { intros B g. transitivity (map g (map fst (map fst (map snd (enumerate decoded)))));
      [by rewrite !map_map|by rewrite enumerate_snd, Hd]. }
  split_and!.
  - apply foldl_insert_Forall; [apply map_Forall_empty|done].
  - rewrite foldl_insert_dom, dom_empty_L, (right_id_L ∅ (∪)), Hk, (Hids _ fst).
    rewrite (sorted_entries_perm m2b). apply set_eq. intros k.
    rewrite elem_of_list_to_set, elem_of_dom, list_elem_of_fmap. split.
    + intros ([k' b] & -> & Hin%elem_of_map_to_list). by exists b.
    + intros [b Hin%elem_of_map_to_list]. by exists (k, b).
  - intros mint b Hm.
    assert (Hall : map_Forall (fun mint b => m2b !! mint = Some (bi_bank b))
      (foldl (fun acc mi => <[mi.1 := mi.2]> acc) (∅ : gmap Pubkey BankInfo) infos));
      [|by apply Hall].
    apply foldl_insert_Forall; [apply map_Forall_empty|].
    eapply Forall_impl; [exact Hb|]. intros [k v] Hin. cbn [fst snd] in *.
    rewrite (Hids _ (fun x => x)), map_id, (sorted_entries_perm m2b) in Hin.
    by apply elem_of_map_to_list.
Qed.

Section resolve_properties.
Context {X : Type} `{!Env X} {CR : Crates} {YD : YDelta}.
Implicit Types (reg : BankRegistry) (rpc : Rpc).

(** One batched read, with its context. *)
Lemma wp_fetch_accounts msg ps
  (Q : list Event -> outcome (list (option Account)) -> World X -> Prop) w :
  (forall r w', inflight w' = inflight w -> shared w' = shared w ->
     ext w' = (cl_get_multiple_accounts ps (ext w)).2 ->
     r = match (cl_get_multiple_accounts ps (ext w)).1 with
         | inl e => Err (msg :: ce_chain e) | inr a => Ok a end ->
     Q [EvRead (RdMultiple ps)] r w') ->
  wp (with_context msg (let! r := get_multiple_accounts ps in try_client r)) Q w.
Proof.
  intros HQ. unfold get_multiple_accounts, read_call. wp_step. wp_step. wp_step.
  rewrite H in HQ. destruct a as [e|a]; cbn [try_client]; wp_step; by apply HQ.
Qed.

Lemma resolve_registry_wf' mp m2b :
  reads (fun reg => registry_wf reg /\ dom (by_mint reg) = dom m2b /\
     forall mint b, registry_get reg mint = Some b -> m2b !! mint = Some (bi_bank b)) 2
    (@resolve_from_chain X _ _ mp m2b).
Proof.
  intros w. unfold resolve_from_chain. case_decide as He.
  { subst. wp_step. split_and!; [done|done|simpl; lia|apply registry_wf_default|done|].
    by intros mint b ?. }
  wp_step. apply wp_fetch_accounts. intros [ba|e|s] w1 Hi _ _ _;
    [|by (split_and!; [quiet|done|simpl; lia|])..].
  wp_step. wp_step. destruct (traverse (decode_bank _ _) _) as [decoded|e|s] eqn:Hd;
    [|by (split_and!; [quiet|done|simpl; lia|])..].
  wp_step. apply wp_fetch_accounts. intros [ma|e|s] w2 Hi2 _ _ _;
    [|by (split_and!; [quiet|congruence|simpl; lia|])..].
  wp_step. wp_step. destruct (traverse (bank_info _) _) as [infos|e|s] eqn:Hf;
    [|by (split_and!; [quiet|congruence|simpl; lia|])..].
  wp_step. split_and!; [quiet|congruence|simpl; lia|..]; by eapply registry_of_infos.
Qed.

(** Whatever the node answers, resolving a table of (mint, bank) pairs costs at
    most two batched reads and no transaction, and the registry it returns holds
    exactly the mints of the table, each with the bank of the table, one to five
    oracles, and a known token program. *)
Theorem resolve_registry_wf mp m2b :
  reads (fun reg => registry_wf reg /\ dom (by_mint reg) = dom m2b /\
     forall mint b, registry_get reg mint = Some b -> m2b !! mint = Some (bi_bank b)) 2
    (@resolve_from_chain X _ _ mp m2b).
Proof.
  apply resolve_registry_wf'.
Qed.

(** The states [P] of a node that answers batched reads of at most [n] accounts, all in
    [ok], from [read], and stays in [P]. *)
Definition answers (n : nat) (P : X -> Prop) (read : Pubkey -> option Account)
  (ok : Pubkey -> Prop) : Prop :=
  forall ps x, (length ps <= n)%nat -> P x -> Forall ok ps ->
    exists x', cl_get_multiple_accounts ps x = (inr (map read ps), x') /\ P x'.

(** The accounts of the pairs of a table. *)
Definition of_pairs (pairs : list (Pubkey * Pubkey)) (p : Pubkey) : Prop :=
  exists mint bank, (mint, bank) ∈ pairs /\ (p = mint \/ p = bank).

Lemma wp_answered n P read ok msg ps (Q : list Event -> outcome _ -> World X -> Prop) w :
  answers n P read ok -> (length ps <= n)%nat -> P (ext w) -> Forall ok ps ->
  (forall w', inflight w' = inflight w -> shared w' = shared w -> P (ext w') ->
     Q [EvRead (RdMultiple ps)] (Ok (map read ps)) w') ->
  wp (with_context msg (let! r := get_multiple_accounts ps in try_client r)) Q w.
Proof.
  intros Ha Hn HP Hok HQ. destruct (Ha ps (ext w) Hn HP Hok) as (x' & E & HP').
  apply wp_fetch_accounts. intros r w' Hi Hs Hx ->. rewrite E in Hx |- *. apply HQ; [done..|].
  by rewrite Hx.
Qed.

(** The banks are asked for in one batch: on a node that refuses batches of more than [n]
    addresses, as an RPC node does beyond a hundred, a larger table is never resolved. *)
Lemma resolve_over_limit n mp m2b (w : World X) :
  (forall ps x, (n < length ps)%nat -> exists e, (cl_get_multiple_accounts ps x).1 = inl e) ->
  (n < size m2b)%nat ->
  wp (resolve_from_chain mp m2b) (fun tr r _ => submits tr = 0%nat /\ exists e, r = Err e) w.
Proof.
  intros Hlim Hsize. unfold resolve_from_chain. case_decide as He.
  { subst. rewrite map_size_empty in Hsize. lia. }
  wp_step. apply wp_fetch_accounts. intros r w' _ _ _ ->.
  destruct (Hlim (map snd (sorted_entries m2b)) (ext w)) as [e ->].
  { by rewrite length_map, length_entries. }
  split; [done|by eexists].
Qed.

Lemma resolve_exact' P read mp m2b (w : World X) :
  answers (size m2b) P read (of_pairs (map_to_list m2b)) -> P (ext w) ->
  wp (resolve_from_chain mp m2b) (fun tr r w' =>
    (Forall no_submit tr /\ (length tr <= 2)%nat /\
    match r with
    | Ok reg => forall mint, by_mint reg !! mint = m2b !! mint ≫= resolved read mp mint
    | Err _ => True
    | Panic _ => False
    end /\
    ((exists reg, r = Ok reg) <->
       map_Forall (fun mint bank => is_Some (resolved read mp mint bank)) m2b)) /\
    shared w' = shared w /\ P (ext w')) w.
Proof.
  intros Hread HP. unfold resolve_from_chain. case_decide as He.
  { subst. wp_step. split; [|done]. split; [done|]. split; [simpl; lia|].
    split; [by intros mint; rewrite !lookup_empty|]. split; [intros _; apply map_Forall_empty|by eexists]. }
  set (entries := sorted_entries m2b). wp_step. eapply wp_answered; [done|by rewrite length_map; unfold entries; rewrite length_entries|done| |].
  { apply Forall_map, Forall_forall. intros [mint bank] Hin. apply elem_of_entries in Hin.
    exists mint, bank. split; [by apply elem_of_map_to_list|by right]. }
  intros w1 _ Hs1 HP1. wp_step. wp_step.
  rewrite (traverse_enumerate _ (decoded_of read mp)).
  2: { intros i mb Hi. apply decode_bank_at. by rewrite !list_lookup_fmap, Hi. }
  pose proof (traverse_total (decoded_of read mp) entries) as Hd. ospecialize (Hd _).
  { apply Forall_forall. intros [mint bank] _. pose proof (resolved_rows read mp mint bank) as H.
    by destruct (decoded_of _ _ _). }
  destruct (traverse _ entries) as [decoded|e|s]; [| |done].
  2: { split; [|done]. split; [quiet|]. split; [simpl; lia|]. split; [done|]. split; [by intros []|]. intros Hall.
       destruct Hd as ([mint bank] & e' & Hin & Hf).
       pose proof (resolved_rows read mp mint bank) as H. rewrite Hf in H.
       destruct (Hall mint bank) as [b Hb]; [by apply elem_of_entries|]. congruence. }
  wp_step. rewrite (decoded_mints _ _ _ _ Hd). eapply wp_answered; [done|by rewrite length_map; unfold entries; rewrite length_entries|done| |].
  { apply Forall_map, Forall_forall. intros [mint bank] Hin. apply elem_of_entries in Hin.
    exists mint, bank. split; [by apply elem_of_map_to_list|by left]. }
  intros w2 _ Hs2 HP2. rewrite Hs1 in Hs2. wp_step. wp_step.
  rewrite (traverse_enumerate _ (info_of read)).
  2: { intros i d Hi. destruct (Forall2_lookup_r _ _ _ _ _ Hd Hi) as ([mint bank] & Hmb & Hf).
       apply bank_info_at. rewrite !list_lookup_fmap, Hmb. cbn. f_equal. f_equal.
       pose proof (resolved_rows read mp mint bank) as H. rewrite Hf in H. by destruct H as [-> _]. }
  pose proof (traverse_total (info_of read) decoded) as Hi. ospecialize (Hi _).
  { apply Forall_forall. intros d Hin. apply list_elem_of_lookup in Hin as [i Hin].
    destruct (Forall2_lookup_r _ _ _ _ _ Hd Hin) as ([mint bank] & _ & Hf).
    pose proof (resolved_rows read mp mint bank) as H. rewrite Hf in H.
    destruct H as (_ & _ & H). by destruct (info_of read d). }
  destruct (traverse _ decoded) as [infos|e|s]; [| |done].
  - wp_step. assert (Hres := resolved_infos _ _ _ _ _ Hd Hi). split; [|done]. split; [quiet|]. split; [simpl; lia|]. split.
    + intros mint. by apply infos_lookup.
    + split; [intros _|by eexists]. intros mint bank Hm. apply elem_of_entries in Hm.
      apply list_elem_of_lookup in Hm as [i Hm].
      destruct (Forall2_lookup_l _ _ _ _ _ Hres Hm) as (mi & _ & _ & Hb). by eexists.
  - split; [|done]. split; [quiet|]. split; [simpl; lia|]. split; [done|]. split; [by intros []|].
    intros Hall. destruct Hi as (d & e' & Hin & Hf).
    apply list_elem_of_lookup in Hin as [i Hin].
    destruct (Forall2_lookup_r _ _ _ _ _ Hd Hin) as ([mint bank] & Hmb & Hdd).
    pose proof (resolved_rows read mp mint bank) as H. rewrite Hdd, Hf in H.
    destruct H as (_ & _ & H). destruct (Hall mint bank) as [b Hb]; [|congruence].
    apply elem_of_entries. by eapply list_elem_of_lookup_2.
Qed.

(** C27. Resolution on an honest node, on every branch: it submits nothing and reads at most
    twice; when the accounts of every pair of the table agree with it, the registry returned
    maps each mint to what they say and nothing else; otherwise resolution fails, without a
    panic, and some pair of the table is one whose accounts do not agree. Nothing is asked
    of the node but its answers about the banks and the mints of the table, in batches no
    longer than the table. *)
Theorem resolve_exact P (read : Pubkey -> option Account) mp m2b (w : World X) :
  answers (size m2b) P read (of_pairs (map_to_list m2b)) -> P (ext w) ->
  wp (resolve_from_chain mp m2b) (fun tr r _ =>
    Forall no_submit tr /\ (length tr <= 2)%nat /\
    match r with
    | Ok reg => forall mint, by_mint reg !! mint = m2b !! mint ≫= resolved read mp mint
    | Err _ => True
    | Panic _ => False
    end /\
    ((exists reg, r = Ok reg) <->
       map_Forall (fun mint bank => is_Some (resolved read mp mint bank)) m2b)) w.
Proof.
  intros Ha HP. eapply wp_mono; [by apply resolve_exact'|]. by intros tr r w' [H _].
Qed.

(** The registry of the boot and of every refresh. *)
Lemma discover_registry_wf cr mp (w : World X) :
  wp (discover_from_markets cr mp) (fun tr r w' => Forall no_submit tr /\
    inflight w' = inflight w /\ match r with Ok reg => registry_wf reg | _ => True end) w.
Proof.
  unfold discover_from_markets. wp_step. wp_step.
  eapply wp_mono; [apply quiet_refresh_markets|].
  intros tr [ms|e|s] w1 [Hq Hi]; [|by split_and!..]. cbn [ocontext].
  destruct ms as [|m ms].
  { wp_step. rewrite app_nil_r. split_and!; [done..|apply registry_wf_default]. }
  wp_step. wp_step. destruct (bind_markets _ _) as [m2b|e|s];
    [|by rewrite app_nil_r; split_and!..].
  eapply wp_mono; [apply (resolve_registry_wf' mp m2b)|].
  intros tr2 [reg|e|s] w2 (Hq2 & Hi2 & _ & H2); split_and!; try apply Forall_app_2;
    try done; try congruence. by destruct H2.
Qed.
End resolve_properties.

Section ata_properties.
Context {X : Type} `{!Env X} {CR : Crates} {YD : YDelta}.
Implicit Types (reg : BankRegistry) (rpc : Rpc).

Lemma missing_atas_map {A} (f : A -> option Account) (derived : list A) :
  missing_atas derived (map f derived) =
  Ok (List.filter (fun d => match f d with None => true | Some _ => false end) derived).
Proof.
  unfold missing_atas.
  assert (H : traverse (fun ie : nat * A =>
      let? o := o_or_panic "index out of bounds" (map f derived !! ie.1) in
      Ok (match o with None => [ie.2] | Some _ => [] end)) (enumerate derived) =
    Ok (map (fun ie => match f ie.2 with None => [ie.2] | Some _ => [] end) (enumerate derived))).
  { apply traverse_Ok, Forall2_fmap_r, Forall_Forall2_diag, Forall_forall.
    intros [i d] Hin. apply list_elem_of_lookup in Hin as [j Hj].
    rewrite enumerate_lookup in Hj. cbn [fst snd].
    destruct (derived !! j) as [d'|] eqn:Hd; [|done]. injection Hj as -> ->.
    rewrite list_lookup_fmap, Hd. cbn. by destruct (f d). }
  rewrite H. cbn [obind]. f_equal.
  transitivity (concat (map (fun d => match f d with None => [d] | Some _ => [] end)
    (map snd (enumerate derived)))); [by rewrite map_map|].
  rewrite enumerate_snd. clear H. induction derived as [|d l IH]; [done|].
  cbn [map concat List.filter]. rewrite IH. by destruct (f d).
Qed.

(** The associated token account of an owner for a mint, as the token standard derives it. *)
Definition ata_address (owner token_program mint : Pubkey) : Pubkey :=
  (find_program_address [to_bytes owner; to_bytes token_program; to_bytes mint]
     (pubkey_literal "ATokenGPvbdGVxr1b2hvZbsiqW5xWH25efTNsLJA8knL")).1.

(** The registry's banks whose token account for [owner] does not exist. *)
Definition without_ata (read : Pubkey -> option Account) reg (owner : Pubkey) : list BankInfo :=
  List.filter (fun b =>
      match read (ata_address owner (bi_token_program b) (bi_mint b)) with
      | None => true | Some _ => false
      end) (values reg).

(** The idempotent creation of that account, paid by the owner: tag 1 of the associated
    token program, over the payer, the account itself, its owner, its mint, the system
    program and the token program. *)
Definition create_ata_of (owner : Pubkey) (b : BankInfo) : Instruction :=
  mkIx (pubkey_literal "ATokenGPvbdGVxr1b2hvZbsiqW5xWH25efTNsLJA8knL")
    [mkMeta owner true true;
     mkMeta (ata_address owner (bi_token_program b) (bi_mint b)) false true;
     mkMeta owner false false; mkMeta (bi_mint b) false false;
     mkMeta system_program_id false false; mkMeta (bi_token_program b) false false]
    [Byte.x01].

(** The creations of the missing rows are those of the banks without an account. *)
Lemma missing_rows (read : Pubkey -> option Account) reg (owner : Pubkey) :
  map (fun d : Pubkey * Pubkey * Pubkey =>
      create_associated_token_account_idempotent_ix owner owner d.1.1 d.2)
    (List.filter (fun d : Pubkey * Pubkey * Pubkey =>
        match read d.1.2 with None => true | Some _ => false end)
      (map (fun info => (bi_mint info, ata_for info owner, bi_token_program info)) (values reg)))
  = map (create_ata_of owner) (without_ata read reg owner).
Proof.
  unfold without_ata. generalize (values reg). intros l.
  induction l as [|b l IH]; [done|]. cbn [map List.filter fst snd].
  change (ata_address owner (bi_token_program b) (bi_mint b)) with (ata_for b owner).
  destruct (read (ata_for b owner)); [done|]. cbn [map fst snd]. by rewrite IH.
Qed.

Lemma length_values reg : length (values reg) = registry_len reg.
Proof. unfold values. by rewrite length_map, length_map_to_list. Qed.

Lemma ensure_atas_exact' (read : Pubkey -> option Account) reg rpc kp (w : World X) :
  (forall ps, length ps = registry_len reg ->
     exists x', cl_get_multiple_accounts ps (ext w) = (inr (map read ps), x')) ->
  let owner := keypair_pubkey kp in
  let missing := without_ata read reg owner in
  wp (ensure_atas_for reg rpc kp) (fun tr r w' => inflight w' = inflight w /\
    (missing = [] -> submits tr = 0%nat /\ r = Ok tt) /\
    (missing <> [] -> (submits tr <= 3)%nat /\
       Forall (submit_sat (carries owner
         (priority_fee_preamble rpc (rpc_compute_unit_limit rpc) ++
          map (create_ata_of owner) missing) [])) tr /\
       (r = Ok tt -> exists s, delivered s tr))) w.
Proof.
  intros Hread owner missing. unfold ensure_atas_for. case_decide as He.
  { wp_step. assert (missing = []) as ->; [|by split_and!].
    unfold missing, without_ata, values. by rewrite He, map_to_list_empty. }
  wp_step. apply wp_fetch_accounts. intros r w1 Hi _ _ ->.
  destruct (Hread (map (fun d => d.1.2)
    (map (fun info => (bi_mint info, ata_for info owner, bi_token_program info)) (values reg)))) as [x'' Hx];
    [by rewrite !length_map; apply length_values|]. fold owner. rewrite Hx. cbn [fst]. wp_step. wp_step.
  rewrite (map_map _ read), missing_atas_map.
  set (rows := List.filter _ _).
  pose proof (missing_rows read reg owner) as Hrows. fold rows missing in Hrows.
  destruct rows as [|row rows].
  { wp_step. symmetry in Hrows. apply map_eq_nil in Hrows. rewrite Hrows.
    split_and!; [done..|]. by intros []. }
  rewrite Hrows. wp_step. wp_step. eapply wp_mono; [apply send_signed_labeled_spec|].
  assert (Hne : missing <> []) by (intros Hm; by rewrite Hm in Hrows).
  intros tr r w2 (Hi2 & Hn & Hs & _ & Hd).
  destruct r as [sig|e|s]; cbn [ocontext]; try wp_step; rewrite ?app_nil_r;
    (split; [congruence|]); (split; [done|]); intros _;
    (split; [done|]); (split; [by constructor|]); [|done..].
  intros _. exists sig. destruct Hd as [[tx ?]|[l ?]]; [left; exists tx|right; exists l]; set_solver.
Qed.

(** C39. Against a node that answers an account read from [read], bootstrapping the
    token accounts submits nothing when none is missing, and otherwise only
    transactions paid by the owner that carry, after the compute-budget preamble, one
    idempotent creation per bank whose account is missing, of the very account that was
    looked up and is missing, and no other instruction; it succeeds only if that
    transaction was delivered. *)
Theorem ensure_atas_exact (read : Pubkey -> option Account) reg rpc kp (w : World X) :
  (forall ps, length ps = registry_len reg ->
     exists x', cl_get_multiple_accounts ps (ext w) = (inr (map read ps), x')) ->
  let owner := keypair_pubkey kp in
  let missing := without_ata read reg owner in
  wp (ensure_atas_for reg rpc kp) (fun tr r w' => inflight w' = inflight w /\
    (missing = [] -> submits tr = 0%nat /\ r = Ok tt) /\
    (missing <> [] -> (submits tr <= 3)%nat /\
       Forall (submit_sat (carries owner
         (priority_fee_preamble rpc (rpc_compute_unit_limit rpc) ++
          map (create_ata_of owner) missing) [])) tr /\
       (r = Ok tt -> exists s, delivered s tr))) w.
Proof. apply ensure_atas_exact'. Qed.
End ata_properties.
