(* ===== verification/Config.v ===== *)
(** config.rs: the typed configuration read from the environment, the shared
    bank registry with its merge-only refresh, and the redactions applied before
    anything is logged. *)

From Stdlib Require Import ZArith Lia Ascii.
From stdpp Require Import gmap strings list pretty.
From S2P Require Import Prelude Solana State Effects Logic Rpc ChainReader BankRegistry.

Local Open Scope crank_scope.

(** ** Definitions *)

(** *** Integer parsing ([str::parse::<uN>]) *)

Definition digit_of (c : ascii) : option Z :=
  let n := Z.of_nat (nat_of_ascii c) in
  if ((48 <=? n) && (n <=? 57))%Z then Some (n - 48)%Z else None.

Definition E_EMPTY : string := "cannot parse integer from empty string".
Definition E_INVALID : string := "invalid digit found in string".
Definition E_OVERFLOW : string := "number too large to fit in target type".

(** Digit by digit, with both checked operations. *)
Fixpoint parse_digits (max acc : Z) (s : string) : string + Z :=
  match s with
  | EmptyString => inr acc
  | String c s' =>
      match digit_of c with
      | None => inl E_INVALID
      | Some d =>
          if (acc * 10 >? max)%Z then inl E_OVERFLOW
          else if (acc * 10 + d >? max)%Z then inl E_OVERFLOW
          else parse_digits max (acc * 10 + d) s'
      end
  end.

(** An optional [+] is skipped, unless it stands alone. *)
Definition strip_plus (s : string) : string :=
  match s with
  | String c ((String _ _) as s') => if decide (c = "+"%char) then s' else s
  | _ => s
  end.

Definition parse_uint (max : Z) (s : string) : string + Z :=
  match s with
  | EmptyString => inl E_EMPTY
  | _ => parse_digits max 0 (strip_plus s)
  end.

(** *** Redaction *)

(** The text before and after the first occurrence of [p]. *)
Fixpoint split_at (p s : string) : option (string * string) :=
  match strip_prefix p s with
  | Some rest => Some (EmptyString, rest)
  | None =>
      match s with
      | EmptyString => None
      | String c s' =>
          match split_at p s' with
          | Some (a, b) => Some (String c a, b)
          | None => None
          end
      end
  end.

Definition redact_url (url : string) : string :=
  let no_query := match split_at "?" url with Some (a, _) => a | None => url end in
  match split_at "://" no_query with
  | Some (scheme, after_scheme) =>
      match split_at "@" after_scheme with
      | Some (_, host) => scheme +:+ "://" +:+ host
      | None => no_query
      end
  | None => no_query
  end.

(** [Debug for KeypairSource]. *)
Definition KeypairSource_fmt (k : KeypairSource) : string :=
  match k with
  | Path p => "Path(" +:+ p +:+ ")"
  | KsBase58 _ => "Base58(<redacted>)"
  end.

(** The fields of [Debug for Config], in order. *)
Inductive DebugField :=
| DNetwork (n : Network) | DStr (s : string) | DPubkey (p : Pubkey)
| DOptPubkey (p : option Pubkey) | DNat (n : nat) | DHandlers (h : HandlersConfig)
| DThresholds (t : ThresholdsConfig) | DInt (z : Z) | DDuration (d : Duration).

Definition Config_fmt (cfg : Config) (banks_count : nat) : list (string * DebugField) :=
  [("network", DNetwork (cfg_network cfg));
   ("rpc_url", DStr (redact_url (cfg_rpc_url cfg)));
   ("program_id", DPubkey (cfg_program_id cfg));
   ("marginfi_program_id", DPubkey (cfg_marginfi_program_id cfg));
   ("marginfi_group", DPubkey (cfg_marginfi_group cfg));
   ("fee_payer_keypair", DStr (KeypairSource_fmt (cfg_fee_payer_keypair cfg)));
   ("fee_payer_expected_pubkey", DOptPubkey (cfg_fee_payer_expected_pubkey cfg));
   ("banks_count", DNat banks_count);
   ("handlers", DHandlers (cfg_handlers cfg));
   ("thresholds", DThresholds (cfg_thresholds cfg));
   ("priority_fee_micro_lamports", DInt (cfg_priority_fee_micro_lamports cfg));
   ("banks_refresh_interval", DDuration (cfg_banks_refresh_interval cfg));
   ("curator_keypairs_count", DNat (length (cfg_curator_keypairs_base58 cfg)))]%string.

(** *** The environment *)

Definition Network_as_str (n : Network) : string :=
  match n with Localhost => "localhost" | Mainnet => "mainnet" end.

Definition Network_from_str (s : string) : outcome Network :=
  let l := to_lower s in
  if decide (l = "localhost" \/ l = "local")%string then Ok Localhost
  else if decide (l = "mainnet" \/ l = "mainnet-beta")%string then Ok Mainnet
  else Err ["NETWORK must be localhost or mainnet, got " +:+ l].

Section config.
Context {X : Type} `{!Env X} {CR : Crates} {YD : YDelta}.

Section env.
(** [std::env::var], after [dotenv] has run: [None] is any of its errors. *)
Variable env : string -> option string.

Definition require_var (name : string) : outcome string :=
  o_of_option ["missing required env var " +:+ name] (env name).

Definition optional_var (name : string) : option string := env name.

Definition bool_var (name : string) (dflt : bool) : outcome bool :=
  match env name with
  | Some v =>
      let l := to_lower v in
      if decide (l = "true" \/ l = "1" \/ l = "yes")%string then Ok true
      else if decide (l = "false" \/ l = "0" \/ l = "no")%string then Ok false
      else Err [name +:+ ": expected bool, got " +:+ l]
  | None => Ok dflt
  end.

Definition uint_var (max : Z) (name : string) (dflt : Z) : outcome Z :=
  match env name with
  | Some v =>
      match parse_uint max v with
      | inl e => Err [name +:+ ": " +:+ e]
      | inr z => Ok z
      end
  | None => Ok dflt
  end.

Definition u64_var := uint_var U64_MAX.
Definition u32_var := uint_var U32_MAX.

Definition secs_var (name : string) (default_secs : Z) : outcome Duration :=
  let? s := u64_var name default_secs in Ok (from_secs s).

Definition parse_pubkey (s : string) : outcome Pubkey :=
  match pubkey_from_str s with
  | inl e => Err ["invalid pubkey " +:+ s +:+ ": " +:+ e]
  | inr p => Ok p
  end.

Definition parse_curator_keypairs_json (raw : string) : outcome (list string) :=
  let trimmed := str_trim raw in
  match trimmed with
  | EmptyString => Ok []
  | String c _ =>
      if decide (c = "["%char) then
        match json_string_array trimmed with
        | inl e => Err ["CURATOR_KEYPAIRS_JSON: invalid JSON array: " +:+ e]
        | inr arr => Ok (map str_trim arr)
        end
      else Ok [trimmed]
  end.

Definition fee_payer_source : outcome KeypairSource :=
  match optional_var "FEE_PAYER_KEYPAIR", optional_var "FEE_PAYER_KEYPAIR_BASE58" with
  | Some _, Some _ =>
      Err ["both FEE_PAYER_KEYPAIR and FEE_PAYER_KEYPAIR_BASE58 are set; pick exactly one"]
  | Some path, None => Ok (Path path)
  | None, Some b58 => Ok (KsBase58 b58)
  | None, None =>
      Err ["set either FEE_PAYER_KEYPAIR=<file path> or FEE_PAYER_KEYPAIR_BASE58=<base58 secret>"]
  end.

Definition handlers_from_env : outcome HandlersConfig :=
  let? pe := bool_var "PROMOTER_ENABLED" true in
  let? ce := bool_var "CLAIMER_ENABLED" true in
  let? le := bool_var "LIQUIDATOR_ENABLED" true in
  let? fe := bool_var "CURATOR_FEE_CLAIMER_ENABLED" false in
  let? me := bool_var "MATCH_CRANKER_ENABLED" true in
  let? pi := secs_var "PROMOTER_INTERVAL_SEC" 5 in
  let? ci := secs_var "CLAIMER_INTERVAL_SEC" 30 in
  let? li := secs_var "LIQUIDATOR_INTERVAL_SEC" 10 in
  let? fi := secs_var "CURATOR_FEE_CLAIMER_INTERVAL_SEC" 3600 in
  let? mi := secs_var "MATCH_CRANKER_INTERVAL_SEC" 15 in
  let? mf := u32_var "MATCH_CRANKER_MAX_FILLS" 8 in
  Ok {| promoter_enabled := pe; claimer_enabled := ce; liquidator_enabled := le;
        curator_fee_claimer_enabled := fe; match_cranker_enabled := me;
        promoter_interval := pi; claimer_interval := ci; liquidator_interval := li;
        curator_fee_claimer_interval := fi; match_cranker_interval := mi;
        match_cranker_max_fills := mf |}.

Definition thresholds_from_env : outcome ThresholdsConfig :=
  let? p := u64_var "MIN_LIQUIDATION_PROFIT_ATOMS" 1000000 in
  let? b := secs_var "MATURITY_EXTRA_BUFFER_SEC" 30 in
  let? c := u64_var "MIN_CURATOR_FEE_CLAIM_ATOMS" 100000 in
  Ok {| min_liquidation_profit_atoms := p; maturity_extra_buffer := b;
        min_curator_fee_claim_atoms := c |}.

Definition from_env : outcome Config :=
  let? network_var := require_var "NETWORK" in
  let? network := Network_from_str network_var in
  let? rpc_url := require_var "RPC_URL" in
  let? program_id :=
    parse_pubkey (default (show_pk ydelta_id) (optional_var "YDELTA_PROGRAM_ID")) in
  let? mpid := require_var "MARGINFI_PROGRAM_ID" in
  let? marginfi_program_id := parse_pubkey mpid in
  let? mg := require_var "MARGINFI_GROUP" in
  let? marginfi_group := parse_pubkey mg in
  let? fee_payer_keypair := fee_payer_source in
  let? expected :=
    match optional_var "FEE_PAYER_PUBKEY" with
    | Some s => let? p := parse_pubkey s in Ok (Some p)
    | None => Ok None
    end in
  let? handlers := handlers_from_env in
  let? thresholds := thresholds_from_env in
  let? priority_fee := u64_var "PRIORITY_FEE_MICRO_LAMPORTS" 1000 in
  let? compute_unit_limit := u32_var "COMPUTE_UNIT_LIMIT" 400000 in
  let? min_balance := u64_var "MIN_SIGNER_BALANCE_LAMPORTS" 50000000 in
  let? refresh := secs_var "BANKS_REFRESH_SEC" 300 in
  let? curators :=
    match optional_var "CURATOR_KEYPAIRS_JSON" with
    | None => Ok []
    | Some raw => parse_curator_keypairs_json raw
    end in
  Ok {| cfg_network := network; cfg_rpc_url := rpc_url; cfg_program_id := program_id;
        cfg_marginfi_program_id := marginfi_program_id;
        cfg_marginfi_group := marginfi_group;
        cfg_fee_payer_keypair := fee_payer_keypair;
        cfg_fee_payer_expected_pubkey := expected; cfg_handlers := handlers;
        cfg_thresholds := thresholds; cfg_priority_fee_micro_lamports := priority_fee;
        cfg_compute_unit_limit := compute_unit_limit;
        cfg_min_signer_balance_lamports := min_balance;
        cfg_banks_refresh_interval := refresh; cfg_curator_keypairs_base58 := curators |}.
End env.

(** *** The banks cell *)

Definition store_banks (b : BankRegistry -> BankRegistry) : M X unit :=
  shared_op (fun s => (tt, mkShared (sh_stop s) (sh_fee_payer_low s) (sh_markets s)
                             (b (sh_banks s)) (sh_ata_balances s))).

Definition banks_snapshot : M X BankRegistry := shared_op (fun s => (sh_banks s, s)).

Definition discover_banks_from_markets (cfg : Config) (chain : ChainReader) : M X unit :=
  let! fresh := discover_from_markets chain (cfg_marginfi_program_id cfg) in
  store_banks (fun _ => fresh).

Definition refresh_banks (cfg : Config) (chain : ChainReader) : M X unit :=
  let! fresh := discover_from_markets chain (cfg_marginfi_program_id cfg) in
  if registry_is_empty fresh then ret tt
  else store_banks (fun reg => merge_from reg fresh).
End config.

(** ** Lemmas *)

(** The decimal value of a digit string read after [acc]. *)
Fixpoint dec_value (acc : Z) (s : string) : Z :=
  match s with
  | EmptyString => acc
  | String c s' => dec_value (acc * 10 + default 0%Z (digit_of c)) s'
  end.

Fixpoint str_forall (P : ascii -> bool) (s : string) : bool :=
  match s with EmptyString => true | String c s' => P c && str_forall P s' end.

Definition is_digit (c : ascii) : bool := match digit_of c with Some _ => true | None => false end.

Lemma digit_of_range c d : digit_of c = Some d -> (0 <= d <= 9)%Z.
Proof.
  unfold digit_of. destruct (_ && _) eqn:E; [|done]. apply andb_prop in E as [? ?].
  zbool. intros [= <-]. lia.
Qed.

Lemma dec_value_ge acc s : (0 <= acc)%Z -> (acc <= dec_value acc s)%Z.
Proof.
  revert acc. induction s as [|c s IH]; intros acc Ha; simpl; [lia|].
  destruct (digit_of c) as [d|] eqn:E; simpl.
  - apply digit_of_range in E. specialize (IH (acc * 10 + d)%Z). lia.
  - specialize (IH (acc * 10 + 0)%Z). lia.
Qed.

Lemma parse_digits_exact max acc s n :
  (0 <= acc <= max)%Z ->
  parse_digits max acc s = inr n <->
  str_forall is_digit s = true /\ dec_value acc s = n /\ (n <= max)%Z.
Proof.
  revert acc. induction s as [|c s IH]; intros acc Ha; cbn [parse_digits str_forall dec_value].
  { split; [intros [= <-]; split_and!; [done..|lia]|]. intros (_ & -> & _). done. }
  unfold is_digit at 1. destruct (digit_of c) as [d|] eqn:E; cbn [andb default from_option id].
  2: { split; [done|]. by intros [? _]. }
  apply digit_of_range in E as Hd.
  pose proof (dec_value_ge (acc * 10 + d) s ltac:(lia)) as Hge.
  rewrite !Z.gtb_ltb. destruct (Z.ltb_spec max (acc * 10)) as [H1|H1].
  { split; [done|]. intros (_ & <- & ?). lia. }
  destruct (Z.ltb_spec max (acc * 10 + d)) as [H2|H2].
  { split; [done|]. intros (_ & <- & ?). lia. }
  apply IH. lia.
Qed.

Lemma split_at_Some p s a b : split_at p s = Some (a, b) -> s = a +:+ p +:+ b.
Proof.
  revert a. induction s as [|c s IH]; intros a; cbn [split_at];
    destruct (strip_prefix p _) as [r|] eqn:E; try done.
  - intros [= <- <-]. by apply strip_prefix_Some in E.
  - intros [= <- <-]. by apply strip_prefix_Some in E.
  - destruct (split_at p s) as [[x y]|]; [|done]. intros [= <- <-]. by rewrite (IH x eq_refl).
Qed.

Definition has_char (c : ascii) (s : string) : bool := negb (str_forall (fun d => bool_decide (d <> c)) s).

Lemma has_char_app c s t : has_char c (s +:+ t) = has_char c s || has_char c t.
Proof.
  unfold has_char. induction s as [|d s IH]; simpl; [done|].
  case_bool_decide; simpl; [apply IH|done].
Qed.

Lemma has_char_cons c d s : has_char c (String d s) = bool_decide (d = c) || has_char c s.
Proof. unfold has_char. simpl. by repeat case_bool_decide. Qed.

(** The first occurrence of a pattern, when the text before lacks its first character. *)
Lemma split_at_app c p s t :
  has_char c s = false -> split_at (String c p) (s +:+ String c p +:+ t) = Some (s, t).
Proof.
  induction s as [|d s IH]; intros Hs.
  - change (EmptyString +:+ String c p +:+ t) with (String c p +:+ t).
    pose proof (strip_prefix_app (String c p) t) as E. cbn [split_at].
    destruct (String c p +:+ t) eqn:E'; [done|]. cbn [split_at]. by rewrite E.
  - rewrite has_char_cons in Hs. apply orb_false_iff in Hs as [Hd Hs].
    case_bool_decide as Hdc; [done|].
    change (String d s +:+ String c p +:+ t) with (String d (s +:+ String c p +:+ t)).
    cbn [split_at strip_prefix]. rewrite decide_False by auto. by rewrite IH.
Qed.

Lemma split_at_None c p s : has_char c s = false -> split_at (String c p) s = None.
Proof.
  induction s as [|d s IH]; intros Hs; [done|].
  rewrite has_char_cons in Hs. apply orb_false_iff in Hs as [Hd Hs].
  case_bool_decide as Hdc; [done|]. cbn [split_at strip_prefix].
  rewrite decide_False by auto. by rewrite IH.
Qed.

Lemma split_at_char_None c s : split_at (String c "") s = None -> has_char c s = false.
Proof.
  induction s as [|d s IH]; [done|]. cbn [split_at strip_prefix].
  rewrite has_char_cons. case_decide as Hc; [by destruct s|].
  rewrite bool_decide_false by auto. destruct (split_at _ s) as [[? ?]|]; [done|]. auto.
Qed.

Lemma split_at_char_Some c s a b :
  split_at (String c "") s = Some (a, b) -> has_char c a = false.
Proof.
  revert a. induction s as [|d s IH]; intros a; [done|]. cbn [split_at strip_prefix].
  case_decide as Hc; [by destruct s; intros [= <- <-]|].
  destruct (split_at _ s) as [[x y]|]; [|done]. intros [= <- <-].
  rewrite has_char_cons, bool_decide_false by auto. by apply IH.
Qed.

Lemma no_query_redact url : has_char "?" (redact_url url) = false.
Proof.
  unfold redact_url. set (no_query := match split_at "?" url with Some _ => _ | None => _ end).
  assert (Hn : has_char "?" no_query = false).
  { unfold no_query. destruct (split_at "?" url) as [[a b]|] eqn:E.
    - by eapply split_at_char_Some.
    - by apply split_at_char_None. }
  clearbody no_query. destruct (split_at "://" no_query) as [[a b]|] eqn:E; [|done].
  apply split_at_Some in E as ->. destruct (split_at "@" b) as [[u h]|] eqn:E; [|done].
  apply split_at_Some in E as ->. rewrite !has_char_app in *.
  repeat match goal with H : _ || _ = false |- _ => apply orb_false_iff in H as [? ?] end.
  repeat (apply orb_false_iff; split); done.
Qed.

(** Splits a successful chain of [let?]. *)
Ltac inv_ok H :=
  repeat match type of H with
  | obind ?o _ = Ok _ =>
      let E := fresh "E" in
      destruct o as [?x|?e|?s] eqn:E; cbn [obind] in H; [|discriminate H..]
  end.

Definition is_secs (d : Duration) : Prop := exists s, is_u64 s /\ d = from_secs s.

Record cfg_wf (cfg : Config) : Prop := {
  cw_priority : is_u64 (cfg_priority_fee_micro_lamports cfg);
  cw_cu : is_u32 (cfg_compute_unit_limit cfg);
  cw_min_balance : is_u64 (cfg_min_signer_balance_lamports cfg);
  cw_refresh : is_secs (cfg_banks_refresh_interval cfg);
  cw_profit : is_u64 (min_liquidation_profit_atoms (cfg_thresholds cfg));
  cw_buffer : is_secs (maturity_extra_buffer (cfg_thresholds cfg));
  cw_fee_floor : is_u64 (min_curator_fee_claim_atoms (cfg_thresholds cfg));
  cw_max_fills : is_u32 (match_cranker_max_fills (cfg_handlers cfg));
  cw_intervals : Forall is_secs
    [promoter_interval (cfg_handlers cfg); claimer_interval (cfg_handlers cfg);
     liquidator_interval (cfg_handlers cfg); curator_fee_claimer_interval (cfg_handlers cfg);
     match_cranker_interval (cfg_handlers cfg)] }.

Lemma parse_uint_bounds max s z :
  (0 <= max)%Z -> parse_uint max s = inr z -> (0 <= z <= max)%Z.
Proof.
  intros Hm. unfold parse_uint. destruct s as [|c s]; [done|].
  intros (_ & <- & ?)%parse_digits_exact; [|lia]. split; [|done]. by apply dec_value_ge.
Qed.

Section env_lemmas.
Context {CR : Crates} {YD : YDelta} (env : string -> option string).

Lemma uint_var_bounds max name dflt z :
  (0 <= dflt <= max)%Z -> uint_var env max name dflt = Ok z -> (0 <= z <= max)%Z.
Proof.
  intros Hd. unfold uint_var. destruct (env name) as [v|]; [|by intros [= <-]].
  destruct (parse_uint max v) as [e|z'] eqn:E; [done|]. intros [= <-].
  apply parse_uint_bounds in E; lia.
Qed.

Lemma secs_var_is_secs name dflt d :
  is_u64 dflt -> secs_var env name dflt = Ok d -> is_secs d.
Proof.
  intros Hd. unfold secs_var, u64_var. intros H. inv_ok H. injection H as <-.
  exists x. split; [|done]. by eapply uint_var_bounds in E.
Qed.

Lemma handlers_wf h : handlers_from_env env = Ok h ->
  is_u32 (match_cranker_max_fills h) /\
  Forall is_secs [promoter_interval h; claimer_interval h; liquidator_interval h;
    curator_fee_claimer_interval h; match_cranker_interval h].
Proof.
  unfold handlers_from_env. intros H. inv_ok H. injection H as <-. cbn.
  split; [by eapply uint_var_bounds in E9; [|unfold U32_MAX; lia]|].
  repeat (apply Forall_cons; split); [..|done];
    (eapply secs_var_is_secs; [|eassumption]); unfold is_u64, U64_MAX; lia.
Qed.

Lemma thresholds_wf t : thresholds_from_env env = Ok t ->
  is_u64 (min_liquidation_profit_atoms t) /\ is_secs (maturity_extra_buffer t) /\
  is_u64 (min_curator_fee_claim_atoms t).
Proof.
  unfold thresholds_from_env. intros H. inv_ok H. injection H as <-. cbn.
  split_and!; [eapply uint_var_bounds in E|eapply secs_var_is_secs in E0
    |eapply uint_var_bounds in E1]; eauto; unfold is_u64, U64_MAX; lia.
Qed.
End env_lemmas.

(** ** Properties *)

(** Integer settings are accepted exactly when, after an optional plus sign, they
    are a non-empty string of decimal digits whose value fits the width; the value
    stored is that value. *)
Theorem parse_uint_exact max s n :
  (0 <= max)%Z ->
  parse_uint max s = inr n <->
  s <> EmptyString /\ str_forall is_digit (strip_plus s) = true /\
  dec_value 0 (strip_plus s) = n /\ (n <= max)%Z.
Proof.
  intros Hm. unfold parse_uint. destruct s as [|c s]; [split; [done|]; by intros []|].
  rewrite parse_digits_exact by lia. naive_solver.
Qed.

Lemma parse_uint_exact_witness :
  (0 <= U32_MAX)%Z /\ parse_uint U32_MAX "+4294967295" = inr 4294967295%Z /\
  (parse_uint U32_MAX "4294967296" = inr 4294967296%Z <->
   "4294967296" <> EmptyString /\ str_forall is_digit (strip_plus "4294967296") = true /\
   dec_value 0 (strip_plus "4294967296") = 4294967296%Z /\ (4294967296 <= U32_MAX)%Z).
Proof.
  split; [unfold U32_MAX; lia|]. split; [reflexivity|].
  apply (parse_uint_exact U32_MAX "4294967296" 4294967296). unfold U32_MAX. lia.
Defined.

(** A logged URL never shows the query string, and shows the user information of
    no URL whose user information holds no at sign: what is logged is the scheme and
    what follows the user information, whatever the credentials and the query. *)
Theorem redact_url_hides (scheme user host query : string) :
  has_char "?" (redact_url (scheme +:+ "://" +:+ user +:+ "@" +:+ host +:+ "?" +:+ query)) = false /\
  (has_char ":" scheme = false -> has_char "?" scheme = false ->
   has_char "@" user = false -> has_char "?" user = false -> has_char "?" host = false ->
   redact_url (scheme +:+ "://" +:+ user +:+ "@" +:+ host +:+ "?" +:+ query)
     = scheme +:+ "://" +:+ host /\
   redact_url (scheme +:+ "://" +:+ user +:+ "@" +:+ host) = scheme +:+ "://" +:+ host).
Proof.
  split.
  - apply no_query_redact.
  - intros Hs1 Hs2 Hu1 Hu2 Hh. unfold redact_url.
    assert (Hq : has_char "?" (scheme +:+ "://" +:+ user +:+ "@" +:+ host) = false)
      by (rewrite !has_char_app, Hs2, Hu2, Hh; done).
    assert (Hcore : forall no_query, no_query = scheme +:+ "://" +:+ user +:+ "@" +:+ host ->
      match split_at "://" no_query with
      | Some (scheme, after_scheme) =>
          match split_at "@" after_scheme with
          | Some (_, host) => scheme +:+ "://" +:+ host
          | None => no_query
          end
      | None => no_query
      end = scheme +:+ "://" +:+ host).
    { intros ? ->. rewrite (split_at_app ":" "//") by done. by rewrite (split_at_app "@" ""). }
    split.
    + replace (scheme +:+ "://" +:+ user +:+ "@" +:+ host +:+ "?" +:+ query)
        with ((scheme +:+ "://" +:+ user +:+ "@" +:+ host) +:+ "?" +:+ query)
        by by rewrite <-!string_app_assoc.
      rewrite (split_at_app "?" "") by done. by apply Hcore.
    + rewrite (split_at_None "?" "") by done. by apply Hcore.
Qed.

(** The redaction stops at the first at sign: a password that contains one leaks. *)
Example redact_url_first_at : redact_url "https://u:p@q@host/" = "https://q@host/".
Proof. reflexivity. Qed.

(** [cfg] with other secrets. *)
Definition with_secrets (cfg : Config) (secret : string) (curators : list string) : Config :=
  {| cfg_network := cfg_network cfg; cfg_rpc_url := cfg_rpc_url cfg;
     cfg_program_id := cfg_program_id cfg;
     cfg_marginfi_program_id := cfg_marginfi_program_id cfg;
     cfg_marginfi_group := cfg_marginfi_group cfg;
     cfg_fee_payer_keypair := KsBase58 secret;
     cfg_fee_payer_expected_pubkey := cfg_fee_payer_expected_pubkey cfg;
     cfg_handlers := cfg_handlers cfg; cfg_thresholds := cfg_thresholds cfg;
     cfg_priority_fee_micro_lamports := cfg_priority_fee_micro_lamports cfg;
     cfg_compute_unit_limit := cfg_compute_unit_limit cfg;
     cfg_min_signer_balance_lamports := cfg_min_signer_balance_lamports cfg;
     cfg_banks_refresh_interval := cfg_banks_refresh_interval cfg;
     cfg_curator_keypairs_base58 := curators |}.

(** The debug form of the configuration depends on no secret: two configurations
    that differ in the inline fee-payer secret and in the curator secrets, which are as
    many, print the same; and no field of it shows the RPC URL's query string. *)
Theorem config_debug_hides_secrets cfg n s1 s2 ks1 ks2 :
  length ks1 = length ks2 ->
  Config_fmt (with_secrets cfg s1 ks1) n = Config_fmt (with_secrets cfg s2 ks2) n /\
  forall u, ("rpc_url", DStr u) ∈ Config_fmt cfg n -> has_char "?" u = false.
Proof.
  intros Hl. split; [unfold Config_fmt; cbn; by rewrite Hl|].
  intros u Hu. unfold Config_fmt in Hu. repeat (apply elem_of_cons in Hu as [[=]|Hu]).
  - subst. apply no_query_redact.
  - by apply not_elem_of_nil in Hu.
Qed.

Section env_properties.
Context {CR : Crates} {YD : YDelta} (env : string -> option string).

(** C34. A configuration read from the environment is well formed: every integer fits
    its width, every interval is a whole number of seconds that fits [u64], exactly
    one fee-payer source was given and it is the one stored, and the three mandatory
    program settings were present. *)
Theorem from_env_wf cfg :
  from_env env = Ok cfg ->
  cfg_wf cfg /\
  match env "FEE_PAYER_KEYPAIR"%string, env "FEE_PAYER_KEYPAIR_BASE58"%string with
  | Some path, None => cfg_fee_payer_keypair cfg = Path path
  | None, Some b58 => cfg_fee_payer_keypair cfg = KsBase58 b58
  | _, _ => False
  end /\
  env "RPC_URL"%string = Some (cfg_rpc_url cfg) /\
  is_Some (env "MARGINFI_PROGRAM_ID"%string) /\ is_Some (env "MARGINFI_GROUP"%string).
Proof.
  unfold from_env. intros H. inv_ok H. injection H as <-. unfold require_var in *.
  match goal with H : handlers_from_env _ = _ |- _ => apply handlers_wf in H as [? ?] end.
  match goal with H : thresholds_from_env _ = _ |- _ => apply thresholds_wf in H as (? & ? & ?) end.
  split_and!.
  - constructor; cbn; try done;
      first [eapply secs_var_is_secs; [|eassumption] | eapply uint_var_bounds; [|eassumption]];
      unfold is_u64, U64_MAX, U32_MAX; lia.
  - unfold fee_payer_source, optional_var in *. cbn. repeat destr_match; congruence.
  - cbn. by destruct (env "RPC_URL"); simplify_eq/=.
  - destruct (env "MARGINFI_PROGRAM_ID"); [eauto|done].
  - destruct (env "MARGINFI_GROUP"); [eauto|done].
Qed.

(** The settings [from_env] may leave out. *)
Definition optional_settings : list string :=
  ["YDELTA_PROGRAM_ID"; "FEE_PAYER_KEYPAIR_BASE58"; "FEE_PAYER_PUBKEY"; "PROMOTER_ENABLED";
   "CLAIMER_ENABLED"; "LIQUIDATOR_ENABLED"; "CURATOR_FEE_CLAIMER_ENABLED";
   "MATCH_CRANKER_ENABLED"; "PROMOTER_INTERVAL_SEC"; "CLAIMER_INTERVAL_SEC";
   "LIQUIDATOR_INTERVAL_SEC"; "CURATOR_FEE_CLAIMER_INTERVAL_SEC";
   "MATCH_CRANKER_INTERVAL_SEC"; "MATCH_CRANKER_MAX_FILLS"; "MIN_LIQUIDATION_PROFIT_ATOMS";
   "MATURITY_EXTRA_BUFFER_SEC"; "MIN_CURATOR_FEE_CLAIM_ATOMS";
   "PRIORITY_FEE_MICRO_LAMPORTS"; "COMPUTE_UNIT_LIMIT"; "MIN_SIGNER_BALANCE_LAMPORTS";
   "BANKS_REFRESH_SEC"; "CURATOR_KEYPAIRS_JSON"]%string.

(** With the mandatory settings and a key file only, the configuration is the one
    the example environment file documents: all permissionless services on, the
    curator service off, intervals of 5, 30, 10, 3600 and 15 seconds, a priority fee of
    1000, 400000 compute units, a 0.05 SOL floor, a 300 second bank refresh, and the
    compiled-in program id. *)
Theorem from_env_defaults net url mp mp_key mg mg_key path :
  Forall (fun n => env n = None) optional_settings ->
  env "NETWORK"%string = Some net -> Network_from_str net = Ok Mainnet ->
  env "RPC_URL"%string = Some url ->
  env "MARGINFI_PROGRAM_ID"%string = Some mp -> pubkey_from_str mp = inr mp_key ->
  env "MARGINFI_GROUP"%string = Some mg -> pubkey_from_str mg = inr mg_key ->
  env "FEE_PAYER_KEYPAIR"%string = Some path ->
  pubkey_from_str (show_pk ydelta_id) = inr ydelta_id ->
  from_env env = Ok
    {| cfg_network := Mainnet; cfg_rpc_url := url; cfg_program_id := ydelta_id;
       cfg_marginfi_program_id := mp_key; cfg_marginfi_group := mg_key;
       cfg_fee_payer_keypair := Path path; cfg_fee_payer_expected_pubkey := None;
       cfg_handlers :=
         {| promoter_enabled := true; claimer_enabled := true; liquidator_enabled := true;
            curator_fee_claimer_enabled := false; match_cranker_enabled := true;
            promoter_interval := from_secs 5; claimer_interval := from_secs 30;
            liquidator_interval := from_secs 10;
            curator_fee_claimer_interval := from_secs 3600;
            match_cranker_interval := from_secs 15; match_cranker_max_fills := 8 |};
       cfg_thresholds :=
         {| min_liquidation_profit_atoms := 1000000; maturity_extra_buffer := from_secs 30;
            min_curator_fee_claim_atoms := 100000 |};
       cfg_priority_fee_micro_lamports := 1000; cfg_compute_unit_limit := 400000;
       cfg_min_signer_balance_lamports := 50000000;
       cfg_banks_refresh_interval := from_secs 300; cfg_curator_keypairs_base58 := [] |}.
Proof.
  intros Hopt Hn Hnet Hu Hmp Hmk Hmg Hgk Hp Hid.
  unfold optional_settings in Hopt.
  repeat match goal with H : Forall _ (_ :: _) |- _ => apply Forall_cons in H as [? H] end.
  unfold from_env, handlers_from_env, thresholds_from_env, fee_payer_source, bool_var, secs_var,
    u64_var, u32_var, uint_var, require_var, optional_var, parse_pubkey.
  repeat match goal with H : env ?n = _ |- context [env ?n] => rewrite H; clear H end.
  cbn [o_of_option obind default from_option id].
  rewrite Hnet; cbn [obind]. by rewrite Hid, Hmk, Hgk.
Qed.
End env_properties.

(** ** The banks cell under interference *)

(** One cell grows into another: entries stay, and stay well formed. *)
Definition banks_grow {CR : Crates} (s s' : Shared) : Prop :=
  by_mint (sh_banks s) ⊆ by_mint (sh_banks s') /\
  (registry_wf (sh_banks s) -> registry_wf (sh_banks s')).

Definition grows {X} {CR : Crates} : World X -> list Event -> bool -> World X -> Prop :=
  fun w _ _ w' => banks_grow (shared w) (shared w').

#[export] Instance grows_composable {X} {CR : Crates} : Composable (@grows X CR).
Proof.
  split; unfold grows, banks_grow; [done|]. intros w1 t1 w2 t2 p w3 [H1 H2] [H3 H4].
  split; [by etrans|auto].
Qed.

Section banks_cell.
Context {X : Type} `{!Env X} {CR : Crates} {YD : YDelta}.
(** The other tasks only merge into the cell. *)
Hypothesis rely : forall x s, banks_grow s (interfere x s).2.

Lemma grows_call {A} (f : X -> A * X) ev : keeps grows (call f ev).
Proof. intros w. apply wp_call. intros a x' _. by split. Qed.

Lemma grows_shared_op {A} (f : Shared -> A * Shared) :
  (forall s, banks_grow s (f s).2) -> keeps grows (shared_op f).
Proof.
  intros Hf w. apply wp_shared_op. intros x' s' Hi. unfold grows. cbn [shared].
  pose proof (rely (ext w) (shared w)) as [H1 H2]. rewrite Hi in *. cbn [snd] in *.
  destruct (Hf s') as [H3 H4]. split; [by etrans|auto].
Qed.

Lemma grows_refl_op_at {A} (f : Instant -> Shared -> A * Shared) :
  (forall now s, sh_banks (f now s).2 = sh_banks s) -> keeps grows (shared_op_at f).
Proof.
  intros Hf w. apply wp_shared_op_at. intros x1 s1 now x2 Hi _. unfold grows, banks_grow.
  cbn [shared]. rewrite Hf. pose proof (rely (ext w) (shared w)) as H. by rewrite Hi in H.
Qed.

Lemma grows_refl_op {A} (f : Shared -> A * Shared) :
  (forall s, sh_banks (f s).2 = sh_banks s) -> keeps grows (shared_op f).
Proof. intros Hf. apply grows_shared_op. intros s. split; by rewrite Hf. Qed.

Lemma grows_refresh_markets cr : keeps grows (refresh_markets cr).
Proof.
  unfold refresh_markets, fetch_markets, get_program_accounts,
    get_program_accounts_with_config, read_call, markets_cache_put.
  keeps_go; first [apply grows_call | by apply grows_refl_op_at].
Qed.

Lemma grows_discover cr mp : keeps grows (discover_from_markets cr mp).
Proof.
  unfold discover_from_markets, resolve_from_chain, get_multiple_accounts, read_call.
  keeps_go; first [apply grows_call | apply grows_refresh_markets].
Qed.

(** C29. The periodic refresh only adds: while the other tasks only add, whatever the
    node answers and on every outcome, each entry the registry held before is still
    there unchanged after, and a well-formed registry stays well formed. *)
Theorem refresh_banks_only_adds cfg cr (w : World X) :
  wp (refresh_banks cfg cr) (fun _ _ w' =>
    (forall mint b, registry_get (sh_banks (shared w)) mint = Some b ->
       registry_get (sh_banks (shared w')) mint = Some b) /\
    (registry_wf (sh_banks (shared w)) -> registry_wf (sh_banks (shared w')))) w.
Proof.
  unfold refresh_banks. wp_step.
  pose proof (grows_discover cr (cfg_marginfi_program_id cfg) w) as (tr & Htr & Hg).
  pose proof (discover_registry_wf cr (cfg_marginfi_program_id cfg) w) as (tr' & Htr' & _ & _ & Hr).
  exists tr. split; [done|]. unfold grows in Hg.
  destruct (discover_from_markets _ _ w) as [r w1]. cbn [fst snd] in *.
  assert (Hbase : forall s, banks_grow (shared w1) s ->
    (forall mint b, registry_get (sh_banks (shared w)) mint = Some b ->
       registry_get (sh_banks s) mint = Some b) /\
    (registry_wf (sh_banks (shared w)) -> registry_wf (sh_banks s))).
  { intros s [H1 H2]. destruct Hg as [H3 H4]. split; [|auto].
    intros mint b Hb. apply (lookup_weaken _ _ _ _ Hb). by etrans. }
  destruct r as [fresh|e|s]; [|by apply Hbase..].
  destruct (registry_is_empty fresh); [by wp_step; apply Hbase|].
  unfold store_banks. eapply wp_mono; [|intros ? ? ? HP; exact (Hbase _ HP)].
  apply (grows_shared_op (fun s => (tt, mkShared (sh_stop s) (sh_fee_payer_low s) (sh_markets s)
     (merge_from (sh_banks s) fresh) (sh_ata_balances s)))).
  intros s. cbn [snd sh_banks]. split; cbn [sh_banks].
  - rewrite merge_from_by_mint. apply map_union_subseteq_l.
  - intros ?. by apply registry_wf_merge.
Qed.
End banks_cell.
