(* ===== verification/Signer.v ===== *)
(** signer.rs: loading the fee payer and the curator keypairs, with the guards
    that refuse to start. *)

From Stdlib Require Import ZArith Lia Ascii.
From stdpp Require Import gmap strings list pretty.
From S2P Require Import Prelude Solana State Effects BankRegistry Config.

Local Open Scope crank_scope.

(** ** Definitions *)

(** [{:#o}]. *)
Fixpoint octal_fuel (fuel : nat) (z : Z) (acc : string) : string :=
  match fuel with
  | O => acc
  | S fuel' =>
      let acc' := String (hex_digit (z mod 8)%Z) acc in
      if (z / 8 =? 0)%Z then acc' else octal_fuel fuel' (z / 8)%Z acc'
  end.
Definition show_octal (z : Z) : string := "0o" +:+ octal_fuel 22 z "".

Section signer.
Context {CR : Crates}.
(** The file system: permission bits and contents, or the error's text. *)
Variable metadata_mode : string -> string + Z.
Variable fs_read : string -> string + bytes.

Definition o_of_sum {A} (ctx : list string) (r : string + A) : outcome A :=
  match r with inl e => Err (ctx ++ [e]) | inr a => Ok a end.

Definition load_keypair_from_base58 (s : string) : outcome Keypair :=
  match bs58_decode (str_trim s) with
  | inl e => Err ["invalid base58 in keypair: " +:+ e]
  | inr bytes =>
      if negb (length bytes =? 64)%nat then
        Err ["base58 keypair must decode to 64 bytes, got " +:+ pretty (length bytes)]
      else
        match keypair_try_from bytes with
        | inl e => Err ["invalid keypair bytes: " +:+ e]
        | inr kp => Ok kp
        end
  end.

(** [mode & 0o777], refused when any group or other bit is set. *)
Definition load_keypair_from_file (path : string) : outcome Keypair :=
  let? meta := o_of_sum ["stat keypair file " +:+ path] (metadata_mode path) in
  let mode := Z.land meta 511 in
  if negb (Z.land mode 63 =? 0)%Z then
    Err ["keypair file " +:+ path +:+ " is too permissive (mode " +:+ show_octal mode +:+
         "); chmod 0600 it before starting"]
  else
    let? bytes := o_of_sum ["reading keypair file " +:+ path] (fs_read path) in
    let? arr := o_of_sum ["parsing keypair JSON " +:+ path] (json_u8_array bytes) in
    match keypair_try_from arr with
    | inl e => Err ["invalid keypair at " +:+ path +:+ ": " +:+ e]
    | inr kp => Ok kp
    end.

Definition load_keypair (src : KeypairSource) : outcome Keypair :=
  match src with
  | Path p => load_keypair_from_file p
  | KsBase58 s => load_keypair_from_base58 s
  end.

Definition check_expected (fee_payer : Keypair) (expected : option Pubkey) : outcome unit :=
  match expected with
  | Some e =>
      if decide (keypair_pubkey fee_payer <> e) then
        Err ["fee-payer pubkey mismatch: loaded keypair resolves to " +:+
             show_pk (keypair_pubkey fee_payer) +:+ ", but FEE_PAYER_PUBKEY=" +:+ show_pk e +:+
             "; refusing to start — check the configured FEE_PAYER_KEYPAIR / FEE_PAYER_KEYPAIR_BASE58"]
      else Ok tt
  | None => Ok tt
  end.

(** The loop over [curator_keypairs_base58]: a duplicate keeps the last entry. *)
Fixpoint load_curators (i : nat) (b58s : list string) (curators : gmap Pubkey Keypair) :
  outcome (gmap Pubkey Keypair) :=
  match b58s with
  | [] => Ok curators
  | b58 :: rest =>
      let? kp := ocontext ("CURATOR_KEYPAIRS_JSON[" +:+ pretty i +:+ "]: invalid base58 keypair")
                   (load_keypair_from_base58 b58) in
      load_curators (S i) rest (<[keypair_pubkey kp := kp]> curators)
  end.

Definition Signers_load (cfg : Config) : outcome Signers :=
  let? fee_payer := load_keypair (cfg_fee_payer_keypair cfg) in
  let? _ := check_expected fee_payer (cfg_fee_payer_expected_pubkey cfg) in
  let? curators := load_curators 0 (cfg_curator_keypairs_base58 cfg) ∅ in
  if (curator_fee_claimer_enabled (cfg_handlers cfg) && bool_decide (curators = ∅))%bool then
    Err ["CURATOR_FEE_CLAIMER_ENABLED=true but no curator keypairs in CURATOR_KEYPAIRS_JSON — refusing to start"]
  else Ok {| sg_fee_payer := fee_payer; sg_curators := curators |}.

(** ** Lemmas *)

(** Each curator key is filed under its own public key. *)
Definition curators_wf (m : gmap Pubkey Keypair) : Prop :=
  map_Forall (fun pk kp => keypair_pubkey kp = pk) m.

Lemma load_curators_spec i b58s m m' :
  load_curators i b58s m = Ok m' -> curators_wf m ->
  curators_wf m' /\
  forall pk, is_Some (m' !! pk) <->
    is_Some (m !! pk) \/
    exists b58 kp, b58 ∈ b58s /\ load_keypair_from_base58 b58 = Ok kp /\ keypair_pubkey kp = pk.
Proof.
  revert i m. induction b58s as [|b58 rest IH]; intros i m H Hm; cbn [load_curators] in H.
  { injection H as <-. split; [done|]. intros pk. split; [by left|].
    intros [?|(b & _ & Hb & _)]; [done|by apply not_elem_of_nil in Hb]. }
  destruct (load_keypair_from_base58 b58) as [kp|e|s] eqn:E; [|done..].
  cbn [ocontext obind] in H. apply IH in H as [Hw Hd]; [|by apply map_Forall_insert_2].
  split; [done|]. intros pk. rewrite Hd, lookup_insert_is_Some. split.
  - intros [[<-|[_ ?]]|(b & k & ? & ? & ?)]; [right; exists b58, kp; split_and!; [by left|done..]
      |by left|right; exists b, k; split_and!; [by right|done..]].
  - intros [?|(b & k & [->|?]%elem_of_cons & Hk & <-)].
    + left. destruct (decide (keypair_pubkey kp = pk)); [by left|by right].
    + left. left. congruence.
    + right. by exists b, k.
Qed.

(** ** Properties *)

(** C35. Signers that load are the configured ones: the fee payer comes from the
    configured source and has the expected public key when one is configured; a key
    file was neither group nor world accessible; the curators held are exactly the
    keys listed, each filed under its own public key; and the curator service never
    starts without a curator key. *)
Theorem signers_load_sound cfg sg :
  Signers_load cfg = Ok sg ->
  load_keypair (cfg_fee_payer_keypair cfg) = Ok (sg_fee_payer sg) /\
  (forall e, cfg_fee_payer_expected_pubkey cfg = Some e -> keypair_pubkey (sg_fee_payer sg) = e) /\
  (forall path, cfg_fee_payer_keypair cfg = Path path ->
     exists mode, metadata_mode path = inr mode /\ Z.land mode 63 = 0%Z) /\
  curators_wf (sg_curators sg) /\
  (forall pk, is_Some (sg_curators sg !! pk) <->
     exists b58 kp, b58 ∈ cfg_curator_keypairs_base58 cfg /\
       load_keypair_from_base58 b58 = Ok kp /\ keypair_pubkey kp = pk) /\
  (curator_fee_claimer_enabled (cfg_handlers cfg) = true -> sg_curators sg <> ∅).
Proof.
  unfold Signers_load. intros H. inv_ok H.
  destruct (_ && _)%bool eqn:Hen; [done|]. injection H as <-. cbn [sg_fee_payer sg_curators].
  apply load_curators_spec in E1 as [Hw Hd]; [|apply map_Forall_empty].
  split_and!; [done| | |done| |].
  - intros e He. unfold check_expected in E0. rewrite He in E0. by case_decide.
  - intros path Hp. rewrite Hp in E. cbn in E. unfold load_keypair_from_file in E.
    destruct (metadata_mode path) as [err|meta]; [done|]. exists meta. split; [done|].
    cbn [o_of_sum obind] in E. destruct (_ =? _)%Z eqn:Hz; [|done]. apply Z.eqb_eq in Hz.
    rewrite <-Z.land_assoc in Hz. exact Hz.
  - intros pk. rewrite Hd, lookup_empty. split; [|by right]. by intros [[? ?]|?].
  - intros Hc He. rewrite Hc, bool_decide_true in Hen by done. done.
Qed.

(** A secret given in base58 is accepted exactly when it decodes to 64 bytes that
    form a keypair; the error of a rejected one is made of the decoder's message or of
    the length alone. *)
Theorem base58_keypair_exact s :
  (forall kp, load_keypair_from_base58 s = Ok kp <->
     exists bs, bs58_decode (str_trim s) = inr bs /\ length bs = 64%nat /\
       keypair_try_from bs = inr kp) /\
  (forall e, load_keypair_from_base58 s = Err e ->
     (exists m, bs58_decode (str_trim s) = inl m /\ e = ["invalid base58 in keypair: " +:+ m]) \/
     (exists bs, bs58_decode (str_trim s) = inr bs /\ length bs <> 64%nat /\
        e = ["base58 keypair must decode to 64 bytes, got " +:+ pretty (length bs)]) \/
     (exists bs m, bs58_decode (str_trim s) = inr bs /\ keypair_try_from bs = inl m /\
        e = ["invalid keypair bytes: " +:+ m])) /\
  (forall m, load_keypair_from_base58 s <> Panic m).
Proof.
  unfold load_keypair_from_base58. destruct (bs58_decode _) as [m|bs].
  { split_and!; [|intros e [= <-]; left; by exists m|done].
    intros kp. split; [done|]. by intros (? & ? & _). }
  destruct (Nat.eqb_spec (length bs) 64) as [Hl|Hl]; cbn [negb].
  - destruct (keypair_try_from bs) as [m|kp'] eqn:E.
    + split_and!; [|intros e [= <-]; right; right; by exists bs, m|done].
      intros kp. split; [done|]. intros (? & [= <-] & _ & ?). congruence.
    + split_and!; [|done|done]. intros kp. split; [intros [= <-]; by exists bs|].
      intros (? & [= <-] & _ & ?). congruence.
  - split_and!; [|intros e [= <-]; right; left; by exists bs|done].
    intros kp. split; [done|]. by intros (? & [= <-] & ? & _).
Qed.
End signer.
