(* ===== verification/SwbCranker.v ===== *)
(** swb_cranker.rs: the Switchboard pull-feed cranker: building an update bundle
    with gateway failover, posting one, and the periodic warm-keeper. *)

From Stdlib Require Import ZArith Lia.
From stdpp Require Import gmap strings list pretty.
From S2P Require Import Prelude Solana State Effects Logic Rpc ChainReader BankRegistry Config.

Local Open Scope crank_scope.

(** ** Definitions *)

Abbreviation Bundle := (list Instruction * list Lut)%type.

Definition SWB_STEP : Duration := from_millis 500.

Section swb_cranker.
Context {X : Type} `{!Env X} {CR : Crates} {YD : YDelta}.
Implicit Types c : SwbCranker.

(** The Switchboard client's two boot reads. *)
Definition SwbCranker_new {Queue : Type} (load : Pubkey -> string + Queue)
  (fetch_gateways : Queue -> string + list Gateway) (swb_queue : Pubkey) (payer : Keypair) :
  outcome SwbCranker :=
  match load swb_queue with
  | inl e => Err ["swb QueueAccountData::load(" +:+ show_pk swb_queue +:+ "): " +:+ e]
  | inr queue =>
      match fetch_gateways queue with
      | inl e => Err ["swb fetch_gateways: " +:+ e]
      | inr [] => Err ["no on-chain switchboard gateways"]
      | inr gateways => Ok {| swb_gateways := gateways; swb_payer := payer |}
      end
  end.

Definition fetch_update_via c (oracles : list Pubkey) (gateway : Gateway) : M X Bundle :=
  let! r := gateway_fetch gateway oracles (keypair_pubkey (swb_payer c)) in
  match r with
  | inl e => throw ["swb fetch_update_consensus_ix: " +:+ e]
  | inr bundle => ret bundle
  end.

Definition try_crank c (oracles : list Pubkey) (gateway : Gateway) : M X Signature :=
  let! (ixs, luts) := fetch_update_via c oracles gateway in
  let! blockhash := (let! r := get_latest_blockhash in try_client r) in
  let m := mkMessage (keypair_pubkey (swb_payer c)) ixs luts blockhash in
  match v0_compile_error m with
  | Some e => throw [e]
  | None =>
      match sign_v0 m [swb_payer c] with
      | inl e => throw [e]
      | inr sigs => let! r := send_and_confirm_transaction (mkTx m sigs) in try_client r
      end
  end.

(** The loop over the gateways: the first success returns. *)
Fixpoint failover {A} (attempt_one : Gateway -> M X A) (total : nat) (gateways : list Gateway)
  (last_err : option Error) : M X A :=
  match gateways with
  | [] =>
      throw ["all " +:+ pretty total +:+ " switchboard gateways failed: " +:+
             default "" (last_err ≫= head)]
  | gateway :: rest =>
      let! r := attempt (attempt_one gateway) in
      match r with
      | inr a => ret a
      | inl e => failover attempt_one total rest (Some e)
      end
  end.

Definition crank c (oracles : list Pubkey) : M X (option Signature) :=
  match oracles with
  | [] => ret None
  | _ =>
      let! sig := failover (try_crank c oracles) (length (swb_gateways c)) (swb_gateways c) None in
      ret (Some sig)
  end.

Definition fetch_update_ixs c (oracles : list Pubkey) : M X Bundle :=
  match oracles with
  | [] => ret ([], [])
  | _ => failover (fetch_update_via c oracles) (length (swb_gateways c)) (swb_gateways c) None
  end.

(** [while elapsed < interval]: whether the stop flag ended it, [None] when the
    fuel ran out. *)
Fixpoint swb_sleep (fuel : nat) (elapsed interval : Duration) : M X (option bool) :=
  match fuel with
  | O => ret None
  | S fuel' =>
      if (elapsed <? interval)%Z then
        let! st := load_stop in
        if st : bool then ret (Some true)
        else sleep SWB_STEP ;; swb_sleep fuel' (elapsed + SWB_STEP) interval
      else ret (Some false)
  end.

Definition swb_sleep_fuel (interval : Duration) : nat := Z.to_nat (interval / SWB_STEP) + 2.

(** The body of the warm-keeper's loop, before its sleep. *)
Definition swb_crank_tick c : M X unit :=
  let! banks := banks_snapshot in
  match switchboard_pull_oracles banks with
  | [] => ret tt
  | oracles => let! _ := attempt (crank c oracles) in ret tt
  end.

(** The task, for at most [fuel] rounds: [true] once it returned. *)
Fixpoint swb_crank_loop (fuel : nat) c (interval : Duration) : M X bool :=
  match fuel with
  | O => ret false
  | S fuel' =>
      let! st := load_stop in
      if st : bool then ret true
      else
        swb_crank_tick c ;;
        let! w := swb_sleep (swb_sleep_fuel interval) 0 interval in
        match w with
        | None => ret false
        | Some true => ret true
        | Some false => swb_crank_loop fuel' c interval
        end
  end.
End swb_cranker.

(** ** Lemmas *)

(** A submission the node acknowledged with a signature. *)
Definition is_acknowledged (ev : Event) : bool :=
  match ev with EvSubmit _ (inr _) => true | _ => false end.
Definition acknowledged (tr : list Event) : nat := length (List.filter is_acknowledged tr).

Lemma acknowledged_app t1 t2 : acknowledged (t1 ++ t2) = (acknowledged t1 + acknowledged t2)%nat.
Proof. unfold acknowledged. by rewrite List.filter_app, length_app. Qed.

Lemma no_submit_acknowledged tr : Forall no_submit tr -> acknowledged tr = 0%nat.
Proof. unfold acknowledged. induction 1 as [|ev tr Hev _ IH]; [done|]. by destruct ev. Qed.

(** The gateways [gs] were asked in order and each failed. *)
Definition all_failed (feeds : list Pubkey) (gs : list Gateway) (tr : list Event) : Prop :=
  Forall2 (fun g ev => exists e, ev = EvGateway g feeds (inl e)) gs tr.

(** The abstract failover: the first gateway that answers wins, none is asked after it. *)
Definition failover_spec (feeds : list Pubkey) (gs : list Gateway) (tr : list Event)
  (r : outcome Bundle) : Prop :=
  (exists pre g post trp b, gs = pre ++ g :: post /\ all_failed feeds pre trp /\
     tr = trp ++ [EvGateway g feeds (inr b)] /\ r = Ok b) \/
  (all_failed feeds gs tr /\ exists e, r = Err [e]).

Section swb_lemmas.
Context {X : Type} `{!Env X} {CR : Crates} {YD : YDelta}.
Implicit Types c : SwbCranker.

Lemma fetch_update_via_spec c feeds g (w : World X) :
  wp (fetch_update_via c feeds g) (fun tr r w' => inflight w' = inflight w /\
    exists a, tr = [EvGateway g feeds a] /\
      match a with
      | inl e => r = Err ["swb fetch_update_consensus_ix: " +:+ e]
      | inr b => r = Ok b
      end) w.
Proof.
  unfold fetch_update_via, gateway_fetch. wp_step. wp_step.
  destruct a as [e|b]; wp_step; (split; [done|]); by eexists.
Qed.

Lemma failover_fetch_spec c feeds total gs last (w : World X) :
  wp (failover (fetch_update_via c feeds) total gs last) (fun tr r w' =>
    inflight w' = inflight w /\ failover_spec feeds gs tr r) w.
Proof.
  revert last w. induction gs as [|g gs IH]; intros last w; cbn [failover].
  { wp_step. split; [done|]. right. split; [constructor|by eexists]. }
  wp_step. wp_step. eapply wp_mono; [apply fetch_update_via_spec|].
  intros tr r w1 (Hi & a & -> & Ha). destruct a as [e|b]; subst r.
  - eapply wp_mono; [apply IH|]. intros tr r w2 [Hi2 Hs]. split; [congruence|].
    destruct Hs as [(pre & g' & post & trp & b & -> & Hf & -> & ->)|[Hf He]].
    + left. exists (g :: pre), g', post, (EvGateway g feeds (inl e) :: trp), b.
      split_and!; [done| |done..]. constructor; [by eexists|done].
    + right. split; [|done]. constructor; [by eexists|done].
  - wp_step. split; [done|]. left. exists [], g, gs, [], b.
    split_and!; [done|constructor|done|done].
Qed.

Lemma fetch_update_ixs_spec c feeds (w : World X) :
  wp (fetch_update_ixs c feeds) (fun tr r w' => inflight w' = inflight w /\
    match feeds with
    | [] => tr = [] /\ r = Ok ([], [])
    | _ => failover_spec feeds (swb_gateways c) tr r
    end) w.
Proof.
  unfold fetch_update_ixs. destruct feeds; [by wp_step|]. apply failover_fetch_spec.
Qed.

Lemma failover_quiet feeds gs tr r : failover_spec feeds gs tr r -> Forall no_submit tr.
Proof.
  assert (Hf : forall gs tr, all_failed feeds gs tr -> Forall no_submit tr).
  { induction 1 as [|g ev gs' tr' [e ->] _ IH]; quiet. }
  intros [(pre & g & post & trp & b & -> & H & -> & ->)|[H _]]; [|by eapply Hf].
  apply Forall_app_2; [by eapply Hf|quiet].
Qed.

Lemma quiet_fetch_update_ixs c feeds : keeps quiet_run (fetch_update_ixs c feeds).
Proof.
  intros w. eapply wp_mono; [apply fetch_update_ixs_spec|]. intros tr r w' [Hi H].
  split; [|done]. destruct feeds; [by destruct H as [-> _]|by eapply failover_quiet].
Qed.

(** A transaction of the payer, signed by it, that carries the bundle of a gateway. *)
Definition update_tx c (ixs : list Instruction) (luts : list Lut) (tx : Transaction) : Prop :=
  exists blockhash,
    tx_message tx = mkMessage (keypair_pubkey (swb_payer c)) ixs luts blockhash /\
    v0_compile_error (tx_message tx) = None /\
    sign_v0 (tx_message tx) [swb_payer c] = inr (tx_signatures tx).

(** One attempt through a gateway: the gateway fails; or it answers and no transaction
    comes of it; or its bundle is sent, once, and not acknowledged, or acknowledged. *)
Inductive attempt_log c (feeds : list Pubkey) (g : Gateway) : list Event -> option Signature -> Prop :=
| al_gateway e : attempt_log c feeds g [EvGateway g feeds (inl e)] None
| al_unsent b : attempt_log c feeds g [EvGateway g feeds (inr b); EvRead RdBlockhash] None
| al_unacknowledged ixs luts tx e : update_tx c ixs luts tx ->
    attempt_log c feeds g
      [EvGateway g feeds (inr (ixs, luts)); EvRead RdBlockhash; EvSubmit tx (inl e)] None
| al_posted ixs luts tx s : update_tx c ixs luts tx ->
    attempt_log c feeds g
      [EvGateway g feeds (inr (ixs, luts)); EvRead RdBlockhash; EvSubmit tx (inr s)] (Some s).

(** The gateways in order, until a post is acknowledged. *)
Inductive posting_log c (feeds : list Pubkey) : list Gateway -> list Event -> option Signature -> Prop :=
| cl_exhausted : posting_log c feeds [] [] None
| cl_posted g gs tr s : attempt_log c feeds g tr (Some s) -> posting_log c feeds (g :: gs) tr (Some s)
| cl_next g gs t1 t2 r : attempt_log c feeds g t1 None -> posting_log c feeds gs t2 r ->
    posting_log c feeds (g :: gs) (t1 ++ t2) r.

(** The signature of a result; a panic has no log. *)
Definition logged (L : option Signature -> Prop) (r : outcome Signature) : Prop :=
  match r with Ok s => L (Some s) | Err _ => L None | Panic _ => False end.

Lemma try_crank_spec c feeds g (w : World X) :
  wp (try_crank c feeds g) (fun tr r w' => inflight w' = inflight w /\
    logged (attempt_log c feeds g tr) r) w.
Proof.
  unfold try_crank. wp_step. eapply wp_mono; [apply fetch_update_via_spec|].
  intros tr r w1 (Hi & a & -> & Ha). destruct a as [e|[ixs luts]]; subst r.
  { split; [done|constructor]. }
  unfold get_latest_blockhash, read_call, send_and_confirm_transaction.
  repeat wp_step; (split; [done|]); cbn [logged]; try constructor; by eexists.
Qed.

Lemma failover_crank_spec c feeds total gs last (w : World X) :
  wp (failover (try_crank c feeds) total gs last) (fun tr r w' => inflight w' = inflight w /\
    logged (posting_log c feeds gs tr) r) w.
Proof.
  revert last w. induction gs as [|g gs IH]; intros last w; cbn [failover].
  { wp_step. split; [done|constructor]. }
  wp_step. wp_step. eapply wp_mono; [apply try_crank_spec|].
  intros tr [s|e|s] w1 [Hi Hl]; cbn [logged] in Hl; [| |done].
  - wp_step. rewrite app_nil_r. split; [done|by constructor].
  - eapply wp_mono; [apply IH|]. intros tr2 r w2 [Hi2 Hl2]. split; [congruence|].
    destruct r; cbn [logged] in *; [by constructor..|done].
Qed.

(** How often an attempt and a whole crank send, and are acknowledged. *)
Lemma attempt_log_counts c feeds g tr r :
  attempt_log c feeds g tr r -> (submits tr <= 1)%nat /\ acknowledged tr = length (option_list r).
Proof. destruct 1; split; unfold submits, acknowledged; simpl; lia. Qed.

Lemma posting_log_counts c feeds gs tr r :
  posting_log c feeds gs tr r ->
  (submits tr <= length gs)%nat /\ acknowledged tr = length (option_list r).
Proof.
  induction 1 as [|g gs tr s H|g gs t1 t2 r H _ [IH1 IH2]]; [done|..];
    apply attempt_log_counts in H as [H1 H2]; [simpl in *; split; [lia|done]|].
  rewrite submits_app, acknowledged_app, H2. simpl. split; [lia|done].
Qed.
End swb_lemmas.
#[export] Hint Resolve quiet_fetch_update_ixs : crank.

(** ** Properties *)

Section swb_properties.
Context {X : Type} `{!Env X} {CR : Crates} {YD : YDelta}.
Implicit Types c : SwbCranker.

(** Fetching an update bundle costs no transaction and fails over in order: no
    gateway is asked for an empty feed list; otherwise the gateways are asked one by
    one until one answers, whose bundle is returned, and it fails only after every
    gateway was asked and failed. *)
Theorem fetch_update_fails_over c feeds (w : World X) :
  wp (fetch_update_ixs c feeds) (fun tr r w' =>
    inflight w' = inflight w /\ Forall no_submit tr /\
    match feeds with
    | [] => tr = [] /\ r = Ok ([], [])
    | _ => failover_spec feeds (swb_gateways c) tr r
    end) w.
Proof.
  eapply wp_mono; [apply fetch_update_ixs_spec|]. intros tr r w' [Hi H].
  split_and!; [done| |done].
  destruct feeds; [by destruct H as [-> _]|by eapply failover_quiet].
Qed.

(** C36. Posting an update tries the gateways in order: each one asked either fails, or
    gives a bundle that becomes at most one transaction, which carries that bundle, is paid
    for by the payer and signed with its key; the first transaction the node acknowledges
    ends the crank with its signature, and it fails only once every gateway was tried. So
    the node acknowledges at most one post. A post it did not acknowledge is not looked up
    before the next gateway is tried, and may still land. Nothing to post costs nothing. *)
Theorem crank_refines_failover c feeds (w : World X) :
  wp (crank c feeds) (fun tr r w' => inflight w' = inflight w /\
    match feeds with
    | [] => tr = [] /\ r = Ok None
    | _ =>
        match r with
        | Ok (Some s) => posting_log c feeds (swb_gateways c) tr (Some s) /\ acknowledged tr = 1%nat
        | Err _ => posting_log c feeds (swb_gateways c) tr None /\ acknowledged tr = 0%nat
        | _ => False
        end /\ (submits tr <= length (swb_gateways c))%nat
    end) w.
Proof.
  unfold crank. destruct feeds as [|f feeds]; [by wp_step|]. wp_step.
  eapply wp_mono; [apply failover_crank_spec|]. intros tr r w1 [Hi Hl].
  destruct r as [s|e|s]; cbn [logged] in Hl; [wp_step; rewrite app_nil_r| |done];
    pose proof (posting_log_counts _ _ _ _ _ Hl) as [Hc Ha]; by split_and!.
Qed.

(** The warm-keeper's sleep returns with the fuel the model gives it: it sleeps in
    half-second steps, checking the stop flag before each, and unless it is stopped it
    ends at the first step that reaches the interval. *)
Theorem swb_sleep_returns interval (w : World X) :
  wp (swb_sleep (swb_sleep_fuel interval) 0 interval) (fun tr r w' =>
    exists b n, r = Ok (Some b) /\ tr = replicate n (EvSleep SWB_STEP) /\
      ((0 < n)%nat -> ((Z.of_nat n - 1) * SWB_STEP < interval)%Z) /\
      (b = false -> (interval <= Z.of_nat n * SWB_STEP)%Z)) w.
Proof.
  assert (Hgen : forall fuel elapsed (w : World X),
    (1 <= fuel)%nat -> ((interval - elapsed) / SWB_STEP + 2 <= Z.of_nat fuel)%Z ->
    wp (swb_sleep fuel elapsed interval) (fun tr r w' =>
      exists b n, r = Ok (Some b) /\ tr = replicate n (EvSleep SWB_STEP) /\
        ((0 < n)%nat -> (elapsed + (Z.of_nat n - 1) * SWB_STEP < interval)%Z) /\
        (b = false -> (interval <= elapsed + Z.of_nat n * SWB_STEP)%Z)) w).
  2: { eapply wp_mono; [apply Hgen; unfold swb_sleep_fuel; rewrite ?Z.sub_0_r; lia|].
       intros tr r w' (b & n & ? & ? & ? & ?). by exists b, n. }
  assert (Hstep : SWB_STEP = 500000000%Z) by done.
  intros fuel. induction fuel as [|fuel IH]; intros elapsed w0 Hf1 Hf; [lia|]. cbn [swb_sleep].
  destruct (Z.ltb_spec elapsed interval) as [Hlt|Hge].
  2: { wp_step. exists false, 0%nat. split_and!; [done|done|lia|lia]. }
  unfold load_stop, sleep. wp_step. wp_step. destruct (sh_stop s'); cbn [fst].
  { wp_step. exists true, 0%nat. split_and!; [done|done|lia|done]. }
  wp_step. wp_step. eapply wp_mono.
  { rewrite Hstep in *.
    pose proof (Z.div_add (interval - elapsed) (-1) 500000000 ltac:(lia)) as Hd.
    replace (interval - elapsed + -1 * 500000000)%Z
      with (interval - (elapsed + 500000000))%Z in Hd by lia.
    assert (0 <= (interval - elapsed) / 500000000)%Z by (apply Z.div_pos; lia).
    apply IH; [lia|]. lia. }
  intros tr r w1 (b & n & -> & -> & Hn & Hb). exists b, (S n). split_and!; [done|done| |].
  - intros _. destruct n; [lia|]. specialize (Hn ltac:(lia)). lia.
  - intros Hbf. specialize (Hb Hbf). lia.
Qed.
End swb_properties.
