(* ===== verification/Metrics.v ===== *)
(** metrics.rs: the failure classifier, the stop-aware sleep, and the three
    background tasks (fee-payer balance, token balances, bank refresh). *)

From Stdlib Require Import ZArith Lia.
From stdpp Require Import gmap strings list pretty.
From S2P Require Import Prelude Solana State Effects Logic Rpc Util ChainReader BankRegistry Config.

Local Open Scope crank_scope.

(** ** Definitions *)

Definition M_TICKS_TOTAL : string := "ydelta_cranker_ticks_total".
Definition M_TICK_DURATION : string := "ydelta_cranker_tick_duration_seconds".
Definition M_SIGNER_SOL_BALANCE : string := "ydelta_cranker_signer_sol_balance".
Definition M_FEE_PAYER_ATA_BALANCE : string := "ydelta_cranker_fee_payer_ata_atoms".
Definition M_BANK_REGISTRY_SIZE : string := "ydelta_cranker_bank_registry_size".
Definition M_TX_FAILURES_TOTAL : string := "ydelta_cranker_tx_failures_total".

Definition FAIL_REASON_RPC : string := "rpc_error".
Definition FAIL_REASON_INSUFFICIENT_FUNDS : string := "insufficient_funds".
Definition FAIL_REASON_SIM_FAILED : string := "sim_failed".
Definition FAIL_REASON_TX_REJECTED : string := "tx_rejected".
Definition FAIL_REASON_DECODE : string := "decode_error".
Definition FAIL_REASON_INTERNAL : string := "internal".

(** The Prometheus exporter: the calls [install] makes on the builder, whose
    buckets are decimals given in thousandths; setting them refuses an empty list. *)
Record Prometheus (SocketAddr : Type) := {
  pb_builder : Type;
  pb_new : pb_builder;
  pb_with_http_listener : SocketAddr -> pb_builder -> pb_builder;
  pb_set_buckets_for_metric : string -> list Z -> pb_builder -> option pb_builder;
  pb_install : pb_builder -> option string }.
Arguments pb_builder {_} _.
Arguments pb_new {_} _.
Arguments pb_with_http_listener {_} _ _ _.
Arguments pb_set_buckets_for_metric {_} _ _ _ _.
Arguments pb_install {_} _ _.

Definition TICK_BUCKETS : list Z := [5; 25; 100; 500; 1000; 5000; 30000; 60000]%Z.
Definition IX_BUCKETS : list Z := [100; 500; 1000; 2500; 5000; 10000; 30000; 60000]%Z.

Definition install {SocketAddr} (p : Prometheus SocketAddr) (bind : SocketAddr) : outcome unit :=
  let b := pb_with_http_listener p bind (pb_new p) in
  let? b := o_of_option ["set_buckets_for_metric: tick_duration"]
              (pb_set_buckets_for_metric p M_TICK_DURATION TICK_BUCKETS b) in
  let? b := o_of_option ["set_buckets_for_metric: ix_latency"]
              (pb_set_buckets_for_metric p M_IX_LATENCY IX_BUCKETS b) in
  ocontext "PrometheusBuilder::install"
    (match pb_install p b with Some e => Err [e] | None => Ok tt end).

(** [format!("{err:#}")]: the chain joined by colons. *)
Fixpoint alternate (err : Error) : string :=
  match err with
  | [] => ""
  | [e] => e
  | e :: rest => e +:+ ": " +:+ alternate rest
  end.

Definition classify_handler_error (err : Error) : string :=
  let msg := to_lower (alternate err) in
  let c := str_contains msg in
  if c "insufficient" || c "lamports" || c "not enough" then FAIL_REASON_INSUFFICIENT_FUNDS
  else if c "simulation" || c "simulate" then FAIL_REASON_SIM_FAILED
  else if c "blockhash" || c "send_and_confirm" || c "tx_rejected" then FAIL_REASON_TX_REJECTED
  else if c "rpc" || c "connection" || c "timed out" || c "reqwest" || c "http" then FAIL_REASON_RPC
  else if c "decode" || c "deserialize" || c "bytemuck" then FAIL_REASON_DECODE
  else FAIL_REASON_INTERNAL.

(** How a stop-aware wait ended. *)
Inductive WaitEnd := WStopped | WElapsed | WOutOfFuel.

Section metrics.
Context {X : Type} `{!Env X} {CR : Crates} {YD : YDelta}.

(** [loop { if stop { return }; if now >= deadline { .. }; sleep(min(rest, 1s)) }]. *)
Fixpoint wait_loop (fuel : nat) (deadline : Instant) : M X WaitEnd :=
  match fuel with
  | O => ret WOutOfFuel
  | S fuel' =>
      let! st := load_stop in
      if st : bool then ret WStopped
      else
        let! now := now_instant in
        if (now >=? deadline)%Z then ret WElapsed
        else
          sleep (Z.min (saturating_duration_since deadline now) (from_secs 1)) ;;
          wait_loop fuel' deadline
  end.

Definition wait_fuel (total : Duration) : nat := Z.to_nat (total / from_secs 1) + 2.

Definition sleep_until_or_stop (total : Duration) : M X WaitEnd :=
  let! now := now_instant in
  wait_loop (wait_fuel total) (now + total).

(** A background task: check the stop flag, work, sleep. [true] once it
    returned, [false] when the fuel ran out. *)
Fixpoint task_loop (fuel : nat) (tick : M X unit) (interval : Duration) : M X bool :=
  match fuel with
  | O => ret false
  | S fuel' =>
      let! st := load_stop in
      if st : bool then ret true
      else
        tick ;;
        let! e := sleep_until_or_stop interval in
        match e with
        | WOutOfFuel => ret false
        | _ => task_loop fuel' tick interval
        end
  end.

(** *** Fee-payer balance *)

Definition sol_balance_tick (signers : Signers) (min_balance_lamports : Z) : M X unit :=
  let fee_payer_pk := keypair_pubkey (sg_fee_payer signers) in
  let! r := get_balance fee_payer_pk in
  match r with
  | inr lamports =>
      emit (EvGauge M_SIGNER_SOL_BALANCE
              [("signer", "fee_payer"); ("pubkey", show_pk fee_payer_pk)]) ;;
      let! was_low := load_fee_payer_low in
      let is_low := (lamports <? min_balance_lamports)%Z in
      if negb (Bool.eqb is_low was_low) then store_fee_payer_low is_low else ret tt
  | inl _ => ret tt
  end.

Definition spawn_sol_balance_loop (fuel : nat) (signers : Signers) (min_balance : Z) : M X bool :=
  task_loop fuel (sol_balance_tick signers min_balance) (from_secs 60).

(** *** Token balances *)

(** [accts.get(i).and_then(..).and_then(spl_token_amount).unwrap_or(0)]. *)
Definition balance_at (accts : list (option Account)) (i : nat) : Z :=
  default 0%Z (o ← accts !! i; a ← o; spl_token_amount (acct_data a)).

Definition ata_entries (banks : BankRegistry) (owner : Pubkey) : outcome (list (Pubkey * Pubkey)) :=
  traverse (fun mint =>
    let? bank := o_or_panic "just iterated" (registry_get banks mint) in
    Ok (mint, ata_for bank owner)) (mints banks).

Definition ata_balance_tick (signers : Signers) : M X unit :=
  let owner := keypair_pubkey (sg_fee_payer signers) in
  let! banks := banks_snapshot in
  let! entries := lift (ata_entries banks owner) in
  match entries with
  | [] => ret tt
  | _ =>
      let! r := attempt (batch_get_multiple_accounts (map snd entries)) in
      match r with
      | inl _ => ret tt
      | inr accts =>
          let! new_balances :=
            for_fold (enumerate entries) ∅ (fun acc (ie : nat * (Pubkey * Pubkey)) =>
              let '(i, (mint, ata)) := ie in
              let balance := balance_at accts i in
              emit (EvGauge M_FEE_PAYER_ATA_BALANCE
                      [("mint", show_pk mint); ("ata", show_pk ata)]) ;;
              ret (<[mint := balance]> acc)) in
          store_ata_balances new_balances ;;
          emit (EvGauge M_BANK_REGISTRY_SIZE [])
      end
  end.

Definition spawn_ata_balance_loop (fuel : nat) (signers : Signers) (interval : Duration) : M X bool :=
  task_loop fuel (ata_balance_tick signers) interval.

(** *** Bank refresh *)

Definition bank_refresh_tick (cfg : Config) (chain : ChainReader) : M X unit :=
  let! _ := attempt (refresh_banks cfg chain) in ret tt.

Definition spawn_bank_refresh_loop (fuel : nat) (cfg : Config) (chain : ChainReader)
  (interval : Duration) : M X bool :=
  task_loop fuel (bank_refresh_tick cfg chain) interval.
End metrics.

(** ** Lemmas *)

Lemma to_lower_idemp s : to_lower (to_lower s) = to_lower s.
Proof.
  induction s as [|c s IH]; [done|]. cbn [to_lower]. rewrite IH. f_equal.
  by destruct c as [[] [] [] [] [] [] [] []].
Qed.

Lemma alternate_cons e err : exists rest, alternate (e :: err) = e +:+ rest.
Proof.
  destruct err as [|e' err]; [exists ""; by rewrite string_app_nil_r|by eexists].
Qed.

Lemma alternate_lower err : to_lower (alternate err) = alternate (map to_lower err).
Proof.
  induction err as [|e [|e' err] IH]; [done..|]. cbn [map alternate] in *.
  by rewrite !to_lower_app, IH.
Qed.

(** A keyword found in one message of the chain is found in the whole. *)
Lemma alternate_contains err m p :
  m ∈ err -> str_contains m p = true -> str_contains (alternate err) p = true.
Proof.
  intros Hin Hp. induction err as [|e [|e' err] IH]; [by apply not_elem_of_nil in Hin|..].
  { apply list_elem_of_singleton in Hin. by subst. }
  cbn [alternate]. apply elem_of_cons in Hin as [->|Hin]; [by apply str_contains_app_l|].
  rewrite string_app_assoc. apply str_contains_app_r. by apply IH.
Qed.

Section wait_lemmas.
Context {X : Type} `{!Env X}.
Variable clock : X -> Instant.
Hypothesis clock_now : forall x, (instant_now x).1 = clock x /\ (clock x <= clock (instant_now x).2)%Z.
Hypothesis clock_interfere : forall x s, (clock x <= clock (interfere x s).1)%Z.
Hypothesis clock_sleep : forall x d, (0 <= d)%Z -> (clock x + d <= clock (do_sleep d x))%Z.

(** A stop-aware sleep event: positive, at most one second. *)
Definition short_sleep (ev : Event) : Prop :=
  exists d, ev = EvSleep d /\ (0 < d <= from_secs 1)%Z.

Lemma wait_loop_spec fuel deadline (w : World X) :
  (1 <= fuel)%nat -> (deadline - clock (ext w) <= (Z.of_nat fuel - 1) * from_secs 1)%Z ->
  wp (wait_loop fuel deadline) (fun tr r w' => inflight w' = inflight w /\
    Forall short_sleep tr /\
    (r = Ok WStopped \/ r = Ok WElapsed /\ (deadline <= clock (ext w'))%Z)) w.
Proof.
  revert w. induction fuel as [|fuel IH]; intros w Hf Hd; [lia|]. cbn [wait_loop].
  unfold load_stop, now_instant, sleep. wp_step. wp_step.
  pose proof (clock_interfere (ext w) (shared w)) as Hc1. rewrite H in Hc1. cbn [fst snd] in *.
  destruct (sh_stop s'); [wp_step; split_and!; [done|constructor|by left]|].
  wp_step. wp_step. cbn [ext] in H0. pose proof (clock_now x') as [Hn Hc2].
  rewrite H0 in Hn, Hc2. cbn [fst snd] in *. subst a. rewrite Z.geb_leb.
  destruct (Z.leb_spec deadline (clock x')) as [Hle|Hgt].
  { wp_step. split_and!; [done|constructor|right]. split; [done|]. cbn [ext]. lia. }
  wp_step. wp_step. cbn [ext] in H1. injection H1 as <- <-.
  unfold saturating_duration_since. set (d := Z.min _ _).
  assert (Hs1 : from_secs 1 = 1000000000%Z) by done.
  assert (Hdr : (0 < d <= from_secs 1)%Z) by lia.
  pose proof (clock_sleep x'0 d ltac:(lia)) as Hc3.
  eapply wp_mono.
  - apply IH; cbn [ext]; [|nia].
    destruct fuel; [|lia]. cbn [Z.of_nat Pos.of_succ_nat] in Hd. lia.
  - intros tr r w1 (Hi & Ht & Hr). split; [done|]. split; [|done].
    constructor; [by exists d|done].
Qed.
End wait_lemmas.

Section wait_ends.
Context {X : Type} `{!Env X}.
Variable clock : X -> Instant.

Lemma sleep_ends total (w : World X) :
  (forall x, (instant_now x).1 = clock x /\ (clock x <= clock (instant_now x).2)%Z) ->
  (forall x s, (clock x <= clock (interfere x s).1)%Z) ->
  (forall x d, (0 <= d)%Z -> (clock x + d <= clock (do_sleep d x))%Z) ->
  (0 <= total)%Z ->
  wp (sleep_until_or_stop total) (fun tr r w' => inflight w' = inflight w /\
    Forall short_sleep tr /\
    (r = Ok WStopped \/
     r = Ok WElapsed /\ (clock (ext w) + total <= clock (ext w'))%Z)) w.
Proof.
  intros Hnow Hint Hsl Ht. unfold sleep_until_or_stop, now_instant. wp_step. wp_step.
  destruct (Hnow (ext w)) as [Ha Hc]. rewrite H in Ha, Hc. cbn [fst snd] in *. subst a.
  eapply wp_mono; [apply (wait_loop_spec clock Hnow Hint Hsl)|].
  - unfold wait_fuel. lia.
  - unfold wait_fuel. cbn [ext]. change (from_secs 1) with 1000000000%Z.
    assert (0 <= total / 1000000000)%Z by (apply Z.div_pos; lia).
    rewrite Nat2Z.inj_add, Z2Nat.id by done.
    pose proof (Z.div_mod total 1000000000 ltac:(lia)).
    pose proof (Z.mod_pos_bound total 1000000000 ltac:(lia)). lia.
  - intros tr r w' (Hi & Hs & [->|[-> ?]]); split_and!; try done; [by left|by right].
Qed.
End wait_ends.

(** ** Properties *)

Section wait_property.
Context {X : Type} `{!Env X}.
Variable clock : X -> Instant.

(** The stop-aware sleep of the background tasks terminates, with the fuel the
    model gives it, on any clock that does not run backwards and over which a sleep
    lasts at least its duration: it sleeps at most one second at a time, and returns
    when it sees the stop flag or once the whole duration has passed. *)
Theorem sleep_until_or_stop_returns total (w : World X) :
  (forall x, (instant_now x).1 = clock x /\ (clock x <= clock (instant_now x).2)%Z) ->
  (forall x s, (clock x <= clock (interfere x s).1)%Z) ->
  (forall x d, (0 <= d)%Z -> (clock x + d <= clock (do_sleep d x))%Z) ->
  (0 <= total)%Z ->
  wp (sleep_until_or_stop total) (fun tr r w' => inflight w' = inflight w /\
    Forall short_sleep tr /\
    (r = Ok WStopped \/
     r = Ok WElapsed /\ (clock (ext w) + total <= clock (ext w'))%Z)) w.
Proof. intros. by apply sleep_ends. Qed.
End wait_property.

(** A failure is labelled as lack of funds whenever any message of its chain, in any
    letter case, speaks of it; the label does not depend on letter case at all; and an
    error raised while fetching the blockhash is never labelled an RPC error, whatever
    made the fetch fail. *)
Theorem classify_handler_error_spec (err : Error) :
  (forall m, m ∈ err -> str_contains (to_lower m) "insufficient" = true ->
     classify_handler_error err = FAIL_REASON_INSUFFICIENT_FUNDS) /\
  classify_handler_error (map to_lower err) = classify_handler_error err /\
  classify_handler_error ("get_latest_blockhash" :: err) <> FAIL_REASON_RPC.
Proof.
  split_and!.
  - intros m Hin Hm. unfold classify_handler_error. rewrite alternate_lower.
    rewrite (alternate_contains _ (to_lower m)); [done|by apply list_elem_of_fmap_2|done].
  - unfold classify_handler_error. by rewrite <-alternate_lower, to_lower_idemp.
  - unfold classify_handler_error.
    destruct (alternate_cons "get_latest_blockhash" err) as [rest ->].
    rewrite to_lower_app.
    assert (Hb : str_contains (to_lower "get_latest_blockhash" +:+ to_lower rest) "blockhash" = true)
      by (apply str_contains_app_l; reflexivity).
    rewrite Hb. cbn [orb]. destruct (_ || _); [done|]. by destruct (_ || _).
Qed.

Section tick_properties.
Context {X : Type} `{!Env X} {CR : Crates} {YD : YDelta}.

(** The low-balance flag, which only this task writes: after each successful read
    it says exactly whether the balance is under the threshold, and a failed read
    leaves it as it was. *)
Theorem sol_balance_flag signers min_balance (w : World X) :
  (forall x s, sh_fee_payer_low (interfere x s).2 = sh_fee_payer_low s) ->
  wp (sol_balance_tick signers min_balance) (fun tr r w' =>
    inflight w' = inflight w /\ Forall no_submit tr /\ r = Ok tt /\
    sh_fee_payer_low (shared w') =
      match (cl_get_balance (keypair_pubkey (sg_fee_payer signers)) (ext w)).1 with
      | inr lamports => (lamports <? min_balance)%Z
      | inl _ => sh_fee_payer_low (shared w)
      end) w.
Proof.
  intros Hflag. unfold sol_balance_tick, get_balance, read_call. wp_step. wp_step.
  rewrite H. cbn [fst]. destruct a as [e|lamports].
  { wp_step. split_and!; [done|quiet|done..]. }
  unfold load_fee_payer_low, store_fee_payer_low. wp_step. wp_step. wp_step. wp_step.
  pose proof (Hflag x' (shared w)) as H1. cbn [ext shared] in H0. rewrite H0 in H1.
  cbn [fst snd] in *. destruct (Bool.eqb _ _) eqn:He; cbn [negb].
  - wp_step. split_and!; [done|quiet|done|]. by apply Bool.eqb_prop in He.
  - wp_step. split_and!; [done|quiet|done..].
Qed.

Lemma ata_entries_ok banks owner :
  ata_entries banks owner =
  Ok (map (fun mb => (mb.1, ata_for mb.2 owner)) (map_to_list (by_mint banks))).
Proof.
  unfold ata_entries, mints, registry_get.
  assert (Hin : forall mb, mb ∈ map_to_list (by_mint banks) -> by_mint banks !! mb.1 = Some mb.2)
    by (intros [m b]; apply elem_of_map_to_list).
  revert Hin. generalize (map_to_list (by_mint banks)). intros l Hin.
  induction l as [|mb l IH]; [done|]. cbn [map traverse].
  rewrite Hin by (by left). cbn [o_or_panic obind]. rewrite IH; [done|].
  intros mb' ?. apply Hin. by right.
Qed.

(** The gauges' loop computes a fold. *)
Lemma gauge_loop {B} (l : list (nat * (Pubkey * Pubkey))) (g : nat -> B) (m : gmap Pubkey B) (w : World X) :
  wp (for_fold l m (fun acc (ie : nat * (Pubkey * Pubkey)) =>
        let '(i, (mint, ata)) := ie in
        emit (EvGauge M_FEE_PAYER_ATA_BALANCE [("mint", show_pk mint); ("ata", show_pk ata)]) ;;
        ret (<[mint := g i]> acc)))
    (fun tr r w' => Forall no_submit tr /\ inflight w' = inflight w /\
       r = Ok (foldl (fun acc kv => <[kv.1 := kv.2]> acc) m
                 (map (fun ie => (ie.2.1, g ie.1)) l))) w.
Proof.
  revert m w. induction l as [|[i [mint ata]] l IH]; intros m w; cbn [for_fold].
  { wp_step. by split_and!. }
  wp_step. wp_step. wp_step. wp_step. eapply wp_mono; [apply IH|].
  intros tr r w' (? & ? & ->). split_and!; [quiet|done|done].
Qed.

(** C37. The token-balance task publishes, for exactly the mints of the registry, the
    amount held in the fee payer's token account, zero where the account is missing or
    too short, and publishes nothing when the registry is empty. It hands the node no
    transaction in either case. *)
Theorem ata_balances_published (f : Pubkey -> option Account) signers (w : World X) :
  (forall ps x, exists x', cl_get_multiple_accounts ps x = (inr (map f ps), x')) ->
  (forall n x, (join_order n x).1 ≡ₚ seq 0 n) ->
  (forall x s, interfere x s = (x, s)) ->
  let owner := keypair_pubkey (sg_fee_payer signers) in
  wp (ata_balance_tick signers) (fun tr r w' => r = Ok tt /\
    Forall no_submit tr /\
    (by_mint (sh_banks (shared w)) = ∅ -> tr = [] /\ shared w' = shared w) /\
    (by_mint (sh_banks (shared w)) <> ∅ ->
     sh_ata_balances (shared w') =
       (fun bank => default 0%Z (a ← f (ata_for bank owner); spl_token_amount (acct_data a)))
       <$> by_mint (sh_banks (shared w)))) w.
Proof.
  intros Hf Hord Hquiet owner. unfold ata_balance_tick, banks_snapshot, store_ata_balances.
  fold owner. wp_step. wp_step. rewrite Hquiet in H. injection H as <- <-. cbn [fst snd].
  wp_step. wp_step. rewrite ata_entries_ok. set (banks := by_mint (sh_banks (shared w))).
  destruct (map _ (map_to_list banks)) as [|e0 es0] eqn:Hes.
  { wp_step. apply map_eq_nil in Hes. apply map_to_list_empty_iff in Hes.
    split_and!; [done|constructor|done|]. by intros []. }
  assert (Hne : banks <> ∅) by (intros Hb; rewrite Hb, map_to_list_empty in Hes; done).
  rewrite <-Hes. clear e0 es0 Hes. set (entries := map _ (map_to_list banks)).
  wp_step. wp_step. eapply wp_mono; [by apply (batch_reads f)|].
  intros tr r w1 (-> & _ & Hreads). cbn [fst]. wp_step.
  assert (Hq : Forall no_submit tr) by (eapply Forall_impl; [exact Hreads|]; by intros ? (? & -> & _)).
  eapply wp_mono; [apply (gauge_loop (enumerate entries) (balance_at (map f (map snd entries))))|].
  intros tr2 r2 w2 (Hq2 & _ & ->). wp_step. wp_step. rewrite Hquiet in H.
  injection H as <- <-. cbn [fst snd]. wp_step. split_and!; [done| |done|].
  { repeat apply Forall_app_2; try done; repeat constructor. }
  intros _. cbn [shared sh_ata_balances].
  assert (Hmap : map (fun ie : nat * (Pubkey * Pubkey) => (ie.2.1,
      balance_at (map f (map snd entries)) ie.1)) (enumerate entries) =
    map (fun mb => (mb.1, default 0%Z (a ← f (ata_for mb.2 owner); spl_token_amount (acct_data a))))
      (map_to_list banks)).
  { apply list_eq. intros i. rewrite !list_lookup_fmap, enumerate_lookup. unfold entries at 2.
    rewrite list_lookup_fmap. destruct (map_to_list banks !! i) as [[mint b]|] eqn:Hi; [|done].
    cbn. do 2 f_equal. unfold balance_at, entries. rewrite !list_lookup_fmap, Hi. cbn.
    by destruct (f _). }
  rewrite Hmap. apply map_eq. intros mint. rewrite lookup_fmap.
  rewrite foldl_insert_map by (rewrite map_map; apply NoDup_fst_map_to_list).
  destruct (banks !! mint) as [b|] eqn:Hb; cbn.
  - apply elem_of_list_to_map_1; [rewrite map_map; apply NoDup_fst_map_to_list|].
    apply list_elem_of_fmap. exists (mint, b). split; [done|]. by apply elem_of_map_to_list.
  - apply not_elem_of_list_to_map_1. rewrite list_elem_of_fmap.
    intros ([k v] & -> & Hin). apply list_elem_of_fmap in Hin as ([k' b] & [= -> ->] & Hin).
    apply elem_of_map_to_list in Hin. cbn in Hb. congruence.
Qed.
End tick_properties.
