(* ===== verification/Handlers.v ===== *)
(** handlers/mod.rs: the interface of a handler and the supervisor that runs one
    until the stop flag is set. *)

From Stdlib Require Import ZArith Lia.
From stdpp Require Import gmap strings list.
From S2P Require Import Prelude Solana State Effects Logic Rpc Util Metrics.

Local Open Scope crank_scope.

(** ** Definitions *)

(** The [Handler] trait, with the laws every implementation owes: a tick gives
    back its in-flight set unless it panics, and a handler that spends the
    fee payer's balance submits only what a free simulation accepted. *)
Record Handler (X : Type) `{!Env X} {CR : Crates} := {
  h_name : string;
  h_requires_fee_payer : bool;
  h_tick : HandlerContext -> M X unit;
  h_inflight : forall ctx, keeps same_inflight (h_tick ctx);
  h_gated : h_requires_fee_payer = true ->
    forall ctx, keeps (on_trace (gated (ctx_rpc ctx))) (h_tick ctx) }.
Arguments h_name {X _ _} _.
Arguments h_requires_fee_payer {X _ _} _.
Arguments h_tick {X _ _} _ _.
Arguments h_inflight {X _ _} _ _.
Arguments h_gated {X _ _} _ _ _.

Section supervisor.
Context {X : Type} `{!Env X} {CR : Crates}.
Implicit Types (h : Handler X) (ctx : HandlerContext).

(** The tick, or its pause: the outcome label and the failure counter. *)
Definition run_tick h ctx : M X string :=
  let! should_skip_low_balance :=
    (if h_requires_fee_payer h then load_fee_payer_low else ret false) in
  let! t0 := now_instant in
  if should_skip_low_balance : bool then ret "paused_low_balance"
  else
    let! r := attempt (h_tick h ctx) in
    match r with
    | inr _ => ret "ok"
    | inl e =>
        let reason := classify_handler_error e in
        emit (EvCounter M_TX_FAILURES_TOTAL [("handler", h_name h); ("reason", reason)]) ;;
        ret "err"
    end.

(** One pass of the loop, up to the wait. *)
Definition supervise_once h ctx : M X unit :=
  let! outcome := run_tick h ctx in
  let! elapsed := now_instant in
  emit (EvCounter M_TICKS_TOTAL [("handler", h_name h); ("outcome", outcome)]) ;;
  emit (EvHistogram M_TICK_DURATION [("handler", h_name h)]).

(** The supervised task, for at most [fuel] passes: [true] once it returned. *)
Fixpoint spawn (fuel : nat) h ctx (interval : Duration) : M X bool :=
  match fuel with
  | O => ret false
  | S fuel' =>
      let! st := load_stop in
      if st : bool then ret true
      else
        supervise_once h ctx ;;
        let! now := now_instant in
        let! e := wait_loop (wait_fuel interval) (now + interval) in
        match e with
        | WStopped => ret true
        | WElapsed => spawn fuel' h ctx interval
        | WOutOfFuel => ret false
        end
  end.
End supervisor.

(** ** The supervisor's protocol *)

Section protocol.
Context {X : Type} `{!Env X} {CR : Crates} (h : Handler X) (ctx : HandlerContext).

(** A possible run of the tick. *)
Definition tick_run (t : list Event) (r : outcome unit) : Prop :=
  exists w w', h_tick h ctx w = (r, w') /\ trace w' = trace w ++ t.

(** What the supervisor records of a tick, or of a pause. *)
Definition outcome_label (r : outcome unit) : string :=
  match r with Ok _ => "ok" | _ => "err" end.
Definition failure_events (r : outcome unit) : list Event :=
  match r with
  | Err e => [EvCounter M_TX_FAILURES_TOTAL
                [("handler", h_name h); ("reason", classify_handler_error e)]]
  | _ => []
  end%string.
Definition round_events (label : string) : list Event :=
  [EvCounter M_TICKS_TOTAL [("handler", h_name h); ("outcome", label)];
   EvHistogram M_TICK_DURATION [("handler", h_name h)]]%string.
Definition outcome_events (r : outcome unit) : list Event :=
  failure_events r ++ round_events (outcome_label r).
Definition paused_events : list Event := round_events "paused_low_balance".

(** Rounds of a tick, or of a pause, each followed by short sleeps; an error of the
    tick never ends the task, a panic ends it with the process. *)
Inductive sup_log : list Event -> outcome bool -> Prop :=
| sup_end b : sup_log [] (Ok b)
| sup_tick t r sl rest res :
    tick_run t r -> is_panic r = false -> Forall short_sleep sl -> sup_log rest res ->
    sup_log (t ++ outcome_events r ++ sl ++ rest) res
| sup_paused sl rest res :
    h_requires_fee_payer h = true -> Forall short_sleep sl -> sup_log rest res ->
    sup_log (paused_events ++ sl ++ rest) res
| sup_panic t s : tick_run t (Panic s) -> sup_log t (Panic s).
End protocol.

(** ** Lemmas *)

Section supervisor_lemmas.
Context {X : Type} `{!Env X} {CR : Crates}.
Implicit Types (h : Handler X) (ctx : HandlerContext).

(** The wait, on any clock. *)
Lemma wait_loop_quiet fuel deadline (w : World X) :
  wp (wait_loop fuel deadline) (fun tr r w' => inflight w' = inflight w /\
    Forall short_sleep tr /\ exists e, r = Ok e) w.
Proof.
  revert w. induction fuel as [|fuel IH]; intros w; cbn [wait_loop].
  { wp_step. split_and!; [done|constructor|by eexists]. }
  unfold load_stop, now_instant, sleep. wp_step. wp_step.
  destruct (sh_stop s'); cbn [fst]; [wp_step; split_and!; [done|constructor|by eexists]|].
  wp_step. wp_step. rewrite Z.geb_leb. destruct (Z.leb_spec deadline a).
  { wp_step. split_and!; [done|constructor|by eexists]. }
  wp_step. wp_step. eapply wp_mono; [apply IH|]. intros tr r w1 (? & ? & ?).
  split_and!; [done| |done]. constructor; [|done]. eexists. split; [done|].
  unfold saturating_duration_since. change (from_secs 1) with 1000000000%Z. lia.
Qed.

(** A pass: the tick's run and its records, or the pause. *)
Definition pass_post h ctx (tr : list Event) (r : outcome unit) : Prop :=
  match r with
  | Ok _ =>
      (exists t r1, tick_run h ctx t r1 /\ is_panic r1 = false /\
         tr = t ++ outcome_events h r1) \/
      (h_requires_fee_payer h = true /\ tr = paused_events h)
  | Err _ => False
  | Panic s => tick_run h ctx tr (Panic s)
  end.

Lemma wp_tick_run h ctx (w : World X) :
  wp (h_tick h ctx) (fun tr r w' => tick_run h ctx tr r /\
    (is_panic r = false -> inflight w' = inflight w)) w.
Proof.
  destruct (h_inflight h ctx w) as (tr & Htr & Hi). exists tr. split; [done|].
  split; [|done]. exists w, (h_tick h ctx w).2. split; [by destruct (h_tick h ctx w)|done].
Qed.

Lemma run_tick_spec h ctx (w : World X) :
  wp (run_tick h ctx) (fun tr r w' =>
    (is_panic r = false -> inflight w' = inflight w) /\
    match r with
    | Ok label =>
        (exists t r1, tick_run h ctx t r1 /\ is_panic r1 = false /\
           tr = t ++ failure_events h r1 /\ label = outcome_label r1) \/
        (h_requires_fee_payer h = true /\ tr = [] /\ label = "paused_low_balance"%string)
    | Err _ => False
    | Panic s => tick_run h ctx tr (Panic s)
    end) w.
Proof.
  unfold run_tick. wp_step.
  apply (wp_mono _ (fun tr r w1 => tr = [] /\ inflight w1 = inflight w /\
    exists low, r = Ok low /\ (low = true -> h_requires_fee_payer h = true))).
  { unfold load_fee_payer_low. destruct (h_requires_fee_payer h); wp_step; by eauto 6. }
  intros tr r w1 (-> & Hi & low & -> & Hlow). unfold now_instant. wp_step. wp_step.
  destruct low; [wp_step; split; [done|right; auto]|].
  wp_step. wp_step. eapply wp_mono; [apply wp_tick_run|].
  intros tr [u|e|s] w2 [Hr Hi2]; [| |done].
  - wp_step. split; [intros _; rewrite Hi2; done|]. left. by exists tr, (Ok u).
  - wp_step. wp_step. wp_step. split; [intros _; cbn; rewrite Hi2; done|].
    left. by exists tr, (Err e).
Qed.

Lemma supervise_once_spec h ctx (w : World X) :
  wp (supervise_once h ctx) (fun tr r w' => pass_post h ctx tr r /\
    (is_panic r = false -> inflight w' = inflight w)) w.
Proof.
  unfold supervise_once, now_instant. wp_step. eapply wp_mono; [apply run_tick_spec|].
  intros tr [label|e|s] w1 [Hi H1]; [|done|by split].
  wp_step. wp_step. wp_step. wp_step. wp_step. split; [|intros _; by apply Hi].
  destruct H1 as [(t & r1 & Hr & Hp & -> & ->)|(Hreq & -> & ->)].
  - left. exists t, r1. split_and!; [done|done|]. unfold outcome_events.
    by rewrite <-!(assoc_L (++)).
  - right. by split.
Qed.
End supervisor_lemmas.

Section run_lemmas.
Context {X : Type} `{!Env X} {CR : Crates}.
Implicit Types (h : Handler X) (ctx : HandlerContext).

Lemma spawn_refines fuel h ctx interval (w : World X) :
  wp (spawn fuel h ctx interval) (fun tr r w' => sup_log h ctx tr r /\
    (is_panic r = false -> inflight w' = inflight w)) w.
Proof.
  revert w. induction fuel as [|fuel IH]; intros w; cbn [spawn].
  { wp_step. split; [constructor|done]. }
  unfold load_stop, now_instant. wp_step. wp_step.
  destruct (sh_stop s'); cbn [fst snd]; [wp_step; split; [constructor|done]|].
  wp_step. eapply wp_mono; [apply supervise_once_spec|].
  intros tr [u|e|s] w1 [Hp Hi]; [|done|by split; [constructor|]].
  specialize (Hi eq_refl). wp_step. wp_step. wp_step.
  eapply wp_mono; [apply wait_loop_quiet|].
  intros sl r w2 (Hi2 & Hsl & e & ->).
  assert (Hround : forall rest res, sup_log h ctx rest res ->
    sup_log h ctx (tr ++ sl ++ rest) res).
  { intros rest res Hrest. destruct Hp as [(t & r1 & Ht & Hr1 & ->)|[Hreq ->]].
    - rewrite <-(assoc_L (++)). by econstructor.
    - by constructor. }
  cbn [app] in *. destruct e.
  - wp_step. split; [by apply Hround; constructor|]. intros _. cbn in *. congruence.
  - eapply wp_mono; [apply IH|]. intros rest res w3 [Hl Hi3]. split; [by apply Hround|].
    intros ?. cbn in *. rewrite Hi3 by done. congruence.
  - wp_step. split; [by apply Hround; constructor|]. intros _. cbn in *. congruence.
Qed.

Lemma supervisor_appends fuel h ctx interval (w : World X) :
  wp (spawn fuel h ctx interval) (fun _ _ _ => True) w.
Proof. eapply wp_mono; [apply spawn_refines|done]. Qed.

Lemma quiet_wait_loop fuel deadline : keeps quiet_run (@wait_loop X _ fuel deadline).
Proof.
  intros w. eapply wp_mono; [apply wait_loop_quiet|]. intros tr r w' (Hi & Hs & _).
  split; [|done]. eapply Forall_impl; [exact Hs|]. by intros ev (d & -> & _).
Qed.
End run_lemmas.
#[export] Hint Resolve quiet_wait_loop : crank.

Section run_gated.
Context {X : Type} `{!Env X} {CR : Crates}.
Implicit Types (h : Handler X) (ctx : HandlerContext).

Lemma spawn_gated fuel h ctx interval (w : World X) :
  wp (spawn fuel h ctx interval) (fun tr _ _ =>
    h_requires_fee_payer h = true -> gated (ctx_rpc ctx) tr) w.
Proof.
  destruct (h_requires_fee_payer h) eqn:Hreq.
  2: { destruct (supervisor_appends fuel h ctx interval w) as (tr & Htr & _). by exists tr. }
  assert (Hk : keeps (on_trace (gated (ctx_rpc ctx))) (spawn fuel h ctx interval)).
  2: { destruct (Hk w) as (tr & Htr & Hg). by exists tr. }
  pose proof (h_gated h Hreq ctx) as Htick.
  induction fuel as [|fuel IH]; cbn [spawn]; [keeps_go|].
  unfold supervise_once, run_tick, load_fee_payer_low, load_stop. rewrite Hreq.
  keeps_go; auto; try (apply keeps_quiet_gated; eauto with crank; by apply quiet_emit).
Qed.
End run_gated.

(** *** Stopping and pausing *)

(** An event that reaches neither the node nor a gateway. *)
Definition passive (ev : Event) : Prop :=
  match ev with EvCounter _ _ | EvHistogram _ _ | EvSleep _ => True | _ => False end.

(** While the flag is set, it stays set and nothing but metrics and sleeps happens. *)
Definition idle_while {X} (flag : Shared -> bool) :
  World X -> list Event -> bool -> World X -> Prop :=
  fun w tr _ w' => flag (shared w) = true -> flag (shared w') = true /\ Forall passive tr.

#[export] Instance idle_while_composable {X} flag : Composable (@idle_while X flag).
Proof.
  split; unfold idle_while; [done|]. intros w1 t1 w2 t2 p w3 H1 H2 Hw.
  destruct (H1 Hw) as [Hw2 ?]. destruct (H2 Hw2) as [? ?]. split; [done|]. by apply Forall_app_2.
Qed.

Section idle.
Context {X : Type} `{!Env X} {CR : Crates} (flag : Shared -> bool).
Hypothesis stable : forall x s, flag s = true -> flag (interfere x s).2 = true.

Lemma idle_call {A} (f : X -> A * X) ev :
  (forall a, Forall passive (ev a)) -> keeps (idle_while flag) (call f ev).
Proof. intros Hev w. apply wp_call. intros a x' _ Hw. by split. Qed.

Lemma idle_emit e : passive e -> keeps (idle_while flag) (@emit X e).
Proof. intros He w. apply wp_emit. intros Hw. split; [done|]. by constructor. Qed.

Lemma idle_load {A} (f : Shared -> A) : keeps (idle_while flag) (shared_op (fun s => (f s, s))).
Proof.
  intros w. apply wp_shared_op. intros x' s' Hi Hw. cbn [shared fst snd].
  pose proof (stable (ext w) (shared w) Hw) as H. rewrite Hi in H. split; [done|constructor].
Qed.

Lemma idle_wait_loop fuel deadline : keeps (idle_while flag) (wait_loop fuel deadline).
Proof.
  induction fuel as [|fuel IH]; cbn [wait_loop]; unfold load_stop, now_instant, sleep; keeps_go.
  - apply idle_load.
  - apply idle_call. constructor.
  - apply idle_call. intros _. by constructor.
Qed.

Lemma supervise_idle (h : Handler X) ctx :
  h_requires_fee_payer h = true -> flag = sh_fee_payer_low ->
  keeps (idle_while flag) (supervise_once h ctx).
Proof.
  intros Hreq Hflag w. destruct (flag (shared w)) eqn:Hw.
  - unfold supervise_once, run_tick. rewrite Hreq. unfold load_fee_payer_low, now_instant.
    wp_step. wp_step. wp_step.
    pose proof (stable (ext w) (shared w) Hw) as H1. rewrite H in H1. cbn [fst snd] in *.
    rewrite Hflag in H1. rewrite H1. repeat wp_step. intros _. cbn [shared].
    split; [by rewrite Hflag|]. by repeat constructor.
  - eapply wp_mono; [apply supervise_once_spec|]. intros tr r w' _ Hw'. congruence.
Qed.
End idle.

(** ** Properties *)

Section supervisor_properties.
Context {X : Type} `{!Env X} {CR : Crates}.
Implicit Types (h : Handler X) (ctx : HandlerContext).

(** C7. The supervisor implements its protocol for every handler, whatever the
    environment does: its run is a sequence of rounds, each a run of the tick or, for
    a handler that spends the fee payer's balance only, a pause; each round is counted
    under its outcome, a failed one also under its classified reason, and is followed
    by sleeps of at most one second; an error of a tick never ends the task. *)
Theorem supervisor_refines_protocol fuel h ctx interval (w : World X) :
  wp (spawn fuel h ctx interval) (fun tr r w' => sup_log h ctx tr r /\
    (is_panic r = false -> inflight w' = inflight w)) w.
Proof. apply spawn_refines. Qed.

(** A supervised handler that spends the fee payer's balance never hands the node a
    transaction that a free simulation of the same instructions did not accept first,
    over its whole life. *)
Theorem supervised_submissions_gated fuel h ctx interval (w : World X) :
  wp (spawn fuel h ctx interval) (fun tr _ _ =>
    h_requires_fee_payer h = true -> gated (ctx_rpc ctx) tr) w.
Proof. apply spawn_gated. Qed.

(** Shutdown: once the stop flag is set, and as no task ever clears it, the
    supervisor returns at once: no tick, no request, no metric. *)
Theorem supervisor_stops fuel h ctx interval (w : World X) :
  (forall x s, sh_stop s = true -> sh_stop (interfere x s).2 = true) ->
  sh_stop (shared w) = true ->
  wp (spawn (S fuel) h ctx interval) (fun tr r _ => tr = [] /\ r = Ok true) w.
Proof.
  intros Hst Hs. cbn [spawn]. unfold load_stop. wp_step. wp_step.
  pose proof (Hst (ext w) (shared w) Hs) as H1. rewrite H in H1. cbn [fst snd] in *.
  rewrite H1. by wp_step.
Qed.

(** C24. Low balance: while the flag stays set, a handler that spends the fee payer's
    balance does nothing at all: its whole run is metrics and sleeps. *)
Theorem supervisor_idle_while_low fuel h ctx interval (w : World X) :
  h_requires_fee_payer h = true ->
  (forall x s, sh_fee_payer_low s = true -> sh_fee_payer_low (interfere x s).2 = true) ->
  sh_fee_payer_low (shared w) = true ->
  wp (spawn fuel h ctx interval) (fun tr r w' => Forall passive tr /\
    sh_fee_payer_low (shared w') = true) w.
Proof.
  intros Hreq Hst. 
  assert (Hk : keeps (idle_while sh_fee_payer_low) (spawn fuel h ctx interval)).
  2: { intros Hw. destruct (Hk w) as (tr & Htr & Hi). exists tr. split; [done|].
       by destruct (Hi Hw). }
  induction fuel as [|fuel IH]; cbn [spawn]; [keeps_go|].
  apply keeps_bind; [apply _|by apply idle_load|]. intros st.
  destruct st; [keeps_go|]. apply keeps_bind; [apply _|by apply supervise_idle|].
  keeps_go; auto; [by apply idle_call|by apply idle_wait_loop].
Qed.
End supervisor_properties.

(** ** Gating a submission by a simulation *)

#[export] Hint Resolve keeps_quiet_gated keeps_quiet_inflight : crank.

(** Every submission of [tr] carries what [m] carries. *)
Definition backed_by {CR : Crates} (rpc : Rpc) (m : Message) : list Event -> Prop :=
  Forall (submit_sat (backs rpc m)).

Section sim_gate.
Context {X : Type} `{!Env X} {CR : Crates}.
Implicit Types rpc : Rpc.

(** After a simulation, what continues may send what was simulated. *)
Lemma gated_if_after_sim {A} V rpc ixs luts payer (k : SimulationResult -> M X A) :
  (forall sim, sim_ok sim = false -> keeps (on_trace (gated_if V rpc)) (k sim)) ->
  (forall sim, sim_ok sim = true -> V (sim_logs sim) = false ->
     keeps (on_trace (gated_if V rpc)) (k sim)) ->
  (forall sim m, msg_payer m = payer -> msg_ixs m = ixs -> msg_luts m = luts ->
     keeps (on_trace (backed_by rpc m)) (k sim)) ->
  keeps (on_trace (gated_if V rpc)) (let! sim := simulate_v0 ixs luts payer in k sim).
Proof.
  intros Hno HnoV Hyes w. wp_step. eapply wp_mono; [apply simulate_v0_spec|].
  intros tr [sim|e|s] w1 (_ & Hq & Hsim); [|by apply gated_quiet..].
  assert (Hqk : keeps (on_trace (gated_if V rpc)) (k sim) ->
    wp (k sim) (fun tr2 r2 w2 => on_trace (gated_if V rpc) w (tr ++ tr2) (is_panic r2) w2) w1).
  { intros Hk. eapply wp_mono; [apply Hk|]. intros tr2 r w2 H2.
    apply (tm_app (G := gated_if V rpc)); [by apply gated_quiet|exact H2]. }
  destruct Hsim as (m & sv & Hin & Hp & Hi & Hl & Hok & Hlogs).
  destruct (sim_ok sim) eqn:Hs; [|by apply Hqk, Hno].
  destruct (V (sim_logs sim)) eqn:HV; [|by apply Hqk, HnoV].
  eapply wp_mono; [by apply (Hyes sim m)|]. intros tr2 r w2 H2.
  eapply gated_backed; [by apply gated_quiet|done|by apply Hok|by rewrite <-Hlogs|exact H2].
Qed.

Lemma gated_after_sim {A} rpc ixs luts payer (k : SimulationResult -> M X A) :
  (forall sim, sim_ok sim = false -> keeps (on_trace (gated rpc)) (k sim)) ->
  (forall sim m, msg_payer m = payer -> msg_ixs m = ixs -> msg_luts m = luts ->
     keeps (on_trace (backed_by rpc m)) (k sim)) ->
  keeps (on_trace (gated rpc)) (let! sim := simulate_v0 ixs luts payer in k sim).
Proof. intros Hno Hyes. by apply gated_if_after_sim. Qed.

Lemma backed_quiet {A} rpc m (c : M X A) :
  keeps quiet_run c -> keeps (on_trace (backed_by rpc m)) c.
Proof.
  intros Hc w. eapply wp_mono; [apply Hc|]. intros tr r w' [Hq _]. by apply no_submit_sat.
Qed.

Lemma backed_send_legacy rpc m label ixs kp :
  msg_payer m = keypair_pubkey kp -> msg_luts m = [] ->
  msg_ixs m = priority_fee_preamble rpc (rpc_compute_unit_limit rpc) ++ ixs ->
  keeps (on_trace (backed_by rpc m)) (@send_signed_labeled X _ _ rpc label ixs [kp]).
Proof.
  intros Hp Hl Hi w. eapply wp_mono; [apply send_signed_labeled_spec|].
  intros tr r w' (_ & _ & Hs & _). eapply submit_sat_mono; [|exact Hs].
  by apply carries_backs_legacy.
Qed.

Lemma backed_send_v0 rpc m label ixs luts kp :
  msg_payer m = keypair_pubkey kp -> msg_luts m = luts -> msg_ixs m = ixs ->
  keeps (on_trace (backed_by rpc m)) (@send_signed_v0_labeled X _ _ rpc label ixs luts [kp]).
Proof.
  intros Hp Hl Hi w. eapply wp_mono; [apply send_signed_v0_labeled_spec|].
  intros tr r w' (_ & _ & Hs & _). eapply submit_sat_mono; [|exact Hs].
  by apply carries_backs_v0.
Qed.

Lemma inflight_send_legacy rpc label ixs signers :
  keeps same_inflight (@send_signed_labeled X _ _ rpc label ixs signers).
Proof.
  destruct signers as [|kp signers]; [cbn; keeps_go|]. intros w.
  eapply wp_mono; [apply send_signed_labeled_spec|]. by intros tr r w' (? & _) _.
Qed.

Lemma inflight_send_v0 rpc label ixs luts signers :
  keeps same_inflight (@send_signed_v0_labeled X _ _ rpc label ixs luts signers).
Proof.
  destruct signers as [|kp signers]; [cbn; keeps_go|]. intros w.
  eapply wp_mono; [apply send_signed_v0_labeled_spec|]. by intros tr r w' (? & _) _.
Qed.

Lemma quiet_simulate_v0 ixs luts payer : keeps quiet_run (@simulate_v0 X _ _ ixs luts payer).
Proof.
  intros w. eapply wp_mono; [apply simulate_v0_spec|]. intros tr r w' (? & ? & _). by split.
Qed.

Lemma quiet_simulate rpc ixs payer : keeps quiet_run (@simulate X _ _ rpc ixs payer).
Proof. apply quiet_simulate_v0. Qed.
End sim_gate.

#[export] Instance backed_by_monoid {CR : Crates} rpc m : TraceMonoid (backed_by rpc m).
Proof. unfold backed_by. apply _. Qed.

#[export] Hint Resolve backed_quiet inflight_send_legacy inflight_send_v0
  quiet_simulate_v0 quiet_simulate : crank.

(** A claim-and-release section also keeps a property of the events. *)
Lemma trace_claim_release {X K} `{Countable K} (L : KeySet K) G `{!TraceMonoid G} {A B} k
  (skip : M X B) (body : M X A) (rest : Error + A -> M X B) :
  keeps (on_trace G) skip -> keeps (on_trace G) body ->
  (forall r, keeps (on_trace G) (rest r)) ->
  keeps (on_trace G)
    (let! fresh := set_insert L k in
     if negb fresh then skip
     else let! res := attempt body in
          set_remove L k ;; rest res).
Proof.
  intros Hs Hb Hr. apply keeps_bind; [apply _|by apply keeps_set_insert_trace|].
  intros fresh. destruct (negb fresh); [done|].
  apply keeps_bind; [apply _|by apply keeps_attempt|]. intros res.
  apply keeps_bind; [apply _|by apply keeps_set_remove_trace|done].
Qed.

(** ** Submissions of a tick *)

(** Every submission satisfies [P]. *)
Abbreviation sends P := (on_trace (Forall (submit_sat P))).

Section sends.
Context {X : Type} `{!Env X} {CR : Crates}.
Implicit Types (rpc : Rpc) (P : Transaction -> Prop).

Lemma sends_quiet {A} P (c : M X A) : keeps quiet_run c -> keeps (sends P) c.
Proof.
  intros Hc w. eapply wp_mono; [apply Hc|]. intros tr r w' [Hq _]. by apply no_submit_sat.
Qed.

Lemma sends_legacy P rpc label ixs kp :
  (forall tx, carries (keypair_pubkey kp)
     (priority_fee_preamble rpc (rpc_compute_unit_limit rpc) ++ ixs) [] tx -> P tx) ->
  keeps (sends P) (@send_signed_labeled X _ _ rpc label ixs [kp]).
Proof.
  intros HP w. eapply wp_mono; [apply send_signed_labeled_spec|].
  intros tr r w' (_ & _ & Hs & _). by eapply submit_sat_mono.
Qed.

Lemma sends_v0 P rpc label ixs luts kp :
  (forall tx, carries (keypair_pubkey kp)
     (priority_fee_preamble rpc V0_COMPUTE_UNIT_LIMIT ++ ixs) luts tx -> P tx) ->
  keeps (sends P) (@send_signed_v0_labeled X _ _ rpc label ixs luts [kp]).
Proof.
  intros HP w. eapply wp_mono; [apply send_signed_v0_labeled_spec|].
  intros tr r w' (_ & _ & Hs & _). by eapply submit_sat_mono.
Qed.

Lemma sends_mono {A} P P' (m : M X A) :
  (forall tx, P tx -> P' tx) -> keeps (sends P) m -> keeps (sends P') m.
Proof.
  intros HP Hm w. eapply wp_mono; [apply Hm|]. intros tr r w' H. by eapply submit_sat_mono.
Qed.

(** What a simulate-then-send step leaves behind. *)
Definition step_post (tr : list Event) (r : outcome bool) : Prop :=
  (submits tr <= 3)%nat /\ resend_ok tr /\
  (r = Ok true -> exists s, delivered s tr) /\ (r = Ok false -> submits tr = 0%nat).

Lemma delivered_app s t1 t2 : delivered s t2 -> delivered s (t1 ++ t2).
Proof. intros [[tx ?]|[l ?]]; [left; exists tx|right; exists l]; set_solver. Qed.

(** Quiet work before a step changes nothing. *)
Lemma resend_ok_quiet_pre t1 t2 :
  Forall no_submit t1 -> resend_ok t2 -> resend_ok (t1 ++ t2).
Proof.
  intros Hq H a tx1 r1 b tx2 r2 c E Hb.
  apply quiet_prefix_split in E as (a' & -> & E); [|done]. by eapply H.
Qed.

Lemma step_post_quiet t1 t2 r : Forall no_submit t1 -> step_post t2 r -> step_post (t1 ++ t2) r.
Proof.
  intros Hq (H1 & H2 & H3 & H4). unfold step_post.
  rewrite submits_app, no_submit_submits by done. split_and!; [done| | |done].
  - by apply resend_ok_quiet_pre.
  - intros [s Hs]%H3. exists s. by apply delivered_app.
Qed.

(** A step that ends without a submission. *)
Lemma quiet_step (tr : list Event) r : Forall no_submit tr -> r <> Ok true -> step_post tr r.
Proof.
  intros Hq Hr. unfold step_post. rewrite no_submit_submits by done.
  split_and!; [lia| |done|done].
  intros a t1 r1 b t2 r2 c -> _. by apply Forall_app in Hq as [_ [? _]%Forall_cons].
Qed.

Definition is_step (m : M X bool) : Prop := forall w, wp m (fun tr r _ => step_post tr r) w.

Lemma step_bind {A} (m : M X A) (k : A -> M X bool) :
  keeps quiet_run m -> (forall a, is_step (k a)) -> is_step (bind m k).
Proof.
  intros Hm Hk w. wp_step. eapply wp_mono; [apply Hm|].
  intros tr [a|e|s] w1 [Hq _]; [|by apply quiet_step..].
  eapply wp_mono; [apply Hk|]. intros tr2 r w2 H. by apply step_post_quiet.
Qed.

Lemma step_ret_false : is_step (ret false).
Proof. intros w. wp_step. by apply quiet_step. Qed.

Lemma submits_0_quiet tr : submits tr = 0%nat -> Forall no_submit tr.
Proof.
  unfold submits. induction tr as [|ev tr IH]; [done|]. cbn [List.filter].
  destruct ev; try discriminate; intros H; constructor; auto; done.
Qed.

(** A second step, taken only when the first refused. *)
Lemma step_or (m1 m2 : M X bool) :
  is_step m1 -> is_step m2 -> is_step (let! b := m1 in if b : bool then ret true else m2).
Proof.
  intros H1 H2 w. wp_step. eapply wp_mono; [apply H1|].
  intros tr [[]|e|s] w1 (Hn & Hre & Ht & Hf); [wp_step; by rewrite app_nil_r| |by split_and!..].
  eapply wp_mono; [apply H2|]. intros tr2 r w2 Hs. apply step_post_quiet; [|done].
  apply submits_0_quiet. by apply Hf.
Qed.

Lemma step_send_legacy rpc label ixs kp :
  is_step (let! sig := send_signed_labeled rpc label ixs [kp] in ret true).
Proof.
  intros w. wp_step. eapply wp_mono; [apply send_signed_labeled_spec|].
  intros tr [s|e|s] w1 (_ & Hn & _ & Hre & Hd); [wp_step; rewrite app_nil_r|..];
    (split_and!; [done|done| |done]); [by exists s|done..].
Qed.

Lemma step_send_v0 rpc label ixs luts kp :
  is_step (let! sig := send_signed_v0_labeled rpc label ixs luts [kp] in ret true).
Proof.
  intros w. wp_step. eapply wp_mono; [apply send_signed_v0_labeled_spec|].
  intros tr [s|e|s] w1 (_ & Hn & _ & Hre & Hd); [wp_step; rewrite app_nil_r|..];
    (split_and!; [done|done| |done]); [by exists s|done..].
Qed.
End sends.
#[export] Hint Resolve sends_quiet step_ret_false step_send_legacy step_send_v0 : crank.

(** Walks a step through its quiet prefix. *)
Ltac step_go :=
  repeat lazymatch goal with
  | |- forall _, _ => intro
  | |- is_step (if ?b then _ else _) => destruct b
  | |- is_step (match ?x with _ => _ end) => destruct x
  | |- is_step (bind (send_signed_labeled _ _ _ _) _) => apply step_send_legacy
  | |- is_step (bind (send_signed_v0_labeled _ _ _ _ _) _) => apply step_send_v0
  | |- is_step (bind _ _) => apply step_bind
  | |- is_step (ret false) => apply step_ret_false
  | |- keeps _ _ => solve [keeps_go]
  end.

(** [keeps_go], stopping at a simulation whose verdict gates what follows. *)
Ltac keeps_to_sim :=
  repeat lazymatch goal with
  | |- keeps _ (bind (simulate_v0 _ _ _) _) => fail
  | _ => keeps_step || (progress (eauto 3 with crank))
  end.
