(* ===== verification/Promoter.v ===== *)
(** handlers/promoter.rs: promoting pending matched loans, one
    [ProcessMatchedLoan] per queue node that a free simulation accepts. *)

From Stdlib Require Import ZArith Lia.
From stdpp Require Import gmap strings list pretty.
From S2P Require Import Prelude Solana State Effects Logic Rpc ChainReader BankRegistry Config Handlers.

Local Open Scope crank_scope.

(** ** Definitions *)

Definition promoter_set : KeySet (Pubkey * Z) := {|
  ks_get := if_promoter;
  ks_put s i := mkInflight s (if_liquidator i) (if_claimer i) (if_curator i) (if_match i);
  ks_get_put _ _ := eq_refl;
  ks_put_get i := match i with mkInflight _ _ _ _ _ => eq_refl end;
  ks_put_put _ _ _ := eq_refl |}.

Section promoter.
Context {X : Type} `{!Env X} {CR : Crates} {YD : YDelta}.
Implicit Types ctx : HandlerContext.

Definition build_vault_settle_addrs ctx (market global_vault debt_mint : Pubkey)
  (debt_bank : BankInfo) : outcome (option VaultSettleAddrs) :=
  let expected_vault := (global_vault_pda (bi_bank debt_bank)).1 in
  if decide (expected_vault <> global_vault) then
    Err ["vault " +:+ show_pk global_vault +:+ " doesn't match bank " +:+
         show_pk (bi_bank debt_bank) +:+ " PDA " +:+ show_pk expected_vault]
  else
    Ok (Some {|
      vs_global_vault := global_vault;
      vs_global_vault_signer := (global_vault_signer_pda global_vault).1;
      vs_global_vault_staging := (global_vault_staging_pda global_vault).1;
      vs_global_vault_integration_account := (global_vault_integration_account_pda global_vault).1;
      vs_market_debt_vault := (get_vault_address market debt_mint).1;
      vs_market_lender_integration_account := (get_lender_integration_account_address market).1;
      vs_market_signer := (get_market_signer_address market).1;
      vs_debt_liquidity_vault := bi_liquidity_vault debt_bank;
      vs_debt_bank_liquidity_vault_authority := bi_liquidity_vault_authority debt_bank;
      vs_debt_oracles := [primary_oracle debt_bank];
      vs_debt_mint := debt_mint;
      vs_token_program := bi_token_program debt_bank;
      vs_marginfi_group := cfg_marginfi_group (ctx_cfg ctx);
      vs_marginfi_program := cfg_marginfi_program_id (ctx_cfg ctx) |}).

Definition assemble_vault_settle ctx (market : Pubkey) (entry : PendingMatchedLoan)
  (debt_mint : Pubkey) (debt_bank : BankInfo) : M X (option VaultSettleAddrs) :=
  if (Pending_is_p2pool entry || is_vault_presettled entry || negb (has_vault_lender entry))%bool
  then ret None
  else
    let! data := get_account_data market in
    let! market_data := lift (o_of_option ["market " +:+ show_pk market +:+ " disappeared"] data) in
    let! seat := lift (read_seat_at market_data (pm_lender_seat_index entry)) in
    if negb (sw_owner_kind seat =? OWNER_KIND_SUB_VAULT)%Z then ret None
    else lift (build_vault_settle_addrs ctx market (sw_owner seat) debt_mint debt_bank).

(** The instruction of one promotion. *)
Definition promote_ix ctx (market : Pubkey) (entry : PendingMatchedLoan) (debt_bank : BankInfo)
  (vault_settle : option VaultSettleAddrs) : Instruction :=
  process_matched_loan_instruction market (keypair_pubkey (sg_fee_payer (ctx_signers ctx)))
    (bi_bank debt_bank) (cfg_marginfi_program_id (ctx_cfg ctx)) (pm_sequence entry) None
    vault_settle.

Definition promote_one ctx (market : MarketView) (entry : PendingMatchedLoan) : M X bool :=
  let market_pk := mv_address market in
  let debt_mint := mv_debt_mint market in
  let! banks := banks_snapshot in
  let! debt_bank := lift (o_of_option ["no BANKS config for debt mint " +:+ show_pk debt_mint]
                            (registry_get banks debt_mint)) in
  let fee_payer := sg_fee_payer (ctx_signers ctx) in
  let payer_pk := keypair_pubkey fee_payer in
  let! vault_settle := assemble_vault_settle ctx market_pk entry debt_mint debt_bank in
  let ix := promote_ix ctx market_pk entry debt_bank vault_settle in
  let! sim := simulate (ctx_rpc ctx) [ix] payer_pk in
  if negb (sim_ok sim) then ret false
  else
    let! sig := send_signed_labeled (ctx_rpc ctx) "process_matched_loan" [ix] [fee_payer] in
    ret true.

(** One pending entry, under its in-flight claim; [acc] counts promotions. *)
Definition promote_entry ctx (market : MarketView) (acc : nat) (entry : PendingMatchedLoan) :
  M X nat :=
  let! fresh := set_insert promoter_set (pm_market entry, pm_sequence entry) in
  if negb fresh then ret acc
  else
    let! res := attempt (promote_one ctx market entry) in
    set_remove promoter_set (pm_market entry, pm_sequence entry) ;;
    ret (match res with inr true => S acc | _ => acc end).

(** One market: (pending seen, promoted). *)
Definition promote_market ctx (acc : nat * nat) (market : MarketView) : M X (nat * nat) :=
  if mv_is_paused market then ret acc
  else
    let! r := attempt (read_pending_matched_loans (mv_address market)) in
    match r with
    | inl _ => ret acc
    | inr pending =>
        let! promoted := for_fold pending acc.2 (promote_entry ctx market) in
        ret ((acc.1 + length pending)%nat, promoted)
    end.

Definition promote_markets ctx (markets : list MarketView) : M X (nat * nat) :=
  for_fold markets (0, 0)%nat (promote_market ctx).

Definition promoter_tick ctx : M X unit :=
  let! t0 := now_instant in
  let! markets := list_markets (ctx_chain ctx) in
  let! totals := promote_markets ctx markets in
  ret tt.

(** ** Lemmas *)

Lemma quiet_banks_snapshot : keeps quiet_run (@banks_snapshot X _).
Proof. unfold banks_snapshot. eauto with crank. Qed.

Lemma quiet_assemble ctx market entry mint bank :
  keeps quiet_run (assemble_vault_settle ctx market entry mint bank).
Proof. unfold assemble_vault_settle. keeps_go. Qed.
End promoter.
#[export] Hint Resolve quiet_banks_snapshot quiet_assemble : crank.

Section promoter_laws.
Context {X : Type} `{!Env X} {CR : Crates} {YD : YDelta}.
Implicit Types ctx : HandlerContext.

Lemma promote_one_gated ctx market entry :
  keeps (on_trace (gated (ctx_rpc ctx))) (promote_one ctx market entry).
Proof.
  unfold promote_one, simulate. keeps_to_sim. apply gated_after_sim.
  - intros sim ->. cbn [negb]. keeps_go.
  - intros sim m Hp Hi Hl. keeps_go. by apply backed_send_legacy.
Qed.

Lemma promote_one_inflight ctx market entry :
  keeps same_inflight (promote_one ctx market entry).
Proof. unfold promote_one. keeps_go. Qed.

Lemma promote_entry_gated ctx market acc entry :
  keeps (on_trace (gated (ctx_rpc ctx))) (promote_entry ctx market acc entry).
Proof. apply trace_claim_release; [apply _|keeps_go|apply promote_one_gated|intros; keeps_go]. Qed.

Lemma promote_entry_inflight ctx market acc entry :
  keeps same_inflight (promote_entry ctx market acc entry).
Proof. apply keeps_claim_release; [keeps_go|apply promote_one_inflight|intros; keeps_go]. Qed.

Lemma promoter_tick_gated ctx : keeps (on_trace (gated (ctx_rpc ctx))) (promoter_tick ctx).
Proof. unfold promoter_tick, promote_markets, promote_market. keeps_go. apply promote_entry_gated. Qed.

Lemma promoter_tick_inflight ctx : keeps same_inflight (promoter_tick ctx).
Proof. unfold promoter_tick, promote_markets, promote_market. keeps_go. apply promote_entry_inflight. Qed.

Definition PromoterHandler : Handler X := {|
  h_name := "promoter"; h_requires_fee_payer := true; h_tick := promoter_tick;
  h_inflight := promoter_tick_inflight; h_gated _ := promoter_tick_gated |}.
End promoter_laws.

(** ** Properties *)

Section promoter_properties.
Context {X : Type} `{!Env X} {CR : Crates} {YD : YDelta}.
Implicit Types ctx : HandlerContext.

(** The settle bundle is due: a match that is not P2Pool, whose flags say that the lender is
    a vault and that its atoms have not moved yet. *)
Definition needs_vault_settle (entry : PendingMatchedLoan) : Prop :=
  pm_loan_type entry <> LoanType_P2Pool /\
  Z.land (pm_flags entry) MATCHED_LOAN_FLAG_VAULT_PRESETTLED = 0%Z /\
  Z.land (pm_flags entry) MATCHED_LOAN_FLAG_VAULT_LENDER <> 0%Z.

(** The bundle of one vault: its own addresses, the market's, and the debt bank's. *)
Definition bundle_of ctx (market mint : Pubkey) (bank : BankInfo) (vault : Pubkey) :
  VaultSettleAddrs := {|
  vs_global_vault := vault;
  vs_global_vault_signer := (global_vault_signer_pda vault).1;
  vs_global_vault_staging := (global_vault_staging_pda vault).1;
  vs_global_vault_integration_account := (global_vault_integration_account_pda vault).1;
  vs_market_debt_vault := (get_vault_address market mint).1;
  vs_market_lender_integration_account := (get_lender_integration_account_address market).1;
  vs_market_signer := (get_market_signer_address market).1;
  vs_debt_liquidity_vault := bi_liquidity_vault bank;
  vs_debt_bank_liquidity_vault_authority := bi_liquidity_vault_authority bank;
  vs_debt_oracles := [default Pubkey_default (head (bi_oracles bank))];
  vs_debt_mint := mint; vs_token_program := bi_token_program bank;
  vs_marginfi_group := cfg_marginfi_group (ctx_cfg ctx);
  vs_marginfi_program := cfg_marginfi_program_id (ctx_cfg ctx) |}.

(** What is to come of the node's answer for the market's account, once a bundle is due. *)
Inductive Verdict := Attach (v : VaultSettleAddrs) | Omit | Refuse | Crash.

Definition verdict ctx (market mint : Pubkey) (bank : BankInfo) (seat_index : Z)
  (answer : ClientError + Account) : Verdict :=
  match answer with
  | inl _ => Refuse
  | inr acct =>
      if decide (acct_data acct = [] \/ seat_index = NIL) then Refuse
      else if decide (length (acct_data acct) < MARKET_FIXED_SIZE)%nat then Crash
      else
        match get_helper_seat (drop MARKET_FIXED_SIZE (acct_data acct)) seat_index with
        | None => Crash
        | Some seat =>
            if decide (cs_owner_kind seat <> OWNER_KIND_SUB_VAULT) then Omit
            else if decide (cs_owner seat = (global_vault_pda (bi_bank bank)).1)
            then Attach (bundle_of ctx market mint bank (cs_owner seat))
            else Refuse
        end
  end.

Definition carries_out (v : Verdict) (r : outcome (option VaultSettleAddrs)) : Prop :=
  match v with
  | Attach a => r = Ok (Some a)
  | Omit => r = Ok None
  | Refuse => exists e, r = Err e
  | Crash => exists s, r = Panic s
  end.

Lemma needs_vault_settle_flags entry :
  needs_vault_settle entry <->
  (Pending_is_p2pool entry || is_vault_presettled entry || negb (has_vault_lender entry))%bool = false.
Proof.
  unfold needs_vault_settle, Pending_is_p2pool, is_vault_presettled, has_vault_lender.
  rewrite !orb_false_iff, !negb_false_iff, negb_true_iff, Z.eqb_neq, Z.eqb_eq, Z.eqb_neq. tauto.
Qed.

(** C17. The vault-settle bundle is attached exactly when it is due: when the match does not
    call for one, no account is read and none is attached. When it does, the market account
    is read once, and the answer decides, on every branch: the bundle, with each of its
    fourteen fields, is attached if the lender's seat is owned by a sub-vault whose vault is
    the one derived from the debt bank; it is left out only for a seat of another kind; a
    missing account, a node error, no seat index and a vault of another bank are errors; and
    a seat outside the account is the program crate's panic. *)
Theorem vault_settle_iff ctx market entry mint bank (w : World X) :
  wp (assemble_vault_settle ctx market entry mint bank) (fun tr r w' =>
    (~ needs_vault_settle entry -> tr = [] /\ r = Ok None) /\
    (needs_vault_settle entry -> tr = [EvRead (RdAccount market)] /\
       carries_out (verdict ctx market mint bank (pm_lender_seat_index entry)
                      (cl_get_account market (ext w)).1) r)) w.
Proof.
  unfold assemble_vault_settle. pose proof (needs_vault_settle_flags entry) as Hn.
  destruct (_ || _)%bool.
  { wp_step. split; [done|]. intros H%Hn. done. }
  unfold get_account_data, get_account, read_call. wp_step. wp_step. wp_step. rewrite H. cbn [fst].
  assert (Hdue : needs_vault_settle entry) by by apply Hn. clear Hn.
  destruct a as [e|acct]; cbn [verdict].
  { destruct (str_contains _ _); wp_step; [wp_step; wp_step|]; (split; [done|]);
      intros _; (split; [done|by eexists]). }
  destruct (decide (acct_data acct = [])) as [He|He].
  { wp_step. wp_step. wp_step. split; [done|]. intros _. split; [done|].
    rewrite decide_True by (by left). by eexists. }
  wp_step. wp_step. wp_step. wp_step. wp_step. unfold read_seat_at, build_vault_settle_addrs.
  destruct (Z.eqb_spec (pm_lender_seat_index entry) NIL) as [Hi|Hi].
  { split; [done|]. intros _. split; [done|]. rewrite decide_True by (by right). by eexists. }
  rewrite (decide_False (P := acct_data acct = [] \/ _)) by (by intros [?|?]).
  case_decide; [split; [done|]; intros _; split; [done|by eexists]|].
  destruct (get_helper_seat _ _) as [seat|]; cbn [o_or_panic obind seat_view sw_owner_kind sw_owner];
    [|split; [done|]; intros _; split; [done|by eexists]].
  destruct (Z.eqb_spec (cs_owner_kind seat) OWNER_KIND_SUB_VAULT) as [Hk|Hk]; cbn [negb]; wp_step;
    (split; [done|]); intros _; (split; [done|]);
    [rewrite decide_False by auto|by rewrite decide_True].
  repeat case_decide; cbn; try done; try congruence. by eexists.
Qed.

(** What a promotion may send: the fee payer's transaction with the one instruction. *)
Definition promotion_tx ctx (market : Pubkey) (entry : PendingMatchedLoan) (tx : Transaction) : Prop :=
  exists bank vs, carries (keypair_pubkey (sg_fee_payer (ctx_signers ctx)))
    (priority_fee_preamble (ctx_rpc ctx) (rpc_compute_unit_limit (ctx_rpc ctx)) ++
     [promote_ix ctx market entry bank vs]) [] tx.

Lemma promote_one_sends ctx market entry :
  keeps (sends (promotion_tx ctx (mv_address market) entry)) (promote_one ctx market entry).
Proof. unfold promote_one. keeps_go. apply sends_legacy. intros tx Htx. by eexists _, _. Qed.

(** Promoting one entry: success means the transaction was delivered, a refusal
    means nothing was sent, and at most three transactions, resent only safely, are
    handed to the node, each with the promotion of this entry as its only instruction. *)
Theorem promote_one_outcome ctx market entry (w : World X) :
  wp (promote_one ctx market entry) (fun tr r _ => step_post tr r /\
    Forall (submit_sat (promotion_tx ctx (mv_address market) entry)) tr) w.
Proof.
  apply wp_and; [|apply promote_one_sends].
  assert (Hs : is_step (promote_one ctx market entry)) by (unfold promote_one; step_go).
  apply Hs.
Qed.

Lemma promote_markets_sends ctx markets :
  keeps (sends (fun tx => exists market entry, market ∈ markets /\
    mv_is_paused market = false /\ promotion_tx ctx (mv_address market) entry tx))
    (promote_markets ctx markets).
Proof.
  unfold promote_markets, promote_market, promote_entry. keeps_go.
  eapply sends_mono; [|apply promote_one_sends]. intros tx Htx. by exists x, x0.
Qed.

(** A promoter tick, whatever the environment does: every transaction it hands the
    node was accepted by a free simulation of the same instructions first, and the
    tick leaves its in-flight set as it found it; its walk over the listed markets
    sends only promotions for markets of the list that are not paused. *)
Theorem promoter_tick_safe ctx markets (w : World X) :
  wp (promoter_tick ctx) (fun tr r w' => gated (ctx_rpc ctx) tr /\
    (is_panic r = false -> inflight w' = inflight w)) w /\
  wp (promote_markets ctx markets) (fun tr _ _ =>
    Forall (submit_sat (fun tx => exists market entry, market ∈ markets /\
      mv_is_paused market = false /\ promotion_tx ctx (mv_address market) entry tx)) tr) w.
Proof.
  split; [|apply promote_markets_sends].
  apply wp_and; [apply promoter_tick_gated|apply promoter_tick_inflight].
Qed.
End promoter_properties.
