(* ===== verification/Claimer.v ===== *)
(** handlers/claimer.rs: sweeping repaid shares into the sub-vaults that have
    atoms pending. *)

From Stdlib Require Import ZArith Lia.
From stdpp Require Import gmap strings list pretty.
From S2P Require Import Prelude Solana State Effects Logic Rpc ChainReader BankRegistry Config Handlers Promoter.

Local Open Scope crank_scope.

(** ** Definitions *)

Definition claimer_set : KeySet (Pubkey * Pubkey * Z) := {|
  ks_get := if_claimer;
  ks_put s i := mkInflight (if_promoter i) (if_liquidator i) s (if_curator i) (if_match i);
  ks_get_put _ _ := eq_refl;
  ks_put_get i := match i with mkInflight _ _ _ _ _ => eq_refl end;
  ks_put_put _ _ _ := eq_refl |}.

Section claimer.
Context {X : Type} `{!Env X} {CR : Crates} {YD : YDelta}.
Implicit Types ctx : HandlerContext.

(** The sub-vaults with atoms awaiting a sweep. *)
Definition claimable_of (sub_vaults : list SubVaultView) : gset (Pubkey * Z) :=
  list_to_set (map (fun p => (vw_vault p, vw_sub_vault_id p))
    (List.filter (fun p => (vw_pending_claim_atoms p >? 0)%Z) sub_vaults)).

Definition to_sweep (claimable : gset (Pubkey * Z)) (claims : list PendingVaultClaim) :
  list PendingVaultClaim :=
  List.filter (fun e => bool_decide ((pc_lender_global_vault e, pc_sub_vault_id e) ∈ claimable)) claims.

Definition sweep_ix ctx (entry : PendingVaultClaim) (debt_bank : BankInfo) : Instruction :=
  claim_repayment_for_sub_vault_instruction
    (keypair_pubkey (sg_fee_payer (ctx_signers ctx))) (pc_market entry) (pc_sub_vault_id entry)
    (pc_lender_global_vault entry) (pc_debt_mint entry) (bi_bank debt_bank)
    (bi_liquidity_vault debt_bank) (bi_liquidity_vault_authority debt_bank)
    (bi_oracles debt_bank) (get_lender_integration_account_address (pc_market entry)).1
    (bi_token_program debt_bank) (cfg_marginfi_group (ctx_cfg ctx))
    (cfg_marginfi_program_id (ctx_cfg ctx)).

Definition sweep_one ctx (entry : PendingVaultClaim) : M X bool :=
  let! banks := banks_snapshot in
  let! debt_bank := lift (o_of_option ["no BANKS config for debt mint " +:+ show_pk (pc_debt_mint entry)]
                            (registry_get banks (pc_debt_mint entry))) in
  let fee_payer := sg_fee_payer (ctx_signers ctx) in
  let payer_pk := keypair_pubkey fee_payer in
  let ix := sweep_ix ctx entry debt_bank in
  let! sim := simulate (ctx_rpc ctx) [ix] payer_pk in
  if negb (sim_ok sim) then ret false
  else
    let! sig := send_signed_labeled (ctx_rpc ctx) "claim_repayment_for_sub_vault" [ix] [fee_payer] in
    ret true.

Definition claim_key (e : PendingVaultClaim) : Pubkey * Pubkey * Z :=
  (pc_market e, pc_lender_global_vault e, pc_sub_vault_id e).

Definition sweep_entry ctx (acc : nat) (entry : PendingVaultClaim) : M X nat :=
  let! fresh := set_insert claimer_set (claim_key entry) in
  if negb fresh then ret acc
  else
    let! res := attempt (sweep_one ctx entry) in
    set_remove claimer_set (claim_key entry) ;;
    ret (match res with inr true => S acc | _ => acc end).

Definition sweep_all ctx (pending : list PendingVaultClaim) : M X nat :=
  for_fold pending 0%nat (sweep_entry ctx).

Definition claimer_tick ctx : M X unit :=
  let! sub_vaults := list_sub_vaults (ctx_chain ctx) in
  let claimable := claimable_of sub_vaults in
  if decide (claimable = ∅) then ret tt
  else
    let! markets := list_markets (ctx_chain ctx) in
    match markets with
    | [] => ret tt
    | _ =>
        let! claims := list_pending_vault_claims markets in
        match to_sweep claimable claims with
        | [] => ret tt
        | pending => let! claimed := sweep_all ctx pending in ret tt
        end
    end.

(** ** Lemmas *)

Lemma elem_of_claimable sub_vaults v i :
  (v, i) ∈ claimable_of sub_vaults <->
  exists p, p ∈ sub_vaults /\ vw_vault p = v /\ vw_sub_vault_id p = i /\
    (0 < vw_pending_claim_atoms p)%Z.
Proof.
  unfold claimable_of. rewrite elem_of_list_to_set, list_elem_of_fmap. split.
  - intros (p & [= -> ->] & Hp). apply list_elem_of_In, filter_In in Hp as [Hp Hz].
    exists p. split_and!; [by apply list_elem_of_In|done|done|]. rewrite Z.gtb_ltb in Hz. by zbool.
  - intros (p & Hp & <- & <- & Hz). exists p. split; [done|].
    apply list_elem_of_In, filter_In. split; [by apply list_elem_of_In|].
    rewrite Z.gtb_ltb. by apply Z.ltb_lt.
Qed.

Lemma sweep_one_gated ctx entry :
  keeps (on_trace (gated (ctx_rpc ctx))) (sweep_one ctx entry).
Proof.
  unfold sweep_one, simulate. keeps_to_sim. apply gated_after_sim.
  - intros sim ->. cbn [negb]. keeps_go.
  - intros sim m Hp Hi Hl. keeps_go. by apply backed_send_legacy.
Qed.

Lemma sweep_one_inflight ctx entry : keeps same_inflight (sweep_one ctx entry).
Proof. unfold sweep_one. keeps_go. Qed.

Lemma claimer_tick_gated ctx : keeps (on_trace (gated (ctx_rpc ctx))) (claimer_tick ctx).
Proof.
  unfold claimer_tick, sweep_all. keeps_go. apply trace_claim_release; [apply _|keeps_go|apply sweep_one_gated|].
  intros; keeps_go.
Qed.

Lemma claimer_tick_inflight ctx : keeps same_inflight (claimer_tick ctx).
Proof.
  unfold claimer_tick, sweep_all. keeps_go. apply keeps_claim_release; [keeps_go|apply sweep_one_inflight|].
  intros; keeps_go.
Qed.

Definition ClaimerHandler : Handler X := {|
  h_name := "claimer"; h_requires_fee_payer := true; h_tick := claimer_tick;
  h_inflight := claimer_tick_inflight; h_gated _ := claimer_tick_gated |}.

(** What a sweep may send. *)
Definition sweep_tx ctx (entry : PendingVaultClaim) (tx : Transaction) : Prop :=
  exists bank, carries (keypair_pubkey (sg_fee_payer (ctx_signers ctx)))
    (priority_fee_preamble (ctx_rpc ctx) (rpc_compute_unit_limit (ctx_rpc ctx)) ++
     [sweep_ix ctx entry bank]) [] tx.

Lemma sweep_one_sends ctx entry : keeps (sends (sweep_tx ctx entry)) (sweep_one ctx entry).
Proof. unfold sweep_one. keeps_go. apply sends_legacy. intros tx Htx. by eexists. Qed.

(** ** Properties *)

Lemma sweep_partition sub_vaults claims :
  exists left_out, claims ≡ₚ to_sweep (claimable_of sub_vaults) claims ++ left_out /\
    Forall (fun e => forall p, p ∈ sub_vaults -> vw_vault p = pc_lender_global_vault e ->
      vw_sub_vault_id p = pc_sub_vault_id e -> (vw_pending_claim_atoms p <= 0)%Z) left_out.
Proof.
  unfold to_sweep. induction claims as [|c claims (out & Hp & Ho)]; [by exists []|].
  cbn [List.filter]. destruct (bool_decide _) eqn:E.
  - exists out. split; [|done]. cbn [app]. by rewrite Hp at 1.
  - apply bool_decide_eq_false in E. rewrite elem_of_claimable in E. exists (c :: out). split.
    + rewrite <-Permutation_middle. by rewrite Hp at 1.
    + constructor; [|done]. intros p Hin Hv Hi. destruct (Z.le_gt_cases (vw_pending_claim_atoms p) 0);
        [done|]. exfalso. apply E. by exists p.
Qed.

(** The claims swept are, in order and each as often as it was scanned, exactly the
    scanned ones whose sub-vault has atoms pending: none of those left out has any. *)
Theorem to_sweep_exact sub_vaults claims e :
  (e ∈ to_sweep (claimable_of sub_vaults) claims <->
   e ∈ claims /\ exists p, p ∈ sub_vaults /\ vw_vault p = pc_lender_global_vault e /\
     vw_sub_vault_id p = pc_sub_vault_id e /\ (0 < vw_pending_claim_atoms p)%Z) /\
  to_sweep (claimable_of sub_vaults) claims `sublist_of` claims /\
  exists left_out, claims ≡ₚ to_sweep (claimable_of sub_vaults) claims ++ left_out /\
    Forall (fun e => forall p, p ∈ sub_vaults -> vw_vault p = pc_lender_global_vault e ->
      vw_sub_vault_id p = pc_sub_vault_id e -> (vw_pending_claim_atoms p <= 0)%Z) left_out.
Proof.
  split_and!; [| |apply sweep_partition].
  - rewrite <-elem_of_claimable. unfold to_sweep. rewrite !list_elem_of_In, filter_In.
    by rewrite bool_decide_eq_true.
  - unfold to_sweep. induction claims as [|c claims IH]; [constructor|]. cbn [List.filter].
    destruct (bool_decide _); by constructor.
Qed.

(** When no sub-vault has atoms pending, a claimer tick is one program-account read:
    no market is scanned and nothing is sent. *)
Theorem claimer_idle_when_nothing_pending ctx (w : World X) :
  let pid := cr_program_id (ctx_chain ctx) in
  let filters := [discriminator_filter GLOBAL_VAULT_FIXED_DISCRIMINANT] in
  wp (claimer_tick ctx) (fun tr r _ =>
    forall accts vs, (cl_get_program_accounts pid filters (ext w)).1 = inr accts ->
      concat_each decode_vault accts = Ok vs ->
      Forall (fun p => vw_pending_claim_atoms p <= 0)%Z vs ->
      tr = [EvRead (RdProgramAccounts pid filters)] /\ r = Ok tt) w.
Proof.
  intros pid filters.
  destruct (cl_get_program_accounts pid filters (ext w)).1 as [e|accts] eqn:Ha.
  { destruct (claimer_tick_inflight ctx w) as (tr & Htr & _). exists tr. split; [done|]. done. }
  destruct (concat_each decode_vault accts) as [vs|e|s] eqn:Hvs.
  2,3: destruct (claimer_tick_inflight ctx w) as (tr & Htr & _); exists tr;
    split; [done|]; intros ? ? [= <-] ?; congruence.
  destruct (decide (Forall (fun p => vw_pending_claim_atoms p <= 0)%Z vs)) as [Hz|Hz].
  2: destruct (claimer_tick_inflight ctx w) as (tr & Htr & _); exists tr;
    split; [done|]; intros ? ? [= <-] Hv ?; rewrite Hvs in Hv; congruence.
  unfold claimer_tick, list_sub_vaults, get_program_accounts, get_program_accounts_with_config,
    read_call. fold pid. fold filters.
  wp_step. wp_step. wp_step. wp_step. wp_step. rewrite H in Ha. cbn [fst] in Ha. subst a.
  cbn [try_client]. wp_step. wp_step. rewrite Hvs.
  rewrite decide_True; [by wp_step|].
  apply set_eq. intros [v i]. rewrite elem_of_claimable. split; [|set_solver].
  intros (p & Hp & _ & _ & Hpos). rewrite Forall_forall in Hz. specialize (Hz p Hp). lia.
Qed.

Lemma sweep_all_sends ctx pending :
  keeps (sends (fun tx => exists entry, entry ∈ pending /\ sweep_tx ctx entry tx))
    (sweep_all ctx pending).
Proof.
  unfold sweep_all, sweep_entry. keeps_go.
  eapply sends_mono; [|apply sweep_one_sends]. intros tx Htx. by exists x.
Qed.

(** A claimer tick, whatever the environment does: every transaction it hands the
    node was accepted by a free simulation of the same instructions first, and the
    tick leaves its in-flight set as it found it; its walk over the selected claims
    sends only sweeps of those claims. *)
Theorem claimer_tick_safe ctx pending (w : World X) :
  wp (claimer_tick ctx) (fun tr r w' => gated (ctx_rpc ctx) tr /\
    (is_panic r = false -> inflight w' = inflight w)) w /\
  wp (sweep_all ctx pending) (fun tr _ _ =>
    Forall (submit_sat (fun tx => exists entry, entry ∈ pending /\ sweep_tx ctx entry tx)) tr) w.
Proof.
  split; [|apply sweep_all_sends].
  apply wp_and; [apply claimer_tick_gated|apply claimer_tick_inflight].
Qed.

(** Sweeping one claim: success means the transaction was delivered, a refusal means
    nothing was sent, and at most three transactions, resent only safely, are handed to
    the node, each with the sweep of this claim as its only instruction. *)
Theorem sweep_one_outcome ctx entry (w : World X) :
  wp (sweep_one ctx entry) (fun tr r _ => step_post tr r /\
    Forall (submit_sat (sweep_tx ctx entry)) tr) w.
Proof.
  apply wp_and; [|apply sweep_one_sends].
  assert (Hs : is_step (sweep_one ctx entry)) by (unfold sweep_one; step_go). apply Hs.
Qed.
End claimer.
