(* ===== verification/CuratorFeeClaimer.v ===== *)
(** handlers/curator_fee_claimer.rs: claiming the fees accrued by the
    sub-vaults whose curator key is held. *)

From Stdlib Require Import ZArith Lia.
From stdpp Require Import gmap strings list pretty.
From S2P Require Import Prelude Solana State Effects Logic Rpc ChainReader BankRegistry Config Signer Handlers Promoter.

Local Open Scope crank_scope.

(** ** Definitions *)

Definition curator_set : KeySet (Pubkey * Z) := {|
  ks_get := if_curator;
  ks_put s i := mkInflight (if_promoter i) (if_liquidator i) (if_claimer i) s (if_match i);
  ks_get_put _ _ := eq_refl;
  ks_put_get i := match i with mkInflight _ _ _ _ _ => eq_refl end;
  ks_put_put _ _ _ := eq_refl |}.

Section curator.
Context {X : Type} `{!Env X} {CR : Crates} {YD : YDelta}.
Implicit Types ctx : HandlerContext.

Definition claim_fee_ix ctx (sub_vault : SubVaultView) (bank : BankInfo) (signer : Keypair) :
  Instruction :=
  let curator_pk := keypair_pubkey signer in
  claim_curator_fee_instruction (vw_vault_bank sub_vault) (vw_vault_mint sub_vault) curator_pk
    (ata_for bank curator_pk) (bi_bank bank) (bi_liquidity_vault bank)
    (bi_liquidity_vault_authority bank) (primary_oracle bank) (bi_token_program bank)
    (cfg_marginfi_program_id (ctx_cfg ctx)) (cfg_marginfi_group (ctx_cfg ctx))
    (vw_sub_vault_id sub_vault).

Definition claim_one ctx (sub_vault : SubVaultView) (banks : BankRegistry) (signer : Keypair) :
  M X bool :=
  let! bank := lift (o_of_option
    ["no BANKS config for vault mint " +:+ show_pk (vw_vault_mint sub_vault) +:+ " (vault " +:+
     show_pk (vw_vault sub_vault) +:+ ")"]
    (registry_get banks (vw_vault_mint sub_vault))) in
  if decide (bi_bank bank <> vw_vault_bank sub_vault) then
    throw ["vault " +:+ show_pk (vw_vault sub_vault) +:+
           " bank disagrees with registry: vault.lending_pool=" +:+
           show_pk (vw_vault_bank sub_vault) +:+ ", registry.bank=" +:+ show_pk (bi_bank bank)]
  else
    let! sig := send_signed_labeled (ctx_rpc ctx) "claim_curator_fee"
                  [claim_fee_ix ctx sub_vault bank signer] [signer] in
    ret true.

(** One claim under its in-flight key. *)
Definition claim_entry ctx (banks : BankRegistry) (acc : nat * nat) (sub_vault : SubVaultView)
  (signer : Keypair) : M X (nat * nat) :=
  let! fresh := set_insert curator_set (vw_vault sub_vault, vw_sub_vault_id sub_vault) in
  if negb fresh then ret acc
  else
    let! res := attempt (claim_one ctx sub_vault banks signer) in
    set_remove curator_set (vw_vault sub_vault, vw_sub_vault_id sub_vault) ;;
    ret (match res with inr true => (S acc.1, acc.2) | _ => acc end).

(** One sub-vault: (claimed, skipped for want of a key). *)
Definition claim_sub_vault ctx (banks : BankRegistry) (acc : nat * nat) (sub_vault : SubVaultView) :
  M X (nat * nat) :=
  if vw_vault_is_paused sub_vault then ret acc
  else if (vw_accumulated_curator_fee_atoms sub_vault
           <? min_curator_fee_claim_atoms (cfg_thresholds (ctx_cfg ctx)))%Z then ret acc
  else
    match sg_curators (ctx_signers ctx) !! vw_curator sub_vault with
    | None => ret (acc.1, S acc.2)
    | Some signer => claim_entry ctx banks acc sub_vault signer
    end.

Definition claim_sub_vaults ctx (banks : BankRegistry) (sub_vaults : list SubVaultView) :
  M X (nat * nat) :=
  for_fold sub_vaults (0, 0)%nat (claim_sub_vault ctx banks).

Definition curator_tick ctx : M X unit :=
  if decide (sg_curators (ctx_signers ctx) = ∅) then ret tt
  else
    let! sub_vaults := list_sub_vaults (ctx_chain ctx) in
    let! banks := banks_snapshot in
    let! counts := claim_sub_vaults ctx banks sub_vaults in
    ret tt.

(** ** Lemmas *)

Lemma claim_one_inflight ctx sub_vault banks signer :
  keeps same_inflight (claim_one ctx sub_vault banks signer).
Proof. unfold claim_one. keeps_go. Qed.

Lemma curator_tick_inflight ctx : keeps same_inflight (curator_tick ctx).
Proof.
  unfold curator_tick, claim_sub_vaults, claim_sub_vault. keeps_go.
  apply keeps_claim_release; [keeps_go|apply claim_one_inflight|intros; keeps_go].
Qed.

Lemma curator_gated ctx : false = true -> keeps (on_trace (gated (ctx_rpc ctx))) (curator_tick ctx).
Proof. done. Qed.

Definition CuratorFeeClaimerHandler : Handler X := {|
  h_name := "curator_fee_claimer"; h_requires_fee_payer := false; h_tick := curator_tick;
  h_inflight := curator_tick_inflight; h_gated H ctx := curator_gated ctx H |}.

(** A fee claim: signed and paid by the held key [signer], with one instruction,
    through a bank that agrees with the vault's. *)
Definition fee_claim_tx ctx (sub_vault : SubVaultView) (banks : BankRegistry) (signer : Keypair)
  (tx : Transaction) : Prop :=
  exists bank, registry_get banks (vw_vault_mint sub_vault) = Some bank /\
    bi_bank bank = vw_vault_bank sub_vault /\
    carries (keypair_pubkey signer)
      (priority_fee_preamble (ctx_rpc ctx) (rpc_compute_unit_limit (ctx_rpc ctx)) ++
       [claim_fee_ix ctx sub_vault bank signer]) [] tx.

Lemma claim_one_sends ctx sub_vault banks signer :
  keeps (sends (fee_claim_tx ctx sub_vault banks signer)) (claim_one ctx sub_vault banks signer).
Proof.
  unfold claim_one. keeps_go. apply sends_legacy. intros tx Htx.
  exists a. split_and!; [|by apply dec_stable|done].
  by destruct (registry_get banks _); simplify_eq/=.
Qed.

(** ** Properties *)


(** Claiming one fee fails without sending anything when the registry has no bank
    for the vault's mint or another bank than the vault's; otherwise success means the
    transaction was delivered. *)
Theorem claim_one_outcome ctx sub_vault banks signer (w : World X) :
  wp (claim_one ctx sub_vault banks signer) (fun tr r _ => step_post tr r /\
    ((forall bank, registry_get banks (vw_vault_mint sub_vault) = Some bank ->
        bi_bank bank <> vw_vault_bank sub_vault) ->
     tr = [] /\ exists e, r = Err e)) w.
Proof.
  apply wp_and.
  - assert (Hs : is_step (claim_one ctx sub_vault banks signer)); [|apply Hs].
    unfold claim_one. step_go. intros w'. apply wp_throw. by apply quiet_step.
  - unfold claim_one. destruct (registry_get banks _) as [bank|]; cbn [o_of_option].
    + wp_step. wp_step. case_decide as Hb.
      { wp_step. intros _. split; [done|by eexists]. }
      destruct (inflight_send_legacy (ctx_rpc ctx) "claim_curator_fee"
        [claim_fee_ix ctx sub_vault bank signer] [signer] w) as (tr & Htr & _).
      wp_step. exists tr. split; [done|].
      destruct (send_signed_labeled _ _ _ _ w) as [[s|e|s] w1]; cbn [fst snd];
        [wp_step|..]; intros Hne; by destruct (Hne bank eq_refl).
    + wp_step. wp_step. intros _. split; [done|by eexists].
Qed.
End curator.
