(* ===== verification/MatchCranker.v ===== *)
(** handlers/match_cranker.rs: cranking the rate-crossed books whose simulation
    reports a fill, and the parser of that report. *)

From Stdlib Require Import ZArith Lia.
From stdpp Require Import gmap strings list pretty.
From S2P Require Import Prelude Solana State Effects Logic Rpc ChainReader BankRegistry Config SwbCranker Handlers Promoter.

Local Open Scope crank_scope.

(** ** Definitions *)

Definition match_set : KeySet Pubkey := {|
  ks_get := if_match;
  ks_put s i := mkInflight (if_promoter i) (if_liquidator i) (if_claimer i) (if_curator i) s;
  ks_get_put _ _ := eq_refl;
  ks_put_get i := match i with mkInflight _ _ _ _ _ => eq_refl end;
  ks_put_put _ _ _ := eq_refl |}.

#[export] Instance outcome_eq_dec {A} `{EqDecision A} : EqDecision (outcome A).
Proof. solve_decision. Defined.

Section match_cranker.
Context {X : Type} `{!Env X} {CR : Crates} {YD : YDelta}.
Implicit Types ctx : HandlerContext.

(** *** The fills report *)

(** The loop's body on one line: [None] continues. *)
Definition fills_of_line (line : string) : option Z :=
  match strip_prefix "Program data: " line with
  | None => None
  | Some rest =>
      let token := default rest (first_word rest) in
      match base64_decode token with
      | None => None
      | Some bytes =>
          if decide (length bytes < 80)%nat then None
          else if decide (take 8 bytes <> MatchCrankLog_discriminant) then None
          else Some (le_Z (take 4 (drop 72 bytes)))
      end
  end.

Fixpoint parse_match_crank_fills (logs : list string) : option Z :=
  match logs with
  | [] => None
  | line :: rest =>
      match fills_of_line line with
      | Some fills => Some fills
      | None => parse_match_crank_fills rest
      end
  end.

(** The line the unit tests build: the wire form of a record with zero keys. *)
Definition match_crank_log_line (base64_encode : bytes -> string) (fills : Z) : string :=
  "Program data: " +:+
  base64_encode (MatchCrankLog_discriminant ++ replicate 32 Byte.x00 ++ replicate 32 Byte.x00 ++
                 le_bytes 4 fills ++ replicate 4 Byte.x00).

(** *** The handler *)

Definition match_swb_bundle ctx (debt_bank collateral_bank : BankInfo) : M X Bundle :=
  match ctx_swb_cranker ctx with
  | None => ret ([], [])
  | Some cranker =>
      let feeds :=
        (if is_switchboard_pull debt_bank then [primary_oracle debt_bank] else []) ++
        (if is_switchboard_pull collateral_bank then [primary_oracle collateral_bank] else []) in
      match feeds with
      | [] => ret ([], [])
      | _ =>
          let! r := attempt (fetch_update_ixs cranker feeds) in
          ret (match r with inr bundle => bundle | inl _ => ([], []) end)
      end
  end.

Definition match_ix ctx (market : Pubkey) (debt_bank collateral_bank : BankInfo) : Instruction :=
  match_crank_instruction (bi_bank debt_bank) market
    (keypair_pubkey (sg_fee_payer (ctx_signers ctx))) (bi_bank debt_bank)
    (cfg_marginfi_group (ctx_cfg ctx)) (bi_bank collateral_bank) (bi_oracles debt_bank)
    (bi_oracles collateral_bank) (match_cranker_max_fills (cfg_handlers (ctx_cfg ctx))).

Definition crank_one ctx (market : MarketView) : M X bool :=
  let! banks := banks_snapshot in
  let! debt_bank := lift (o_of_option
    ["no BANKS config for debt mint " +:+ show_pk (mv_debt_mint market)]
    (registry_get banks (mv_debt_mint market))) in
  let! collateral_bank := lift (o_of_option
    ["no BANKS config for collateral mint " +:+ show_pk (mv_collateral_mint market)]
    (registry_get banks (mv_collateral_mint market))) in
  let fee_payer := sg_fee_payer (ctx_signers ctx) in
  let payer_pk := keypair_pubkey fee_payer in
  let! (swb_ixs, swb_luts) := match_swb_bundle ctx debt_bank collateral_bank in
  let ix := match_ix ctx (mv_address market) debt_bank collateral_bank in
  let! sim := simulate_v0 (swb_ixs ++ [ix]) swb_luts payer_pk in
  if negb (sim_ok sim) then ret false
  else
    match parse_match_crank_fills (sim_logs sim) with
    | Some 0%Z => ret false
    | _ =>
        let! sig := send_signed_v0_labeled (ctx_rpc ctx) "match_crank" (swb_ixs ++ [ix])
                      swb_luts [fee_payer] in
        ret true
    end.

Definition match_scan_market ctx (market : MarketView) : M X bool :=
  let! crossed := market_is_rate_crossed (mv_address market) in
  if negb crossed then ret false
  else
    let! fresh := set_insert match_set (mv_address market) in
    if negb fresh then ret false
    else
      let! res := attempt (crank_one ctx market) in
      set_remove match_set (mv_address market) ;;
      return_result res.

Definition match_markets ctx (markets : list MarketView) : M X nat :=
  for_fold markets 0%nat (fun acc market =>
    if mv_is_paused market then ret acc
    else
      let! r := attempt (match_scan_market ctx market) in
      ret (match r with inr true => S acc | _ => acc end)).

Definition match_tick ctx : M X unit :=
  let! markets := list_markets (ctx_chain ctx) in
  let! cranked := match_markets ctx markets in
  ret tt.

(** ** Lemmas *)

(** The verdict of the fills gate on a simulation's logs. *)
Definition fills_pass (logs : list string) : bool :=
  negb (bool_decide (parse_match_crank_fills logs = Some 0%Z)).

Lemma quiet_match_swb_bundle ctx d c : keeps quiet_run (match_swb_bundle ctx d c).
Proof. unfold match_swb_bundle. keeps_go. Qed.
Local Hint Resolve quiet_match_swb_bundle : crank.

Lemma crank_one_gated ctx market :
  keeps (on_trace (gated_if fills_pass (ctx_rpc ctx))) (crank_one ctx market).
Proof.
  unfold crank_one. keeps_to_sim. apply gated_if_after_sim.
  - intros sim ->. cbn [negb]. keeps_go.
  - intros sim -> HV. cbn [negb]. unfold fills_pass in HV.
    apply negb_false_iff, bool_decide_eq_true in HV. rewrite HV. keeps_go.
  - intros sim m Hp Hi Hl. keeps_go; by apply backed_send_v0.
Qed.

Lemma crank_one_inflight ctx market : keeps same_inflight (crank_one ctx market).
Proof. unfold crank_one. keeps_go. Qed.

Lemma match_scan_gated ctx market :
  keeps (on_trace (gated_if fills_pass (ctx_rpc ctx))) (match_scan_market ctx market).
Proof.
  unfold match_scan_market, return_result. apply keeps_bind; [apply _|eauto with crank|].
  intros crossed. destruct (negb crossed); [keeps_go|].
  apply trace_claim_release; [apply _|keeps_go|apply crank_one_gated|intros; keeps_go].
Qed.

Lemma match_scan_inflight ctx market : keeps same_inflight (match_scan_market ctx market).
Proof.
  unfold match_scan_market, return_result. apply keeps_bind; [apply _|eauto with crank|].
  intros crossed. destruct (negb crossed); [keeps_go|].
  apply keeps_claim_release; [keeps_go|apply crank_one_inflight|intros; keeps_go].
Qed.

Lemma match_tick_gated_if ctx :
  keeps (on_trace (gated_if fills_pass (ctx_rpc ctx))) (match_tick ctx).
Proof. unfold match_tick, match_markets. keeps_go. apply match_scan_gated. Qed.

Lemma match_tick_gated ctx : keeps (on_trace (gated (ctx_rpc ctx))) (match_tick ctx).
Proof.
  intros w. eapply wp_mono; [apply match_tick_gated_if|]. intros tr r w' H.
  exact (gated_if_gated _ _ _ H).
Qed.

Lemma match_tick_inflight ctx : keeps same_inflight (match_tick ctx).
Proof. unfold match_tick, match_markets. keeps_go. apply match_scan_inflight. Qed.

Definition MatchCrankerHandler : Handler X := {|
  h_name := "match_cranker"; h_requires_fee_payer := true; h_tick := match_tick;
  h_inflight := match_tick_inflight; h_gated _ := match_tick_gated |}.

(** What a crank may send: a bundle of the gateway, then the crank. *)
Definition match_tx ctx (market : Pubkey) (tx : Transaction) : Prop :=
  exists debt_bank collateral_bank swb_ixs luts,
    carries (keypair_pubkey (sg_fee_payer (ctx_signers ctx)))
      (priority_fee_preamble (ctx_rpc ctx) V0_COMPUTE_UNIT_LIMIT ++
       (swb_ixs ++ [match_ix ctx market debt_bank collateral_bank])) luts tx.

Lemma crank_one_sends ctx market :
  keeps (sends (match_tx ctx (mv_address market))) (crank_one ctx market).
Proof. unfold crank_one. keeps_go; apply sends_v0; intros tx Htx; by eexists _, _, _, _. Qed.

Lemma parse_None logs :
  parse_match_crank_fills logs = None <-> Forall (fun l => fills_of_line l = None) logs.
Proof.
  induction logs as [|l logs IH]; cbn [parse_match_crank_fills]; [split; [constructor|done]|].
  rewrite Forall_cons. destruct (fills_of_line l); [by split; [|intros []]|].
  rewrite IH. tauto.
Qed.

Lemma parse_app pre logs :
  Forall (fun l => fills_of_line l = None) pre ->
  parse_match_crank_fills (pre ++ logs) = parse_match_crank_fills logs.
Proof. induction 1 as [|l pre Hl _ IH]; [done|]. cbn [app parse_match_crank_fills]. by rewrite Hl. Qed.

Lemma fills_is_u32 l n : fills_of_line l = Some n -> is_u32 n.
Proof.
  unfold fills_of_line. destruct (strip_prefix _ l) as [rest|]; [|done]. cbn zeta.
  destruct (base64_decode _) as [bs|]; [|done]. repeat (case_decide; [done|]). intros [= <-].
  pose proof (le_Z_range (take 4 (drop 72 bs))) as Hr.
  assert (256 ^ Z.of_nat (length (take 4 (drop 72 bs))) <= 256 ^ 4)%Z
    by (apply Z.pow_le_mono_r; [lia|]; rewrite length_take; lia).
  unfold is_u32, U32_MAX. lia.
Qed.
End match_cranker.
#[export] Hint Resolve quiet_match_swb_bundle : crank.

(** ** Properties *)

Section match_properties.
Context {X : Type} `{!Env X} {CR : Crates} {YD : YDelta}.
Implicit Types ctx : HandlerContext.

(** One line that carries a record. *)
Lemma line_roundtrip token market cranker fills pad :
  first_word token = Some token ->
  length MatchCrankLog_discriminant = 8%nat -> length market = 32%nat ->
  length cranker = 32%nat -> (4 <= length pad)%nat -> is_u32 fills ->
  base64_decode token =
    Some (MatchCrankLog_discriminant ++ market ++ cranker ++ le_bytes 4 fills ++ pad) ->
  fills_of_line ("Program data: " +:+ token) = Some fills.
Proof.
  intros Htok Hd Hm Hc Hp Hf Hb.
  unfold fills_of_line. rewrite strip_prefix_app. rewrite Htok. cbn [default from_option id].
  cbv zeta. rewrite Hb. rewrite decide_False by (rewrite !length_app, length_le_bytes; lia).
  rewrite take_app_length' by done. rewrite decide_False by auto. f_equal.
  rewrite !(assoc_L (++)). rewrite <-(assoc_L (++)).
  rewrite drop_app_length' by (rewrite !length_app; lia).
  rewrite take_app_length' by (by rewrite length_le_bytes). rewrite le_Z_le_bytes.
  apply Z.mod_small. unfold is_u32, U32_MAX in Hf. change (256 ^ Z.of_nat 4)%Z with (2 ^ 32)%Z. lia.
Qed.

(** C20. The fills parser reads the record back: the first line that carries a match-crank
    record gives its fill count, whatever lines that carry none precede it and whatever
    follows; it finds none exactly when no line carries one; and what it finds is a
    [u32]. *)
Theorem parse_fills_roundtrip pre token market cranker fills pad post :
  Forall (fun l => fills_of_line l = None) pre ->
  first_word token = Some token ->
  length MatchCrankLog_discriminant = 8%nat -> length market = 32%nat ->
  length cranker = 32%nat -> (4 <= length pad)%nat -> is_u32 fills ->
  base64_decode token =
    Some (MatchCrankLog_discriminant ++ market ++ cranker ++ le_bytes 4 fills ++ pad) ->
  parse_match_crank_fills (pre ++ ("Program data: " +:+ token) :: post) = Some fills /\
  forall logs,
    (parse_match_crank_fills logs = None <-> Forall (fun l => fills_of_line l = None) logs) /\
    (forall n, parse_match_crank_fills logs = Some n -> is_u32 n).
Proof.
  intros Hpre Htok Hd Hm Hc Hp Hf Hb. split; [|intros logs; split].
  - rewrite parse_app by done. cbn [parse_match_crank_fills].
    assert (Hl : fills_of_line ("Program data: " +:+ token) = Some fills); [|by rewrite Hl].
    by eapply line_roundtrip; last exact Hb.
  - apply parse_None.
  - intros n. induction logs as [|l logs IH]; [done|]. cbn [parse_match_crank_fills].
    destruct (fills_of_line l) as [m|] eqn:E; [|done]. intros [= <-]. by eapply fills_is_u32.
Qed.

(** The unit tests, for every encoder that the decoder undoes and whose words have no
    space in them: the line of any count between other lines reads back as the count;
    a record with another discriminant, a line of another kind and no line at all read
    as none. *)
Theorem parse_match_crank_log_line (base64_encode : bytes -> string) (fills : Z) :
  (forall bs, base64_decode (base64_encode bs) = Some bs) ->
  (forall b bs, first_word (base64_encode (b :: bs)) = Some (base64_encode (b :: bs))) ->
  length MatchCrankLog_discriminant = 8%nat -> is_u32 fills ->
  parse_match_crank_fills ["Program invoke [1]"; match_crank_log_line base64_encode fills;
    "Program success"] = Some fills /\
  (forall disc rest, length disc = 8%nat -> disc <> MatchCrankLog_discriminant ->
     parse_match_crank_fills ["Program data: " +:+ base64_encode (disc ++ rest)] = None) /\
  parse_match_crank_fills ["Program log: nothing here"] = None.
Proof.
  intros Hdec Hword Hd Hf. split_and!; [| |done].
  - cbn [parse_match_crank_fills]. change (fills_of_line "Program invoke [1]") with (@None Z).
    cbn iota. unfold match_crank_log_line. set (rec := _ ++ _).
    assert (Hl : fills_of_line ("Program data: " +:+ base64_encode rec) = Some fills); [|by rewrite Hl].
    eapply line_roundtrip; [|done|..|done|apply Hdec]; try by rewrite length_replicate.
    destruct rec as [|b l] eqn:E; [|apply Hword].
    apply (f_equal length) in E. unfold rec in E. rewrite length_app in E. simpl in E. lia.
  - intros disc rest Hl Hne. cbn [parse_match_crank_fills]. unfold fills_of_line.
    rewrite strip_prefix_app. destruct disc as [|b disc]; [done|]. cbn [app].
    rewrite Hword. cbn [default from_option id]. rewrite Hdec.
    case_decide; [done|]. rewrite decide_True; [done|].
    change (b :: disc ++ rest) with ((b :: disc) ++ rest). by rewrite take_app_length'.
Qed.

(** Cranking one market: success means the transaction was delivered, a refusal
    means nothing was sent; at most three transactions, resent only safely, are handed
    to the node, each the crank of this market behind the gateway's bundle; and a
    simulation that reports no fill sends nothing. *)
Theorem crank_one_outcome ctx market (w : World X) :
  wp (crank_one ctx market) (fun tr r _ => step_post tr r /\
    Forall (submit_sat (match_tx ctx (mv_address market))) tr /\
    gated_if (fun logs => negb (bool_decide (parse_match_crank_fills logs = Some 0%Z)))
      (ctx_rpc ctx) tr) w.
Proof.
  apply wp_and; [|apply wp_and; [apply crank_one_sends|apply crank_one_gated]].
  assert (Hs : is_step (crank_one ctx market)) by (unfold crank_one; step_go). apply Hs.
Qed.

(** C19. A match-crank tick, whatever the environment does: every transaction it hands the
    node was accepted by a free simulation whose logs do not report zero fills, and the
    tick leaves its in-flight set as it found it; its walk over the listed markets sends
    only cranks of markets of the list that are not paused. *)
Theorem match_tick_safe ctx markets (w : World X) :
  wp (match_tick ctx) (fun tr r w' => gated_if fills_pass (ctx_rpc ctx) tr /\
    (is_panic r = false -> inflight w' = inflight w)) w /\
  wp (match_markets ctx markets) (fun tr _ _ =>
    Forall (submit_sat (fun tx => exists market, market ∈ markets /\
      mv_is_paused market = false /\ match_tx ctx (mv_address market) tx)) tr) w.
Proof.
  split.
  - apply wp_and; [apply match_tick_gated_if|apply match_tick_inflight].
  - match goal with |- wp _ (fun tr _ _ => Forall (submit_sat ?P) tr) _ =>
      assert (Hk : keeps (sends P) (match_markets ctx markets)) end; [|apply Hk].
    unfold match_markets, match_scan_market, return_result. keeps_go.
    eapply sends_mono; [|apply crank_one_sends]. intros tx Htx. by exists x.
Qed.

(** A market whose best bid does not cross its best ask costs one account read:
    nothing is simulated and nothing is sent. *)
Theorem match_scan_uncrossed ctx market (w : World X) :
  wp (match_scan_market ctx market) (fun tr r _ =>
    forall acct, (cl_get_account (mv_address market) (ext w)).1 = inr acct ->
      acct_data acct <> [] -> rate_crossed (acct_data acct) = Ok false ->
      tr = [EvRead (RdAccount (mv_address market))] /\ r = Ok false) w.
Proof.
  destruct (cl_get_account (mv_address market) (ext w)).1 as [e|acct] eqn:Ha.
  { destruct (match_scan_inflight ctx market w) as (tr & Htr & _). by exists tr. }
  destruct (decide (acct_data acct <> [] /\ rate_crossed (acct_data acct) = Ok false))
    as [[Hne Hc]|Hn].
  2: { destruct (match_scan_inflight ctx market w) as (tr & Htr & _). exists tr.
       split; [done|]. intros ? [= <-] ? ?. by destruct Hn. }
  unfold match_scan_market, market_is_rate_crossed, market_data, get_account_data, get_account,
    read_call.
  wp_step. wp_step. wp_step. wp_step. wp_step. rewrite H in Ha. cbn [fst] in Ha. subst a.
  rewrite decide_False by done. wp_step. wp_step. cbn [o_of_option]. wp_step. rewrite Hc.
  cbn [negb]. by wp_step.
Qed.
End match_properties.
