(* ===== verification/Liquidator.v ===== *)
(** handlers/liquidator.rs: settling matured loans and liquidating the
    under-water ones, with the amount to repay chosen from the keeper's balance. *)

From Stdlib Require Import ZArith Lia SpecFloat.
From stdpp Require Import gmap strings list pretty.
From S2P Require Import Prelude Solana State Effects Logic Rpc Util ChainReader BankRegistry Config SwbCranker Handlers Promoter.

Local Open Scope crank_scope.

(** ** Definitions *)

Definition liquidator_set : KeySet Pubkey := {|
  ks_get := if_liquidator;
  ks_put s i := mkInflight (if_promoter i) s (if_claimer i) (if_curator i) (if_match i);
  ks_get_put _ _ := eq_refl;
  ks_put_get i := match i with mkInflight _ _ _ _ _ => eq_refl end;
  ks_put_put _ _ _ := eq_refl |}.

Definition REPAY_FULL : Z := 0.
Definition STATIC_LTV_PREFILTER_BPS : Z := 10500.

(** *** The static ratio, in binary64 *)

(** [z as f64], rounded to nearest even. *)
Definition f64_of_int (z : Z) : spec_float := binary_normalize 53 1024 z 0 false.

(** Rust's saturating [x as u32], which truncates toward zero. *)
Definition f64_as_u32 (x : spec_float) : Z :=
  match x with
  | S754_finite s m e =>
      let v := (if 0 <=? e then Z.pos m * 2 ^ e else Z.pos m / 2 ^ (- e))%Z in
      if s then 0%Z else Z.min v U32_MAX
  | S754_infinity false => U32_MAX
  | _ => 0%Z
  end.

(** [x.clamp(lo, hi)]. *)
Definition f64_clamp (x lo hi : spec_float) : spec_float :=
  if SFltb x lo then lo else if SFltb hi x then hi else x.

Definition static_accrued_ratio_bps (outstanding principal : Z) : Z :=
  if (principal =? 0)%Z then 0%Z
  else
    let ratio := SFmul 53 1024 (SFdiv 53 1024 (f64_of_int outstanding) (f64_of_int principal))
                   (f64_of_int 10000) in
    f64_as_u32 (f64_clamp ratio (S754_zero false) (f64_of_int U32_MAX)).

(** *** Eligibility *)

(** [extra_buffer] is [as_secs() as i64]; the sum with the grace period wraps in
    a release build. *)
Definition effective_grace (grace_period_seconds : Z) (buffer : Duration) : Z :=
  i64_wrap_add grace_period_seconds (to_signed 64 (as_secs buffer)).

Section liquidator.
Context {X : Type} `{!Env X} {CR : Crates} {YD : YDelta}.
Implicit Types ctx : HandlerContext.

Definition is_matured (grace t_now : Z) (loan : LoanView) : bool :=
  (t_now >=? i64_sat_add (lv_matures_at_unix loan) grace)%Z.

Definition maybe_ltv_breach (loan : LoanView) : bool :=
  if LoanView_is_p2pool loan then true
  else (static_accrued_ratio_bps (lv_outstanding_debt_atoms loan) (lv_principal_debt_atoms loan)
        >=? STATIC_LTV_PREFILTER_BPS)%Z.

(** *** Amounts *)

Definition outstanding_est (loan : LoanView) : Z :=
  if LoanView_is_p2pool loan
  then Z.max (lv_outstanding_debt_atoms loan) (lv_principal_debt_atoms loan)
  else lv_outstanding_debt_atoms loan.

Definition full_required (loan : LoanView) : Z :=
  if LoanView_is_p2pool loan then p2pool_full_repay_staged_atoms (outstanding_est loan)
  else outstanding_est loan.

(** The amount for a balance: the pure end of [pick_repay_amount]. *)
Definition repay_for_balance (loan : LoanView) (ata_balance : Z) : option Z :=
  if (ata_balance >=? full_required loan)%Z then Some REPAY_FULL
  else if (ata_balance <? min_partial_repay_atoms (outstanding_est loan))%Z then None
  else Some (Z.min ata_balance (u64_sat_sub (outstanding_est loan) 1)).

Definition pick_repay_amount (liquidator_debt_ata : Pubkey) (loan : LoanView) : M X (option Z) :=
  let! acct := get_account_data liquidator_debt_ata in
  match acct with
  | None => ret None
  | Some d =>
      let! ata_balance := lift (o_of_option ["ATA data too small"] (spl_token_amount d)) in
      ret (repay_for_balance loan ata_balance)
  end.

Definition expected_bonus (market : MarketView) (loan : LoanView) : Z :=
  if (mv_liquidation_keeper_bps market >? 0)%Z
  then (u128_sat_mul (lv_outstanding_debt_atoms loan) (mv_liquidation_keeper_bps market) / 10000)%Z
  else lv_outstanding_debt_atoms loan.

(** *** Instructions *)

Definition bank_pair (banks : BankRegistry) (debt_mint collateral_mint : Pubkey) :
  outcome (BankInfo * BankInfo) :=
  let? debt_bank := o_of_option ["no BANKS config for debt mint " +:+ show_pk debt_mint]
                      (registry_get banks debt_mint) in
  let? collateral_bank := o_of_option
    ["no BANKS config for collateral mint " +:+ show_pk collateral_mint]
    (registry_get banks collateral_mint) in
  Ok (debt_bank, collateral_bank).

Definition swb_bundle ctx (collateral_bank : BankInfo) : M X Bundle :=
  if negb (is_switchboard_pull collateral_bank) then ret ([], [])
  else
    match ctx_swb_cranker ctx with
    | None => ret ([], [])
    | Some cranker =>
        let! r := attempt (fetch_update_ixs cranker [primary_oracle collateral_bank]) in
        ret (match r with inr bundle => bundle | inl _ => ([], []) end)
    end.

Definition lender_vault (loan : LoanView) : option Pubkey :=
  if LoanView_is_p2pool loan then None else Some (lv_lender_global_vault loan).

Definition settle_ix ctx (market : MarketView) (loan : LoanView) (debt_bank collateral_bank : BankInfo)
  (repay_atoms_max : Z) : Instruction :=
  let payer_pk := keypair_pubkey (sg_fee_payer (ctx_signers ctx)) in
  settle_matured_loan_instruction (mv_address market) payer_pk (lv_matched_loan_sequence loan)
    (mv_debt_mint market) (mv_collateral_mint market)
    (ata_for debt_bank payer_pk) (ata_for collateral_bank payer_pk)
    (bi_bank debt_bank) (bi_bank collateral_bank)
    (bi_liquidity_vault debt_bank) (bi_liquidity_vault collateral_bank)
    (bi_liquidity_vault_authority collateral_bank)
    (bi_oracles debt_bank) (bi_oracles collateral_bank) (bi_token_program debt_bank)
    (cfg_marginfi_group (ctx_cfg ctx)) (cfg_marginfi_program_id (ctx_cfg ctx))
    repay_atoms_max payer_pk (lender_vault loan).

Definition liquidate_ix ctx (market : MarketView) (loan : LoanView)
  (debt_bank collateral_bank : BankInfo) (repay_atoms_max : Z) : Instruction :=
  let payer_pk := keypair_pubkey (sg_fee_payer (ctx_signers ctx)) in
  liquidate_loan_instruction (mv_address market) payer_pk (lv_matched_loan_sequence loan)
    (mv_debt_mint market) (mv_collateral_mint market)
    (ata_for debt_bank payer_pk) (ata_for collateral_bank payer_pk)
    (bi_bank debt_bank) (bi_bank collateral_bank)
    (bi_liquidity_vault debt_bank) (bi_liquidity_vault collateral_bank)
    (bi_liquidity_vault_authority collateral_bank)
    (bi_oracles debt_bank) (bi_oracles collateral_bank) (bi_token_program debt_bank)
    (cfg_marginfi_group (ctx_cfg ctx)) (cfg_marginfi_program_id (ctx_cfg ctx))
    repay_atoms_max payer_pk (lender_vault loan).

(** *** The two actions *)

Definition try_settle_matured ctx (market : MarketView) (loan : LoanView) : M X bool :=
  let! banks := banks_snapshot in
  let! (debt_bank, collateral_bank) :=
    lift (bank_pair banks (mv_debt_mint market) (mv_collateral_mint market)) in
  let fee_payer := sg_fee_payer (ctx_signers ctx) in
  let payer_pk := keypair_pubkey fee_payer in
  let! (swb_ixs, swb_luts) := swb_bundle ctx collateral_bank in
  let sim_ix := check_maturity_liquidatable_instruction (mv_address market) payer_pk
                  (lv_matched_loan_sequence loan) (bi_bank debt_bank)
                  (cfg_marginfi_program_id (ctx_cfg ctx)) in
  let! sim := simulate_v0 (swb_ixs ++ [sim_ix]) swb_luts payer_pk in
  if negb (sim_ok sim) then ret false
  else
    let! repay := pick_repay_amount (ata_for debt_bank payer_pk) loan in
    match repay with
    | None => ret false
    | Some repay_atoms_max =>
        let real_bundle := swb_ixs ++
          [settle_ix ctx market loan debt_bank collateral_bank repay_atoms_max] in
        let! confirm := simulate_v0 real_bundle swb_luts payer_pk in
        if negb (sim_ok confirm) then ret false
        else
          let! sig := send_signed_v0_labeled (ctx_rpc ctx) "settle_matured_loan" real_bundle
                        swb_luts [fee_payer] in
          ret true
    end.

Definition try_liquidate_ltv ctx (market : MarketView) (loan : LoanView) : M X bool :=
  let! banks := banks_snapshot in
  let! (debt_bank, collateral_bank) :=
    lift (bank_pair banks (mv_debt_mint market) (mv_collateral_mint market)) in
  let fee_payer := sg_fee_payer (ctx_signers ctx) in
  let payer_pk := keypair_pubkey fee_payer in
  let! (swb_ixs, swb_luts) := swb_bundle ctx collateral_bank in
  let sim_ix := check_ltv_liquidatable_instruction (mv_address market) payer_pk
                  (lv_matched_loan_sequence loan) (bi_bank debt_bank) (bi_bank collateral_bank)
                  (bi_oracles debt_bank) (bi_oracles collateral_bank)
                  (cfg_marginfi_program_id (ctx_cfg ctx)) in
  let! sim := simulate_v0 (swb_ixs ++ [sim_ix]) swb_luts payer_pk in
  if negb (sim_ok sim) then ret false
  else if (expected_bonus market loan
           <? min_liquidation_profit_atoms (cfg_thresholds (ctx_cfg ctx)))%Z then ret false
  else
    let! repay := pick_repay_amount (ata_for debt_bank payer_pk) loan in
    match repay with
    | None => ret false
    | Some repay_atoms_max =>
        let real_bundle := swb_ixs ++
          [liquidate_ix ctx market loan debt_bank collateral_bank repay_atoms_max] in
        let! confirm := simulate_v0 real_bundle swb_luts payer_pk in
        if negb (sim_ok confirm) then ret false
        else
          let! sig := send_signed_v0_labeled (ctx_rpc ctx) "liquidate_loan" real_bundle
                        swb_luts [fee_payer] in
          ret true
    end.

Definition try_settle_or_liquidate ctx (market : MarketView) (loan : LoanView)
  (matured ltv : bool) : M X bool :=
  if ltv then
    let! liquidated := try_liquidate_ltv ctx market loan in
    if liquidated : bool then ret true
    else if matured then try_settle_matured ctx market loan
    else ret false
  else if matured then try_settle_matured ctx market loan
  else ret false.

(** *** The walk *)

(** One eligible loan under its in-flight claim. *)
Definition act_on_loan ctx (market : MarketView) (count : nat) (loan : LoanView)
  (matured ltv : bool) : M X nat :=
  let! fresh := set_insert liquidator_set (lv_address loan) in
  if negb fresh then ret count
  else
    let! res := attempt (try_settle_or_liquidate ctx market loan matured ltv) in
    set_remove liquidator_set (lv_address loan) ;;
    ret (match res with inr true => S count | _ => count end).

Definition scan_loan ctx (market : MarketView) (t_now : Z) (count : nat) (loan : LoanView) :
  M X nat :=
  let grace := effective_grace (mv_grace_period_seconds market)
                 (maturity_extra_buffer (cfg_thresholds (ctx_cfg ctx))) in
  if (negb (lv_state loan =? LoanState_Active) || (lv_outstanding_debt_atoms loan =? 0))%Z
  then ret count
  else
    let matured := is_matured grace t_now loan in
    let ltv := maybe_ltv_breach loan in
    if (negb matured && negb ltv)%bool then ret count
    else act_on_loan ctx market count loan matured ltv.

Definition scan_loans ctx (market : MarketView) (t_now : Z) (loans : list LoanView) : M X nat :=
  for_fold loans 0%nat (scan_loan ctx market t_now).

Definition scan_market ctx (market : MarketView) : M X nat :=
  let! loans := list_loans_for_market (ctx_chain ctx) (mv_address market) in
  let! t_now := now_unix in
  scan_loans ctx market t_now loans.

Definition liquidate_markets ctx (markets : list MarketView) : M X nat :=
  for_fold markets 0%nat (fun total market =>
    if mv_is_paused market then ret total
    else
      let! r := attempt (scan_market ctx market) in
      ret (match r with inr n => (total + n)%nat | inl _ => total end)).

Definition liquidator_tick ctx : M X unit :=
  let! markets := list_markets (ctx_chain ctx) in
  let! total := liquidate_markets ctx markets in
  ret tt.
End liquidator.

(** Evaluations of the three unit tests beside the code. *)
Example fresh_loan_skips_prefilter :
  (static_accrued_ratio_bps 1000000 1000000 <? STATIC_LTV_PREFILTER_BPS)%Z = true.
Proof. reflexivity. Qed.
Example ratio_at_105_percent_meets_threshold :
  (static_accrued_ratio_bps 1050000 1000000 >=? STATIC_LTV_PREFILTER_BPS)%Z = true.
Proof. reflexivity. Qed.
Example ratio_zero_principal_safe : static_accrued_ratio_bps 100 0 = 0%Z.
Proof. reflexivity. Qed.

(** ** Lemmas *)

Section liquidator_laws.
Context {X : Type} `{!Env X} {CR : Crates} {YD : YDelta}.
Implicit Types ctx : HandlerContext.

Lemma quiet_swb_bundle ctx c : keeps quiet_run (swb_bundle ctx c).
Proof. unfold swb_bundle. keeps_go. Qed.

Lemma quiet_now_unix : keeps quiet_run (@now_unix X _).
Proof. unfold now_unix. keeps_go. Qed.

Lemma quiet_pick_repay ata loan : keeps quiet_run (@pick_repay_amount X _ _ ata loan).
Proof. unfold pick_repay_amount. keeps_go. Qed.

(** The node shows a token account with a balance: eight bytes at offset 64. *)
Definition shows_balance (ata : Pubkey) (balance : Z) : Prop :=
  exists x acct, (cl_get_account ata x).1 = inr acct /\ (72 <= length (acct_data acct))%nat /\
    le_Z (take 8 (drop 64 (acct_data acct))) = balance.

(** What the node shows of the keeper's token account decides the amount. *)
Definition repay_choice (ata : Pubkey) (loan : LoanView) (o : option Z) : Prop :=
  forall repay, o = Some repay -> exists balance, shows_balance ata balance /\
    repay_for_balance loan balance = Some repay.

Lemma pick_repay_choice R `{!Composable R} ata loan (w : World X) :
  keeps R (@pick_repay_amount X _ _ ata loan) ->
  wp (pick_repay_amount ata loan) (fun tr r w' => R w tr (is_panic r) w' /\
    match r with Ok o => repay_choice ata loan o | _ => True end) w.
Proof.
  intros HR. apply wp_and; [apply HR|].
  unfold pick_repay_amount, get_account_data, get_account, read_call. wp_step. wp_step. wp_step.
  destruct a as [e|acct].
  { destruct (str_contains _ _); wp_step; [|done]. by wp_step. }
  destruct (decide (acct_data acct = [])); wp_step; [by wp_step|]. wp_step. wp_step.
  destruct (spl_token_amount (acct_data acct)) as [b|] eqn:Hb; cbn [o_of_option]; [|done].
  wp_step. intros repay Hr. exists b. split; [|done]. exists (ext w), acct. rewrite H.
  split; [done|]. unfold spl_token_amount, get_range in Hb. case_decide as Hl; [|done].
  injection Hb as <-. split; [lia|done].
Qed.
End liquidator_laws.
#[export] Hint Resolve quiet_swb_bundle quiet_now_unix quiet_pick_repay : crank.

Section liquidator_gating.
Context {X : Type} `{!Env X} {CR : Crates} {YD : YDelta}.
Implicit Types ctx : HandlerContext.

(** The confirming simulation and the submission of one bundle. *)
Lemma confirm_send_gated rpc label bundle luts kp :
  keeps (on_trace (gated rpc))
    (let! confirm := @simulate_v0 X _ _ bundle luts (keypair_pubkey kp) in
     if negb (sim_ok confirm) then ret false
     else let! sig := send_signed_v0_labeled rpc label bundle luts [kp] in ret true).
Proof.
  apply gated_after_sim.
  - intros sim ->. cbn [negb]. keeps_go.
  - intros sim m Hp Hi Hl. keeps_go. by apply backed_send_v0.
Qed.

Lemma settle_gated ctx market loan :
  keeps (on_trace (gated (ctx_rpc ctx))) (try_settle_matured ctx market loan).
Proof.
  unfold try_settle_matured. keeps_to_sim. apply keeps_bind; [apply _|eauto with crank|].
  intros sim. keeps_to_sim. apply confirm_send_gated.
Qed.

Lemma liquidate_gated ctx market loan :
  keeps (on_trace (gated (ctx_rpc ctx))) (try_liquidate_ltv ctx market loan).
Proof.
  unfold try_liquidate_ltv. keeps_to_sim. apply keeps_bind; [apply _|eauto with crank|].
  intros sim. keeps_to_sim. apply confirm_send_gated.
Qed.

Lemma settle_inflight ctx market loan : keeps same_inflight (try_settle_matured ctx market loan).
Proof. unfold try_settle_matured. keeps_go. Qed.

Lemma liquidate_inflight ctx market loan : keeps same_inflight (try_liquidate_ltv ctx market loan).
Proof. unfold try_liquidate_ltv. keeps_go. Qed.

Lemma act_gated ctx market count loan matured ltv :
  keeps (on_trace (gated (ctx_rpc ctx))) (act_on_loan ctx market count loan matured ltv).
Proof.
  apply trace_claim_release; [apply _|keeps_go| |intros; keeps_go].
  unfold try_settle_or_liquidate. keeps_go; auto using settle_gated, liquidate_gated.
Qed.

Lemma act_inflight ctx market count loan matured ltv :
  keeps same_inflight (act_on_loan ctx market count loan matured ltv).
Proof.
  apply keeps_claim_release; [keeps_go| |intros; keeps_go].
  unfold try_settle_or_liquidate. keeps_go; auto using settle_inflight, liquidate_inflight.
Qed.

Lemma liquidator_tick_gated ctx : keeps (on_trace (gated (ctx_rpc ctx))) (liquidator_tick ctx).
Proof.
  unfold liquidator_tick, liquidate_markets, scan_market, scan_loans, scan_loan.
  keeps_go. apply act_gated.
Qed.

Lemma liquidator_tick_inflight ctx : keeps same_inflight (liquidator_tick ctx).
Proof.
  unfold liquidator_tick, liquidate_markets, scan_market, scan_loans, scan_loan.
  keeps_go. apply act_inflight.
Qed.

Definition LiquidatorHandler : Handler X := {|
  h_name := "liquidator"; h_requires_fee_payer := true; h_tick := liquidator_tick;
  h_inflight := liquidator_tick_inflight; h_gated _ := liquidator_tick_gated |}.

(** *** What may be sent *)

(** The accounts of a settlement or a liquidation, in the order of their common builder:
    the market and the loan's sequence, the keeper's two token accounts, then what the two
    banks are made of, the marginfi accounts, the amount, and the lender's vault, which a
    P2Pool loan does not have. *)
Definition keeper_ix (build : Pubkey -> Pubkey -> Z -> Pubkey -> Pubkey -> Pubkey -> Pubkey ->
    Pubkey -> Pubkey -> Pubkey -> Pubkey -> Pubkey -> list Pubkey -> list Pubkey -> Pubkey ->
    Pubkey -> Pubkey -> Z -> Pubkey -> option Pubkey -> Instruction)
  ctx (market : MarketView) (loan : LoanView) (debt collateral : BankInfo) (repay : Z) : Instruction :=
  let keeper := keypair_pubkey (sg_fee_payer (ctx_signers ctx)) in
  build (mv_address market) keeper (lv_matched_loan_sequence loan)
    (mv_debt_mint market) (mv_collateral_mint market)
    (ata_address keeper (bi_token_program debt) (bi_mint debt))
    (ata_address keeper (bi_token_program collateral) (bi_mint collateral))
    (bi_bank debt) (bi_bank collateral)
    (bi_liquidity_vault debt) (bi_liquidity_vault collateral)
    (bi_liquidity_vault_authority collateral) (bi_oracles debt) (bi_oracles collateral)
    (bi_token_program debt) (cfg_marginfi_group (ctx_cfg ctx))
    (cfg_marginfi_program_id (ctx_cfg ctx)) repay keeper
    (if decide (lv_loan_type loan = LoanType_P2Pool) then None else Some (lv_lender_global_vault loan)).

(** A keeper transaction: a gateway bundle, then the one instruction, for the banks that a
    registry in [Reg] has for the market's two mints, with an amount that a balance the node
    shows of the keeper's account for the debt mint justifies. *)
Definition keeper_tx build (Reg : BankRegistry -> Prop) ctx (market : MarketView) (loan : LoanView)
  (tx : Transaction) : Prop :=
  let keeper := keypair_pubkey (sg_fee_payer (ctx_signers ctx)) in
  exists banks debt collateral balance repay swb_ixs luts,
    Reg banks /\ by_mint banks !! mv_debt_mint market = Some debt /\
    by_mint banks !! mv_collateral_mint market = Some collateral /\
    shows_balance (ata_address keeper (bi_token_program debt) (bi_mint debt)) balance /\
    repay_for_balance loan balance = Some repay /\
    carries keeper
      (priority_fee_preamble (ctx_rpc ctx) V0_COMPUTE_UNIT_LIMIT ++
       (swb_ixs ++ [keeper_ix build ctx market loan debt collateral repay])) luts tx.

Definition settle_tx := keeper_tx settle_matured_loan_instruction.
Definition liquidate_tx := keeper_tx liquidate_loan_instruction.

Lemma settle_ix_keeper ctx market loan debt collateral repay :
  settle_ix ctx market loan debt collateral repay =
  keeper_ix settle_matured_loan_instruction ctx market loan debt collateral repay.
Proof.
  unfold settle_ix, keeper_ix, lender_vault, LoanView_is_p2pool.
  destruct (Z.eqb_spec (lv_loan_type loan) LoanType_P2Pool); by case_decide.
Qed.

Lemma liquidate_ix_keeper ctx market loan debt collateral repay :
  liquidate_ix ctx market loan debt collateral repay =
  keeper_ix liquidate_loan_instruction ctx market loan debt collateral repay.
Proof.
  unfold liquidate_ix, keeper_ix, lender_vault, LoanView_is_p2pool.
  destruct (Z.eqb_spec (lv_loan_type loan) LoanType_P2Pool); by case_decide.
Qed.

(** Picking the amount, then confirming and sending: only [keeper_tx]s. *)
Lemma pick_confirm_sends build Reg ctx market loan banks label mk debt collateral swb_ixs luts :
  Reg banks -> bank_pair banks (mv_debt_mint market) (mv_collateral_mint market) = Ok (debt, collateral) ->
  (forall repay, mk repay = keeper_ix build ctx market loan debt collateral repay) ->
  keeps (sends (keeper_tx build Reg ctx market loan))
    (let! repay := @pick_repay_amount X _ _
       (ata_for debt (keypair_pubkey (sg_fee_payer (ctx_signers ctx)))) loan in
     match repay with
     | None => ret false
     | Some repay_atoms_max =>
         let real_bundle := swb_ixs ++ [mk repay_atoms_max] in
         let! confirm := simulate_v0 real_bundle luts (keypair_pubkey (sg_fee_payer (ctx_signers ctx))) in
         if negb (sim_ok confirm) then ret false
         else
           let! sig := send_signed_v0_labeled (ctx_rpc ctx) label real_bundle luts
                         [sg_fee_payer (ctx_signers ctx)] in
           ret true
     end).
Proof.
  intros HReg Hbanks Hmk. unfold bank_pair, registry_get in Hbanks.
  destruct (by_mint banks !! mv_debt_mint market) as [db|] eqn:Hdb; [|done]. cbn in Hbanks.
  destruct (by_mint banks !! mv_collateral_mint market) as [cb|] eqn:Hcb; [|done].
  injection Hbanks as -> ->.
  apply (keeps_bind_val _ (repay_choice (ata_for debt
    (keypair_pubkey (sg_fee_payer (ctx_signers ctx)))) loan)).
  { intros w. apply pick_repay_choice; [apply _|]. eauto with crank. }
  intros [repay|] Ho; [|keeps_go]. cbv zeta. keeps_go. apply sends_v0. intros tx Htx.
  destruct (Ho repay eq_refl) as (bal & Hb & Hr). rewrite Hmk in Htx.
  exists banks, debt, collateral, bal, repay, swb_ixs, luts. by split_and!.
Qed.

(** What an action may send, when the registry it finds is in [Reg]. *)
Lemma settle_sends_at Reg ctx market loan (w : World X) :
  Reg (sh_banks (interfere (ext w) (shared w)).2) ->
  wp (try_settle_matured ctx market loan) (fun tr r w' =>
    sends (settle_tx Reg ctx market loan) w tr (is_panic r) w') w.
Proof.
  intros HReg. unfold try_settle_matured, banks_snapshot. wp_step. wp_step. rewrite H in HReg.
  cbn [fst snd app] in *. clear H. revert HReg. generalize (sh_banks s'). intros banks HReg.
  refine ((_ : keeps (sends (settle_tx Reg ctx market loan)) _) _).
  apply keeps_bind_lift; [apply _|]. intros [debt collateral] Hb. cbv zeta. keeps_to_sim.
  apply keeps_bind; [apply _|eauto with crank|].
  intros sim. destruct (negb (sim_ok sim)); [keeps_go|].
  eapply pick_confirm_sends; [done|done|]. apply settle_ix_keeper.
Qed.

Lemma liquidate_sends_at Reg ctx market loan (w : World X) :
  Reg (sh_banks (interfere (ext w) (shared w)).2) ->
  wp (try_liquidate_ltv ctx market loan) (fun tr r w' =>
    sends (fun tx => (min_liquidation_profit_atoms (cfg_thresholds (ctx_cfg ctx))
        <= expected_bonus market loan)%Z /\ liquidate_tx Reg ctx market loan tx)
      w tr (is_panic r) w') w.
Proof.
  intros HReg. unfold try_liquidate_ltv, banks_snapshot. wp_step. wp_step. rewrite H in HReg.
  cbn [fst snd app] in *. clear H. revert HReg. generalize (sh_banks s'). intros banks HReg.
  refine ((_ : keeps (sends (fun tx => (min_liquidation_profit_atoms (cfg_thresholds (ctx_cfg ctx))
        <= expected_bonus market loan)%Z /\ liquidate_tx Reg ctx market loan tx)) _) _).
  apply keeps_bind_lift; [apply _|]. intros [debt collateral] Hb. cbv zeta. keeps_to_sim.
  apply keeps_bind; [apply _|eauto with crank|].
  intros sim. destruct (negb (sim_ok sim)); [keeps_go|].
  destruct (_ <? _)%Z eqn:Hbonus; [keeps_go|]. zbool.
  eapply sends_mono; [|eapply pick_confirm_sends; [done|done|apply liquidate_ix_keeper]].
  by intros tx Htx.
Qed.

End liquidator_gating.

(** *** binary64 *)

Lemma Zpos_digits2 p : Z.pos (digits2_pos p) = (Z.log2 (Z.pos p) + 1)%Z.
Proof.
  induction p as [p IH|p IH|]; cbn [digits2_pos]; [..|done].
  - rewrite Pos2Z.inj_succ, IH. change (Z.pos p~1) with (2 * Z.pos p + 1)%Z.
    rewrite Z.log2_succ_double by lia. lia.
  - rewrite Pos2Z.inj_succ, IH. change (Z.pos p~0) with (2 * Z.pos p)%Z.
    rewrite Z.log2_double by lia. lia.
Qed.

Lemma digits2_iter p k : Z.pos (digits2_pos (Pos.iter xO p k)) = (Z.pos (digits2_pos p) + Z.pos k)%Z.
Proof.
  induction k as [|k IH] using Pos.peano_ind; [cbn; lia|].
  rewrite Pos.iter_succ. cbn [digits2_pos]. rewrite Pos2Z.inj_succ, IH. lia.
Qed.

(** A shift by nothing. *)
Lemma shr_fexp_id mz ez :
  Z.pos (digits2_pos mz) = 53%Z -> (-1074 <= ez)%Z ->
  shr_fexp 53 1024 (Z.pos mz) ez loc_Exact = (Build_shr_record (Z.pos mz) false false, ez).
Proof.
  intros Hd He. unfold shr_fexp, fexp, emin. cbn [Zdigits2]. rewrite Hd.
  replace (Z.max (53 + ez - 53) (3 - 1024 - 53) - ez)%Z with 0%Z by lia. done.
Qed.

(** Every positive integer below 2^53 is a positive finite binary64 number. *)
Lemma f64_of_int_finite z :
  (0 < z < 2 ^ 53)%Z -> exists m e, f64_of_int z = S754_finite false m e.
Proof.
  intros Hz. destruct z as [|p|p]; [lia| |lia]. unfold f64_of_int, binary_normalize, binary_round.
  pose proof (Zpos_digits2 p) as Hd. set (d := Z.pos (digits2_pos p)) in *.
  assert (Hlog : (0 <= Z.log2 (Z.pos p) <= 52)%Z).
  { split; [apply Z.log2_nonneg|]. destruct Hz as [Hz1 Hz2].
    apply Z.log2_lt_pow2 in Hz2; lia. }
  unfold fexp, emin. replace (Z.max (d + 0 - 53) (3 - 1024 - 53))%Z with (d - 53)%Z by lia.
  assert (Hfin : forall mz ez, Z.pos (digits2_pos mz) = 53%Z -> (-1074 <= ez <= 0)%Z ->
    exists m e, binary_round_aux 53 1024 false (Z.pos mz) ez loc_Exact = S754_finite false m e).
  { intros mz ez Hm He. unfold binary_round_aux. rewrite shr_fexp_id by (done || lia).
    cbn [loc_of_shr_record round_nearest_even shr_m]. rewrite shr_fexp_id by (done || lia).
    cbn [shr_m]. assert (Hle : (ez <=? 1024 - 53)%Z = true) by (apply Z.leb_le; lia).
    rewrite Hle. eauto. }
  unfold shl_align. rewrite Z.sub_0_r. destruct (d - 53)%Z as [|k|k] eqn:Hk.
  - apply Hfin; lia.
  - lia.
  - apply Hfin; [|lia]. rewrite digits2_iter. fold d. lia.
Qed.

(** A positive finite number over itself is one. *)
Lemma SFdiv_self m e :
  SFdiv 53 1024 (S754_finite false m e) (S754_finite false m e) = f64_of_int 1.
Proof.
  unfold SFdiv, SFdiv_core_binary. rewrite !Z.sub_diag.
  change (Z.min (fexp 53 1024 0) 0) with (-53)%Z. change (0 - -53)%Z with 53%Z. cbn iota.
  assert (Hq : Z.div_eucl (Z.shiftl (Z.pos m) 53) (Z.pos m) = (2 ^ 53, 0)%Z).
  { rewrite Z.shiftl_mul_pow2 by lia.
    pose proof (Z.div_mul (2 ^ 53) (Z.pos m) ltac:(lia)) as H1.
    pose proof (Z.mod_mul (2 ^ 53) (Z.pos m) ltac:(lia)) as H2.
    unfold Z.div, Z.modulo in H1, H2. rewrite Z.mul_comm in H1, H2.
    destruct (Z.div_eucl _ _). by subst. }
  rewrite Hq. unfold new_location, new_location_even, new_location_odd.
  destruct (Z.even (Z.pos m)); reflexivity.
Qed.

Lemma static_ratio_self p :
  (0 < p < 2 ^ 53)%Z -> static_accrued_ratio_bps p p = 10000%Z.
Proof.
  intros Hp. unfold static_accrued_ratio_bps. destruct (Z.eqb_spec p 0); [lia|].
  destruct (f64_of_int_finite p Hp) as (m & e & ->). rewrite SFdiv_self. reflexivity.
Qed.

Lemma f64_as_u32_range x : is_u32 (f64_as_u32 x).
Proof.
  unfold is_u32. destruct x as [s|[]| |[] m e]; cbn; try (unfold U32_MAX; lia).
  assert (0 <= if 0 <=? e then Z.pos m * 2 ^ e else Z.pos m / 2 ^ (- e))%Z.
  { destruct (Z.leb_spec 0 e); [|apply Z.div_pos; [lia|]; apply Z.pow_pos_nonneg; lia].
    apply Z.mul_nonneg_nonneg; [lia|]. apply Z.pow_nonneg. lia. }
  unfold U32_MAX. lia.
Qed.

(** ** Properties *)

(** The static prefilter ratio: zero when there is no principal, always a [u32], and
    exactly 10000 for a loan that still owes its principal (below 2^53 atoms), so that a
    fresh fixed loan is never taken for a breached one. *)
Theorem static_accrued_ratio_spec outstanding principal :
  static_accrued_ratio_bps outstanding 0 = 0%Z /\
  is_u32 (static_accrued_ratio_bps outstanding principal) /\
  ((0 < principal < 2 ^ 53)%Z ->
   static_accrued_ratio_bps principal principal = 10000%Z /\
   (static_accrued_ratio_bps principal principal < STATIC_LTV_PREFILTER_BPS)%Z).
Proof.
  split_and!; [done| |].
  - unfold static_accrued_ratio_bps. destruct (_ =? _)%Z; [unfold is_u32, U32_MAX; lia|].
    apply f64_as_u32_range.
  - intros Hp. rewrite static_ratio_self by done. done.
Qed.

Section liquidator_properties.
Context {X : Type} `{!Env X} {CR : Crates} {YD : YDelta}.
Implicit Types ctx : HandlerContext.

Lemma settle_step ctx market loan : is_step (try_settle_matured ctx market loan).
Proof. unfold try_settle_matured. step_go. Qed.

Lemma liquidate_step ctx market loan : is_step (try_liquidate_ltv ctx market loan).
Proof. unfold try_liquidate_ltv. step_go. Qed.

(** C9. The amount to repay, on every branch: everything exactly when the balance covers
    the full requirement (for a P2Pool loan the over-staged one); nothing exactly when it
    covers neither that nor the partial floor; otherwise the largest partial amount,
    positive, within the balance and strictly below the outstanding estimate, and for a
    fixed loan never below the floor. *)
Theorem repay_for_balance_spec (loan : LoanView) (balance : Z) :
  is_u64 (lv_outstanding_debt_atoms loan) -> is_u64 (lv_principal_debt_atoms loan) ->
  is_u64 balance -> lv_outstanding_debt_atoms loan <> 0%Z ->
  let est := outstanding_est loan in
  let floor := min_partial_repay_atoms est in
  (repay_for_balance loan balance = Some REPAY_FULL <-> (full_required loan <= balance)%Z) /\
  (repay_for_balance loan balance = None <-> (balance < full_required loan /\ balance < floor)%Z) /\
  (forall r, repay_for_balance loan balance = Some r -> r <> REPAY_FULL ->
     r = Z.min balance (est - 1) /\ (0 < r <= balance)%Z /\ (r < est)%Z /\
     (LoanView_is_p2pool loan = false -> (floor <= r)%Z)).
Proof.
  intros Ho Hp Hb Hne est floor. unfold repay_for_balance. fold est. fold floor.
  rewrite Z.geb_leb. unfold REPAY_FULL.
  assert (Hf : floor = Z.max (est / 100) 1000) by done.
  assert (Hest : (1 <= est)%Z /\ (est <= full_required loan)%Z /\ is_u64 est /\
    (LoanView_is_p2pool loan = false -> full_required loan = est) /\
    (full_required loan <= est + est / 50 + 64)%Z).
  { unfold full_required, est, outstanding_est, p2pool_full_repay_staged_atoms.
    destruct (LoanView_is_p2pool loan); split_and!; try done; zlia. }
  destruct Hest as (He1 & He2 & He3 & He4 & He5).
  assert (Hsub : u64_sat_sub est 1 = (est - 1)%Z) by (unfold u64_sat_sub; lia). rewrite Hsub.
  assert (Hpos : (floor <= balance -> balance < full_required loan -> 1 < est)%Z).
  { intros ? ?. Z.div_mod_to_equations. lia. }
  destruct (Z.leb_spec (full_required loan) balance) as [H1|H1].
  { split_and!; [by split|split; [done|lia]|]. intros r [= <-]. done. }
  destruct (Z.ltb_spec balance floor) as [H2|H2].
  { split_and!; [split; [done|lia]|by split|done]. }
  specialize (Hpos H2 H1). split_and!.
  - split; [|lia]. intros [= E]. Z.div_mod_to_equations. lia.
  - split; [done|lia].
  - intros r [= <-] Hr. split_and!; try lia. intros Hfix. specialize (He4 Hfix). lia.
Qed.

(** For a small P2Pool loan the partial amount falls below the program's floor. *)
Lemma p2pool_partial_below_floor : exists (loan : LoanView) balance r,
  LoanView_is_p2pool loan = true /\ repay_for_balance loan balance = Some r /\
  r <> REPAY_FULL /\ (r < min_partial_repay_atoms (outstanding_est loan))%Z.
Proof.
  set (pk := mkPubkey []).
  exists {| lv_address := pk; lv_market := pk; lv_state := 0; lv_loan_type := LoanType_P2Pool;
            lv_principal_debt_atoms := 990; lv_outstanding_debt_atoms := 990;
            lv_matures_at_unix := 0; lv_matched_loan_sequence := 0; lv_lender_kind := 0;
            lv_lender_global_vault := pk; lv_lender_sub_vault_id := 0;
            lv_borrower_rate_bps := 0; lv_lender_rate_bps := 0 |}, 1050%Z, 989%Z.
  unfold repay_for_balance, full_required, outstanding_est, LoanView_is_p2pool. cbn.
  by rewrite Z.eqb_refl.
Qed.

(** C38. Maturity: within the configured ranges no wrap-around occurs, and a loan is
    treated as matured exactly when its maturity, the market's grace period and the extra
    buffer have all passed; the saturating addition never makes one mature early. *)
Theorem is_matured_exact grace_period buffer_secs t_now (loan : LoanView) :
  is_u32 grace_period -> (0 <= buffer_secs <= I64_MAX - U32_MAX)%Z ->
  is_i64 (lv_matures_at_unix loan) -> (t_now < I64_MAX)%Z ->
  is_matured (effective_grace grace_period (from_secs buffer_secs)) t_now loan = true <->
  (lv_matures_at_unix loan + grace_period + buffer_secs <= t_now)%Z.
Proof.
  intros Hg Hb Hm Ht. unfold is_matured, effective_grace, as_secs, from_secs.
  rewrite Z.div_mul by lia.
  assert (Hs : forall z, (0 <= z <= I64_MAX)%Z -> to_signed 64 z = z).
  { intros z Hz. unfold to_signed. unfold I64_MAX in Hz. rewrite Z.mod_small by lia.
    destruct (Z.ltb_spec z (2 ^ (64 - 1))); [done|lia]. }
  unfold is_u32 in Hg. rewrite (Hs buffer_secs) by (unfold U32_MAX in *; lia).
  unfold i64_wrap_add. rewrite Hs by lia. rewrite Z.geb_leb, Z.leb_le. zlia.
Qed.

(** A buffer of 2^64 - 1 seconds is read as minus one. *)
Example huge_buffer_matures_early : effective_grace 0 (from_secs U64_MAX) = (-1)%Z.
Proof. reflexivity. Qed.

(** A liquidator tick, whatever the environment does: every transaction it hands the
    node was accepted by a free simulation of the same instructions first, and the tick
    leaves its in-flight set as it found it; a market that is paused is skipped: walking
    the listed markets is walking the ones that are not. *)
Theorem liquidator_tick_safe ctx markets (w : World X) :
  wp (liquidator_tick ctx) (fun tr r w' => gated (ctx_rpc ctx) tr /\
    (is_panic r = false -> inflight w' = inflight w)) w /\
  liquidate_markets ctx markets w =
    liquidate_markets ctx (List.filter (fun m => negb (mv_is_paused m)) markets) w.
Proof.
  split; [apply wp_and; [apply liquidator_tick_gated|apply liquidator_tick_inflight]|].
  unfold liquidate_markets. generalize 0%nat as n. revert w.
  induction markets as [|m markets IH]; intros w n; [done|]. cbn [for_fold List.filter].
  destruct (mv_is_paused m) eqn:Hp; cbn [negb].
  - apply IH.
  - cbn [for_fold]. rewrite Hp. apply bind_ext. intros a w'. apply IH.
Qed.

(** C10. Acting on one loan: success means a transaction was delivered, a refusal means
    nothing was sent, and over both attempts, liquidation first and settlement only after
    it refused, at most three transactions, resent only safely, are handed to the node. *)
Theorem settle_or_liquidate_outcome ctx market loan matured ltv (w : World X) :
  wp (try_settle_or_liquidate ctx market loan matured ltv) (fun tr r _ => step_post tr r) w.
Proof.
  unfold try_settle_or_liquidate.
  destruct ltv, matured; [apply step_or| | |by apply step_ret_false];
    auto using settle_step, liquidate_step.
  - apply step_or; [apply liquidate_step|apply step_ret_false].
  - apply settle_step.
Qed.
End liquidator_properties.
