(* ===== verification/HealthServer.v ===== *)
(** health_server.rs: the two health routes, from the bytes read off the socket to
    the operations on it, and the accept loop. *)

From Stdlib Require Import ZArith Lia ZifyBool Ascii.
From stdpp Require Import gmap strings list.
From S2P Require Import Prelude Solana State Effects Logic Signer Config.

Local Open Scope crank_scope.

(** ** Definitions *)

(** *** [std::str::from_utf8] *)

(** Continuation bytes. *)
Definition is_cont (b : Z) : bool := ((128 <=? b) && (b <=? 191))%Z.

(** One scalar value and the rest, refusing over-long forms, surrogates and
    values above U+10FFFF. *)
Definition utf8_next (bs : list Z) : option (Z * list Z) :=
  match bs with
  | [] => None
  | a :: r1 =>
      if (a <? 128)%Z then Some (a, r1)
      else
        match r1 with
        | [] => None
        | b :: r2 =>
            if negb (is_cont b) then None
            else if ((194 <=? a) && (a <=? 223))%Z then Some (((a - 192) * 64 + (b - 128))%Z, r2)
            else
              match r2 with
              | [] => None
              | c :: r3 =>
                  if negb (is_cont c) then None
                  else if (((a =? 224) && (160 <=? b)) || ((225 <=? a) && (a <=? 236)) ||
                           ((a =? 237) && (b <=? 159)) || ((238 <=? a) && (a <=? 239)))%Z
                  then Some (((a - 224) * 4096 + (b - 128) * 64 + (c - 128))%Z, r3)
                  else
                    match r3 with
                    | [] => None
                    | d :: r4 =>
                        if negb (is_cont d) then None
                        else if (((a =? 240) && (144 <=? b)) || ((241 <=? a) && (a <=? 243)) ||
                                 ((a =? 244) && (b <=? 143)))%Z
                        then Some (((a - 240) * 262144 + (b - 128) * 4096 + (c - 128) * 64 +
                                    (d - 128))%Z, r4)
                        else None
                    end
              end
        end
  end.

Fixpoint utf8_fuel (fuel : nat) (bs : list Z) : option (list Z) :=
  match fuel, bs with
  | _, [] => Some []
  | O, _ => None
  | S fuel', _ =>
      match utf8_next bs with
      | None => None
      | Some (c, rest) => cs ← utf8_fuel fuel' rest; Some (c :: cs)
      end
  end.
Definition from_utf8 (bs : bytes) : option (list Z) := utf8_fuel (length bs) (map byte_Z bs).

(** *** Reading the request line *)

(** [char::is_whitespace]. *)
Definition is_whitespace (c : Z) : bool :=
  ((9 <=? c) && (c <=? 13) || (c =? 32) || (c =? 133) || (c =? 160) || (c =? 5760) ||
   (8192 <=? c) && (c <=? 8202) || (c =? 8232) || (c =? 8233) || (c =? 8239) || (c =? 8287) ||
   (c =? 12288))%Z.

Fixpoint break_at (stop : Z -> bool) (s : list Z) : list Z * list Z :=
  match s with
  | [] => ([], [])
  | c :: s' => if stop c then ([], s) else let '(h, t) := break_at stop s' in (c :: h, t)
  end.

(** [request.lines().next().unwrap_or("")]. *)
Definition first_line (request : list Z) : list Z :=
  match break_at (Z.eqb 10) request with
  | (line, []) => line
  | (line, _ :: _) =>
      match reverse line with
      | 13%Z :: rest => reverse rest
      | _ => line
      end
  end.

(** [parts.next()] of [split_whitespace], and the rest. *)
Fixpoint skip_whitespace (s : list Z) : list Z :=
  match s with
  | c :: s' => if is_whitespace c then skip_whitespace s' else s
  | [] => []
  end.
Definition next_part (s : list Z) : list Z * list Z := break_at is_whitespace (skip_whitespace s).

(** *** The responses *)

Definition crlf : string := String "013" (String "010" "").
Definition lf : string := String "010" "".

Definition response_of (status length body : string) : string :=
  "HTTP/1.1 " +:+ status +:+ crlf +:+ "Content-Length: " +:+ length +:+ crlf +:+
  "Content-Type: text/plain" +:+ crlf +:+ "Connection: close" +:+ crlf +:+ crlf +:+ body.

Definition RESP_HEALTHY : string := response_of "200 OK" "3" ("ok" +:+ lf).
Definition RESP_READY : string := response_of "200 OK" "6" ("ready" +:+ lf).
Definition RESP_NOT_READY : string := response_of "503 Service Unavailable" "12" ("not ready" +:+ lf).
Definition RESP_NOT_FOUND : string := response_of "404 Not Found" "10" ("not found" +:+ lf).

Definition chars (s : string) : list Z :=
  map (fun c => Z.of_nat (nat_of_ascii c)) (String.list_ascii_of_string s).

(** The reply to the first read of a connection. *)
Definition response_to (read : bytes) (ready : bool) : string :=
  let request := default [] (from_utf8 (take 1024 read)) in
  let '(_, rest) := next_part (first_line request) in
  let '(path, _) := next_part rest in
  if decide (path = chars "/healthz") then RESP_HEALTHY
  else if decide (path = chars "/readyz") then (if ready then RESP_READY else RESP_NOT_READY)
  else RESP_NOT_FOUND.

(** *** A connection *)

(** What the socket answers to the calls on it: bytes or an I/O error, and for the
    last two an error or [None]. *)
Record Socket := {
  sk_read : string + bytes; sk_write_all : option string; sk_shutdown : option string }.

Inductive SocketOp := OpRead | OpWrite (response : string) | OpShutdown.

(** [handle_conn]: the operations on the socket and the result; [ready] is the flag
    at the time it is loaded. *)
Definition handle_conn (sock : Socket) (ready : bool) : list SocketOp * outcome unit :=
  match sk_read sock with
  | inl e => ([OpRead], Err [e])
  | inr [] => ([OpRead], Ok tt)
  | inr read =>
      let response := response_to read ready in
      match sk_write_all sock with
      | Some e => ([OpRead; OpWrite response], Err [e])
      | None =>
          ([OpRead; OpWrite response; OpShutdown],
           match sk_shutdown sock with Some e => Err [e] | None => Ok tt end)
      end
  end.

(** *** The accept loop *)

(** How one [select!] between the accept and its 250 ms ceiling ended. *)
Inductive AcceptEnd (Conn : Type) := Accepted (c : Conn) | AcceptFailed (e : string) | Ceiling.
Arguments Accepted {Conn} c.
Arguments AcceptFailed {Conn} e.
Arguments Ceiling {Conn}.

Section accepting.
Context {X : Type} `{!Env X} {Conn : Type}.

(** The connections handed to a [handle_conn] task, and whether the loop returned,
    over the ends of its rounds. *)
Fixpoint accept_loop (rounds : list (AcceptEnd Conn)) : M X (list Conn * bool) :=
  match rounds with
  | [] => ret ([], false)
  | e :: rest =>
      let! st := load_stop in
      if st : bool then ret ([], true)
      else
        let! (served, returned) := accept_loop rest in
        ret (match e with
             | Accepted c => (c :: served, returned)
             | AcceptFailed _ | Ceiling => (served, returned)
             end)
  end.

(** [spawn]: a bind that fails is only logged, and the process goes on without the
    routes. *)
Definition health_spawn (bind : option string) (rounds : list (AcceptEnd Conn)) :
  M X (list Conn * bool) :=
  match bind with
  | Some _ => ret ([], true)
  | None => accept_loop rounds
  end.
End accepting.

(** ** Lemmas *)

Lemma break_at_app stop a b :
  Forall (fun c => stop c = false) a ->
  match b with c :: _ => stop c = true | [] => True end ->
  break_at stop (a ++ b) = (a, b).
Proof.
  intros Ha Hb. induction Ha as [|c a Hc _ IH]; cbn [app break_at].
  - destruct b as [|c b]; [done|]. cbn [break_at]. by rewrite Hb.
  - by rewrite Hc, IH.
Qed.

(** ASCII text is its own decoding. *)
Lemma utf8_ascii fuel bs rest :
  Forall (fun b => 0 <= b < 128)%Z bs -> (length bs <= fuel)%nat ->
  rest = [] -> utf8_fuel fuel (bs ++ rest) = Some bs.
Proof.
  intros Hb Hf ->. rewrite app_nil_r. revert fuel Hf.
  induction Hb as [|b bs Hb _ IH]; intros fuel Hf; [by destruct fuel|].
  destruct fuel as [|fuel]; [simpl in Hf; lia|]. cbn [utf8_fuel utf8_next].
  destruct (Z.ltb_spec b 128); [|lia]. rewrite IH by (simpl in Hf; lia). done.
Qed.

Lemma from_utf8_ascii (l : list Z) :
  Forall (fun b => 0 <= b < 128)%Z l -> from_utf8 (map Z_byte l) = Some l.
Proof.
  intros Hl. unfold from_utf8. rewrite map_map, length_map.
  assert (Hid : map (fun x => byte_Z (Z_byte x)) l = l).
  { induction Hl as [|b l Hb _ IH]; [done|]. cbn [map]. rewrite IH, byte_Z_Z_byte by lia. done. }
  rewrite Hid. rewrite <-(app_nil_r l) at 2. by apply utf8_ascii.
Qed.

(** The declared length of a response, and the length of its body. *)
Definition declared_length (r : string) : option (string + Z) :=
  match split_at "Content-Length: " r with
  | Some (_, rest) =>
      match split_at crlf rest with Some (n, _) => Some (parse_uint U64_MAX n) | None => None end
  | None => None
  end.
Definition body_length (r : string) : option Z :=
  match split_at (crlf +:+ crlf) r with
  | Some (_, body) => Some (Z.of_nat (String.length body))
  | None => None
  end.

(** The 503 reply declares two bytes more than it sends. *)
Lemma not_ready_length_mismatch :
  declared_length RESP_NOT_READY = Some (inr 12%Z) /\ body_length RESP_NOT_READY = Some 10%Z.
Proof. by vm_compute. Qed.

(** ** Properties *)

(** A printable ASCII token. *)
Definition token (s : list Z) : Prop := s <> [] /\ Forall (fun c => 33 <= c < 127)%Z s.

Lemma token_not_ws s : token s -> Forall (fun c => is_whitespace c = false) s.
Proof.
  intros [_ H]. eapply Forall_impl; [exact H|]. intros c Hc. cbn beta in *. unfold is_whitespace. lia.
Qed.

Lemma next_part_token s rest :
  token s -> match rest with c :: _ => is_whitespace c = true | [] => True end ->
  next_part (s ++ rest) = (s, rest).
Proof.
  intros Hs Hr. unfold next_part. pose proof (token_not_ws s Hs) as Hw. destruct Hs as [Hne _].
  destruct s as [|c s]; [done|]. assert (Hc : is_whitespace c = false) by by inversion Hw.
  cbn [app skip_whitespace]. rewrite Hc.
  change (c :: s ++ rest) with ((c :: s) ++ rest). by apply break_at_app.
Qed.

(** The reply to a request line. *)
Lemma response_of_line (method path rest : list Z) (ready : bool) :
  token method -> token path -> Forall (fun c => 32 <= c < 127)%Z rest ->
  (length (method ++ [32%Z] ++ path ++ [32%Z] ++ rest) <= 1024)%nat ->
  response_to (map Z_byte (method ++ [32%Z] ++ path ++ [32%Z] ++ rest)%Z) ready =
    (if decide (path = chars "/healthz") then RESP_HEALTHY
     else if decide (path = chars "/readyz") then (if ready then RESP_READY else RESP_NOT_READY)
     else RESP_NOT_FOUND).
Proof.
  intros Hm Hp Hr Hlen. set (req := (method ++ [32%Z] ++ path ++ [32%Z] ++ rest)%Z) in *.
  assert (Hasc : Forall (fun c => 32 <= c < 127)%Z req).
  { unfold req. repeat (apply Forall_app_2); try done; try (constructor; [lia|constructor]).
    - destruct Hm as [_ H]. eapply Forall_impl; [exact H|]. simpl. lia.
    - destruct Hp as [_ H]. eapply Forall_impl; [exact H|]. simpl. lia. }
  unfold response_to. rewrite take_ge by (by rewrite length_map).
  rewrite from_utf8_ascii by (eapply Forall_impl; [exact Hasc|]; simpl; lia).
  cbn [default from_option id].
  assert (Hline : first_line req = req).
  { unfold first_line. rewrite <-(app_nil_r req) at 1. rewrite break_at_app; [done| |done].
    eapply Forall_impl; [exact Hasc|]. intros c Hc. cbn beta in *. apply Z.eqb_neq. lia. }
  rewrite Hline. unfold req. rewrite next_part_token by done. cbn [app].
  assert (Hpart : next_part (32%Z :: path ++ 32%Z :: rest) = (path, 32%Z :: rest)).
  { unfold next_part. cbn [skip_whitespace]. change (is_whitespace 32) with true. cbn iota.
    apply (next_part_token path (32%Z :: rest)); done. }
  by rewrite Hpart.
Qed.

(** C40. Routing: for a request line of a method, a path and anything after, in the first
    1024 bytes, liveness always answers 200, readiness answers 200 exactly when the flag is
    set and 503 otherwise, and every other path answers 404; the connection is read once,
    answered once and then shut down, unless the write fails. *)
Theorem health_routes (method path rest : list Z) (ready : bool) (sock : Socket) :
  token method -> token path -> Forall (fun c => 32 <= c < 127)%Z rest ->
  (length (method ++ [32%Z] ++ path ++ [32%Z] ++ rest) <= 1024)%nat ->
  sk_read sock = inr (map Z_byte (method ++ [32%Z] ++ path ++ [32%Z] ++ rest)%Z) ->
  let response := if decide (path = chars "/healthz") then RESP_HEALTHY
     else if decide (path = chars "/readyz") then (if ready then RESP_READY else RESP_NOT_READY)
     else RESP_NOT_FOUND in
  handle_conn sock ready =
    match sk_write_all sock with
    | Some e => ([OpRead; OpWrite response], Err [e])
    | None => ([OpRead; OpWrite response; OpShutdown],
               match sk_shutdown sock with Some e => Err [e] | None => Ok tt end)
    end.
Proof.
  intros Hm Hp Hr Hlen Hread response. set (req := (method ++ [32%Z] ++ path ++ [32%Z] ++ rest)%Z) in *.
  assert (Hresp : response_to (map Z_byte req) ready = response) by by apply response_of_line.
  unfold handle_conn. rewrite Hread, Hresp.
  by destruct (map Z_byte req) as [|x l] eqn:E; [destruct Hm as [Hne _]; by destruct method|].
Qed.

(** Every reply but the 503 one declares the length of the body it carries. *)
Theorem reply_lengths (read : bytes) ready :
  response_to read ready <> RESP_NOT_READY ->
  exists n, declared_length (response_to read ready) = Some (inr n) /\
    body_length (response_to read ready) = Some n.
Proof.
  unfold response_to.
  destruct (next_part _) as [? rest]. destruct (next_part rest) as [path ?].
  intros Hne. repeat (case_decide; [by eexists; vm_compute|]).
  repeat destr_match; try done; eexists; by vm_compute.
Qed.

(** Whatever the peer sends and whatever fails, a connection costs at most one read,
    one write and one shutdown, in this order, and it is written to only after bytes
    were read. *)
Theorem handle_conn_bounded sock ready :
  exists (n : nat) (response : string), (1 <= n <= 3)%nat /\
    (handle_conn sock ready).1 = take n [OpRead; OpWrite response; OpShutdown] /\
    ((2 <= n)%nat -> exists read, sk_read sock = inr read /\ read <> [] /\
       response = response_to read ready) /\
    ((handle_conn sock ready).2 = Ok tt <->
       sk_read sock = inr [] \/
       (exists b read, sk_read sock = inr (b :: read)) /\ sk_write_all sock = None /\
       sk_shutdown sock = None).
Proof.
  unfold handle_conn. destruct (sk_read sock) as [e|[|b read]] eqn:E.
  - exists 1%nat, "". split_and!; [lia..|done|lia|]. split; [done|]. by intros [?|[(? & ? & ?) _]].
  - exists 1%nat, "". split_and!; [lia..|done|lia|]. split; [by left|done].
  - exists (match sk_write_all sock with Some _ => 2 | None => 3 end)%nat, (response_to (b :: read) ready).
    split_and!; try (by destruct (sk_write_all sock)).
    + destruct (sk_write_all sock); lia.
    + destruct (sk_write_all sock); lia.
    + intros _. by exists (b :: read).
    + destruct (sk_write_all sock) as [e|], (sk_shutdown sock) as [e'|]; cbn;
        split; try done; try (by intros [?|(_ & ? & ?)]). intros _. right. eauto.
Qed.

Section accept_properties.
Context {X : Type} `{!Env X} {Conn : Type}.
Implicit Types (rounds : list (AcceptEnd Conn)).

(** Once the stop flag is set, and as no task clears it, the loop serves nothing, the
    connection of that very round included, and returns. *)
Theorem accept_loop_stops e rounds (w : World X) :
  (forall x s, sh_stop s = true -> sh_stop (interfere x s).2 = true) ->
  sh_stop (shared w) = true ->
  wp (accept_loop (e :: rounds)) (fun tr r _ => tr = [] /\ r = Ok ([], true)) w.
Proof.
  intros Hst Hs. cbn [accept_loop]. unfold load_stop. wp_step. wp_step.
  pose proof (Hst (ext w) (shared w) Hs) as H1. rewrite H in H1. cbn [fst snd] in *.
  rewrite H1. by wp_step.
Qed.

(** Whatever the environment does, the loop serves a prefix of the connections
    accepted, in their order, all of them while it has not returned; a failed accept
    does not end it; and it never speaks to the node. *)
Theorem accept_loop_serves rounds (w : World X) :
  wp (accept_loop rounds) (fun tr r _ => tr = [] /\ exists served returned,
    r = Ok (served, returned) /\
    let accepted := omap (fun e => match e with Accepted c => Some c | _ => None end) rounds in
    served `prefix_of` accepted /\ (returned = false -> served = accepted)) w.
Proof.
  revert w. induction rounds as [|e rounds IH]; intros w; cbn [accept_loop].
  { wp_step. split; [done|]. eexists _, _. split_and!; done. }
  unfold load_stop. wp_step. wp_step. destruct (sh_stop s'); cbn [fst].
  { wp_step. split; [done|]. eexists _, _. split_and!; [done|apply prefix_nil|done]. }
  wp_step. eapply wp_mono; [apply IH|]. intros tr r w1 (-> & served & returned & -> & Hp & Hr).
  wp_step. split; [done|]. destruct e as [c|e|]; eexists _, _; (split; [done|]); cbn.
  - split; [by apply prefix_cons|]. intros H1. by rewrite Hr.
  - by split.
  - by split.
Qed.
End accept_properties.
