(* ===== verification/Main.v ===== *)
(** main.rs: the boot sequence, from the environment to the supervised handlers. *)

From Stdlib Require Import ZArith Lia.
From stdpp Require Import gmap strings list pretty.
From S2P Require Import Prelude Solana State Effects Logic Rpc Util ChainReader BankRegistry Config Signer SwbCranker Metrics Handlers Promoter Claimer CuratorFeeClaimer MatchCranker Liquidator.

Local Open Scope crank_scope.

(** ** Definitions *)

(** What the process runs on, beside the node: the environment variables, the key
    files, the parser of socket addresses, the Prometheus exporter and the
    Switchboard boot reads. *)
Record Host (Queue SocketAddr : Type) := {
  host_env : string -> option string;
  host_mode : string -> string + Z;
  host_read : string -> string + bytes;
  host_parse_addr : string -> string + SocketAddr;
  host_prometheus : Prometheus SocketAddr;
  host_load_queue : Pubkey -> string + Queue;
  host_fetch_gateways : Queue -> string + list Gateway }.
Arguments host_env {_ _} _ _.
Arguments host_mode {_ _} _ _.
Arguments host_read {_ _} _ _.
Arguments host_parse_addr {_ _} _ _.
Arguments host_prometheus {_ _} _.
Arguments host_load_queue {_ _} _ _.
Arguments host_fetch_gateways {_ _} _ _.

(** *** Logging and the panic hook *)

(** The filter of the environment, or the default one, and whether the lines are
    JSON. *)
Definition init_logging {Filter : Type} (try_from_default_env : string + Filter)
  (filter_new : string -> Filter) (env : string -> option string) : Filter * bool :=
  (match try_from_default_env with
   | inr f => f
   | inl _ => filter_new "info,ydelta_crankers=info"
   end, bool_decide (env "LOG_FORMAT" = Some "json"%string)).

(** The payload of a panic, as far as the hook looks into it. *)
Inductive PanicPayload := PayloadStr (s : string) | PayloadString (s : string) | PayloadOther.

Record Location := { loc_file : string; loc_line : nat; loc_column : nat }.

(** What the hook logs before it exits with code 1. *)
Record PanicReport := { pr_location : string; pr_msg : string; pr_exit : Z }.

Definition panic_hook (payload : PanicPayload) (location : option Location) : PanicReport :=
  {| pr_location :=
       match location with
       | Some l => loc_file l +:+ ":" +:+ pretty (loc_line l) +:+ ":" +:+ pretty (loc_column l)
       | None => "(unknown)"
       end;
     pr_msg :=
       match payload with
       | PayloadStr s => s
       | PayloadString s => s
       | PayloadOther => "(unparseable panic payload)"
       end;
     pr_exit := 1 |}.

(** The signals the process listens to. *)
Inductive Signal := SIGTERM | SIGINT.

Section main.
Context {X : Type} `{!Env X} {CR : Crates} {YD : YDelta}.
Context {Queue SocketAddr : Type} (host : Host Queue SocketAddr).

Record Booted := {
  bt_ctx : HandlerContext;
  bt_handlers : list (Handler X * Duration);
  bt_warmkeeper : option (SwbCranker * Duration);
  bt_health : SocketAddr }.

(** [std::env::var(name).unwrap_or_else(default).parse()?]. *)
Definition bind_var (name dflt : string) : outcome SocketAddr :=
  match host_parse_addr host (default dflt (host_env host name)) with
  | inl e => Err [e]
  | inr a => Ok a
  end.

Definition swb_queue : Pubkey :=
  match host_env host "SWITCHBOARD_QUEUE" with
  | Some s =>
      match pubkey_from_str s with
      | inr p => p
      | inl _ => pubkey_literal "A43DyUGA7s8eXPxqEjJY6EBu1KKbNgfxF8h17VAHn13w"
      end
  | None => pubkey_literal "A43DyUGA7s8eXPxqEjJY6EBu1KKbNgfxF8h17VAHn13w"
  end.

(** A failed boot of the Switchboard cranker is not fatal. *)
Definition boot_swb (banks : BankRegistry) (payer : Keypair) : option SwbCranker :=
  if has_switchboard_pull banks then
    match SwbCranker_new (host_load_queue host) (host_fetch_gateways host) swb_queue payer with
    | Ok c => Some c
    | _ => None
    end
  else None.

Definition warmkeeper_enabled : bool :=
  match host_env host "SWITCHBOARD_WARMKEEPER" with
  | Some v => bool_decide (v = "true" \/ v = "1")%string
  | None => false
  end.

(** The handlers [main] spawns, in order. *)
Definition enabled_handlers (h : HandlersConfig) : list (Handler X * Duration) :=
  (if promoter_enabled h then [(PromoterHandler, promoter_interval h)] else []) ++
  (if claimer_enabled h then [(ClaimerHandler, claimer_interval h)] else []) ++
  (if liquidator_enabled h then [(LiquidatorHandler, liquidator_interval h)] else []) ++
  (if curator_fee_claimer_enabled h
   then [(CuratorFeeClaimerHandler, curator_fee_claimer_interval h)] else []) ++
  (if match_cranker_enabled h then [(MatchCrankerHandler, match_cranker_interval h)] else []).

(** [for (pk, keypair) in signers.curators] : a failure is only logged. *)
Definition boot_curator_atas (rpc : Rpc) (curators : gmap Pubkey Keypair) : M X unit :=
  for_fold (map_to_list curators) tt (fun _ (ck : Pubkey * Keypair) =>
    let! banks := banks_snapshot in
    let! _ := attempt (ensure_atas_for banks rpc ck.2) in
    ret tt).

Definition main : M X Booted :=
  let! cfg := lift (from_env (host_env host)) in
  let! signers := lift (Signers_load (host_mode host) (host_read host) cfg) in
  let rpc := with_stop_signal
    (Rpc_new (cfg_priority_fee_micro_lamports cfg) (cfg_compute_unit_limit cfg)) in
  let chain := {| cr_rpc := rpc; cr_program_id := cfg_program_id cfg |} in
  with_context "discover_banks_from_markets failed" (discover_banks_from_markets cfg chain) ;;
  let! banks := banks_snapshot in
  let! banks := banks_snapshot in
  with_context "ensure_atas_for failed" (ensure_atas_for banks rpc (sg_fee_payer signers)) ;;
  boot_curator_atas rpc (sg_curators signers) ;;
  let! metrics_bind := lift (bind_var "METRICS_BIND" "127.0.0.1:9091") in
  let! _ := lift (install (host_prometheus host) metrics_bind) in
  let! health_bind := lift (bind_var "HEALTH_BIND" "0.0.0.0:8080") in
  let! slot := (let! r := get_slot in try_client r) in
  let! banks := banks_snapshot in
  let swb := boot_swb banks (sg_fee_payer signers) in
  let ctx := {| ctx_cfg := cfg; ctx_rpc := rpc; ctx_chain := chain; ctx_signers := signers;
                ctx_swb_cranker := swb |} in
  ret {| bt_ctx := ctx; bt_handlers := enabled_handlers (cfg_handlers cfg);
         bt_warmkeeper := (if warmkeeper_enabled
                           then (fun c => (c, from_secs 60)) <$> swb else None);
         bt_health := health_bind |}.

(** The signal task: it ends the process when a handler cannot be installed, waits
    for the first of the two signals ([None] while none arrived), and stores the
    stop flag. *)
Definition signal_task (installs : Signal -> bool) (arrived : option Signal) : M X unit :=
  if negb (installs SIGTERM) then panic "sigterm handler installs"
  else if negb (installs SIGINT) then panic "sigint handler installs"
  else
    match arrived with
    | None => ret tt
    | Some _ =>
        shared_op (fun s => (tt, mkShared true (sh_fee_payer_low s) (sh_markets s) (sh_banks s)
                                   (sh_ata_balances s)))
    end.

(** ** Lemmas *)

(** What a booted process is made of. *)
Record boot_wf (b : Booted) : Prop := {
  bw_cfg : from_env (host_env host) = Ok (ctx_cfg (bt_ctx b));
  bw_signers : Signers_load (host_mode host) (host_read host) (ctx_cfg (bt_ctx b))
               = Ok (ctx_signers (bt_ctx b));
  bw_stop : rpc_has_stop (ctx_rpc (bt_ctx b)) = true;
  bw_chain : cr_program_id (ctx_chain (bt_ctx b)) = cfg_program_id (ctx_cfg (bt_ctx b));
  bw_handlers : bt_handlers b = enabled_handlers (cfg_handlers (ctx_cfg (bt_ctx b)));
  bw_swb : forall c, ctx_swb_cranker (bt_ctx b) = Some c ->
    swb_payer c = sg_fee_payer (ctx_signers (bt_ctx b)) /\ swb_gateways c <> [];
  bw_warm : forall c d, bt_warmkeeper b = Some (c, d) ->
    warmkeeper_enabled = true /\ ctx_swb_cranker (bt_ctx b) = Some c }.

Lemma boot_swb_spec banks payer c :
  boot_swb banks payer = Some c -> swb_payer c = payer /\ swb_gateways c <> [].
Proof.
  unfold boot_swb, SwbCranker_new. intros H. repeat (case_match; simplify_eq/=; try done).
Qed.

(** A predicate on the value of a run, with the events left open. *)
Definition yields {A} (V : A -> Prop) (m : M X A) : Prop :=
  forall w, wp m (fun _ r _ => match r with Ok a => V a | _ => True end) w.

Lemma yields_bind {A B} (V : B -> Prop) (m : M X A) (f : A -> M X B) :
  yields (fun _ => True) m -> (forall a, yields V (f a)) -> yields V (bind m f).
Proof.
  intros Hm Hf w. wp_step. eapply wp_mono; [apply Hm|].
  intros tr [a|e|s] w1 _; [|done..]. apply Hf.
Qed.

Lemma yields_lift {A B} (V : B -> Prop) (o : outcome A) (f : A -> M X B) :
  (forall a, o = Ok a -> yields V (f a)) -> yields V (bind (lift o) f).
Proof. intros Hf w. wp_step. wp_step. destruct o; [by apply Hf|done..]. Qed.

Lemma yields_keeps {A} R (m : M X A) : keeps R m -> yields (fun _ => True) m.
Proof. intros Hm w. eapply wp_mono; [apply Hm|]. by intros tr []. Qed.

Lemma ensure_atas_inflight banks rpc kp : keeps same_inflight (@ensure_atas_for X _ _ banks rpc kp).
Proof.
  unfold ensure_atas_for, get_multiple_accounts.
  keeps_go; apply keeps_quiet_inflight; apply quiet_read_call.
Qed.

Lemma main_boots_configured' (w : World X) :
  wp main (fun _ r _ => match r with Ok b => boot_wf b | _ => True end) w.
Proof.
  revert w. change (yields boot_wf main). unfold main.
  apply yields_lift. intros cfg Hcfg. apply yields_lift. intros signers Hsg. cbv zeta.
  apply yields_bind.
  { eapply (yields_keeps same_inflight). unfold discover_banks_from_markets, store_banks.
    keeps_go; apply keeps_quiet_inflight; eauto with crank. }
  intros _. apply yields_bind; [eapply (yields_keeps quiet_run); eauto with crank|].
  intros _. apply yields_bind; [eapply (yields_keeps quiet_run); eauto with crank|].
  intros banks. apply yields_bind.
  { eapply (yields_keeps same_inflight). keeps_go. apply ensure_atas_inflight. }
  intros _. apply yields_bind.
  { eapply (yields_keeps same_inflight). unfold boot_curator_atas. keeps_go.
    apply ensure_atas_inflight. }
  intros _. apply yields_lift. intros mb _. apply yields_lift. intros _ _.
  apply yields_lift. intros hb _. apply yields_bind.
  { eapply (yields_keeps quiet_run). unfold get_slot. keeps_go. }
  intros _. apply yields_bind; [eapply (yields_keeps quiet_run); eauto with crank|].
  intros banks2 w. wp_step. constructor; cbn; try done.
  - intros c Hc. by apply boot_swb_spec in Hc.
  - intros c d. destruct warmkeeper_enabled; [|done].
    destruct (boot_swb _ _); [|done]. by intros [= <- _].
Qed.

(** ** Properties *)

(** A boot that succeeds yields the configured process: the configuration and the
    signers are the ones loaded, the RPC handle carries the stop signal, the reader looks
    at the configured program, exactly the enabled handlers are supervised at their
    configured intervals, the Switchboard cranker, if any, pays with the fee payer and
    has a gateway, and the warm-keeper runs only when asked for. *)
Theorem main_boots_configured (w : World X) :
  wp main (fun _ r _ => match r with Ok b => boot_wf b | _ => True end) w.
Proof. apply main_boots_configured'. Qed.
End main.
