(* ===== verification/Footprint.v ===== *)
(** What the ticks of the handlers touch. A relation on runs that composes, that
    no client call, metric or private set breaks, and that the atomic accesses
    and the submissions a handler makes respect, is kept by every handler the
    boot spawns and by its supervisor, whatever the environment does. *)

From Stdlib Require Import ZArith Lia.
From stdpp Require Import gmap strings list sorting.
From S2P Require Import Prelude Solana State Effects Logic Rpc Util ChainReader BankRegistry Config SwbCranker Metrics Handlers HealthServer Promoter Claimer CuratorFeeClaimer MatchCranker Liquidator Main.

Local Open Scope crank_scope.

(** The cells after a write. *)
Definition with_markets (now : Instant) (ms : list MarketView) (s : Shared) : Shared :=
  mkShared (sh_stop s) (sh_fee_payer_low s)
    (Some {| mc_fetched_at := now; mc_markets := ms |}) (sh_banks s) (sh_ata_balances s).
Definition with_low (b : bool) (s : Shared) : Shared :=
  mkShared (sh_stop s) b (sh_markets s) (sh_banks s) (sh_ata_balances s).
Definition with_banks (reg : BankRegistry) (s : Shared) : Shared :=
  mkShared (sh_stop s) (sh_fee_payer_low s) (sh_markets s) reg (sh_ata_balances s).
Definition with_ata (m : gmap Pubkey Z) (s : Shared) : Shared :=
  mkShared (sh_stop s) (sh_fee_payer_low s) (sh_markets s) (sh_banks s) m.
Definition with_stop (s : Shared) : Shared :=
  mkShared true (sh_fee_payer_low s) (sh_markets s) (sh_banks s) (sh_ata_balances s).

(** A market listing as [fetch_markets] builds it. *)
Definition listing (ms : list MarketView) : Prop :=
  ms <> [] /\ Sorted (fun a b => market_leb a b = true) ms.

(** The client calls, the submission excepted, and the event each one leaves. *)
Inductive client_call {X} `{!Env X} : forall A, (X -> A * X) -> (A -> list Event) -> Prop :=
| cc_account p : client_call _ (cl_get_account p) (fun _ => [EvRead (RdAccount p)])
| cc_multiple ps : client_call _ (cl_get_multiple_accounts ps) (fun _ => [EvRead (RdMultiple ps)])
| cc_programs pid fs :
    client_call _ (cl_get_program_accounts pid fs) (fun _ => [EvRead (RdProgramAccounts pid fs)])
| cc_blockhash : client_call _ cl_get_latest_blockhash (fun _ => [EvRead RdBlockhash])
| cc_balance p : client_call _ (cl_get_balance p) (fun _ => [EvRead (RdBalance p)])
| cc_slot : client_call _ cl_get_slot (fun _ => [EvRead RdSlot])
| cc_status sigs : client_call _ (cl_get_signature_statuses sigs) (fun r => [EvStatus sigs r])
| cc_simulate m : client_call _ (cl_simulate m) (fun r => [EvSimulate m r])
| cc_gateway g feeds payer :
    client_call _ (gw_fetch_update g feeds payer) (fun r => [EvGateway g feeds r])
| cc_instant : client_call _ instant_now (fun _ => [])
| cc_system : client_call _ system_now (fun _ => [])
| cc_sleep d : client_call _ (fun x => (tt, do_sleep d x)) (fun _ => [EvSleep d])
| cc_join n : client_call _ (join_order n) (fun _ => []).

Lemma client_call_quiet {X} `{!Env X} {A} (f : X -> A * X) ev a :
  client_call A f ev -> Forall no_submit (ev a).
Proof. destruct 1; quiet. Qed.

(** A relation that even a submission respects is kept by both send paths. *)
Section sends.
Context {X : Type} `{!Env X} {CR : Crates}.
Context (R : World X -> list Event -> bool -> World X -> Prop) `{!Composable R}.
Hypothesis call_keeps : forall A (f : X -> A * X) ev, client_call A f ev -> keeps R (call f ev).
Hypothesis submit_keeps : forall tx, keeps R (send_and_confirm_transaction tx).
Hypothesis stop_keeps : keeps R load_stop.
Hypothesis emit_keeps : forall e, no_submit e -> keeps R (emit e).

Lemma keeps_build_legacy ixs signers payer bh : keeps R (@build_legacy X _ ixs signers payer bh).
Proof. unfold build_legacy. keeps_go. Qed.

Lemma keeps_build_v0 ixs luts signers payer bh : keeps R (@build_v0 X _ ixs luts signers payer bh).
Proof. unfold build_v0. keeps_go. Qed.

Lemma keeps_attempts rpc build :
  (forall bh, keeps R (build bh)) -> keeps R (send_attempts rpc build).
Proof.
  intros Hb. unfold send_attempts. generalize (@None Signature). generalize [0; 1; 2]%nat. intros l.
  induction l as [|n l IH]; intros last; cbn [loop_ret]; [by apply keeps_panic|].
  unfold send_attempt, stopped. keeps_go; eauto; apply call_keeps; constructor.
Qed.

Lemma keeps_send rpc label ixs kp : keeps R (send_signed_labeled rpc label ixs [kp]).
Proof.
  unfold send_signed_labeled, record_submission, return_result, send_with_retry.
  keeps_go; try by apply emit_keeps. apply keeps_attempts, keeps_build_legacy.
Qed.

Lemma keeps_send_v0 rpc label ixs luts kp :
  keeps R (send_signed_v0_labeled rpc label ixs luts [kp]).
Proof.
  unfold send_signed_v0_labeled, record_submission, return_result, send_v0_with_retry.
  keeps_go; try by apply emit_keeps. apply keeps_attempts, keeps_build_v0.
Qed.
End sends.

(** [Sh] is what an atomic access may do to the shared memory, [RpcOk] which RPC
    handles a submission goes through. *)
Class Footprint {X} `{!Env X} {CR : Crates} (Sh : Shared -> Shared -> Prop) (RpcOk : Rpc -> Prop)
    (R : World X -> list Event -> bool -> World X -> Prop) : Prop := {
  fp_comp :: Composable R;
  fp_call : forall {A} (f : X -> A * X) ev,
    client_call A f ev -> keeps R (call f ev);
  fp_emit : forall e, no_submit e -> keeps R (emit e);
  fp_put_inflight : forall i, keeps R (put_inflight i);
  fp_shared_op : forall {A} (f : Shared -> A * Shared),
    (forall s, Sh s (f s).2) -> keeps R (shared_op f);
  fp_shared_op_at : forall {A} (f : Instant -> Shared -> A * Shared),
    (forall now s, Sh s (f now s).2) -> keeps R (shared_op_at f);
  fp_read : forall s, Sh s s;
  fp_send : forall rpc label ixs kp, RpcOk rpc -> keeps R (send_signed_labeled rpc label ixs [kp]);
  fp_send_v0 : forall rpc label ixs luts kp, RpcOk rpc ->
    keeps R (send_signed_v0_labeled rpc label ixs luts [kp]) }.

(** The accesses of a task that lists markets. *)
Class Caches (Sh : Shared -> Shared -> Prop) : Prop :=
  fp_cache : forall now ms s, listing ms -> Sh s (with_markets now ms s).

Create HintDb footprint.

Section footprint.
Context {X : Type} `{!Env X} {CR : Crates} {YD : YDelta}.
Context (Sh : Shared -> Shared -> Prop) (RpcOk : Rpc -> Prop).
Context (R : World X -> list Event -> bool -> World X -> Prop) `{!Footprint Sh RpcOk R}.
Implicit Types ctx : HandlerContext.

Lemma fp_load {A} (f : Shared -> A) : keeps R (shared_op (fun s => (f s, s))).
Proof. apply fp_shared_op. intros s. apply fp_read. Qed.

Lemma fp_now_instant : keeps R (@now_instant X _).
Proof. apply fp_call. constructor. Qed.

Lemma fp_get_inflight : keeps R (@get_inflight X).
Proof. intros w. apply wp_get_inflight, comp_refl. Qed.

Lemma fp_set_insert {K} `{Countable K} (L : KeySet K) k : keeps R (@set_insert X _ _ _ L k).
Proof.
  unfold set_insert. apply keeps_bind; [apply _|apply fp_get_inflight|]. intros i.
  apply keeps_bind; [apply _|apply fp_put_inflight|]. intros _. apply keeps_ret, _.
Qed.

Lemma fp_set_remove {K} `{Countable K} (L : KeySet K) k : keeps R (@set_remove X _ _ _ L k).
Proof.
  unfold set_remove. apply keeps_bind; [apply _|apply fp_get_inflight|]. intros i.
  apply fp_put_inflight.
Qed.

Local Hint Resolve fp_load fp_now_instant fp_set_insert
  fp_set_remove fp_send fp_send_v0 : footprint.

Local Ltac fp_go :=
  repeat (keeps_step || (progress (eauto 2 with footprint)));
  try (first [apply fp_load | apply fp_call; constructor | by apply fp_emit]).

Lemma fp_banks_snapshot : keeps R (@banks_snapshot X _).
Proof. apply fp_load. Qed.

Lemma fp_get_program_accounts cr fs : keeps R (@get_program_accounts X _ _ cr fs).
Proof. unfold get_program_accounts, get_program_accounts_with_config. fp_go. Qed.
Local Hint Resolve fp_banks_snapshot fp_get_program_accounts : footprint.

Lemma fp_wait_loop fuel deadline : keeps R (@wait_loop X _ fuel deadline).
Proof.
  induction fuel as [|fuel IH]; cbn [wait_loop]; [fp_go|]. unfold load_stop. fp_go.
Qed.
Local Hint Resolve fp_wait_loop : footprint.

Lemma fp_task_loop fuel tick interval : keeps R tick -> keeps R (@task_loop X _ fuel tick interval).
Proof.
  intros Ht. induction fuel as [|fuel IH]; cbn [task_loop]; [fp_go|].
  unfold load_stop, sleep_until_or_stop. fp_go.
Qed.

Lemma fp_batch_get addresses : keeps R (@batch_get_multiple_accounts X _ addresses).
Proof.
  unfold batch_get_multiple_accounts, joined_tasks, get_multiple_accounts.
  destruct addresses; fp_go.
Qed.

Lemma fp_sol_balance_tick signers min_balance :
  (forall b s, Sh s (with_low b s)) -> keeps R (@sol_balance_tick X _ _ signers min_balance).
Proof.
  intros Hl. unfold sol_balance_tick, get_balance, load_fee_payer_low, store_fee_payer_low. fp_go.
  apply fp_shared_op. intros s. apply Hl.
Qed.

Lemma fp_ata_balance_tick signers :
  (forall m s, Sh s (with_ata m s)) -> keeps R (@ata_balance_tick X _ _ signers).
Proof.
  intros Ha. unfold ata_balance_tick, store_ata_balances.
  repeat (fp_go; eauto using fp_batch_get). apply fp_shared_op. intros s. apply Ha.
Qed.

Lemma fp_signal_task installs arrived :
  (forall s, Sh s (with_stop s)) -> keeps R (@signal_task X _ installs arrived).
Proof. intros Hs. unfold signal_task. fp_go. apply fp_shared_op. intros s0. apply Hs. Qed.

Lemma fp_health {Conn} bind (rounds : list (AcceptEnd Conn)) : keeps R (health_spawn bind rounds).
Proof.
  unfold health_spawn. destruct bind; [fp_go|].
  induction rounds as [|e rounds IH]; cbn [accept_loop]; [fp_go|]. unfold load_stop. fp_go.
Qed.

(** *** The listing of markets and the handlers *)

Context `{!Caches Sh}.

(** A listing is fetched whole and sorted. *)
Lemma fp_fetch_markets {A} cr (f : list MarketView -> M X A) :
  (forall ms, Sorted (fun a b => market_leb a b = true) ms -> keeps R (f ms)) ->
  keeps R (let! ms := fetch_markets cr in f ms).
Proof.
  apply (keeps_bind_val R). intros w. unfold fetch_markets. wp_step.
  eapply wp_mono; [apply fp_get_program_accounts|].
  intros tr [accts|e|s] w1 H1; [|by split..]. wp_step.
  split; [eapply comp_trans; [exact H1|apply comp_refl]|].
  destruct (decode_markets accts) as [ms|e|s] eqn:E; [|done..].
  by apply decode_markets_ok in E as [? _].
Qed.

Lemma fp_markets_cache_put ms : listing ms -> keeps R (@markets_cache_put X _ ms).
Proof.
  intros Hl. unfold markets_cache_put. apply fp_shared_op_at. intros now s. by apply fp_cache.
Qed.

Lemma fp_list_markets cr : keeps R (@list_markets X _ _ _ cr).
Proof.
  unfold list_markets, markets_cache_get, markets_cache_stale.
  apply keeps_bind; [apply _|fp_go|]. intros [cached|]; [fp_go|].
  apply fp_fetch_markets. intros [|m ms] Hs; [fp_go|].
  apply keeps_bind; [apply _|by apply fp_markets_cache_put|]. intros _. fp_go.
Qed.

Lemma fp_refresh_markets cr : keeps R (@refresh_markets X _ _ _ cr).
Proof.
  unfold refresh_markets. apply fp_fetch_markets. intros [|m ms] Hs; [fp_go|].
  apply keeps_bind; [apply _|by apply fp_markets_cache_put|]. intros _. fp_go.
Qed.
Local Hint Resolve fp_refresh_markets : footprint.

Lemma fp_discover cr mp : keeps R (@discover_from_markets X _ _ _ cr mp).
Proof.
  unfold discover_from_markets, resolve_from_chain, get_multiple_accounts. fp_go.
Qed.

(** A discovered registry is well formed. *)
Lemma fp_bind_discover {A} cr mp (f : BankRegistry -> M X A) :
  (forall reg, registry_wf reg -> keeps R (f reg)) ->
  keeps R (let! reg := discover_from_markets cr mp in f reg).
Proof.
  apply (keeps_bind_val R). intros w. apply wp_and; [apply fp_discover|].
  eapply wp_mono; [apply discover_registry_wf|]. intros tr [reg|e|s] w' H; [|done..].
  by destruct H as (_ & _ & ?).
Qed.

Lemma fp_bank_refresh_tick cfg cr :
  (forall fresh s, registry_wf fresh -> Sh s (with_banks (merge_from (sh_banks s) fresh) s)) ->
  keeps R (@bank_refresh_tick X _ _ _ cfg cr).
Proof.
  intros Hm. unfold bank_refresh_tick, refresh_banks. apply keeps_bind; [apply _| |fp_go].
  apply keeps_attempt, fp_bind_discover. intros fresh Hwf. case_match; [fp_go|].
  apply fp_shared_op. intros s. by apply Hm.
Qed.

Lemma fp_discover_banks cfg cr :
  (forall fresh s, registry_wf fresh -> Sh s (with_banks fresh s)) ->
  keeps R (@discover_banks_from_markets X _ _ _ cfg cr).
Proof.
  intros Hm. unfold discover_banks_from_markets. apply fp_bind_discover. intros fresh Hwf.
  apply fp_shared_op. intros s. by apply Hm.
Qed.

Lemma fp_ensure_atas banks rpc kp : RpcOk rpc -> keeps R (@ensure_atas_for X _ _ banks rpc kp).
Proof. intros Hrpc. unfold ensure_atas_for, get_multiple_accounts. fp_go. Qed.

(** The boot. *)
Lemma fp_main {Queue SocketAddr} (host : Host Queue SocketAddr) :
  (forall price limit, RpcOk (with_stop_signal (Rpc_new price limit))) ->
  (forall fresh s, registry_wf fresh -> Sh s (with_banks fresh s)) ->
  keeps R (@main X _ _ _ _ _ host).
Proof.
  intros Hrpc Hb. unfold main, boot_curator_atas, get_slot.
  fp_go; eauto using fp_discover_banks, fp_ensure_atas.
Qed.

Lemma fp_account_data pk : keeps R (@get_account_data X _ pk).
Proof. unfold get_account_data, get_account. fp_go. Qed.
Local Hint Resolve fp_list_markets fp_account_data : footprint.

Lemma fp_market_data market s : keeps R (@market_data X _ _ market s).
Proof. unfold market_data. fp_go. Qed.
Local Hint Resolve fp_market_data : footprint.

Lemma fp_simulate_v0 ixs luts payer : keeps R (@simulate_v0 X _ _ ixs luts payer).
Proof.
  unfold simulate_v0, get_latest_blockhash, simulate_transaction_with_config. fp_go.
Qed.
Local Hint Resolve fp_simulate_v0 : footprint.

Lemma fp_fetch_update c feeds : keeps R (@fetch_update_ixs X _ _ c feeds).
Proof.
  unfold fetch_update_ixs. destruct feeds as [|f feeds]; [fp_go|].
  generalize (@None Error). generalize (length (swb_gateways c)).
  induction (swb_gateways c) as [|g gs IH]; intros n last; cbn [failover]; [fp_go|].
  unfold fetch_update_via, gateway_fetch. fp_go.
Qed.
Local Hint Resolve fp_fetch_update : footprint.

Lemma fp_promoter ctx : RpcOk (ctx_rpc ctx) -> keeps R (@promoter_tick X _ _ _ ctx).
Proof.
  intros Hrpc. unfold promoter_tick, promote_markets, promote_market, promote_entry, promote_one,
    read_pending_matched_loans, assemble_vault_settle, simulate. fp_go.
Qed.

Lemma fp_claimer ctx : RpcOk (ctx_rpc ctx) -> keeps R (@claimer_tick X _ _ _ ctx).
Proof.
  intros Hrpc. unfold claimer_tick, sweep_all, sweep_entry, sweep_one, list_sub_vaults,
    list_pending_vault_claims, simulate. fp_go.
Qed.

Lemma fp_curator ctx : RpcOk (ctx_rpc ctx) -> keeps R (@curator_tick X _ _ _ ctx).
Proof.
  intros Hrpc. unfold curator_tick, claim_sub_vaults, claim_sub_vault, claim_entry, claim_one,
    list_sub_vaults. fp_go.
Qed.

Lemma fp_match ctx : RpcOk (ctx_rpc ctx) -> keeps R (@match_tick X _ _ _ ctx).
Proof.
  intros Hrpc. unfold match_tick, match_markets, match_scan_market, crank_one, match_swb_bundle,
    market_is_rate_crossed, return_result. fp_go.
Qed.

Lemma fp_settle ctx market loan :
  RpcOk (ctx_rpc ctx) -> keeps R (@try_settle_matured X _ _ _ ctx market loan).
Proof. intros Hrpc. unfold try_settle_matured, swb_bundle, pick_repay_amount. fp_go. Qed.

Lemma fp_liquidate ctx market loan :
  RpcOk (ctx_rpc ctx) -> keeps R (@try_liquidate_ltv X _ _ _ ctx market loan).
Proof. intros Hrpc. unfold try_liquidate_ltv, swb_bundle, pick_repay_amount. fp_go. Qed.
Local Hint Resolve fp_settle fp_liquidate : footprint.

Lemma fp_liquidator ctx :
  RpcOk (ctx_rpc ctx) -> keeps R (@liquidator_tick X _ _ _ ctx).
Proof.
  intros Hrpc. unfold liquidator_tick, liquidate_markets, scan_market, scan_loans, scan_loan,
    act_on_loan, try_settle_or_liquidate, list_loans_for_market, now_unix, now_system. fp_go.
Qed.

Lemma fp_handlers h ctx :
  RpcOk (ctx_rpc ctx) ->
  Forall (fun hi => keeps R (h_tick hi.1 ctx)) (@enabled_handlers X _ _ _ h).
Proof.
  intros Hrpc. unfold enabled_handlers.
  repeat apply Forall_app_2; (case_match; [|constructor]); (constructor; [|constructor]);
    cbn [fst h_tick PromoterHandler ClaimerHandler LiquidatorHandler CuratorFeeClaimerHandler
         MatchCrankerHandler];
    auto using fp_promoter, fp_claimer, fp_liquidator, fp_curator, fp_match.
Qed.

Lemma fp_spawn fuel (hd : Handler X) ctx interval :
  keeps R (h_tick hd ctx) -> keeps R (spawn fuel hd ctx interval).
Proof.
  intros Ht. induction fuel as [|fuel IH]; cbn [spawn]; [fp_go|].
  unfold supervise_once, run_tick, load_stop, load_fee_payer_low. fp_go.
Qed.
End footprint.

(** ** Invariants of the shared memory

    A predicate that the environment keeps is kept by every run whose own accesses
    keep it. *)
Definition stays {X} (I : Shared -> Prop) : World X -> list Event -> bool -> World X -> Prop :=
  fun w _ _ w' => I (shared w) -> I (shared w').

#[export] Instance stays_composable {X} I : Composable (@stays X I).
Proof. split; unfold stays; auto. Qed.

Section stays.
Context {X : Type} `{!Env X} {CR : Crates} {YD : YDelta} (I : Shared -> Prop).
Hypothesis rely : forall x s, I s -> I (interfere x s).2.

Lemma stays_call {A} (f : X -> A * X) ev : keeps (stays I) (call f ev).
Proof. intros w. apply wp_call. by intros a x' _ Hw. Qed.

Lemma stays_shared_op {A} (f : Shared -> A * Shared) :
  (forall s, I s -> I (f s).2) -> keeps (stays I) (shared_op f).
Proof.
  intros Hf w. apply wp_shared_op. intros x' s' E Hw. cbn [shared]. apply Hf.
  pose proof (rely (ext w) (shared w) Hw) as H. by rewrite E in H.
Qed.

Lemma stays_shared_op_at {A} (f : Instant -> Shared -> A * Shared) :
  (forall now s, I s -> I (f now s).2) -> keeps (stays I) (shared_op_at f).
Proof.
  intros Hf w. apply wp_shared_op_at. intros x1 s1 now x2 E _ Hw. cbn [shared]. apply Hf.
  pose proof (rely (ext w) (shared w) Hw) as H. by rewrite E in H.
Qed.

Lemma stays_emit e : keeps (stays I) (@emit X e).
Proof. intros w. apply wp_emit. by intros Hw. Qed.

Lemma stays_put_inflight i : keeps (stays I) (@put_inflight X i).
Proof. intros w. apply wp_put_inflight. by intros Hw. Qed.

Lemma stays_footprint :
  Footprint (fun s s' => I s -> I s') (fun _ => True) (@stays X I).
Proof.
  assert (Hload : keeps (stays I) load_stop) by by apply stays_shared_op.
  assert (Hsub : forall tx, keeps (stays I) (send_and_confirm_transaction tx))
    by (intros tx; apply stays_call).
  split; [apply _|..]; intros; eauto using stays_call, stays_emit, stays_put_inflight,
    stays_shared_op, stays_shared_op_at, keeps_send, keeps_send_v0 with typeclass_instances.
Qed.
End stays.
