(* ===== verification/Keeper.v ===== *)
(** What the liquidator hands the node, walking the loans of a market: for which loans,
    under which conditions, on which banks and for which amount. The registry each action
    reads is known by an invariant of the shared memory, kept through the whole walk. *)

From Stdlib Require Import ZArith Lia.
From stdpp Require Import gmap strings list.
From S2P Require Import Prelude Solana State Effects Logic Rpc Util ChainReader BankRegistry Config SwbCranker Handlers Liquidator Main Footprint.

Local Open Scope crank_scope.

(** ** Definitions *)

(** The runs that keep [I], and in which every submission satisfies [P] when they start in
    it. *)
Definition sends_under {X} `{!Env X} {CR : Crates} (I : Shared -> Prop) (P : Transaction -> Prop) :
  World X -> list Event -> bool -> World X -> Prop :=
  fun w tr p w' => stays I w tr p w' /\ (I (shared w) -> Forall (submit_sat P) tr).

#[export] Instance sends_under_composable {X} `{!Env X} {CR : Crates} I P :
  Composable (@sends_under X _ _ I P).
Proof.
  split.
  - intros w p. split; [intros HI; exact HI|intros _; constructor].
  - intros w1 t1 w2 t2 p w3 [H1 H2] [H3 H4]. split; [by intros H; apply H3, H1|].
    intros H. apply Forall_app_2; auto.
Qed.

(** A registry that the invariant allows. *)
Definition known (I : Shared -> Prop) (banks : BankRegistry) : Prop :=
  exists s, I s /\ sh_banks s = banks.

Section keeper.
Context {X : Type} `{!Env X} {CR : Crates} {YD : YDelta}.
Implicit Types ctx : HandlerContext.

(** The keeper's expected bonus reaches the configured minimum. *)
Definition bonus_reached ctx (market : MarketView) (loan : LoanView) : Prop :=
  (min_liquidation_profit_atoms (cfg_thresholds (ctx_cfg ctx)) <=
   if decide (0 < mv_liquidation_keeper_bps market)
   then Z.min (lv_outstanding_debt_atoms loan * mv_liquidation_keeper_bps market) U128_MAX / 10000
   else lv_outstanding_debt_atoms loan)%Z.

(** What the walk may send for a loan at time [t_now]: the loan is active and owes
    something; a settlement once it is matured, a liquidation when it is a pool loan or its
    static ratio is 10500 basis points or more, and the bonus is worth it. *)
Definition loan_tx Reg ctx (market : MarketView) t_now (loan : LoanView) (tx : Transaction) : Prop :=
  lv_state loan = LoanState_Active /\ lv_outstanding_debt_atoms loan <> 0%Z /\
  ((is_matured (effective_grace (mv_grace_period_seconds market)
      (maturity_extra_buffer (cfg_thresholds (ctx_cfg ctx)))) t_now loan = true /\
    settle_tx Reg ctx market loan tx) \/
   ((lv_loan_type loan = LoanType_P2Pool \/
     (10500 <= static_accrued_ratio_bps (lv_outstanding_debt_atoms loan)
                 (lv_principal_debt_atoms loan))%Z) /\
    bonus_reached ctx market loan /\ liquidate_tx Reg ctx market loan tx)).

(** ** Lemmas *)

Lemma expected_bonus_reached ctx market loan :
  (min_liquidation_profit_atoms (cfg_thresholds (ctx_cfg ctx)) <= expected_bonus market loan)%Z ->
  bonus_reached ctx market loan.
Proof.
  unfold bonus_reached, expected_bonus, u128_sat_mul. rewrite Z.gtb_ltb.
  destruct (Z.ltb_spec 0 (mv_liquidation_keeper_bps market)); case_decide; lia.
Qed.

Lemma breach_spec loan :
  maybe_ltv_breach loan = true -> lv_loan_type loan = LoanType_P2Pool \/
    (10500 <= static_accrued_ratio_bps (lv_outstanding_debt_atoms loan)
                (lv_principal_debt_atoms loan))%Z.
Proof.
  unfold maybe_ltv_breach, LoanView_is_p2pool, STATIC_LTV_PREFILTER_BPS.
  destruct (Z.eqb_spec (lv_loan_type loan) LoanType_P2Pool); [by left|]. intros H. right. lia.
Qed.

Context (I : Shared -> Prop).
Hypothesis rely : forall x s, I s -> I (interfere x s).2.

Lemma under_intro {A} P (m : M X A) :
  keeps (stays I) m ->
  (forall w, I (shared w) -> wp m (fun tr r w' => sends P w tr (is_panic r) w') w) ->
  keeps (sends_under I P) m.
Proof.
  intros Hi Hs w. destruct (Hi w) as (tr & E & H). exists tr. split; [done|]. split; [done|].
  intros HI. destruct (Hs w HI) as (tr' & E' & Hp). rewrite E in E'. by simplify_eq.
Qed.

Lemma under_mono {A} P P' (m : M X A) :
  (forall tx, P tx -> P' tx) -> keeps (sends_under I P) m -> keeps (sends_under I P') m.
Proof.
  intros HP Hm w. eapply wp_mono; [apply Hm|]. intros tr r w' [H1 H2]. split; [done|].
  intros HI. eapply submit_sat_mono; [exact HP|auto].
Qed.

Lemma known_at (w : World X) :
  I (shared w) -> known I (sh_banks (interfere (ext w) (shared w)).2).
Proof. intros H. exists (interfere (ext w) (shared w)).2. auto. Qed.

(** The two actions, and the choice between them. *)
Lemma settle_under ctx market loan :
  keeps (sends_under I (settle_tx (known I) ctx market loan)) (try_settle_matured ctx market loan).
Proof.
  pose proof (stays_footprint I rely). apply under_intro.
  - by apply (fp_settle (fun s s' => I s -> I s') (fun _ => True)).
  - intros w HI. by apply settle_sends_at, known_at.
Qed.

Lemma liquidate_under ctx market loan :
  keeps (sends_under I (fun tx => bonus_reached ctx market loan /\
    liquidate_tx (known I) ctx market loan tx)) (try_liquidate_ltv ctx market loan).
Proof.
  pose proof (stays_footprint I rely).
  eapply under_mono; [|apply (under_intro (fun tx =>
    (min_liquidation_profit_atoms (cfg_thresholds (ctx_cfg ctx)) <= expected_bonus market loan)%Z /\
    liquidate_tx (known I) ctx market loan tx))].
  - intros tx [Hb ?]. split; [by apply expected_bonus_reached|done].
  - by apply (fp_liquidate (fun s s' => I s -> I s') (fun _ => True)).
  - intros w HI. by apply liquidate_sends_at, known_at.
Qed.

Lemma settle_or_liquidate_under P ctx market loan (matured ltv : bool) :
  (matured = true -> forall tx, settle_tx (known I) ctx market loan tx -> P tx) ->
  (ltv = true -> forall tx, bonus_reached ctx market loan ->
     liquidate_tx (known I) ctx market loan tx -> P tx) ->
  keeps (sends_under I P) (try_settle_or_liquidate ctx market loan matured ltv).
Proof.
  intros Hs Hl. unfold try_settle_or_liquidate.
  assert (matured = true -> keeps (sends_under I P) (try_settle_matured ctx market loan))
    by (intros; eapply under_mono; [|apply settle_under]; auto).
  assert (ltv = true -> keeps (sends_under I P) (try_liquidate_ltv ctx market loan))
    by (intros; eapply under_mono; [|apply liquidate_under]; intros tx []; auto).
  destruct ltv, matured; keeps_go; auto.
Qed.

(** The walk. *)
Lemma scan_loan_under ctx market t_now count loan :
  keeps (sends_under I (loan_tx (known I) ctx market t_now loan))
    (scan_loan ctx market t_now count loan).
Proof.
  pose proof (stays_footprint I rely) as HF. unfold scan_loan.
  destruct (Z.eqb_spec (lv_state loan) LoanState_Active) as [Ha|]; cbn [negb orb]; [|keeps_go].
  destruct (Z.eqb_spec (lv_outstanding_debt_atoms loan) 0) as [|Ho]; [keeps_go|]. cbv zeta.
  set (matured := is_matured _ _ _). destruct (_ && _)%bool; [keeps_go|]. unfold act_on_loan.
  keeps_step.
  { apply under_intro; [apply (fp_set_insert (fun s s' => I s -> I s') (fun _ => True) (stays I))|].
    intros w _. apply wp_set_insert, Forall_nil_2. }
  keeps_go.
  - apply settle_or_liquidate_under.
    + intros Hm tx Htx. split_and!; auto.
    + intros Hm tx Hb Htx. split_and!; [done..|]. right. split_and!; auto using breach_spec.
  - apply under_intro; [apply (fp_set_remove (fun s s' => I s -> I s') (fun _ => True) (stays I))|].
    intros w _. apply wp_set_remove, Forall_nil_2.
Qed.
End keeper.

(** ** Properties *)

(** C8. Walking a market's loans at a given time, while an invariant holds of the shared
    memory: every transaction handed to the node settles or liquidates one of those loans,
    which is active and owes something; a settlement only when it is matured, a liquidation
    only when it is a pool loan or its static ratio is at least 10500 basis points and the
    keeper's bonus, at its rate of what the loan owes, reaches the configured minimum. The
    transaction is paid by the keeper and its last instruction is built from the market's
    and the loan's own fields and from the two banks the registry has for the market's debt
    and collateral mints, with the keeper's token accounts of those banks; and the amount is
    the one [repay_for_balance] gives for a balance the node shows of the keeper's account of
    the debt mint. *)
Theorem scan_loans_sound {X} `{!Env X} {CR : Crates} {YD : YDelta} (I : Shared -> Prop)
    (ctx : HandlerContext) market t_now loans (w : World X) :
  (forall x s, I s -> I (interfere x s).2) -> I (shared w) ->
  wp (scan_loans ctx market t_now loans) (fun tr _ _ =>
    Forall (submit_sat (fun tx => exists loan, loan ∈ loans /\
      loan_tx (known I) ctx market t_now loan tx)) tr) w.
Proof.
  intros Hrely HI.
  assert (H : keeps (sends_under I (fun tx => exists loan, loan ∈ loans /\
    loan_tx (known I) ctx market t_now loan tx)) (scan_loans ctx market t_now loans)).
  { apply keeps_for_fold; [apply _|]. intros count loan Hin.
    eapply under_mono; [|by apply scan_loan_under]. eauto. }
  eapply wp_mono; [apply H|]. intros tr r w' [_ Hs]. auto.
Qed.
