(* ===== verification/Progress.v ===== *)
(** Progress of the handlers: on a node that accepts what they simulate and fails
    at most two sends, they submit one transaction for every item that is due. *)

From Stdlib Require Import ZArith Lia.
From stdpp Require Import gmap strings list pretty.
From S2P Require Import Prelude Solana State Effects Logic Rpc Liveness Util ChainReader BankRegistry Config SwbCranker Handlers Promoter Claimer Liquidator Main Footprint Keeper.

Local Open Scope crank_scope.

(** ** An accepting node

    A recovering node whose simulations succeed, reached with keys that sign; reads
    use up no failure. *)
Record accepting {X} `{!Env X} {CR : Crates} (I : Shared -> Prop) (fails : X -> nat) : Prop := {
  ac_node : recovering I fails;
  ac_simulate : forall m x, exists sv x', cl_simulate m x = (inr sv, x') /\
    sv_err sv = None /\ fails x' = fails x;
  ac_account : forall p x, fails (cl_get_account p x).2 = fails x;
  ac_gateway : forall g feeds p x, fails (gw_fetch_update g feeds p x).2 = fails x;
  ac_compile : forall m, v0_compile_error m = None;
  ac_sign : forall m kp, exists s sigs, sign_legacy m [kp] = Some (s :: sigs);
  ac_sign_v0 : forall m kp, exists s sigs, sign_v0 m [kp] = inr (s :: sigs) }.
Arguments ac_node {X _ _ _ _} _.
Arguments ac_simulate {X _ _ _ _} _.
Arguments ac_account {X _ _ _ _} _.
Arguments ac_gateway {X _ _ _ _} _.
Arguments ac_sign_v0 {X _ _ _ _} _.
Arguments ac_compile {X _ _ _ _} _.
Arguments ac_sign {X _ _ _ _} _.

Section progress.
Context {X : Type} `{!Env X} {CR : Crates} {YD : YDelta} {I : Shared -> Prop} {fails : X -> nat}.
Hypothesis node : accepting I fails.
Implicit Types ctx : HandlerContext.

(** A quiet computation that succeeds with a value in [V] and changes nothing that
    matters. *)
Definition yields_going {A} (V : A -> Prop) (k : nat) (m : M X A) (w : World X) : Prop :=
  wp m (fun tr r w' => submits tr = 0%nat /\ (exists a, r = Ok a /\ V a) /\ going I fails k w') w.

(** A successful step: at least one transaction, and failures only used up. *)
Definition step_progress (k : nat) (tr : list Event) (r : outcome bool) (w' : World X) : Prop :=
  (1 <= submits tr)%nat /\ r = Ok true /\ exists k', (k' <= k)%nat /\ going I fails k' w'.

Lemma yields_then {A B} (V : A -> Prop) k (m : M X A) (f : A -> M X B) Q w :
  yields_going V k m w ->
  (forall a w', V a -> going I fails k w' ->
     wp (f a) (fun tr r w'' => forall t0, submits t0 = 0%nat -> Q (t0 ++ tr) r w'') w') ->
  wp (bind m f) Q w.
Proof.
  intros Hm Hf. apply wp_bind. eapply wp_mono; [exact Hm|].
  intros tr r w' (Ht & (a & -> & Ha) & Hg). eapply wp_mono; [by apply Hf|]. auto.
Qed.

(** A simulation succeeds, with the logs of some answer of the node. *)
Lemma simulate_v0_answer ixs luts pk k w :
  going I fails k w ->
  yields_going (fun s => sim_ok s = true /\ exists m x sv x', cl_simulate m x = (inr sv, x') /\
    sim_logs s = default [] (sv_logs sv)) k (@simulate_v0 X _ _ ixs luts pk) w.
Proof.
  intros [Hs Hf]. unfold yields_going, simulate_v0, get_latest_blockhash, read_call.
  wp_step. wp_step. wp_step.
  destruct (rn_blockhash (ac_node node) (ext w)) as (bh & x1 & E1 & F1). rewrite E1 in H.
  injection H as <- <-. apply wp_try_client. cbn beta iota zeta. rewrite (ac_compile node).
  wp_step. unfold simulate_transaction_with_config. wp_step. wp_step.
  match goal with H : cl_simulate ?m _ = _ |- _ =>
    destruct (ac_simulate node m x1) as (sv & x2 & E2 & Hok & F2); cbn [ext] in H;
    rewrite E2 in H; injection H as <- <- end.
  apply wp_try_client. cbn beta iota. wp_step. split; [done|].
  split; [eexists; split; [done|]; cbn [sim_ok sim_logs]; rewrite Hok; split; [done|]; by eexists _, _, _, _|].
  split; [exact Hs|]. cbn [ext]. congruence.
Qed.

Lemma simulate_v0_going ixs luts pk k w :
  going I fails k w ->
  yields_going (fun s => sim_ok s = true) k (@simulate_v0 X _ _ ixs luts pk) w.
Proof.
  intros Hw. eapply wp_mono; [by apply simulate_v0_answer|].
  intros tr r w' (Ht & (a & -> & Hok & _) & Hg). split; [done|]. split; [by exists a|done].
Qed.

(** The productive-crank gate followed by the send. *)
Lemma sim_send_progress rpc label ix pk kp k w :
  going I fails k w -> (k <= 2)%nat ->
  wp (let! sim := @simulate X _ _ rpc [ix] pk in
      if negb (sim_ok sim) then ret false
      else let! sig := send_signed_labeled rpc label [ix] [kp] in ret true)
    (step_progress k) w.
Proof.
  intros Hw Hk. unfold simulate. eapply yields_then; [by apply simulate_v0_going|].
  intros sim w1 -> Hw1. cbn [negb]. wp_step.
  eapply wp_mono; [apply (send_legacy_progress (ac_node node)); [intros m; apply (ac_sign node)|done|done]|].
  intros tr r w2 (Ht & [s ->] & Hg). cbn beta iota. wp_step. rewrite app_nil_r.
  intros t0 H0. split; [rewrite submits_app; lia|by split].
Qed.

Lemma banks_snapshot_going (V : BankRegistry -> Prop) k w :
  (forall s, I s -> V (sh_banks s)) -> going I fails k w ->
  yields_going V k (@banks_snapshot X _) w.
Proof.
  intros HV Hw. unfold yields_going, banks_snapshot.
  eapply (wp_shared_op_going (ac_node node)); [done|done|]. intros w' Hw'. split; [done|].
  split; [|done]. eexists. split; [done|]. apply HV, Hw'.
Qed.

(** The same for the liquidator's bundle. *)
Lemma confirm_send_progress rpc label ixs luts pk kp k w :
  going I fails k w -> (k <= 2)%nat ->
  wp (let! confirm := @simulate_v0 X _ _ ixs luts pk in
      if negb (sim_ok confirm) then ret false
      else let! sig := send_signed_v0_labeled rpc label ixs luts [kp] in ret true)
    (step_progress k) w.
Proof.
  intros Hw Hk. eapply yields_then; [by apply simulate_v0_going|].
  intros sim w1 -> Hw1. cbn [negb]. wp_step.
  eapply wp_mono; [apply (send_v0_progress (ac_node node)); [|done|done]|].
  { intros m. split; [apply (ac_compile node)|apply (ac_sign_v0 node)]. }
  intros tr r w2 (Ht & [s ->] & Hg). cbn beta iota. wp_step. rewrite app_nil_r.
  intros t0 H0. split; [rewrite submits_app; lia|by split].
Qed.

(** The gateways are optional: whatever they answer, there is a bundle. *)
Lemma failover_going c feeds total gs last k w :
  going I fails k w ->
  wp (failover (@fetch_update_via X _ _ c feeds) total gs last) (fun tr r w' =>
    submits tr = 0%nat /\ is_panic r = false /\ going I fails k w') w.
Proof.
  revert last w. induction gs as [|g gs IH]; intros last w Hw; cbn [failover]; [by wp_step|].
  unfold fetch_update_via at 1, gateway_fetch. wp_step. wp_step. wp_step. wp_step.
  pose proof (ac_gateway node g feeds (keypair_pubkey (swb_payer c)) (ext w)) as F.
  rewrite H in F. cbn [snd] in F.
  assert (Hg : going I fails k (mkWorld x' (shared w) (inflight w) (trace w ++ [EvGateway g feeds a]))).
  { destruct Hw as [? ?]. split; [done|]. cbn [ext]. congruence. }
  destruct a as [e|b]; wp_step; [|by wp_step].
  eapply wp_mono; [by apply IH|]. intros tr r w' (Ht & Hr). by split; [exact Ht|].
Qed.

Lemma swb_bundle_going ctx bank k w :
  going I fails k w -> yields_going (fun _ => True) k (swb_bundle ctx bank) w.
Proof.
  intros Hw. unfold yields_going, swb_bundle.
  destruct (negb _); [by wp_step; split; [|split; [eexists|]]|].
  destruct (ctx_swb_cranker ctx) as [c|]; [|by wp_step; split; [|split; [eexists|]]].
  unfold fetch_update_ixs. wp_step. wp_step. eapply wp_mono; [by apply failover_going|].
  intros tr r w' (Ht & Hp & Hg). destruct r; [| |done]; wp_step; rewrite app_nil_r;
    (split; [done|split; [by eexists|done]]).
Qed.

(** *** Walking a list under in-flight claims *)

Lemma submits_exists P tr :
  (1 <= submits tr)%nat -> Forall (submit_sat P) tr -> exists tx r, EvSubmit tx r ∈ tr /\ P tx.
Proof.
  intros Hs Hf. unfold submits in Hs.
  destruct (List.filter is_submit tr) as [|ev l] eqn:E; [simpl in Hs; lia|].
  assert (Hin : In ev (List.filter is_submit tr)) by (rewrite E; by left).
  apply filter_In in Hin as [Hin Hev]. destruct ev; try done.
  exists tx, r. apply list_elem_of_In in Hin. split; [done|].
  rewrite Forall_forall in Hf. by apply (Hf _ Hin).
Qed.

Lemma claim_all_progress {K E} `{Countable K} (L : KeySet K) (key : E -> K) (one : E -> M X bool)
  (P : E -> Transaction -> Prop) (due : E -> Prop) :
  (forall e k w, due e -> going I fails k w -> (k <= 2)%nat -> wp (one e) (step_progress k) w) ->
  (forall e, keeps same_inflight (one e)) ->
  (forall e (w : World X), I (shared w) ->
     wp (one e) (fun tr r w' => sends (P e) w tr (is_panic r) w') w) ->
  forall l acc k w, Forall due l -> going I fails k w -> (k <= 2)%nat ->
  ks_get L (inflight w) = ∅ ->
  wp (for_fold l acc (fun acc e =>
        let! fresh := set_insert L (key e) in
        if negb fresh then ret acc
        else let! res := attempt (one e) in
             set_remove L (key e) ;;
             ret (match res with inr true => S acc | _ => acc end)))
    (fun tr r w' => r = Ok (acc + length l)%nat /\
       (forall e, e ∈ l -> exists tx r', EvSubmit tx r' ∈ tr /\ P e tx)) w.
Proof.
  intros Hone Hfl Hsd l. induction l as [|e l IH]; intros acc k w Hd Hw Hk He; cbn [for_fold].
  { wp_step. split; [f_equal; simpl; lia|set_solver]. }
  apply Forall_cons in Hd as [Hde Hd]. apply wp_bind.
  pose proof (keeps_claim_release L (key e) (ret acc) (one e)
    (fun res => ret (match res with inr true => S acc | _ => acc end))
    (keeps_ret _ acc) (Hfl e) (fun r => keeps_ret _ _) w) as Hback.
  eapply wp_mono; [eapply wp_and; [|exact Hback]|].
  { apply wp_bind, wp_set_insert. rewrite He, bool_decide_true by set_solver. cbn [negb].
    wp_step. wp_step. eapply wp_mono; [eapply wp_and; [apply (Hone e k)|apply Hsd]|]; [done|done|done|apply Hw|].
    intros tr r w1 ((Ht & -> & k' & Hk' & Hg) & Hs). cbn beta iota. apply wp_bind, wp_set_remove.
    wp_step. instantiate (1 := fun tr r w' => r = Ok (S acc) /\
      (exists tx r', EvSubmit tx r' ∈ tr /\ P e tx) /\ exists k', (k' <= k)%nat /\ going I fails k' w').
    rewrite app_nil_r. split; [done|]. split; [by apply submits_exists|]. by exists k'. }
  intros tr r w' ((-> & (tx & r' & Hin & HP) & k' & Hk' & Hg) & Hi). specialize (Hi eq_refl).
  eapply wp_mono; [apply (IH (S acc) k'); [done|done|lia|by rewrite Hi]|].
  intros tr2 r2 w2 (-> & Hall). split; [f_equal; simpl; lia|].
  intros e' [->|He']%elem_of_cons.
  - exists tx, r'. split; [set_solver|done].
  - destruct (Hall e' He') as (tx2 & r2 & Hin2 & HP2). exists tx2, r2. split; [set_solver|done].
Qed.
End progress.

(** ** What is due *)

(** The settle bundle of an entry can be assembled from the market account [d]: none is
    needed, or the lender seat is no sub-vault, or it is the debt bank's vault. *)
Definition settleable `{CR : Crates} `{YD : YDelta} (bank : BankInfo) (d : bytes)
  (entry : PendingMatchedLoan) : Prop :=
  needs_vault_settle entry ->
  exists seat, read_seat_at d (pm_lender_seat_index entry) = Ok seat /\
    (sw_owner_kind seat = OWNER_KIND_SUB_VAULT ->
     sw_owner seat = (global_vault_pda (bi_bank bank)).1).

Section steps.
Context {X : Type} `{!Env X} {CR : Crates} {YD : YDelta} {I : Shared -> Prop} {fails : X -> nat}.
Hypothesis node : accepting I fails.
Implicit Types ctx : HandlerContext.

Lemma sweep_one_progress ctx entry k w :
  (forall s, I s -> is_Some (registry_get (sh_banks s) (pc_debt_mint entry))) ->
  going I fails k w -> (k <= 2)%nat -> wp (sweep_one ctx entry) (step_progress (I:=I) (fails:=fails) k) w.
Proof.
  intros Hb Hw Hk. unfold sweep_one.
  eapply (yields_then (fun b => is_Some (registry_get b (pc_debt_mint entry))));
    [by apply (banks_snapshot_going node)|].
  intros banks w1 [bank Hbank] Hw1. wp_step. wp_step. rewrite Hbank. cbn [o_of_option].
  eapply wp_mono; [by apply (sim_send_progress node)|]. intros tr r w2 (Ht & Hr) t0 H0.
  split; [rewrite submits_app; cbn [app]; lia|done].
Qed.

(** A read of an account the node always has, with data in [P]. *)
Lemma account_data_going (P : bytes -> Prop) pk k w :
  (forall x, exists acct, (cl_get_account pk x).1 = inr acct /\ acct_data acct <> [] /\
     P (acct_data acct)) ->
  going I fails k w ->
  yields_going (I:=I) (fails:=fails) (fun o => exists d, o = Some d /\ P d) k
    (@get_account_data X _ pk) w.
Proof.
  intros Hr [Hs Hf]. unfold yields_going, get_account_data, get_account, read_call.
  wp_step. wp_step. destruct (Hr (ext w)) as (acct & E & Hd & HP). pose proof (ac_account node pk (ext w)) as F.
  rewrite H in E, F. cbn [fst snd] in E, F. subst a. rewrite decide_False by done. wp_step.
  split; [done|]. split; [eexists; split; [done|by eexists]|]. split; [exact Hs|]. cbn [ext]. congruence.
Qed.

Lemma assemble_going ctx market entry mint bank acct k w :
  (forall x, (cl_get_account market x).1 = inr acct) -> acct_data acct <> [] ->
  settleable bank (acct_data acct) entry -> going I fails k w ->
  yields_going (I:=I) (fails:=fails) (fun _ => True) k (assemble_vault_settle ctx market entry mint bank) w.
Proof.
  intros Hr Hd Hset Hw. unfold assemble_vault_settle.
  destruct (_ || _ || _)%bool eqn:Hn.
  { unfold yields_going. wp_step. split; [done|]. split; [by eexists|done]. }
  apply needs_vault_settle_flags in Hn.
  destruct (Hset Hn) as (seat & Hseat & Hv).
  unfold yields_going. eapply yields_then.
  { apply (account_data_going (eq (acct_data acct))); [|done]. intros x. exists acct. by rewrite Hr. }
  intros o w1 (d & -> & <-) Hw1. wp_step. wp_step. wp_step. wp_step. rewrite Hseat.
  assert (Hdone : forall v : option VaultSettleAddrs, wp (@lift X _ (Ok v)) (fun tr r w'' =>
    forall t0, submits t0 = 0%nat -> submits (t0 ++ tr) = 0%nat /\
      (exists a, r = Ok a /\ True) /\ going I fails k w'') w1).
  { intros v. wp_step. intros t0 H0. rewrite app_nil_r. split; [done|]. split; [by eexists|done]. }
  destruct (Z.eqb_spec (sw_owner_kind seat) OWNER_KIND_SUB_VAULT) as [Hk|Hk]; cbn [negb].
  - unfold build_vault_settle_addrs. rewrite decide_False by (rewrite (Hv Hk); auto). apply Hdone.
  - apply (Hdone None).
Qed.

Lemma promote_one_progress ctx market entry bank acct k w :
  (forall s, I s -> registry_get (sh_banks s) (mv_debt_mint market) = Some bank) ->
  (forall x, (cl_get_account (mv_address market) x).1 = inr acct) -> acct_data acct <> [] ->
  settleable bank (acct_data acct) entry -> going I fails k w -> (k <= 2)%nat ->
  wp (promote_one ctx market entry) (step_progress (I:=I) (fails:=fails) k) w.
Proof.
  intros Hb Hr Hd Hset Hw Hk. unfold promote_one.
  eapply (yields_then (fun b => registry_get b (mv_debt_mint market) = Some bank));
    [by apply (banks_snapshot_going node)|].
  intros banks w1 Hbank Hw1. wp_step. wp_step. rewrite Hbank. cbn [o_of_option].
  eapply yields_then; [by eapply assemble_going|].
  intros vs w2 _ Hw2. eapply wp_mono; [by apply (sim_send_progress node)|].
  intros tr r w3 (Ht & Hrest) t1 H1 t0 H0. cbn [app].
  split; [rewrite !submits_app; lia|done].
Qed.
(** *** The liquidator's steps *)

(** The banks of a market are registered, and the keeper's debt account always exists
    with an [enough] balance, which may change. *)
Record funded ctx (market : MarketView) (debt_bank collateral_bank : BankInfo)
  (enough : Z -> Prop) : Prop := {
  fd_banks : forall s, I s ->
    bank_pair (sh_banks s) (mv_debt_mint market) (mv_collateral_mint market)
      = Ok (debt_bank, collateral_bank);
  fd_account : forall x, exists acct balance, (cl_get_account
    (ata_for debt_bank (keypair_pubkey (sg_fee_payer (ctx_signers ctx)))) x).1 = inr acct /\
    spl_token_amount (acct_data acct) = Some balance /\ enough balance }.

Lemma spl_amount_nonempty d b : spl_token_amount d = Some b -> d <> [].
Proof. by intros H ->. Qed.

Lemma pick_going ctx market db cb enough loan k w :
  funded ctx market db cb enough -> going I fails k w ->
  yields_going (I:=I) (fails:=fails) (fun o => exists b, enough b /\ o = repay_for_balance loan b) k
    (@pick_repay_amount X _ _ (ata_for db (keypair_pubkey (sg_fee_payer (ctx_signers ctx)))) loan) w.
Proof.
  intros [_ Ha] Hw. unfold yields_going, pick_repay_amount. eapply yields_then.
  { apply (account_data_going (fun d => exists b, spl_token_amount d = Some b /\ enough b)); [|done].
    intros x. destruct (Ha x) as (acct & b & ? & Hb & ?). exists acct.
    split_and!; [done|by eapply spl_amount_nonempty|by exists b]. }
  intros o w1 (d & -> & b & Hb & Hen) Hw1. wp_step. wp_step. rewrite Hb. cbn [o_of_option]. wp_step.
  intros t0 H0. rewrite app_nil_r. split; [done|]. split; [|done]. eexists. split; [done|by exists b].
Qed.

(** Both actions end alike: pick an amount, confirm, send. *)
Lemma pick_confirm_progress ctx market db cb enough loan label mk swb_ixs luts k w :
  funded ctx market db cb enough -> (forall b, enough b -> repay_for_balance loan b <> None) ->
  going I fails k w -> (k <= 2)%nat ->
  let fee_payer := sg_fee_payer (ctx_signers ctx) in
  wp (let! repay := @pick_repay_amount X _ _ (ata_for db (keypair_pubkey fee_payer)) loan in
      match repay with
      | None => ret false
      | Some repay_atoms_max =>
          let real_bundle := swb_ixs ++ [mk db cb repay_atoms_max] in
          let! confirm := simulate_v0 real_bundle luts (keypair_pubkey fee_payer) in
          if negb (sim_ok confirm) then ret false
          else let! sig := send_signed_v0_labeled (ctx_rpc ctx) label real_bundle luts [fee_payer] in
               ret true
      end) (step_progress (I:=I) (fails:=fails) k) w.
Proof.
  intros Hf Hr Hw Hk fee_payer. eapply yields_then; [by eapply pick_going|].
  intros o w1 (b & Hb & ->) Hw1. specialize (Hr b Hb).
  destruct (repay_for_balance loan b) as [r|]; [|done]. cbv zeta.
  eapply wp_mono; [by apply (confirm_send_progress node)|].
  intros tr r' w2 (Ht & Hrest) t0 H0. split; [rewrite submits_app; lia|done].
Qed.

Lemma settle_progress ctx market loan db cb enough k w :
  funded ctx market db cb enough -> (forall b, enough b -> repay_for_balance loan b <> None) ->
  going I fails k w -> (k <= 2)%nat ->
  wp (try_settle_matured ctx market loan) (step_progress (I:=I) (fails:=fails) k) w.
Proof.
  intros Hf Hr Hw Hk. unfold try_settle_matured.
  eapply (yields_then (fun b => bank_pair b (mv_debt_mint market) (mv_collateral_mint market)
    = Ok (db, cb))); [apply (banks_snapshot_going node); [apply (fd_banks _ _ _ _ _ Hf)|done]|].
  intros banks w1 Hb Hw1. wp_step. wp_step. rewrite Hb. cbn beta iota.
  eapply yields_then; [by apply (swb_bundle_going node)|]. intros [ixs luts] w2 _ Hw2. cbv zeta.
  eapply yields_then; [by apply (simulate_v0_going node)|]. intros sim w3 -> Hw3. cbn [negb].
  eapply wp_mono; [by apply (pick_confirm_progress ctx market db cb enough loan)|].
  intros tr r w4 (Ht & Hrest) t2 H2 t1 H1 t0 H0. cbn [app].
  split; [rewrite !submits_app; lia|done].
Qed.

(** A liquidation is refused, at no cost, exactly when the bonus is below the minimum. *)
Lemma liquidate_progress ctx market loan db cb enough k w :
  funded ctx market db cb enough -> (forall b, enough b -> repay_for_balance loan b <> None) ->
  going I fails k w -> (k <= 2)%nat ->
  wp (try_liquidate_ltv ctx market loan) (fun tr r w' =>
    if (expected_bonus market loan <? min_liquidation_profit_atoms (cfg_thresholds (ctx_cfg ctx)))%Z
    then submits tr = 0%nat /\ r = Ok false /\ going I fails k w'
    else step_progress (I:=I) (fails:=fails) k tr r w') w.
Proof.
  intros Hf Hr Hw Hk. unfold try_liquidate_ltv.
  eapply (yields_then (fun b => bank_pair b (mv_debt_mint market) (mv_collateral_mint market)
    = Ok (db, cb))); [apply (banks_snapshot_going node); [apply (fd_banks _ _ _ _ _ Hf)|done]|].
  intros banks w1 Hb Hw1. wp_step. wp_step. rewrite Hb. cbn beta iota.
  eapply yields_then; [by apply (swb_bundle_going node)|]. intros [ixs luts] w2 _ Hw2. cbv zeta.
  eapply yields_then; [by apply (simulate_v0_going node)|]. intros sim w3 -> Hw3. cbn [negb].
  destruct (_ <? _)%Z.
  { wp_step. intros t2 H2 t1 H1 t0 H0. cbn [app]. rewrite !submits_app, H0, H1, H2. done. }
  eapply wp_mono; [by apply (pick_confirm_progress ctx market db cb enough loan)|].
  intros tr r w4 (Ht & Hrest) t2 H2 t1 H1 t0 H0. cbn [app].
  split; [rewrite !submits_app; lia|done].
Qed.

(** A loan the keeper can and should act on. *)
Definition due_loan ctx (market : MarketView) (t_now : Z) (enough : Z -> Prop)
  (loan : LoanView) : Prop :=
  lv_state loan = LoanState_Active /\ lv_outstanding_debt_atoms loan <> 0%Z /\
  (is_matured (effective_grace (mv_grace_period_seconds market)
     (maturity_extra_buffer (cfg_thresholds (ctx_cfg ctx)))) t_now loan = true \/
   (maybe_ltv_breach loan = true /\
    (min_liquidation_profit_atoms (cfg_thresholds (ctx_cfg ctx)) <= expected_bonus market loan)%Z)) /\
  (forall b, enough b -> repay_for_balance loan b <> None).

Lemma act_progress ctx market loan db cb enough matured ltv k w :
  funded ctx market db cb enough -> (forall b, enough b -> repay_for_balance loan b <> None) ->
  matured = true \/ (ltv = true /\
    (min_liquidation_profit_atoms (cfg_thresholds (ctx_cfg ctx)) <= expected_bonus market loan)%Z) ->
  going I fails k w -> (k <= 2)%nat ->
  wp (try_settle_or_liquidate ctx market loan matured ltv) (step_progress (I:=I) (fails:=fails) k) w.
Proof.
  intros Hf Hr Hd Hw Hk. unfold try_settle_or_liquidate.
  destruct ltv; [|destruct Hd as [->|[? _]]; [by eapply settle_progress|done]].
  wp_step. eapply wp_mono; [by eapply liquidate_progress|]. intros tr r w1.
  destruct (Z.ltb_spec (expected_bonus market loan)
    (min_liquidation_profit_atoms (cfg_thresholds (ctx_cfg ctx)))) as [Hlt|Hge].
  - intros (Ht & -> & Hg). cbn beta iota. destruct Hd as [->|[_ ?]]; [|lia].
    eapply wp_mono; [by eapply settle_progress|]. intros tr2 r2 w2 (Ht2 & Hrest).
    split; [rewrite submits_app; lia|done].
  - intros (Ht & -> & Hg). cbn beta iota. wp_step. rewrite app_nil_r. by split.
Qed.

Lemma act_sends ctx market loan matured ltv (w : World X) :
  I (shared w) ->
  wp (try_settle_or_liquidate ctx market loan matured ltv) (fun tr r w' =>
    sends (fun tx => settle_tx (known I) ctx market loan tx \/
      liquidate_tx (known I) ctx market loan tx) w tr (is_panic r) w') w.
Proof.
  intros HI. assert (Hrely : forall x s, I s -> I (interfere x s).2)
    by apply (rn_interfere (ac_node node)).
  assert (H : keeps (sends_under I (fun tx => settle_tx (known I) ctx market loan tx \/
    liquidate_tx (known I) ctx market loan tx)) (try_settle_or_liquidate ctx market loan matured ltv))
    by (apply settle_or_liquidate_under; auto).
  eapply wp_mono; [apply H|]. intros tr r w' [_ Hs]. by apply Hs.
Qed.
End steps.

(** ** Properties *)

Section progress_properties.
Context {X : Type} `{!Env X} {CR : Crates} {YD : YDelta}.
Implicit Types ctx : HandlerContext.

(** C13. Progress of the claimer: on a node that accepts what is simulated and fails at most
    two sends, while the bank of every claim is registered, the walk over the selected
    claims sweeps every one of them: it hands the node a sweep of each, and counts each as
    swept. *)
Theorem claimer_sweeps_all I fails ctx pending (w : World X) :
  accepting I fails -> I (shared w) -> (fails (ext w) <= 2)%nat -> if_claimer (inflight w) = ∅ ->
  (forall s e, I s -> e ∈ pending -> is_Some (registry_get (sh_banks s) (pc_debt_mint e))) ->
  wp (sweep_all ctx pending) (fun tr r _ => r = Ok (length pending) /\
    forall e, e ∈ pending -> exists tx r', EvSubmit tx r' ∈ tr /\ sweep_tx ctx e tx) w.
Proof.
  intros Hn Hs Hf He Hb.
  apply (claim_all_progress Hn claimer_set claim_key (sweep_one ctx) (sweep_tx ctx)
    (fun e => forall s, I s -> is_Some (registry_get (sh_banks s) (pc_debt_mint e))))
    with (k := fails (ext w)); try done.
  - intros e k w' Hd Hw Hk. by apply (sweep_one_progress Hn).
  - intros e. apply sweep_one_inflight.
  - intros e w' _. apply sweep_one_sends.
  - apply Forall_forall. intros e Hin s HI. by apply (Hb s e).
Qed.

(** C12. Progress of the promoter: on such a node, a market that is not paused, whose account
    decodes and whose debt bank is registered has every one of its pending matched loans
    promoted in one walk: the node is handed a promotion of each, and each is counted,
    provided the vault bundle of each can be assembled where one is due. *)
Theorem promoter_promotes_all I fails ctx market bank acct pending (w : World X) :
  accepting I fails -> I (shared w) -> (fails (ext w) <= 2)%nat -> if_promoter (inflight w) = ∅ ->
  mv_is_paused market = false ->
  (forall s, I s -> registry_get (sh_banks s) (mv_debt_mint market) = Some bank) ->
  (forall x, (cl_get_account (mv_address market) x).1 = inr acct) -> acct_data acct <> [] ->
  decode_pending (mv_address market) (acct_data acct) = Ok pending ->
  Forall (settleable bank (acct_data acct)) pending ->
  wp (promote_market ctx (0, 0)%nat market) (fun tr r _ =>
    r = Ok (length pending, length pending) /\
    forall e, e ∈ pending -> exists tx r', EvSubmit tx r' ∈ tr /\
      promotion_tx ctx (mv_address market) e tx) w.
Proof.
  intros Hn Hs Hf He Hp Hb Hr Hd Hpend Hset. unfold promote_market. rewrite Hp.
  wp_step. wp_step. unfold read_pending_matched_loans, market_data. wp_step. wp_step.
  assert (Hread : forall x, exists a, (cl_get_account (mv_address market) x).1 = inr a /\
    acct_data a <> [] /\ acct_data acct = acct_data a) by (intros x; exists acct; by rewrite Hr).
  eapply wp_mono; [apply (wp_and _ _ _ _ (account_data_going Hn _ (mv_address market)
    (fails (ext w)) w Hread (conj Hs eq_refl)) (keeps_quiet_inflight _ (quiet_get_account_data _) w))|].
  intros tr r w1 ((Ht & (o & -> & d & -> & <-) & Hg) & Hi). cbn beta iota in *. specialize (Hi eq_refl).
  wp_step. cbn [o_of_option]. wp_step. rewrite Hpend. cbn beta iota. wp_step.
  eapply wp_mono; [eapply (claim_all_progress Hn promoter_set
    (fun e => (pm_market e, pm_sequence e)) (promote_one ctx market)
    (promotion_tx ctx (mv_address market)) (settleable bank (acct_data acct)))
    with (k := fails (ext w))|]; try done.
  - intros e k w' Hde Hw Hk. by eapply (promote_one_progress Hn).
  - intros e. apply promote_one_inflight.
  - intros e w' _. apply promote_one_sends.
  - by rewrite Hi.
  - intros tr2 r2 w2 (-> & Hall). cbn beta iota. wp_step. split; [done|].
    intros e Hin. destruct (Hall e Hin) as (tx & r' & Htx & HP). exists tx, r'. split; [set_solver|done].
Qed.

(** C11. Progress of the liquidator: on such a node, while both banks of the market are
    registered and the keeper's account always holds enough for a repayment of each loan,
    a walk over loans that are active, owe something and are matured or profitably
    breached acts on every one of them: the node is handed a settlement or a liquidation of
    each, with a registry's banks and for a balance of the keeper as [scan_loans_sound]
    says, and each is counted. *)
Theorem liquidator_acts_on_due I fails ctx market t_now loans db cb enough (w : World X) :
  accepting I fails -> I (shared w) -> (fails (ext w) <= 2)%nat -> if_liquidator (inflight w) = ∅ ->
  funded (I:=I) ctx market db cb enough -> Forall (due_loan ctx market t_now enough) loans ->
  wp (scan_loans ctx market t_now loans) (fun tr r _ => r = Ok (length loans) /\
    forall loan, loan ∈ loans -> exists tx r', EvSubmit tx r' ∈ tr /\
      (settle_tx (known I) ctx market loan tx \/
       liquidate_tx (known I) ctx market loan tx)) w.
Proof.
  intros Hn Hs Hf He Hfd Hd. set (grace := effective_grace (mv_grace_period_seconds market)
    (maturity_extra_buffer (cfg_thresholds (ctx_cfg ctx)))).
  set (one := fun loan => try_settle_or_liquidate ctx market loan (is_matured grace t_now loan)
    (maybe_ltv_breach loan)).
  unfold scan_loans. apply (wp_for_fold_ext _ (fun count loan =>
    let! fresh := set_insert liquidator_set (lv_address loan) in
    if negb fresh then ret count
    else let! res := attempt (one loan) in
         set_remove liquidator_set (lv_address loan) ;;
         ret (match res with inr true => S count | _ => count end))).
  { intros count loan Hin. rewrite Forall_forall in Hd.
    destruct (Hd loan Hin) as (H1 & H2 & H3 & _). unfold scan_loan. fold grace in H3 |- *.
    rewrite H1, Z.eqb_refl. cbn [negb orb]. rewrite (proj2 (Z.eqb_neq _ _)) by done. cbv zeta.
    destruct (is_matured grace t_now loan) eqn:E1, (maybe_ltv_breach loan) eqn:E2; cbn [negb andb];
      [unfold act_on_loan, one; by rewrite E1, E2..|by destruct H3 as [|[]]]. }
  apply (claim_all_progress Hn liquidator_set lv_address one
    (fun loan tx => settle_tx (known I) ctx market loan tx \/
      liquidate_tx (known I) ctx market loan tx)
    (due_loan ctx market t_now enough)) with (k := fails (ext w)); try done.
  - intros e k w' (_ & _ & Hdue & Hr) Hw Hk. by eapply (act_progress Hn).
  - intros e. unfold one, try_settle_or_liquidate. keeps_go; auto using settle_inflight, liquidate_inflight.
  - intros e w' HI. by apply (act_sends Hn).
Qed.
End progress_properties.
