(* ===== verification/CrankProgress.v ===== *)
(** Progress of the match cranker and of the curator service: on a node that
    accepts what they simulate and fails at most two sends, every crossed market is
    cranked and every fee that is due is claimed. *)

From Stdlib Require Import ZArith Lia.
From stdpp Require Import gmap strings list pretty.
From S2P Require Import Prelude Solana State Effects Logic Rpc Liveness Util ChainReader BankRegistry Config Signer SwbCranker Handlers Promoter MatchCranker CuratorFeeClaimer Progress.

Local Open Scope crank_scope.

(** ** Walks that skip *)

Section walks.
Context {X : Type} `{!Env X} {CR : Crates} {YD : YDelta} {I : Shared -> Prop} {fails : X -> nat}.

(** What a step on a due item leaves: one more counted, one transaction, the set as it
    was, and failures only used up. *)
Definition due_post {A E} (succ : A -> A) (P : E -> Transaction -> Prop) (acc : A) (e : E) k
  (w : World X) (tr : list Event) (r : outcome A) (w' : World X) : Prop :=
  r = Ok (succ acc) /\ (exists tx r', EvSubmit tx r' ∈ tr /\ P e tx) /\
  inflight w' = inflight w /\ exists k', (k' <= k)%nat /\ going I fails k' w'.

(** What the walk counts. *)
Definition counted {A E} (succ : A -> A) (skip : A -> E -> A) (due : E -> bool) : A -> list E -> A :=
  foldl (fun acc e => if due e then succ acc else skip acc e).

(** A walk that steps on the due items and only counts the others. *)
Lemma walk_progress {A E} (succ : A -> A) (skip : A -> E -> A) (due : E -> bool) (body : A -> E -> M X A)
  (P : E -> Transaction -> Prop) (clear : Inflight -> Prop) l :
  (forall acc e, e ∈ l -> due e = false -> body acc e = ret (skip acc e)) ->
  (forall acc e k w, e ∈ l -> due e = true -> going I fails k w -> (k <= 2)%nat ->
     clear (inflight w) -> wp (body acc e) (due_post succ P acc e k w) w) ->
  forall acc k w, going I fails k w -> (k <= 2)%nat -> clear (inflight w) ->
  wp (for_fold l acc body) (fun tr r w' =>
    r = Ok (counted succ skip due acc l) /\
    forall e, e ∈ l -> due e = true -> exists tx r', EvSubmit tx r' ∈ tr /\ P e tx) w.
Proof.
  induction l as [|e l IH]; intros Hskip Hstep acc k w Hw Hk Hc; cbn [for_fold].
  { wp_step. split; [done|]. intros e He. by apply not_elem_of_nil in He. }
  assert (IH' := fun acc k w => IH (fun a x Hx => Hskip a x (list_elem_of_further _ _ _ Hx))
    (fun a x k w Hx => Hstep a x k w (list_elem_of_further _ _ _ Hx)) acc k w). clear IH.
  wp_step. unfold counted. cbn [foldl]. destruct (due e) eqn:Hd.
  - eapply wp_mono; [apply (Hstep acc e k); [by left|done..]|].
    intros tr r w1 (-> & (tx & r' & Hin & HP) & Hi & k' & Hk' & Hg).
    eapply wp_mono; [apply (IH' (succ acc) k'); [done|lia|by rewrite Hi]|].
    intros tr2 r2 w2 (-> & Hall). split; [done|].
    intros e' [->|He']%elem_of_cons Hd'; [exists tx, r'; split; [set_solver|done]|].
    destruct (Hall e' He' Hd') as (tx2 & r2 & ? & ?). exists tx2, r2. split; [set_solver|done].
  - rewrite Hskip by (by left || done). wp_step.
    eapply wp_mono; [by apply (IH' (skip acc e) k)|]. intros tr2 r2 w2 (-> & Hall). split; [done|].
    intros e' [->|He']%elem_of_cons Hd'; [congruence|].
    destruct (Hall e' He' Hd') as (tx2 & r2 & ? & ?). exists tx2, r2. split; [set_solver|done].
Qed.

Lemma counted_length {E} (due : E -> bool) l n :
  counted S (fun acc _ => acc) due n l = (n + length (List.filter due l))%nat.
Proof.
  revert n. induction l as [|e l IH]; intros n; cbn [counted foldl List.filter]; [simpl; lia|].
  fold (counted S (fun acc (_ : E) => acc) due). rewrite IH. destruct (due e); simpl; lia.
Qed.

(** One item under its in-flight key, when the set is empty. *)
Lemma claim_release_progress {A E K} `{Countable K} (L : KeySet K) (k0 : K) (one : M X bool)
  (succ : A -> A) (P : E -> Transaction -> Prop) (acc : A) (e : E) (skip : M X A)
  (rest : Error + bool -> M X A) k w :
  rest (inr true) = ret (succ acc) ->
  keeps same_inflight skip -> keeps same_inflight one -> (forall r, keeps same_inflight (rest r)) ->
  keeps (sends (P e)) one -> wp one (step_progress (I:=I) (fails:=fails) k)
    (mkWorld (ext w) (shared w) (ks_put L ({[k0]} ∪ ks_get L (inflight w)) (inflight w)) (trace w)) ->
  ks_get L (inflight w) = ∅ ->
  wp (let! fresh := set_insert L k0 in
      if negb fresh then skip
      else let! res := attempt one in set_remove L k0 ;; rest res)
    (due_post succ P acc e k w) w.
Proof.
  intros Hrest Hskip Hone Hr Hs Hp He.
  pose proof (keeps_claim_release L k0 skip one rest Hskip Hone Hr w) as Hback.
  eapply wp_mono; [eapply wp_and; [|exact Hback]|].
  { apply wp_bind, wp_set_insert. rewrite He, bool_decide_true by set_solver. cbn [negb].
    wp_step. wp_step. rewrite He in Hp. eapply wp_mono; [eapply wp_and; [exact Hp|apply Hs]|].
    intros tr r w1 ((Ht & -> & k' & Hk' & Hg) & Hsn). cbn beta iota. apply wp_bind, wp_set_remove.
    rewrite Hrest. wp_step. rewrite app_nil_r.
    instantiate (1 := fun tr r w' => r = Ok (succ acc) /\
      (exists tx r', EvSubmit tx r' ∈ tr /\ P e tx) /\
      exists k', (k' <= k)%nat /\ going I fails k' w').
    split; [done|]. split; [by apply submits_exists|]. by exists k'. }
  intros tr r w' ((-> & Hx & Hg) & Hi). split_and!; auto.
Qed.
End walks.

(** ** The match cranker *)

(** The market account always holds the same crossed book. *)
Definition crossed_book {X} `{!Env X} {CR : Crates} {YD : YDelta} (market : MarketView) : Prop :=
  exists acct, (forall x, (cl_get_account (mv_address market) x).1 = inr acct) /\
    acct_data acct <> [] /\ rate_crossed (acct_data acct) = Ok true.

(** Both banks of the market are registered. *)
Definition banked (I : Shared -> Prop) (market : MarketView) : Prop :=
  forall s, I s -> is_Some (registry_get (sh_banks s) (mv_debt_mint market)) /\
    is_Some (registry_get (sh_banks s) (mv_collateral_mint market)).

Section match_steps.
Context {X : Type} `{!Env X} {CR : Crates} {YD : YDelta} {I : Shared -> Prop} {fails : X -> nat}.
Hypothesis node : accepting I fails.
(** No simulation reports zero fills. *)
Hypothesis fills : forall m x sv x', cl_simulate m x = (inr sv, x') ->
  fills_pass (default [] (sv_logs sv)) = true.
Implicit Types ctx : HandlerContext.

Lemma match_bundle_going ctx db cb k w :
  going I fails k w ->
  yields_going (I:=I) (fails:=fails) (fun _ => True) k (@match_swb_bundle X _ _ ctx db cb) w.
Proof.
  intros Hw. unfold yields_going, match_swb_bundle.
  destruct (ctx_swb_cranker ctx) as [c|]; [|by wp_step; split; [|split; [eexists|]]].
  destruct (_ ++ _) as [|f fs]; [by wp_step; split; [|split; [eexists|]]|].
  unfold fetch_update_ixs. wp_step. wp_step. eapply wp_mono; [by apply (failover_going node)|].
  intros tr r w' (Ht & Hp & Hg). destruct r; [| |done]; wp_step; rewrite app_nil_r;
    (split; [done|split; [by eexists|done]]).
Qed.

Lemma crank_one_progress ctx market k w :
  banked I market -> going I fails k w -> (k <= 2)%nat ->
  wp (crank_one ctx market) (step_progress (I:=I) (fails:=fails) k) w.
Proof.
  intros Hb Hw Hk. unfold crank_one.
  eapply (yields_then (fun b => is_Some (registry_get b (mv_debt_mint market)) /\
    is_Some (registry_get b (mv_collateral_mint market)))); [by apply (banks_snapshot_going node)|].
  intros banks w1 [[db Hdb] [cb Hcb]] Hw1. rewrite Hdb, Hcb. cbn [o_of_option].
  wp_step. wp_step. wp_step. wp_step.
  eapply yields_then; [by apply match_bundle_going|]. intros [ixs luts] w2 _ Hw2. cbv zeta.
  eapply yields_then; [by apply (simulate_v0_answer node)|].
  intros sim w3 (Hok & m & x & sv & x' & Es & Hl) Hw3. rewrite Hok. cbn [negb].
  apply fills in Es. rewrite <-Hl in Es. unfold fills_pass in Es.
  apply negb_true_iff, bool_decide_eq_false in Es.
  set (send := bind (send_signed_v0_labeled _ _ _ _ _) _).
  assert (Hsend : match parse_match_crank_fills (sim_logs sim) with
                  | Some 0%Z => ret false | _ => send end = send).
  { by destruct (parse_match_crank_fills _) as [[]|]. }
  rewrite Hsend. unfold send. wp_step.
  eapply wp_mono; [apply (send_v0_progress (ac_node node)); [|done|done]|].
  { intros m'. split; [apply (ac_compile node)|apply (ac_sign_v0 node)]. }
  intros tr r w4 (Ht & [s ->] & Hg). cbn beta iota. wp_step. rewrite app_nil_r.
  intros t2 H2 t1 H1 t0 H0. cbn [app]. split; [rewrite !submits_app; lia|by split].
Qed.

Lemma match_scan_progress ctx market acc k w :
  banked I market -> crossed_book market -> going I fails k w -> (k <= 2)%nat ->
  if_match (inflight w) = ∅ ->
  wp (match_scan_market ctx market)
    (due_post (I:=I) (fails:=fails) (fun _ => true)
       (fun m => match_tx ctx (mv_address m)) acc market k w) w.
Proof.
  intros Hb (acct & Hr & Hd & Hc) Hw Hk He. unfold match_scan_market. wp_step.
  assert (Hread : yields_going (I:=I) (fails:=fails) (eq true) k
    (market_is_rate_crossed (mv_address market)) w).
  { unfold market_is_rate_crossed, market_data, yields_going. wp_step. wp_step.
    eapply wp_mono; [apply (account_data_going node (eq (acct_data acct))); [|exact Hw]|].
    { intros x. exists acct. by rewrite Hr. }
    intros tr r w1 (Ht & (o & -> & d & -> & <-) & Hg). cbn beta iota. wp_step. cbn [o_of_option].
    wp_step. rewrite Hc, !app_nil_r. split; [done|]. split; [by eexists|done]. }
  eapply wp_mono; [apply (wp_and _ _ _ _ Hread (keeps_quiet_inflight _ (quiet_rate_crossed _) w))|].
  intros tr r w1 ((Ht & (b & -> & <-) & Hg) & Hi). cbn beta iota. specialize (Hi eq_refl).
  eapply wp_mono; [eapply (claim_release_progress (I:=I) (fails:=fails) match_set
    (mv_address market) (crank_one ctx market) (fun _ => true)
    (fun m => match_tx ctx (mv_address m)) acc market (ret false) return_result k)|].
  - done.
  - apply keeps_ret, _.
  - apply crank_one_inflight.
  - intros res. apply keeps_lift, _.
  - apply crank_one_sends.
  - apply crank_one_progress; [done| |done]. exact Hg.
  - cbn. by rewrite Hi.
  - intros tr2 r2 w2 (-> & (tx & r' & Hin & HP) & Hi2 & Hg2). split_and!; [done| |congruence|done].
    exists tx, r'. split; [set_solver|done].
Qed.
End match_steps.

(** ** The curator service *)

Section curator_steps.
Context {X : Type} `{!Env X} {CR : Crates} {YD : YDelta} {I : Shared -> Prop} {fails : X -> nat}.
Hypothesis node : accepting I fails.
Implicit Types ctx : HandlerContext.

(** A sub-vault whose fee is to be claimed, and with which key. *)
Definition fee_due ctx (v : SubVaultView) : bool :=
  negb (vw_vault_is_paused v) &&
  (min_curator_fee_claim_atoms (cfg_thresholds (ctx_cfg ctx)) <=? vw_accumulated_curator_fee_atoms v)%Z &&
  match sg_curators (ctx_signers ctx) !! vw_curator v with Some _ => true | None => false end.

(** The vault's bank is the one registered for its mint. *)
Definition vault_banked (banks : BankRegistry) (v : SubVaultView) : Prop :=
  exists bank, registry_get banks (vw_vault_mint v) = Some bank /\ bi_bank bank = vw_vault_bank v.

Lemma claim_one_progress ctx v banks signer k w :
  vault_banked banks v -> going I fails k w -> (k <= 2)%nat ->
  wp (claim_one ctx v banks signer) (step_progress (I:=I) (fails:=fails) k) w.
Proof.
  intros (bank & Hb & Heq) Hw Hk. unfold claim_one. rewrite Hb. cbn [o_of_option].
  wp_step. wp_step. rewrite decide_False by auto. wp_step.
  eapply wp_mono; [apply (send_legacy_progress (ac_node node)); [intros m; apply (ac_sign node)|done|done]|].
  intros tr r w2 (Ht & [s ->] & Hg). cbn beta iota. wp_step. rewrite app_nil_r.
  split_and!; [lia|done|exact Hg].
Qed.

(** What the walk counts of a sub-vault that is not due. *)
Definition skip_fee ctx (acc : nat * nat) (v : SubVaultView) : nat * nat :=
  if vw_vault_is_paused v then acc
  else if (vw_accumulated_curator_fee_atoms v
           <? min_curator_fee_claim_atoms (cfg_thresholds (ctx_cfg ctx)))%Z then acc
  else (acc.1, S acc.2).

Lemma claim_sub_vault_skips ctx banks acc v :
  fee_due ctx v = false -> @claim_sub_vault X _ _ _ ctx banks acc v = ret (skip_fee ctx acc v).
Proof.
  unfold fee_due, claim_sub_vault, skip_fee. rewrite Z.leb_antisym.
  destruct (vw_vault_is_paused v); [done|]. destruct (_ <? _)%Z; [done|].
  by destruct (sg_curators _ !! _).
Qed.

Lemma counted_fees ctx l acc : exists skipped,
  counted (fun c : nat * nat => (S c.1, c.2)) (skip_fee ctx) (fee_due ctx) acc l =
    ((acc.1 + length (List.filter (fee_due ctx) l))%nat, skipped).
Proof.
  revert acc. induction l as [|v l IH]; intros acc.
  { exists acc.2. cbn. destruct acc. cbn. by rewrite Nat.add_0_r. }
  unfold counted. cbn [foldl]. fold (counted (fun c : nat * nat => (S c.1, c.2)) (skip_fee ctx) (fee_due ctx)).
  cbn [List.filter]. destruct (fee_due ctx v).
  - destruct (IH (S acc.1, acc.2)) as [m ->]. exists m. cbn. f_equal. lia.
  - destruct (IH (skip_fee ctx acc v)) as [m ->]. exists m.
    assert ((skip_fee ctx acc v).1 = acc.1) as ->; [|done].
    unfold skip_fee. by repeat case_match.
Qed.

Lemma claim_sub_vault_progress ctx banks acc v k w :
  fee_due ctx v = true -> vault_banked banks v -> going I fails k w -> (k <= 2)%nat ->
  if_curator (inflight w) = ∅ ->
  wp (claim_sub_vault ctx banks acc v) (due_post (I:=I) (fails:=fails) (fun c => (S c.1, c.2))
    (fun v tx => exists signer, sg_curators (ctx_signers ctx) !! vw_curator v = Some signer /\
       fee_claim_tx ctx v banks signer tx) acc v k w) w.
Proof.
  intros Hd Hb Hw Hk He. unfold fee_due in Hd. rewrite Z.leb_antisym in Hd. unfold claim_sub_vault.
  destruct (vw_vault_is_paused v); [done|]. destruct (_ <? _)%Z; [done|].
  destruct (sg_curators _ !! _) as [signer|] eqn:Hs; [|done].
  eapply (claim_release_progress (I:=I) (fails:=fails) curator_set _ (claim_one ctx v banks signer)
    (fun c => (S c.1, c.2))); [done|apply keeps_ret, _|apply claim_one_inflight|..|done].
  - intros res. apply keeps_ret, _.
  - eapply sends_mono; [|apply claim_one_sends]. intros tx Htx. by exists signer.
  - by apply claim_one_progress.
Qed.
End curator_steps.

(** ** Properties *)

Section crank_progress_properties.
Context {X : Type} `{!Env X} {CR : Crates} {YD : YDelta}.
Implicit Types ctx : HandlerContext.

(** C14. Progress of the match cranker: on a node that accepts what is simulated, never
    reports zero fills and fails at most two sends, a walk over markets whose books are
    crossed and whose banks are registered cranks every one that is not paused: the node
    is handed a crank of each, and each is counted. *)
Theorem match_cranks_all_crossed I fails ctx markets (w : World X) :
  accepting I fails -> I (shared w) -> (fails (ext w) <= 2)%nat -> if_match (inflight w) = ∅ ->
  (forall m x sv x', cl_simulate m x = (inr sv, x') ->
     fills_pass (default [] (sv_logs sv)) = true) ->
  (forall market, market ∈ markets -> mv_is_paused market = false ->
     banked I market /\ crossed_book market) ->
  let open := List.filter (fun m => negb (mv_is_paused m)) markets in
  wp (match_markets ctx markets) (fun tr r _ => r = Ok (length open) /\
    forall market, market ∈ markets -> mv_is_paused market = false ->
      exists tx r', EvSubmit tx r' ∈ tr /\ match_tx ctx (mv_address market) tx) w.
Proof.
  intros Hn Hs Hf He Hfills Hm open. unfold match_markets.
  eapply wp_mono; [eapply (walk_progress (I:=I) (fails:=fails) S (fun acc _ => acc) (fun m => negb (mv_is_paused m)) _
    (fun m => match_tx ctx (mv_address m)) (fun i => if_match i = ∅)) with (k := fails (ext w))|];
    try done.
  - intros acc market _ Hp. apply negb_false_iff in Hp. by rewrite Hp.
  - intros acc market k w' Hin Hp Hw Hk Hc. apply negb_true_iff in Hp. rewrite Hp.
    destruct (Hm market Hin Hp) as [Hb Hx]. wp_step. wp_step.
    eapply wp_mono; [by apply (match_scan_progress Hn Hfills ctx market false k)|].
    intros tr r w1 (-> & Htx & Hi & Hg). wp_step. rewrite app_nil_r. by split_and!.
  - intros tr r w' (-> & Hall). split.
    + f_equal. by rewrite counted_length.
    + intros market Hin Hp. apply Hall; [done|by rewrite Hp].
Qed.

(** C15. Progress of the curator service: on such a node, a walk over sub-vaults claims
    the fee of every one that is not paused, has accrued the configured floor and whose
    curator's key is held, when its bank is the registered one: the node is handed the
    claim of each. *)
Theorem curator_claims_all_due I fails ctx banks sub_vaults (w : World X) :
  accepting I fails -> I (shared w) -> (fails (ext w) <= 2)%nat -> if_curator (inflight w) = ∅ ->
  (forall v, v ∈ sub_vaults -> fee_due ctx v = true -> vault_banked banks v) ->
  wp (claim_sub_vaults ctx banks sub_vaults) (fun tr r _ =>
    (exists skipped, r = Ok (length (List.filter (fee_due ctx) sub_vaults), skipped)) /\
    forall v, v ∈ sub_vaults -> fee_due ctx v = true -> exists tx r' signer,
      sg_curators (ctx_signers ctx) !! vw_curator v = Some signer /\
      EvSubmit tx r' ∈ tr /\ fee_claim_tx ctx v banks signer tx) w.
Proof.
  intros Hn Hs Hf He Hb.
  assert (Hstep : forall acc v k (w : World X), v ∈ sub_vaults -> fee_due ctx v = true ->
    going I fails k w -> (k <= 2)%nat -> if_curator (inflight w) = ∅ ->
    wp (claim_sub_vault ctx banks acc v) (due_post (I:=I) (fails:=fails)
      (fun c => (S c.1, c.2)) (fun v tx => exists signer,
         sg_curators (ctx_signers ctx) !! vw_curator v = Some signer /\
         fee_claim_tx ctx v banks signer tx) acc v k w) w).
  { intros acc v k w' Hin Hd Hw Hk Hc. by apply (claim_sub_vault_progress Hn); auto. }
  eapply wp_mono; [eapply (walk_progress (I:=I) (fails:=fails) (fun c => (S c.1, c.2))
    (skip_fee ctx) (fee_due ctx) _ (fun v tx => exists signer,
         sg_curators (ctx_signers ctx) !! vw_curator v = Some signer /\
         fee_claim_tx ctx v banks signer tx) (fun i => if_curator i = ∅)) with (k := fails (ext w))|];
    try done.
  - intros acc v _ Hd. by apply claim_sub_vault_skips.
  - intros tr r w' (-> & Hall). split.
    + destruct (counted_fees ctx sub_vaults (0, 0)%nat) as [m ->]. by exists m.
    + intros v Hin Hd. destruct (Hall v Hin Hd) as (tx & r' & ? & signer & ? & ?).
      by exists tx, r', signer.
Qed.
End crank_progress_properties.
