(* ===== verification/Boot.v ===== *)
(** Progress of the boot: on a node that answers what it holds and fails at most two
    sends, with nobody else running yet, [main] starts the process exactly when the
    markets and the accounts of their banks agree. *)

From Stdlib Require Import ZArith Lia.
From stdpp Require Import gmap strings list.
From S2P Require Import Prelude Solana State Effects Logic Rpc Liveness Util ChainReader BankRegistry Config Signer SwbCranker Metrics Handlers Promoter Claimer CuratorFeeClaimer MatchCranker Liquidator Progress Main.

Local Open Scope crank_scope.

(** ** An honest node, before any task runs

    [fails x] counts the transient failures to come and [accts x] are the accounts; only
    a send changes them. A batched read is answered up to [limit] accounts (100 on the
    public RPC nodes). [read] is what the node holds of the banks and the mints of the
    markets it lists, which no send of the boot changes. *)
Record honest {X} `{!Env X} {CR : Crates} {YD : YDelta} (limit : nat) (fails : X -> nat)
  (accts : X -> Pubkey -> option Account) (program : Pubkey)
  (listing : list (Pubkey * Account)) (ms : list MarketView)
  (read : Pubkey -> option Account) : Prop := {
  hn_recovers : recovering (fun s => sh_stop s = false) fails;
  hn_alone : forall x s, (interfere x s).2 = s /\ accts (interfere x s).1 = accts x;
  hn_now : forall x, fails (instant_now x).2 = fails x /\ accts (instant_now x).2 = accts x;
  hn_listing : forall x, exists x',
    cl_get_program_accounts program [discriminator_filter MARKET_FIXED_DISCRIMINANT] x
      = (inr listing, x') /\ fails x' = fails x /\ accts x' = accts x;
  hn_accounts : forall ps x, (length ps <= limit)%nat -> exists x',
    cl_get_multiple_accounts ps x = (inr (map (accts x) ps), x') /\
    fails x' = fails x /\ accts x' = accts x;
  hn_markets : decode_markets listing = Ok ms;
  hn_read : forall x p, of_pairs (market_bindings ms) p -> accts x p = read p;
  hn_slot : forall x, exists n, (cl_get_slot x).1 = inr n;
  hn_sign : forall m kp, exists s sigs, sign_legacy m [kp] = Some (s :: sigs) }.
Arguments hn_recovers {X _ _ _ _ _ _ _ _ _ _} _.
Arguments hn_alone {X _ _ _ _ _ _ _ _ _ _} _.
Arguments hn_now {X _ _ _ _ _ _ _ _ _ _} _.
Arguments hn_listing {X _ _ _ _ _ _ _ _ _ _} _.
Arguments hn_accounts {X _ _ _ _ _ _ _ _ _ _} _.
Arguments hn_markets {X _ _ _ _ _ _ _ _ _ _} _.
Arguments hn_read {X _ _ _ _ _ _ _ _ _ _} _.
Arguments hn_slot {X _ _ _ _ _ _ _ _ _ _} _.
Arguments hn_sign {X _ _ _ _ _ _ _ _ _ _} _.

(** The markets bind no mint twice, and the accounts of every pair agree with it. *)
Definition bootable {CR : Crates} (read : Pubkey -> option Account) (mp : Pubkey)
  (ms : list MarketView) : Prop :=
  consistent (market_bindings ms) /\
  forall mint bank, (mint, bank) ∈ market_bindings ms -> is_Some (resolved read mp mint bank).

(** The registry of the markets. *)
Definition registry_of {CR : Crates} (read : Pubkey -> option Account) (mp : Pubkey)
  (ms : list MarketView) (reg : BankRegistry) : Prop :=
  forall mint b, registry_get reg mint = Some b <->
    exists bank, (mint, bank) ∈ market_bindings ms /\ resolved read mp mint bank = Some b.

Section boot.
Context {X : Type} `{!Env X} {CR : Crates} {YD : YDelta}.
Context {limit : nat} {fails : X -> nat} {accts : X -> Pubkey -> option Account} {program : Pubkey}
  {listing : list (Pubkey * Account)} {ms : list MarketView} {read : Pubkey -> option Account}.
Hypothesis node : honest limit fails accts program listing ms read.
(** The markets are over few enough mints for one batched read: the boot does not chunk. *)
Hypothesis few : (size (list_to_set (map fst (market_bindings ms)) : gset Pubkey) <= limit)%nat.

(** Nothing of the node has changed since the start. *)
Definition fresh (k : nat) (A : Pubkey -> option Account) (x : X) : Prop :=
  fails x = k /\ accts x = A.

(** The node recovers whatever is asked of the memory, as long as the flag is down. *)
Lemma recovering_with (I : Shared -> Prop) :
  (forall s, I s -> sh_stop s = false) -> recovering I fails.
Proof.
  intros HI. pose proof (hn_recovers node) as Hn. constructor.
  - done.
  - intros x s Hs. destruct (rn_interfere Hn x s (HI s Hs)) as [_ Hf].
    destruct (hn_alone node x s) as [-> _]. done.
  - apply (rn_blockhash Hn).
  - apply (rn_status Hn).
  - apply (rn_sleep Hn).
  - apply (rn_send Hn).
Qed.

(** An access to the shared memory: nobody interferes. *)
Lemma wp_shared_op_alone {A} (f : Shared -> A * Shared) k Ac
  (Q : list Event -> outcome A -> World X -> Prop) w :
  sh_stop (shared w) = false -> fresh k Ac (ext w) ->
  (forall w', shared w' = (f (shared w)).2 -> fresh k Ac (ext w') ->
     Q [] (Ok (f (shared w)).1) w') ->
  wp (shared_op f) Q w.
Proof.
  intros Hs [Hf Ha] HQ. apply wp_shared_op. intros x' s' E.
  pose proof (rn_interfere (hn_recovers node) (ext w) (shared w) Hs) as [_ H1].
  destruct (hn_alone node (ext w) (shared w)) as [H2 H3]. rewrite E in H1, H2, H3.
  cbn [fst snd] in *. subst s'. apply HQ; [done|]. split; cbn [ext]; congruence.
Qed.

(** The same for an access that reads the clock. *)
Lemma wp_shared_op_at_alone {A} (f : Instant -> Shared -> A * Shared) k Ac
  (Q : list Event -> outcome A -> World X -> Prop) w :
  sh_stop (shared w) = false -> fresh k Ac (ext w) ->
  (forall now w', shared w' = (f now (shared w)).2 -> fresh k Ac (ext w') ->
     Q [] (Ok (f now (shared w)).1) w') ->
  wp (shared_op_at f) Q w.
Proof.
  intros Hs [Hf Ha] HQ. apply wp_shared_op_at. intros x1 s1 now x2 E1 E2.
  pose proof (rn_interfere (hn_recovers node) (ext w) (shared w) Hs) as [_ H1].
  destruct (hn_alone node (ext w) (shared w)) as [H2 H3]. rewrite E1 in H1, H2, H3.
  pose proof (hn_now node x1) as [H4 H5]. rewrite E2 in H4, H5.
  cbn [fst snd] in *. subst s1. apply HQ; [done|]. split; cbn [ext]; congruence.
Qed.

(** *** Discovery *)

Lemma refresh_markets_boot cr k Ac w :
  cr_program_id cr = program -> sh_stop (shared w) = false -> fresh k Ac (ext w) ->
  wp (refresh_markets cr) (fun tr r w' => submits tr = 0%nat /\ r = Ok ms /\
    sh_stop (shared w') = false /\ fresh k Ac (ext w')) w.
Proof.
  intros Hp Hs Hf. unfold refresh_markets, fetch_markets, get_program_accounts,
    get_program_accounts_with_config, read_call.
  wp_step. wp_step. wp_step. wp_step. wp_step. rewrite Hp in H.
  destruct (hn_listing node (ext w)) as (x1 & E & F1 & A1). rewrite E in H. injection H as <- <-.
  apply wp_try_client. cbn beta iota delta [ocontext app]. wp_step. rewrite (hn_markets node).
  assert (Hf1 : fresh k Ac x1) by (destruct Hf; split; congruence).
  case_eq ms; [by intros _; wp_step|intros m ms' _]. wp_step. unfold markets_cache_put.
  eapply (wp_shared_op_at_alone _ k Ac); [exact Hs|exact Hf1|].
  intros now w' Hs' Hf'. wp_step. split; [done|]. split; [done|]. rewrite Hs'. by split.
Qed.

(** What a table of the markets resolves to. *)
Lemma registry_of_table mp (m2b : gmap Pubkey Pubkey) reg :
  (forall mint bank, m2b !! mint = Some bank <-> (mint, bank) ∈ market_bindings ms) ->
  (forall mint, by_mint reg !! mint = m2b !! mint ≫= resolved read mp mint) ->
  registry_of read mp ms reg.
Proof.
  intros Hm Hr mint b. unfold registry_get. rewrite Hr. split.
  - intros (bank & Hb & Hres)%bind_Some. exists bank. by rewrite <-Hm.
  - intros (bank & Hb%Hm & Hres). rewrite Hb. done.
Qed.

Lemma table_size (m2b : gmap Pubkey Pubkey) :
  (forall mint bank, m2b !! mint = Some bank <-> (mint, bank) ∈ market_bindings ms) ->
  (size m2b <= limit)%nat.
Proof.
  intros Hm. etrans; [|exact few]. rewrite <-size_dom. apply subseteq_size. intros mint.
  rewrite elem_of_dom, elem_of_list_to_set, list_elem_of_fmap. intros [bank Hb%Hm].
  by exists (mint, bank).
Qed.

Lemma registry_size mp reg : registry_of read mp ms reg -> (registry_len reg <= limit)%nat.
Proof.
  intros Hr. etrans; [|exact few]. unfold registry_len. rewrite <-size_dom. apply subseteq_size.
  intros mint. rewrite elem_of_dom, elem_of_list_to_set, list_elem_of_fmap.
  intros [b (bank & Hb & _)%Hr]. by exists (mint, bank).
Qed.

Lemma discover_boot cr mp k Ac w :
  cr_program_id cr = program -> sh_stop (shared w) = false -> fresh k Ac (ext w) ->
  wp (discover_from_markets cr mp) (fun tr r w' => submits tr = 0%nat /\
    match r with
    | Ok reg => registry_of read mp ms reg
    | Err _ => True
    | Panic _ => False
    end /\ ((exists reg, r = Ok reg) <-> bootable read mp ms) /\
    sh_stop (shared w') = false /\ fresh k Ac (ext w')) w.
Proof.
  intros Hp Hs Hf. unfold discover_from_markets. wp_step. wp_step.
  eapply wp_mono; [by apply (refresh_markets_boot cr k Ac)|].
  intros tr r w1 (Ht & -> & Hs1 & Hf1). cbn beta iota delta [ocontext].
  destruct (decide (ms = [])) as [E|Hne].
  { rewrite E. wp_step. rewrite app_nil_r. split; [done|]. split.
    - intros mint b. unfold registry_get. cbn. rewrite lookup_empty. split; [done|].
      intros (bank & Hin & _). by apply not_elem_of_nil in Hin.
    - split; [|done]. split; [intros _|by eexists].
      split; [intros mint b b' Hin|intros mint b Hin]; by apply not_elem_of_nil in Hin. }
  assert (Hbind : (match ms with [] => ret BankRegistry_default
                   | _ => let! m2b := lift (bind_markets ∅ ms) in resolve_from_chain mp m2b end)
                  = (let! m2b := lift (bind_markets ∅ ms) in @resolve_from_chain X _ _ mp m2b))
    by (clear -Hne; revert Hne; case ms; [done|by intros]). rewrite Hbind. clear Hbind.
  wp_step. wp_step. pose proof (bind_markets_cases ms) as Hb.
  destruct (bind_markets ∅ ms) as [m2b|e|s]; [| |done].
  2: { rewrite app_nil_r. split; [done|]. split; [done|]. split; [|done].
       split; [by intros []|by intros []]. }
  destruct Hb as [Hc Hb].
  eapply wp_mono; [apply (resolve_exact' (fresh k Ac) read)|].
  - intros ps x Hn [Hfx Hax] Hok. pose proof (table_size m2b Hb).
    destruct (hn_accounts node ps x) as (x' & E & F & A); [lia|].
    exists x'. split; [|split; congruence]. rewrite E. do 2 f_equal. apply map_ext_Forall.
    eapply Forall_impl; [exact Hok|]. intros p (mint & bank & Hin%elem_of_map_to_list & Hp').
    apply (hn_read node). exists mint, bank. by rewrite <-Hb.
  - done.
  - intros tr2 r2 w2 ((Hq & _ & Hr & Hiff) & Hsh & Hf2).
    split; [by rewrite submits_app, Ht; apply no_submit_submits|].
    split; [destruct r2; [by eapply registry_of_table|done..]|].
    split; [|by rewrite Hsh]. rewrite Hiff. split.
    + intros Hall. split; [done|]. intros mint bank Hin%Hb. by apply (Hall mint bank).
    + intros [_ Hall] mint bank Hin%Hb. by apply Hall.
Qed.
(** *** The token accounts *)

(** The transaction that creates what an owner lacks. *)
Definition creates (A : Pubkey -> option Account) reg (rpc : Rpc) (owner : Pubkey) : Transaction -> Prop :=
  carries owner (priority_fee_preamble rpc (rpc_compute_unit_limit rpc) ++
                 map (create_ata_of owner) (without_ata A reg owner)) [].

Lemma ensure_atas_boot (I : Shared -> Prop) reg rpc kp k w :
  (forall s, I s -> sh_stop s = false) -> (registry_len reg <= limit)%nat ->
  going I fails k w -> (k <= 2)%nat ->
  wp (ensure_atas_for reg rpc kp) (fun tr r w' => r = Ok tt /\
    (without_ata (accts (ext w)) reg (keypair_pubkey kp) <> [] -> exists tx r',
       EvSubmit tx r' ∈ tr /\ creates (accts (ext w)) reg rpc (keypair_pubkey kp) tx) /\
    exists k', (k' <= k)%nat /\ going I fails k' w') w.
Proof.
  intros HI Hlen Hw Hk. eapply wp_mono.
  { eapply wp_and; [apply (ensure_atas_exact' (accts (ext w)) reg rpc kp)|].
    { intros ps Hps. destruct (hn_accounts node ps (ext w)) as (x' & E & _); [lia|]. by exists x'. }
    instantiate (1 := fun tr r w' => r = Ok tt /\
      (without_ata (accts (ext w)) reg (keypair_pubkey kp) = [] \/ (1 <= submits tr)%nat) /\
      exists k', (k' <= k)%nat /\ going I fails k' w').
    unfold ensure_atas_for. case_decide as He.
    { wp_step. split; [done|]. split; [left|by exists k].
      unfold without_ata, values. by rewrite He, map_to_list_empty. }
    wp_step. apply wp_fetch_accounts. intros r w1 _ Hs Hx ->.
    destruct (hn_accounts node (map (fun d => d.1.2)
      (map (fun info => (bi_mint info, ata_for info (keypair_pubkey kp), bi_token_program info))
        (values reg))) (ext w)) as (x' & E & F & _); [by rewrite !length_map, length_values|].
    rewrite E in Hx |- *. cbn [fst snd] in Hx |- *. wp_step. wp_step.
    rewrite (map_map _ (accts (ext w))), missing_atas_map.
    assert (Hw1 : going I fails k w1) by (destruct Hw; split; congruence).
    pose proof (missing_rows (accts (ext w)) reg (keypair_pubkey kp)) as Hrows.
    revert Hrows. set (rows := List.filter _ _). destruct rows as [|row rows']; intros Hrows.
    - wp_step. split; [done|]. split; [left|by exists k].
      symmetry in Hrows. by apply map_eq_nil in Hrows.
    - wp_step. wp_step.
      eapply wp_mono; [apply (send_legacy_progress (recovering_with I HI)); [intros m; apply (hn_sign node)|done|done]|].
      intros tr r w2 (Ht & [s ->] & Hg). cbn beta iota delta [ocontext]. wp_step.
      rewrite app_nil_r. split; [done|]. split; [right|done].
      unfold submits in *. cbn [List.filter is_submit]. lia. }
  intros tr r w' ((_ & _ & Hne) & -> & Hor & Hg). split; [done|]. split; [|done].
  intros Hm. destruct (Hne Hm) as (_ & Hs & _). destruct Hor as [Hor|Hor]; [done|].
  by apply submits_exists.
Qed.

(** The flag is down and the registry is [reg]. *)
Definition holding_registry reg (s : Shared) : Prop := sh_stop s = false /\ sh_banks s = reg.

Lemma snapshot_boot reg k (Q : list Event -> outcome BankRegistry -> World X -> Prop) w :
  going (holding_registry reg) fails k w ->
  (forall w', going (holding_registry reg) fails k w' -> Q [] (Ok reg) w') -> wp banks_snapshot Q w.
Proof.
  intros Hw HQ. unfold banks_snapshot. eapply (wp_shared_op_going (recovering_with (holding_registry reg) _));
    [done|done|]. intros w' Hw'. cbn [fst]. assert (sh_banks (shared w') = reg) as -> by apply Hw'.
  by apply HQ.
  Unshelve. by intros s [].
Qed.

Lemma snapshot_fresh reg k Ac (Q : list Event -> outcome BankRegistry -> World X -> Prop) w :
  holding_registry reg (shared w) -> fresh k Ac (ext w) ->
  (forall w', holding_registry reg (shared w') -> fresh k Ac (ext w') -> Q [] (Ok reg) w') ->
  wp banks_snapshot Q w.
Proof.
  intros [Hs <-] Hf HQ. unfold banks_snapshot. eapply (wp_shared_op_alone _ k Ac); [done..|].
  intros w' Hs' Hf'. apply HQ; [by rewrite Hs'|done].
Qed.

Lemma curator_atas_boot reg rpc curators k w : (registry_len reg <= limit)%nat ->
  going (holding_registry reg) fails k w -> (k <= 2)%nat ->
  wp (boot_curator_atas rpc curators) (fun _ r w' => r = Ok tt /\
    exists k', (k' <= k)%nat /\ going (holding_registry reg) fails k' w') w.
Proof.
  intros Hlen. unfold boot_curator_atas. generalize (map_to_list curators). intros l.
  revert k w. induction l as [|[pk kp] l IH]; intros k w Hw Hk; cbn [for_fold].
  { wp_step. split; [done|]. by exists k. }
  wp_step. wp_step. eapply snapshot_boot; [done|]. clear w Hw. intros w Hw. cbn beta iota.
  wp_step. wp_step. eapply wp_mono; [apply (ensure_atas_boot (holding_registry reg)); [by intros s []|done|done|done]|].
  intros tr r w1 (-> & _ & k1 & Hk1 & Hw1). cbn beta iota. wp_step.
  eapply wp_mono; [apply (IH k1); [done|lia]|].
  intros tr2 r2 w2 (-> & k2 & Hk2 & Hw2). split; [done|]. exists k2. split; [lia|done].
Qed.

Context {Queue SocketAddr : Type} (host : Host Queue SocketAddr).

(** A boot that came through: the registry is that of the markets, the flag is down, and
    what the fee payer lacked of token accounts [A] was sent for. *)
Definition started (A : Pubkey -> option Account) (cfg : Config) (signers : Signers) (tr : list Event)
  (b : @Booted X _ _ SocketAddr) (w' : World X) : Prop :=
  let payer := keypair_pubkey (sg_fee_payer signers) in
  sh_stop (shared w') = false /\
  registry_of read (cfg_marginfi_program_id cfg) ms (sh_banks (shared w')) /\
  (without_ata A (sh_banks (shared w')) payer <> [] -> exists tx r',
     EvSubmit tx r' ∈ tr /\ creates A (sh_banks (shared w')) (ctx_rpc (bt_ctx b)) payer tx).

(** How the boot ends, for each answer. *)
Definition boot_post (cfg : Config) (signers : Signers) (w : World X) (P : @Booted X _ _ SocketAddr -> Prop) (tr : list Event)
  (r : outcome Booted) (w' : World X) : Prop :=
  match r with
  | Ok b => P b /\ started (accts (ext w)) cfg signers tr b w'
  | Err _ => submits tr = 0%nat
  | Panic _ => False
  end /\ ((exists b, r = Ok b) <-> bootable read (cfg_marginfi_program_id cfg) ms).

Lemma boot_runs cfg signers mb hb (w : World X) :
  from_env (host_env host) = Ok cfg ->
  Signers_load (host_mode host) (host_read host) cfg = Ok signers ->
  bind_var host "METRICS_BIND" "127.0.0.1:9091" = Ok mb ->
  install (host_prometheus host) mb = Ok tt ->
  bind_var host "HEALTH_BIND" "0.0.0.0:8080" = Ok hb ->
  cfg_program_id cfg = program -> sh_stop (shared w) = false -> (fails (ext w) <= 2)%nat ->
  wp (main host) (boot_post cfg signers w (fun _ => True)) w.
Proof.
  intros Hcfg Hsg Hmb Hin Hhb Hp Hs Hk. unfold main. rewrite Hcfg. wp_step. wp_step.
  rewrite Hsg. wp_step. wp_step. cbv zeta. unfold discover_banks_from_markets. wp_step. wp_step.
  wp_step. eapply wp_mono; [apply (discover_boot _ _ (fails (ext w)) (accts (ext w))); [done|done|done]|].
  intros tr r w1 (Ht & Hr & Hiff & Hs1 & Hf1). destruct r as [reg|e|s]; [| |done].
  2: { cbn beta iota delta [ocontext]. split; [done|]. rewrite <-Hiff. by split; intros []. }
  unfold store_banks. eapply (wp_shared_op_alone _ (fails (ext w)) (accts (ext w))); [done..|].
  intros w2 Hs2 Hf2. cbn beta iota delta [ocontext]. rewrite app_nil_r.
  assert (Hreg : holding_registry reg (shared w2)) by (rewrite Hs2; by split).
  clear Hs1 Hf1 Hs2 w1. assert (Hok : bootable read (cfg_marginfi_program_id cfg) ms)
    by (apply Hiff; by eexists). clear Hiff.
  wp_step. eapply snapshot_fresh; [done..|]. clear w2 Hreg Hf2. intros w2 Hreg Hf2. cbn beta iota.
  wp_step. eapply snapshot_fresh; [done..|]. clear w2 Hreg Hf2. intros w2 Hreg [Hf2 Ha2].
  cbn beta iota. wp_step. wp_step.
  eapply wp_mono; [apply (ensure_atas_boot (holding_registry reg) _ _ _ (fails (ext w))); [by intros s []|by eapply registry_size|by split|done]|].
  rewrite Ha2. intros tr2 r w3 (-> & Hsent & k3 & Hk3 & Hw3). cbn beta iota delta [ocontext].
  wp_step. eapply wp_mono; [apply curator_atas_boot; [by eapply registry_size|done|lia]|].
  intros tr3 r w4 (-> & k4 & _ & Hw4). cbn beta iota. rewrite Hmb, Hhb. wp_step. wp_step.
  rewrite Hin. do 4 wp_step. unfold get_slot, read_call. do 3 wp_step.
  destruct (hn_slot node (ext w4)) as [n En]. rewrite H in En. cbn [fst] in En. subst a.
  apply wp_try_client. cbn beta iota. wp_step.
  eapply snapshot_boot; [split; [apply Hw4|reflexivity]|]. intros w5 Hw5. cbn beta iota. wp_step.
  split; [|split; [done|intros _; by eexists]]. split; [done|]. destruct Hw5 as [[Hs5 Hb5] _].
  unfold started. rewrite Hb5. split; [done|]. split; [done|]. intros Hm.
  destruct (Hsent Hm) as (tx & r' & Hin' & Hc). exists tx, r'. split; [set_solver|done].
Qed.

(** ** Properties *)

(** C16. The boot on an honest node that fails at most two sends, before anything else runs,
    with a configuration, keys and addresses that load, over no more mints than one batched
    read may ask for: it starts exactly when no two
    markets bind a mint to different banks and the accounts of every bank agree with its
    market. Started, the process is the configured one, its registry holds what the accounts
    say of the markets' banks and nothing else, the stop flag is down, and if the fee payer
    lacked a token account, a transaction creating exactly those it lacked was sent. Refused,
    it ends with an error, not a panic, before sending anything. *)
Theorem boot_outcome cfg signers mb hb (w : World X) :
  from_env (host_env host) = Ok cfg ->
  Signers_load (host_mode host) (host_read host) cfg = Ok signers ->
  bind_var host "METRICS_BIND" "127.0.0.1:9091" = Ok mb ->
  install (host_prometheus host) mb = Ok tt ->
  bind_var host "HEALTH_BIND" "0.0.0.0:8080" = Ok hb ->
  cfg_program_id cfg = program -> sh_stop (shared w) = false -> (fails (ext w) <= 2)%nat ->
  wp (main host) (boot_post cfg signers w (boot_wf host)) w.
Proof.
  intros Hcfg Hsg Hmb Hin Hhb Hp Hs Hk.
  eapply wp_mono; [eapply wp_and; [apply main_boots_configured'|by eapply boot_runs]|].
  intros tr [b|e|s] w' (Hwf & [H ?]); (split; [|done]); [|done..]. by destruct H.
Qed.
End boot.
