(* ===== verification/Shutdown.v ===== *)
(** Shutdown across components: once the stop flag is set, no handler hands the
    node another transaction. *)

From Stdlib Require Import ZArith Lia.
From stdpp Require Import gmap strings list.
From S2P Require Import Prelude Solana State Effects Logic Rpc Util ChainReader BankRegistry Config SwbCranker Handlers Promoter Claimer CuratorFeeClaimer MatchCranker Liquidator Main Footprint.

Local Open Scope crank_scope.

(** From a state whose stop flag is set, nothing is submitted and it stays set. *)
Definition stop_quiet {X} : World X -> list Event -> bool -> World X -> Prop :=
  fun w tr _ w' => sh_stop (shared w) = true ->
    sh_stop (shared w') = true /\ Forall no_submit tr.

#[export] Instance stop_quiet_composable {X} : Composable (@stop_quiet X).
Proof.
  split; unfold stop_quiet; [done|]. intros w1 t1 w2 t2 p w3 H1 H2 Hw.
  destruct (H1 Hw) as [Hw2 ?]. destruct (H2 Hw2) as [? ?]. split; [done|]. by apply Forall_app_2.
Qed.

Section stop.
Context {X : Type} `{!Env X} {CR : Crates} {YD : YDelta}.
(** No task ever clears the flag. *)
Hypothesis sticky : forall x s, sh_stop s = true -> sh_stop (interfere x s).2 = true.
Implicit Types ctx : HandlerContext.

Lemma stop_call {A} (f : X -> A * X) ev :
  (forall a, Forall no_submit (ev a)) -> keeps stop_quiet (call f ev).
Proof. intros Hev w. apply wp_call. intros a x' _ Hw. by split. Qed.

Lemma stop_shared_op {A} (f : Shared -> A * Shared) :
  (forall s, sh_stop (f s).2 = sh_stop s) -> keeps stop_quiet (shared_op f).
Proof.
  intros Hf w. apply wp_shared_op. intros x' s' Hi Hw. cbn [shared]. rewrite Hf.
  pose proof (sticky (ext w) (shared w) Hw) as H. rewrite Hi in H. by split.
Qed.

Lemma stop_shared_op_at {A} (f : Instant -> Shared -> A * Shared) :
  (forall now s, sh_stop (f now s).2 = sh_stop s) -> keeps stop_quiet (shared_op_at f).
Proof.
  intros Hf w. apply wp_shared_op_at. intros x1 s1 now x2 Hi _ Hw. cbn [shared]. rewrite Hf.
  pose proof (sticky (ext w) (shared w) Hw) as H. rewrite Hi in H. by split.
Qed.

Lemma stop_emit e : no_submit e -> keeps stop_quiet (@emit X e).
Proof. intros He w. apply wp_emit. intros Hw. split; [done|]. by constructor. Qed.

(** A submission that starts after the stop sends nothing. *)
Lemma stopped_attempts rpc build (w : World X) :
  rpc_has_stop rpc = true -> sh_stop (shared w) = true ->
  wp (send_attempts rpc build) (fun tr r w' => sh_stop (shared w') = true /\ tr = [] /\
    r = Err ["shutdown signal received before send attempt"]) w.
Proof.
  intros Hrpc Hw. unfold send_attempts. cbn [loop_ret]. unfold send_attempt at 1, stopped.
  rewrite Hrpc. unfold load_stop. wp_step. wp_step. wp_step.
  pose proof (sticky (ext w) (shared w) Hw) as H1. rewrite H in H1. cbn [fst snd] in *.
  rewrite H1. by wp_step.
Qed.

Lemma stopped_record rpc build label (w : World X) :
  rpc_has_stop rpc = true -> sh_stop (shared w) = true ->
  wp (let! result := attempt (send_attempts rpc build) in
      record_submission label (is_ok result) ;; return_result result)
    (fun tr r w' => sh_stop (shared w') = true /\ Forall no_submit tr) w.
Proof.
  intros Hrpc Hw. wp_step. wp_step. eapply wp_mono; [by apply stopped_attempts|].
  intros tr r w1 (Hs & -> & ->). unfold record_submission, return_result.
  repeat wp_step. split; [done|quiet].
Qed.

Lemma stop_send_legacy rpc label ixs kp :
  rpc_has_stop rpc = true -> keeps stop_quiet (@send_signed_labeled X _ _ rpc label ixs [kp]).
Proof.
  intros Hrpc w. destruct (sh_stop (shared w)) eqn:Hw.
  - eapply wp_mono; [by apply stopped_record|]. by intros tr r w' ? _.
  - eapply wp_mono; [apply send_signed_labeled_spec|]. intros tr r w' _ ?. congruence.
Qed.

Lemma stop_send_v0 rpc label ixs luts kp :
  rpc_has_stop rpc = true ->
  keeps stop_quiet (@send_signed_v0_labeled X _ _ rpc label ixs luts [kp]).
Proof.
  intros Hrpc w. destruct (sh_stop (shared w)) eqn:Hw.
  - eapply wp_mono; [by apply stopped_record|]. by intros tr r w' ? _.
  - eapply wp_mono; [apply send_signed_v0_labeled_spec|]. intros tr r w' _ ?. congruence.
Qed.

Lemma stop_put_inflight i : keeps stop_quiet (@put_inflight X i).
Proof. intros w. apply wp_put_inflight. intros Hw. by split. Qed.

(** No access of a handler clears the flag. *)
#[local] Instance stop_footprint :
  Footprint (fun s s' => sh_stop s' = sh_stop s) (fun rpc => rpc_has_stop rpc = true) (@stop_quiet X).
Proof.
  split; try done; [apply _|..]; intros; eauto using client_call_quiet,
    stop_call, stop_emit, stop_put_inflight, stop_shared_op, stop_shared_op_at, stop_send_legacy, stop_send_v0.
Qed.

#[local] Instance stop_caches : Caches (fun s s' => sh_stop s' = sh_stop s).
Proof. done. Qed.

Lemma stop_handlers h ctx :
  rpc_has_stop (ctx_rpc ctx) = true ->
  Forall (fun hi => keeps stop_quiet (h_tick hi.1 ctx)) (@enabled_handlers X _ _ _ h).
Proof.
  intros Hrpc. by eapply fp_handlers; [apply stop_footprint|apply _|].
Qed.
End stop.

(** ** Properties *)

Section shutdown_properties.
Context {X : Type} `{!Env X} {CR : Crates} {YD : YDelta}.

(** C23. Shutdown: as no task ever clears the stop flag, a tick of any handler the process
    spawns that starts once the flag is set hands the node no transaction. A tick that checked
    the flag before it was set may still send; what holds of those is
    [Process.submissions_precede_stop]. *)
Theorem no_submission_after_stop (h : HandlersConfig) ctx (w : World X) :
  (forall x s, sh_stop s = true -> sh_stop (interfere x s).2 = true) ->
  rpc_has_stop (ctx_rpc ctx) = true -> sh_stop (shared w) = true ->
  Forall (fun hi => wp (h_tick hi.1 ctx) (fun tr _ w' =>
    Forall no_submit tr /\ sh_stop (shared w') = true) w) (enabled_handlers h).
Proof.
  intros Hst Hrpc Hw. eapply Forall_impl; [by apply stop_handlers|].
  intros hi Hk. eapply wp_mono; [apply Hk|]. intros tr r w' H. by destruct (H Hw).
Qed.

(** C1. The whole supervised process: over the life of every handler the boot enables,
    each transaction was accepted by a free simulation of the same instructions first,
    the curator service, which spends the curators' own balance, excepted; and every
    run that does not end the process gives back its in-flight sets. *)
Theorem process_submissions_gated (h : HandlersConfig) fuel ctx (w : World X) :
  Forall (fun hi => wp (spawn fuel hi.1 ctx hi.2) (fun tr r w' =>
    (h_name hi.1 <> "curator_fee_claimer"%string -> gated (ctx_rpc ctx) tr) /\
    (is_panic r = false -> inflight w' = inflight w)) w) (enabled_handlers h).
Proof.
  apply Forall_forall. intros [hd interval] Hin. cbn [fst snd]. apply wp_and.
  - eapply wp_mono; [apply spawn_gated|]. intros tr r w' Hg Hn. apply Hg.
    unfold enabled_handlers in Hin. rewrite !elem_of_app in Hin.
    repeat match goal with
    | H : _ \/ _ |- _ => destruct H as [H|H]
    | H : _ ∈ (if ?b then _ else _) |- _ => destruct b; [apply list_elem_of_singleton in H|by apply not_elem_of_nil in H]
    end; simplify_eq; done.
  - eapply wp_mono; [apply spawn_refines|]. by intros tr r w' [_ ?].
Qed.
End shutdown_properties.
