(* ===== verification/Guarantee.v ===== *)
(** What each task of the process does to the shared memory: the guarantee of a
    task, as the atomic accesses it may make, and the proof that the task, run in
    any environment, makes no other. The environment is wrapped so that it records
    the accesses of the task, and the state of the flags when it submits. *)

From Stdlib Require Import ZArith Lia.
From stdpp Require Import gmap strings list sorting.
From S2P Require Import Prelude Solana State Effects Logic Rpc Util ChainReader BankRegistry Config SwbCranker Metrics Handlers HealthServer Main Footprint.

Local Open Scope crank_scope.

(** ** Definitions *)

(** The tasks [main] starts that share memory; a handler is named by its place in
    [enabled_handlers]. *)
Inductive Task := TSol | TAta | TRefresh | TWarm | TSignal | THealth | THandler (i : nat).

#[export] Instance Task_eq_dec : EqDecision Task.
Proof. solve_decision. Defined.

(** The atomic accesses of a task: every task reads; the tasks that list markets
    cache a whole sorted listing; the refresh merges a well-formed registry; the
    other writers each own one cell. *)
Inductive allowed {CR : Crates} : Task -> Shared -> Shared -> Prop :=
| al_read t s : allowed t s s
| al_cache_handler i now ms s : listing ms -> allowed (THandler i) s (with_markets now ms s)
| al_cache_refresh now ms s : listing ms -> allowed TRefresh s (with_markets now ms s)
| al_merge fresh s :
    registry_wf fresh -> allowed TRefresh s (with_banks (merge_from (sh_banks s) fresh) s)
| al_low b s : allowed TSol s (with_low b s)
| al_ata m s : allowed TAta s (with_ata m s)
| al_stop s : allowed TSignal s (with_stop s).

(** What the tasks run on: the context, the warm-keeper, the signals, and what the
    listener of the health server answers to the bind and in each round. *)
Record Plan := {
  pl_ctx : HandlerContext;
  pl_warm : option (SwbCranker * Duration);
  pl_installs : Signal -> bool;
  pl_arrived : option Signal;
  pl_bind : option string;
  pl_accept : nat -> AcceptEnd Socket }.

(** The tasks as [main] spawns them, for at most [fuel] rounds. *)
Definition task_body {X} `{!Env X} {CR : Crates} {YD : YDelta} (pl : Plan) (t : Task) (fuel : nat) :
  M X bool :=
  let ctx := pl_ctx pl in
  let cfg := ctx_cfg ctx in
  match t with
  | TSol => spawn_sol_balance_loop fuel (ctx_signers ctx) (cfg_min_signer_balance_lamports cfg)
  | TAta => spawn_ata_balance_loop fuel (ctx_signers ctx) (from_secs 60)
  | TRefresh => spawn_bank_refresh_loop fuel cfg (ctx_chain ctx) (cfg_banks_refresh_interval cfg)
  | TWarm =>
      match pl_warm pl with
      | Some (c, interval) => swb_crank_loop fuel c interval
      | None => ret true
      end
  | TSignal => signal_task (pl_installs pl) (pl_arrived pl) ;; ret true
  | THealth =>
      let! (_, returned) := health_spawn (pl_bind pl) (map (pl_accept pl) (seq 0 fuel)) in
      ret returned
  | THandler i =>
      match enabled_handlers (cfg_handlers cfg) !! i with
      | Some (h, interval) => spawn fuel h ctx interval
      | None => ret true
      end
  end.

(** *** Recording the accesses of a task *)

(** An access: the shared memory the task found, and what it left. *)
Abbreviation Access := (Shared * Shared)%type.

(** An environment with a record of the task that runs in it: the states its next
    accesses will find, the state its last access found, the accesses before the
    last, and each transaction with the number of the access it follows. *)
Record Recorded (X : Type) := mkRecorded {
  rc_ext : X; rc_found : list Shared; rc_at : Shared; rc_log : list Access;
  rc_sent : list (Transaction * nat) }.
Arguments mkRecorded {X} _ _ _ _ _.
Arguments rc_ext {X} _.
Arguments rc_found {X} _.
Arguments rc_at {X} _.
Arguments rc_log {X} _.
Arguments rc_sent {X} _.

Definition on_ext {X A} (f : X -> A * X) (r : Recorded X) : A * Recorded X :=
  let '(a, x') := f (rc_ext r) in
  (a, mkRecorded x' (rc_found r) (rc_at r) (rc_log r) (rc_sent r)).

(** The node, the gateways and the clocks answer as before; the interference
    delivers the next state of the list, or none once the list is used up. *)
#[export] Instance recording {X} `{!Env X} : Env (Recorded X) := {|
  cl_get_account p := on_ext (cl_get_account p);
  cl_get_multiple_accounts ps := on_ext (cl_get_multiple_accounts ps);
  cl_get_program_accounts pid fs := on_ext (cl_get_program_accounts pid fs);
  cl_get_signature_statuses sigs := on_ext (cl_get_signature_statuses sigs);
  cl_get_latest_blockhash := on_ext cl_get_latest_blockhash;
  cl_send_and_confirm tx r :=
    let '(a, r') := on_ext (cl_send_and_confirm tx) r in
    (a, mkRecorded (rc_ext r') (rc_found r') (rc_at r') (rc_log r')
          (rc_sent r' ++ [(tx, length (rc_log r'))]));
  cl_simulate m := on_ext (cl_simulate m);
  cl_get_balance p := on_ext (cl_get_balance p);
  cl_get_slot := on_ext cl_get_slot;
  gw_fetch_update g feeds payer := on_ext (gw_fetch_update g feeds payer);
  instant_now := on_ext instant_now;
  system_now := on_ext system_now;
  do_sleep d r := (on_ext (fun x => (tt, do_sleep d x)) r).2;
  join_order n := on_ext (join_order n);
  interfere r s :=
    let x' := (interfere (rc_ext r) s).1 in
    let log := rc_log r ++ [(rc_at r, s)] in
    match rc_found r with
    | [] => (mkRecorded x' [] s log (rc_sent r), s)
    | s' :: rest => (mkRecorded x' rest s' log (rc_sent r), s')
    end |}.

(** The accesses of a run so far, the first one standing for its start. *)
Definition accesses {X} (w : World (Recorded X)) : list Access :=
  rc_log (ext w) ++ [(rc_at (ext w), shared w)].

(** The start of a recorded run. *)
Definition record_from {X} (x : X) (found : list Shared) (s : Shared) (i : Inflight) :
  World (Recorded X) := mkWorld (mkRecorded x found s [] []) s i [].

(** *** The two judgements *)

(** Every access is one of [G]. *)
Definition respects {X} (G : Shared -> Shared -> Prop) :
  World (Recorded X) -> list Event -> bool -> World (Recorded X) -> Prop :=
  fun w _ _ w' => Forall (uncurry G) (accesses w) -> Forall (uncurry G) (accesses w').

(** Every transaction follows an access that found the stop flag unset. *)
Definition sent_unstopped {X} (w : World (Recorded X)) : Prop :=
  Forall (fun tn : Transaction * nat =>
    exists a, accesses w !! tn.2 = Some a /\ sh_stop a.1 = false) (rc_sent (ext w)).
Definition checks_stop {X} :
  World (Recorded X) -> list Event -> bool -> World (Recorded X) -> Prop :=
  fun w _ _ w' => sent_unstopped w -> sent_unstopped w'.

#[export] Instance respects_composable {X} G : Composable (@respects X G).
Proof. split; unfold respects; auto. Qed.

#[export] Instance checks_stop_composable {X} : Composable (@checks_stop X).
Proof. split; unfold checks_stop; auto. Qed.

(** ** Lemmas *)

Section recorded.
Context {X : Type} `{!Env X} {CR : Crates} {YD : YDelta}.
Context (G : Shared -> Shared -> Prop).

(** A client call, a metric or a private set makes no access and sends nothing. *)
Lemma on_ext_eq {A} (f : X -> A * X) (r : Recorded X) a r' :
  on_ext f r = (a, r') ->
  rc_at r' = rc_at r /\ rc_log r' = rc_log r /\ rc_sent r' = rc_sent r /\ rc_found r' = rc_found r.
Proof. unfold on_ext. destruct (f (rc_ext r)). by intros [= <- <-]. Qed.

Lemma client_call_recorded {A} (f : Recorded X -> A * Recorded X) ev r a r' :
  client_call A f ev -> f r = (a, r') ->
  rc_at r' = rc_at r /\ rc_log r' = rc_log r /\ rc_sent r' = rc_sent r /\ rc_found r' = rc_found r.
Proof.
  destruct 1; try apply on_ext_eq. intros [= <- <-].
  destruct (on_ext (fun x => (tt, do_sleep d x)) r) eqn:E. by apply on_ext_eq in E.
Qed.

Lemma interfere_recorded (r : Recorded X) s :
  rc_log (interfere r s).1 = rc_log r ++ [(rc_at r, s)] /\
  rc_at (interfere r s).1 = (interfere r s).2 /\ rc_sent (interfere r s).1 = rc_sent r.
Proof. cbn. by destruct (rc_found r). Qed.

Lemma respects_call {A} (f : Recorded X -> A * Recorded X) ev :
  client_call A f ev -> keeps (respects G) (call f ev).
Proof.
  intros Hc w. apply wp_call. intros a x' E Hw.
  destruct (client_call_recorded _ _ _ _ _ Hc E) as (Ha & Hl & _).
  unfold accesses. cbn [ext shared]. by rewrite Ha, Hl.
Qed.

Lemma respects_shared_op {A} (f : Shared -> A * Shared) :
  (forall s, G s (f s).2) -> keeps (@respects X G) (shared_op f).
Proof.
  intros Hf w. apply wp_shared_op. intros x' s' E Hw.
  destruct (interfere_recorded (ext w) (shared w)) as (Hl & Ha & _). rewrite E in Hl, Ha.
  cbn [fst snd] in *. subst s'. unfold accesses. cbn [ext shared]. rewrite Hl.
  apply Forall_app_2; [done|]. constructor; [apply Hf|constructor].
Qed.

Lemma respects_shared_op_at {A} (f : Instant -> Shared -> A * Shared) :
  (forall now s, G s (f now s).2) -> keeps (@respects X G) (shared_op_at f).
Proof.
  intros Hf w. apply wp_shared_op_at. intros x1 s1 now x2 E1 E2 Hw.
  destruct (interfere_recorded (ext w) (shared w)) as (Hl & Ha & _). rewrite E1 in Hl, Ha.
  apply on_ext_eq in E2 as (Ha2 & Hl2 & _).
  cbn [fst snd] in *. unfold accesses. cbn [ext shared]. rewrite Hl2, Hl, Ha2, Ha.
  apply Forall_app_2; [done|]. constructor; [apply Hf|constructor].
Qed.

Lemma respects_submit tx : keeps (respects G) (@send_and_confirm_transaction (Recorded X) _ tx).
Proof.
  intros w. unfold send_and_confirm_transaction. apply wp_call. intros a x' E Hw.
  cbn [cl_send_and_confirm recording] in E.
  destruct (on_ext (cl_send_and_confirm tx) (ext w)) as [b r'] eqn:Er. injection E as <- <-.
  apply on_ext_eq in Er as (Ha & Hl & _). unfold accesses. cbn [ext shared rc_log rc_at].
  by rewrite Ha, Hl.
Qed.

Lemma respects_emit e : keeps (@respects X G) (emit e).
Proof. intros w. apply wp_emit. by intros Hw. Qed.

Lemma respects_put_inflight i : keeps (@respects X G) (put_inflight i).
Proof. intros w. apply wp_put_inflight. by intros Hw. Qed.

Lemma checks_call {A} (f : Recorded X -> A * Recorded X) ev :
  client_call A f ev -> keeps checks_stop (call f ev).
Proof.
  intros Hc w. apply wp_call. intros a x' E Hw.
  destruct (client_call_recorded _ _ _ _ _ Hc E) as (Ha & Hl & Hs & _).
  unfold sent_unstopped, accesses in *. cbn [ext shared]. by rewrite Ha, Hl, Hs.
Qed.

(** What was sent stays checked as the record grows. *)
Lemma sent_unstopped_grows (w w' : World (Recorded X)) :
  rc_sent (ext w') = rc_sent (ext w) -> accesses w `prefix_of` accesses w' ->
  sent_unstopped w -> sent_unstopped w'.
Proof.
  intros Hs [l Hl] Hw. unfold sent_unstopped in *. rewrite Hs.
  eapply Forall_impl; [exact Hw|]. intros tn (a & Ha & Hst). exists a. split; [|done].
  rewrite Hl. by apply lookup_app_l_Some.
Qed.

Lemma accesses_interfere (w : World (Recorded X)) s'' :
  accesses (mkWorld (interfere (ext w) (shared w)).1 s'' (inflight w) (trace w)) =
  accesses w ++ [((interfere (ext w) (shared w)).2, s'')].
Proof.
  destruct (interfere_recorded (ext w) (shared w)) as (Hl & Ha & _).
  unfold accesses. cbn [ext shared]. by rewrite Hl, Ha.
Qed.

Lemma checks_shared_op {A} (f : Shared -> A * Shared) : keeps (@checks_stop X) (shared_op f).
Proof.
  intros w. apply wp_shared_op. intros x' s' E Hw. revert Hw. apply (sent_unstopped_grows w).
  - destruct (interfere_recorded (ext w) (shared w)) as (_ & _ & Hs). by rewrite E in Hs.
  - pose proof (accesses_interfere w (f s').2) as H. rewrite E in H. cbn [fst] in H.
    exists [(s', (f s').2)]. exact H.
Qed.

Lemma checks_shared_op_at {A} (f : Instant -> Shared -> A * Shared) :
  keeps (@checks_stop X) (shared_op_at f).
Proof.
  intros w. apply wp_shared_op_at. intros x1 s1 now x2 E1 E2 Hw. revert Hw.
  apply (sent_unstopped_grows w); apply on_ext_eq in E2 as (Ha & Hl & Hs & _).
  - destruct (interfere_recorded (ext w) (shared w)) as (_ & _ & Hs1). cbn [ext]. rewrite Hs.
    by rewrite E1 in Hs1.
  - pose proof (accesses_interfere w (f now s1).2) as H. rewrite E1 in H. cbn [fst snd] in H.
    exists [(s1, (f now s1).2)]. unfold accesses in *. cbn [ext shared] in *. by rewrite Ha, Hl.
Qed.

Lemma checks_emit e : keeps (@checks_stop X) (emit e).
Proof. intros w. apply wp_emit. by intros Hw. Qed.

Lemma checks_put_inflight i : keeps (@checks_stop X) (put_inflight i).
Proof. intros w. apply wp_put_inflight. by intros Hw. Qed.

Lemma respects_footprint :
  (forall s, G s s) -> Footprint G (fun _ => True) (@respects X G).
Proof.
  intros Hr.
  assert (Hload : keeps (@respects X G) load_stop) by by apply respects_shared_op.
  split; [apply _|..]; intros; eauto using respects_call, respects_emit, respects_put_inflight,
    respects_shared_op, respects_shared_op_at, respects_submit, keeps_send, keeps_send_v0 with typeclass_instances.
Qed.
End recorded.

(** A stretch without an access, after one that found the stop flag unset. *)
Definition unstopped_stretch {X} :
  World (Recorded X) -> list Event -> bool -> World (Recorded X) -> Prop :=
  fun w _ _ w' => sh_stop (rc_at (ext w)) = false -> sent_unstopped w ->
    sh_stop (rc_at (ext w')) = false /\ sent_unstopped w'.

#[export] Instance unstopped_stretch_composable {X} : Composable (@unstopped_stretch X).
Proof.
  split; unfold unstopped_stretch; [done|]. intros w1 t1 w2 t2 p w3 H1 H2 Ha Hs.
  destruct (H1 Ha Hs). auto.
Qed.

Section checked_sends.
Context {X : Type} `{!Env X} {CR : Crates} {YD : YDelta}.

Lemma stretch_call {A} (f : Recorded X -> A * Recorded X) ev :
  client_call A f ev -> keeps unstopped_stretch (call f ev).
Proof.
  intros Hc w. apply wp_call. intros a x' E Ha Hw.
  destruct (client_call_recorded _ _ _ _ _ Hc E) as (Ha' & Hl & Hs & _).
  unfold sent_unstopped, accesses in *. cbn [ext shared]. by rewrite Ha', Hl, Hs.
Qed.

Lemma stretch_submit tx : keeps unstopped_stretch (@send_and_confirm_transaction (Recorded X) _ tx).
Proof.
  intros w. unfold send_and_confirm_transaction. apply wp_call. intros a x' E Ha Hw.
  cbn [cl_send_and_confirm recording] in E.
  destruct (on_ext (cl_send_and_confirm tx) (ext w)) as [b r'] eqn:Er. injection E as <- <-.
  apply on_ext_eq in Er as (Ha' & Hl & Hs & _). unfold sent_unstopped, accesses in *.
  cbn [ext shared rc_at rc_sent rc_log]. rewrite Ha', Hl, Hs. split; [done|].
  apply Forall_app_2; [done|]. constructor; [|constructor]. cbn [snd].
  eexists. by rewrite list_lookup_middle.
Qed.

Lemma checks_send_attempt rpc build last n :
  rpc_has_stop rpc = true -> (forall bh, keeps (@unstopped_stretch X) (build bh)) ->
  keeps (@checks_stop X) (send_attempt rpc build last n).
Proof.
  intros Hrpc Hb w. unfold send_attempt, stopped. rewrite Hrpc. unfold load_stop.
  wp_step. wp_step. rename H into E.
  pose proof (checks_shared_op (fun s => (sh_stop s, s)) w) as (tr0 & _ & H0).
  destruct (interfere_recorded (ext w) (shared w)) as (_ & Ha & _).
  unfold shared_op in H0. rewrite E in Ha, H0. cbn [fst snd] in *.
  destruct (sh_stop s') eqn:Hst; [wp_step; exact H0|].
  match goal with |- wp ?m _ ?w1 => assert (Hk : keeps (@unstopped_stretch X) m) end.
  { destruct last as [prev|]; keeps_go; eauto using stretch_submit;
      apply stretch_call; constructor. }
  eapply wp_mono; [apply Hk|]. intros tr r w1 H1 Hw.
  by destruct H1 as [_ H1]; [cbn [ext]; rewrite Ha|by apply H0|].
Qed.

Lemma checks_attempts rpc build :
  rpc_has_stop rpc = true -> (forall bh, keeps (@unstopped_stretch X) (build bh)) ->
  keeps (@checks_stop X) (send_attempts rpc build).
Proof.
  intros Hrpc Hb. unfold send_attempts. generalize (@None Signature).
  generalize [0; 1; 2]%nat. intros l.
  induction l as [|n l IH]; intros last; cbn [loop_ret]; [apply keeps_panic, _|].
  apply keeps_bind; [apply _|by apply checks_send_attempt|]. keeps_go.
Qed.

#[export] Instance checks_footprint :
  Footprint (fun _ _ => True) (fun rpc => rpc_has_stop rpc = true) (@checks_stop X).
Proof.
  split; [apply _|..]; intros;
    eauto using checks_call, checks_emit, checks_put_inflight, checks_shared_op,
      checks_shared_op_at.
  - unfold send_signed_labeled, record_submission, return_result, send_with_retry.
    keeps_go; eauto using checks_emit, checks_attempts, keeps_build_legacy with typeclass_instances.
  - unfold send_signed_v0_labeled, record_submission, return_result, send_v0_with_retry.
    keeps_go; eauto using checks_emit, checks_attempts, keeps_build_v0 with typeclass_instances.
Qed.

#[export] Instance any_caches : Caches (fun _ _ => True).
Proof. done. Qed.
End checked_sends.

(** *** The tasks *)

Section tasks.
Context {X : Type} `{!Env X} {CR : Crates} {YD : YDelta}.

#[export] Instance handler_caches i : Caches (allowed (THandler i)).
Proof. intros now ms s Hl. by constructor. Qed.

#[export] Instance refresh_caches : Caches (allowed TRefresh).
Proof. intros now ms s Hl. by constructor. Qed.

(** The warm-keeper sends outside the RPC wrapper. *)
Lemma respects_warm G fuel c interval :
  (forall s, G s s) -> keeps (@respects X G) (swb_crank_loop fuel c interval).
Proof.
  intros Hr. pose proof (respects_footprint G Hr) as HF.
  assert (Hload : forall A (f : Shared -> A), keeps (@respects X G) (shared_op (fun s => (f s, s))))
    by (intros A f; eapply fp_load; exact HF).
  assert (Hsleep : forall n e, keeps (@respects X G) (swb_sleep n e interval)).
  { induction n as [|n IH]; intros e; cbn [swb_sleep]; [keeps_go|]. unfold load_stop.
    keeps_go; eauto. apply respects_call. constructor. }
  assert (Hone : forall feeds g, keeps (@respects X G) (try_crank c feeds g)).
  { intros feeds g. unfold try_crank, fetch_update_via. keeps_go; eauto using respects_submit;
      apply respects_call; constructor. }
  assert (Hfail : forall feeds total gs last,
    keeps (@respects X G) (failover (try_crank c feeds) total gs last)).
  { intros feeds total. induction gs as [|g gs IH]; intros last; cbn [failover]; keeps_go. }
  induction fuel as [|fuel IH]; cbn [swb_crank_loop]; [keeps_go|].
  unfold load_stop, swb_crank_tick, crank, banks_snapshot. keeps_go; eauto.
Qed.

Lemma task_respects pl t fuel : keeps (@respects X (allowed t)) (task_body pl t fuel).
Proof.
  pose proof (respects_footprint (allowed t) (al_read t)) as HF. unfold task_body.
  destruct t as [| | | | | |i].
  - eapply fp_task_loop, fp_sol_balance_tick; eauto. constructor.
  - eapply fp_task_loop, fp_ata_balance_tick; eauto. constructor.
  - eapply fp_task_loop, fp_bank_refresh_tick; eauto with typeclass_instances. by constructor.
  - case_match; [|apply keeps_ret, _]. case_match. apply respects_warm. constructor.
  - keeps_go. eapply fp_signal_task; eauto. constructor.
  - keeps_go. eapply fp_health; exact HF.
  - destruct (_ !! i) as [[h d]|] eqn:Eh; [|apply keeps_ret, _].
    eapply fp_spawn; eauto with typeclass_instances.
    pose proof (fp_handlers _ _ _ (cfg_handlers (ctx_cfg (pl_ctx pl))) (pl_ctx pl) I) as Hh.
    rewrite Forall_lookup in Hh. by apply (Hh i (h, d)).
Qed.

(** Every task but the warm-keeper sends only through the wrapper. *)
Lemma task_checks pl t fuel :
  t <> TWarm -> rpc_has_stop (ctx_rpc (pl_ctx pl)) = true ->
  keeps (@checks_stop X) (task_body pl t fuel).
Proof.
  intros Ht Hrpc. unfold task_body. destruct t as [| | | | | |i]; [| | |done| | |].
  - eapply fp_task_loop, fp_sol_balance_tick; eauto with typeclass_instances; done.
  - eapply fp_task_loop, fp_ata_balance_tick; eauto with typeclass_instances; done.
  - eapply fp_task_loop, fp_bank_refresh_tick; eauto with typeclass_instances; done.
  - keeps_go. eapply fp_signal_task; eauto with typeclass_instances; done.
  - keeps_go. eapply fp_health; exact checks_footprint.
  - destruct (_ !! i) as [[h d]|] eqn:Eh; [|apply keeps_ret, _].
    eapply fp_spawn; eauto with typeclass_instances.
    pose proof (fp_handlers _ _ _ (cfg_handlers (ctx_cfg (pl_ctx pl))) (pl_ctx pl) Hrpc) as Hh.
    rewrite Forall_lookup in Hh. by apply (Hh i (h, d)).
Qed.
End tasks.
