(* ===== verification/Process.v ===== *)
(** The process as an interleaving: every task runs its body in an environment of
    its own, the atomic accesses of all tasks form one chain of states of the shared
    memory, and the accesses of each task in the chain are the ones its run makes.
    The invariants of the shared memory hold along every interleaving. *)

From Stdlib Require Import ZArith Lia.
From stdpp Require Import gmap strings list sorting.
From S2P Require Import Prelude Solana State Effects Logic Rpc Util ChainReader BankRegistry Config SwbCranker Metrics Handlers Main Footprint Guarantee.

Local Open Scope crank_scope.

(** ** Definitions *)

(** An access, and the task that made it. *)
Abbreviation Step := (Task * Access)%type.

(** Every access finds what the one before it left. *)
Inductive chain : Shared -> list Step -> Shared -> Prop :=
| chain_nil s : chain s [] s
| chain_cons t s1 s2 h s3 : chain s2 h s3 -> chain s1 ((t, (s1, s2)) :: h) s3.

(** The accesses of one task. *)
Definition made_by (t : Task) (h : list Step) : list Access :=
  map snd (base.filter (fun st => st.1 = t) h).

(** A run of a task, to the world [w], that makes the accesses [es] first. *)
Definition runs {X} `{!Env X} {CR : Crates} {YD : YDelta} (pl : Plan) (t : Task)
    (es : list Access) (w : World (Recorded X)) : Prop :=
  exists fuel x i s, w = (task_body pl t fuel (record_from x (map fst es) s i)).2 /\
    (s, s) :: es `prefix_of` accesses w.

(** From [s0] to [s1], with the accesses [h]: each task may be anywhere in its run. *)
Definition interleaving {CR : Crates} {YD : YDelta} (pl : Plan) (s0 : Shared) (h : list Step)
    (s1 : Shared) : Prop :=
  chain s0 h s1 /\
  forall t, exists (X : Type) (E : Env X) (w : World (Recorded X)), runs pl t (made_by t h) w.

(** The shared memory is well formed: so is the registry, and the cache, when it is
    there, is a whole sorted listing. *)
Definition process_wf {CR : Crates} (s : Shared) : Prop :=
  registry_wf (sh_banks s) /\
  match sh_markets s with Some c => listing (mc_markets c) | None => True end.

(** What no task ever undoes. *)
Definition evolves {CR : Crates} (s s' : Shared) : Prop :=
  banks_grow s s' /\ (sh_stop s = true -> sh_stop s' = true) /\ (process_wf s -> process_wf s').

#[export] Instance evolves_preorder {CR : Crates} : PreOrder evolves.
Proof.
  split; [done|]. intros s1 s2 s3 ([H1 H2] & H3 & H4) ([H5 H6] & H7 & H8).
  split_and!; [split; [by etrans|auto]|auto..].
Qed.

(** ** Lemmas *)

Lemma chain_app s0 h1 h2 s1 :
  chain s0 (h1 ++ h2) s1 -> exists s, chain s0 h1 s /\ chain s h2 s1.
Proof.
  revert s0. induction h1 as [|[t [s s']] h1 IH]; intros s0 H; cbn [app] in H.
  { exists s0. split; [constructor|done]. }
  inversion H; subst. destruct (IH s') as (s2 & ? & ?); [done|]. exists s2.
  split; [by constructor|done].
Qed.

Lemma made_by_app t h1 h2 : made_by t (h1 ++ h2) = made_by t h1 ++ made_by t h2.
Proof. unfold made_by. by rewrite filter_app, map_app. Qed.

Lemma made_by_cons t t' a h :
  made_by t ((t', a) :: h) = (if decide (t' = t) then [a] else []) ++ made_by t h.
Proof.
  unfold made_by. destruct (decide (t' = t)).
  - by rewrite filter_cons_True.
  - by rewrite filter_cons_False.
Qed.

Lemma elem_of_made_by t a h : a ∈ made_by t h <-> (t, a) ∈ h.
Proof.
  unfold made_by. rewrite list_elem_of_fmap. split.
  - intros ([t' a'] & -> & Hin). apply list_elem_of_filter in Hin as [H ?]. cbn in *. by subst.
  - intros H. exists (t, a). split; [done|]. by apply list_elem_of_filter.
Qed.

Section process_lemmas.
Context {CR : Crates} {YD : YDelta}.
Implicit Types (pl : Plan) (t : Task) (h : list Step).

(** The start of a run is an access that changes nothing. *)
Lemma runs_allowed {X} `{!Env X} pl t es (w : World (Recorded X)) :
  runs pl t es w -> Forall (uncurry (allowed t)) es.
Proof.
  intros (fuel & x & i & s & -> & [l Hpre]).
  pose proof (task_respects pl t fuel (record_from x (map fst es) s i)) as (tr & _ & H).
  unfold respects in H. assert (Hall : Forall (uncurry (allowed t)) ((s, s) :: es ++ l)).
  { change ((s, s) :: es ++ l) with (((s, s) :: es) ++ l). rewrite <-Hpre. apply H.
    repeat constructor. }
  apply Forall_cons in Hall as [_ Hall]. by apply Forall_app in Hall as [? _].
Qed.

Lemma interleaving_allowed pl s0 h s1 :
  interleaving pl s0 h s1 -> Forall (fun st : Step => allowed st.1 st.2.1 st.2.2) h.
Proof.
  intros [_ Hr]. apply Forall_forall. intros [t [s s']] Hin.
  destruct (Hr t) as (X & E & w & Hw). apply runs_allowed in Hw.
  apply elem_of_made_by in Hin. by apply (Forall_forall (uncurry (allowed t)) _) in Hin.
Qed.

Lemma allowed_evolves t s s' : allowed t s s' -> evolves s s'.
Proof.
  destruct 1 as [| | |fresh s Hwf| | |]; try done;
    try (split_and!; [by split|done|]; by intros [? ?]; split).
  split_and!; [split|done|].
  - cbn [sh_banks with_banks]. rewrite merge_from_by_mint. apply map_union_subseteq_l.
  - intros ?. by apply registry_wf_merge.
  - intros [? ?]. split; [by apply registry_wf_merge|done].
Qed.

Lemma chain_evolves s0 h s1 :
  chain s0 h s1 -> Forall (fun st : Step => allowed st.1 st.2.1 st.2.2) h -> evolves s0 s1.
Proof.
  induction 1 as [|t s1 s2 h s3 _ IH]; intros Hf; [done|].
  apply Forall_cons in Hf as [H1 Hf]. etrans; [by eapply allowed_evolves|by apply IH].
Qed.

(** A cell that only one task writes. *)
Lemma chain_single_writer {A} (cell : Shared -> A) t s0 h s1 :
  (forall t' s s', t' <> t -> allowed t' s s' -> cell s' = cell s) ->
  chain s0 h s1 -> Forall (fun st : Step => allowed st.1 st.2.1 st.2.2) h ->
  cell s1 = default (cell s0) (last (map (fun a => cell a.2) (made_by t h))).
Proof.
  intros Hcell. induction 1 as [|t' s1 s2 h s3 _ IH]; intros Hf; [done|].
  apply Forall_cons in Hf as [H1 Hf]. cbn [fst snd] in H1. rewrite IH by done.
  rewrite made_by_cons. destruct (decide (t' = t)) as [->|Hne]; cbn [app].
  - cbn [map snd]. rewrite last_cons. by destruct (last _).
  - f_equal. by eapply Hcell.
Qed.
End process_lemmas.

(** *** The boot *)

(** The boot keeps the shared memory well formed while nothing else breaks it. *)
Section boot.
Context {X : Type} `{!Env X} {CR : Crates} {YD : YDelta}.
Hypothesis rely : forall x s, process_wf s -> process_wf (interfere x s).2.

#[local] Instance boot_caches : Caches (fun s s' => process_wf s -> process_wf s').
Proof. intros now ms s Hl [? ?]. by split. Qed.

Lemma main_keeps_wf {Queue SocketAddr} (host : Host Queue SocketAddr) :
  keeps (stays process_wf) (@main X _ _ _ _ _ host).
Proof.
  pose proof (stays_footprint process_wf rely).
  apply (fp_main (fun s s' => process_wf s -> process_wf s') (fun _ => True) (stays process_wf));
    [done|].
  by intros fresh s ? [? ?].
Qed.
End boot.

(** ** Properties *)

Section process_properties.
Context {CR : Crates} {YD : YDelta}.
Implicit Types (pl : Plan) (t : Task) (h : list Step).

(** C5. The invariant of the shared memory: along every interleaving of the tasks, from a
    well-formed start, whatever the node answers to each of them and after any number of
    accesses, the registry is well formed and the market cache holds a whole sorted
    listing; no entry of the registry was lost or changed, and a set stop flag stays set;
    and every access made so far is one its task may make. *)
Theorem process_invariant pl s0 h1 h2 s1 :
  process_wf s0 -> interleaving pl s0 (h1 ++ h2) s1 ->
  exists s, chain s0 h1 s /\ chain s h2 s1 /\ process_wf s /\
    (forall mint b, registry_get (sh_banks s0) mint = Some b ->
       registry_get (sh_banks s) mint = Some b) /\
    (sh_stop s = true -> sh_stop s1 = true) /\
    Forall (fun st : Step => allowed st.1 st.2.1 st.2.2) h1.
Proof.
  intros Hwf Hi. pose proof (interleaving_allowed _ _ _ _ Hi) as Hall.
  apply Forall_app in Hall as [Ha1 Ha2]. destruct Hi as [Hc _].
  apply chain_app in Hc as (s & Hc1 & Hc2). exists s.
  pose proof (chain_evolves _ _ _ Hc1 Ha1) as ([Hg _] & _ & Hw).
  pose proof (chain_evolves _ _ _ Hc2 Ha2) as (_ & Hs & _).
  split_and!; auto. intros mint b. intros Hb. by apply (lookup_weaken _ _ _ _ Hb).
Qed.

(** C21. Single writers: along every interleaving the low-balance flag, the table of token
    balances, the registry and the stop flag each hold what the one task that owns them
    left there last, or their initial value. *)
Theorem process_single_writers pl s0 h s1 :
  interleaving pl s0 h s1 ->
  let cell {A} (f : Shared -> A) (t : Task) :=
    default (f s0) (last (map (fun a : Access => f a.2) (made_by t h))) in
  sh_fee_payer_low s1 = cell sh_fee_payer_low TSol /\
  sh_ata_balances s1 = cell sh_ata_balances TAta /\
  sh_banks s1 = cell sh_banks TRefresh /\
  sh_stop s1 = cell sh_stop TSignal.
Proof.
  intros Hi cell. pose proof (interleaving_allowed _ _ _ _ Hi) as Hall. destruct Hi as [Hc _].
  split_and!; (eapply chain_single_writer; [|done|done]);
    intros t' s s' Hne; by destruct 1.
Qed.

(** C6. Shutdown across the process: in every interleaving, a transaction a task sends,
    the warm-keeper excepted, follows an access of that task that comes before the point
    where the stop flag is set: of the accesses the task has made by any point at which
    the flag is set, the one the transaction follows is not a later one. *)
Theorem submissions_precede_stop pl s0 h1 h2 s s1 t {X} `{!Env X} (w : World (Recorded X)) tx n :
  interleaving pl s0 (h1 ++ h2) s1 -> chain s0 h1 s -> chain s h2 s1 -> sh_stop s = true ->
  t <> TWarm -> rpc_has_stop (ctx_rpc (pl_ctx pl)) = true ->
  runs pl t (made_by t (h1 ++ h2)) w ->
  (tx, n) ∈ rc_sent (ext w) -> (n <= length (made_by t (h1 ++ h2)))%nat ->
  (n <= length (made_by t h1))%nat.
Proof.
  intros Hi Hc1 Hc2 Hst Ht Hrpc (fuel & x & i & sb & -> & Hpre) Hin Hn.
  pose proof (task_checks pl t fuel Ht Hrpc (record_from x (map fst (made_by t (h1 ++ h2))) sb i))
    as (tr & _ & Hk).
  assert (Hsent : sent_unstopped (task_body pl t fuel
    (record_from x (map fst (made_by t (h1 ++ h2))) sb i)).2) by (apply Hk; constructor).
  destruct (proj1 (Forall_forall _ _) Hsent _ Hin) as ([a a'] & Ha & Hstop). cbn in Ha, Hstop.
  destruct (decide (n <= length (made_by t h1))%nat) as [|Hlt]; [done|exfalso].
  destruct Hpre as [l Hpre]. rewrite Hpre in Ha. rewrite lookup_app_l in Ha by (cbn; lia).
  destruct n as [|n]; [lia|]. change (made_by t (h1 ++ h2) !! n = Some (a, a')) in Ha.
  rewrite made_by_app, lookup_app_r in Ha by lia.
  apply list_elem_of_lookup_2, elem_of_made_by in Ha.
  pose proof (interleaving_allowed _ _ _ _ Hi) as Hall. apply Forall_app in Hall as [_ Hall].
  apply list_elem_of_split in Ha as (h3 & h4 & ->).
  apply chain_app in Hc2 as (s2 & Hc3 & Hc4). apply Forall_app in Hall as [Hall _].
  pose proof (chain_evolves _ _ _ Hc3 Hall) as (_ & Hs & _).
  inversion Hc4; subst. rewrite Hs in Hstop; done.
Qed.

(** A boot that nothing else disturbs leaves the shared memory well formed, on every
    outcome: it starts the tasks in a state the process invariant asks for. *)
Theorem boot_starts_well_formed {X} `{!Env X} {Queue SocketAddr} (host : Host Queue SocketAddr)
    (w : World X) :
  (forall x s, process_wf s -> process_wf (interfere x s).2) ->
  sh_banks (shared w) = BankRegistry_default -> sh_markets (shared w) = None ->
  wp (main host) (fun _ _ w' => process_wf (shared w')) w.
Proof.
  intros Hr Hb Hm. eapply wp_mono; [by apply main_keeps_wf|]. intros tr r w' H. apply H.
  split; [rewrite Hb; apply registry_wf_default|by rewrite Hm].
Qed.
End process_properties.
