(* ===== verification/Stopping.v ===== *)
(** How the process ends: among tasks that keep to their guarantees, and on a clock
    that advances, a task that finds the stop flag set at the end of a round returns
    without doing anything else. *)

From Stdlib Require Import ZArith Lia.
From stdpp Require Import gmap strings list relations.
From S2P Require Import Prelude Solana State Effects Logic Rpc Util ChainReader BankRegistry Config SwbCranker Metrics Handlers Main Footprint Guarantee Process.

Local Open Scope crank_scope.

(** ** Definitions *)

(** What the other tasks may do while task [t] runs. *)
Definition others {CR : Crates} (t : Task) (s s' : Shared) : Prop :=
  exists t', t' <> t /\ allowed t' s s'.

(** An environment of [t] whose interference is any sequence of their accesses. *)
Class Peers {X} `{!Env X} {CR : Crates} (t : Task) : Prop :=
  peers : forall x s, rtc (others t) s (interfere x s).2.

(** A clock that does not run backwards and over which a sleep lasts its duration. *)
Record SaneClock {X} `{!Env X} (clock : X -> Instant) : Prop := {
  sc_now : forall x, (instant_now x).1 = clock x /\ (clock x <= clock (instant_now x).2)%Z;
  sc_interfere : forall x s, (clock x <= clock (interfere x s).1)%Z;
  sc_sleep : forall x d, (0 <= d)%Z -> (clock x + d <= clock (do_sleep d x))%Z }.

(** A loop of rounds: a round that says [true] ends it. *)
Record Loop {X} (run : nat -> M X bool) (round : M X bool) : Prop := {
  loop_0 : forall w, run 0%nat w = (Ok false, w);
  loop_S : forall n w, run (S n) w =
    match round w with (Ok false, w') => run n w' | other => other end }.

(** A [Duration] is not negative. *)
Definition plan_intervals (pl : Plan) : Prop :=
  let cfg := ctx_cfg (pl_ctx pl) in
  let h := cfg_handlers cfg in
  Forall (fun d => 0 <= d)%Z
    [cfg_banks_refresh_interval cfg; promoter_interval h; claimer_interval h;
     liquidator_interval h; curator_fee_claimer_interval h; match_cranker_interval h].

(** ** Lemmas *)

Section peers.
Context {X : Type} `{!Env X} {CR : Crates} (t : Task) `{!Peers t}.

Lemma peers_evolve x s : evolves s (interfere x s).2.
Proof.
  pose proof (peers (t := t) x s) as H. revert H. generalize (interfere x s).2. intros s'.
  induction 1 as [s|s1 s2 s3 (t' & _ & Ha) _ IH]; [done|].
  etrans; [by eapply allowed_evolves|done].
Qed.

Lemma peers_sticky x s : sh_stop s = true -> sh_stop (interfere x s).2 = true.
Proof. apply peers_evolve. Qed.

Lemma peers_grow x s : banks_grow s (interfere x s).2.
Proof. apply peers_evolve. Qed.

(** The cell of a task is its own. *)
Lemma peers_own {A} (cell : Shared -> A) x s :
  (forall t' s s', t' <> t -> allowed t' s s' -> cell s' = cell s) ->
  cell (interfere x s).2 = cell s.
Proof.
  intros Hc. pose proof (peers (t := t) x s) as H. revert H. generalize (interfere x s).2.
  intros s'. induction 1 as [s|s1 s2 s3 (t' & Hne & Ha) _ IH]; [done|].
  rewrite IH. by eapply Hc.
Qed.
End peers.

Section loops.
Context {X : Type} (run : nat -> M X bool) (round : M X bool) (L : Loop run round).

(** More fuel goes on from where less fuel stopped. *)
Lemma loop_more n m w w' : run n w = (Ok false, w') -> run (n + m) w = run m w'.
Proof.
  revert w. induction n as [|n IH]; intros w H; cbn [plus].
  { rewrite (loop_0 _ _ L) in H. by injection H as <-. }
  rewrite (loop_S _ _ L) in H |- *. destruct (round w) as [[[]|e|s] w1]; [done| |done..].
  by apply IH.
Qed.
End loops.

Section rounds.
Context {X : Type} `{!Env X} {CR : Crates} {YD : YDelta}.
Context (clock : X -> Instant) (Hc : SaneClock clock).

(** A background task looks at the flag again after every wait; the supervisor
    returns from a wait that saw it. *)
Definition task_round (tick : M X unit) (interval : Duration) : M X bool :=
  let! st := load_stop in
  if st : bool then ret true else tick ;; (let! _ := sleep_until_or_stop interval in ret false).

Definition supervised_round (hd : Handler X) ctx (interval : Duration) : M X bool :=
  let! st := load_stop in
  if st : bool then ret true
  else
    supervise_once hd ctx ;;
    (let! e := sleep_until_or_stop interval in
     ret (match e with WElapsed => false | _ => true end)).

Definition warm_round c (interval : Duration) : M X bool :=
  let! st := load_stop in
  if st : bool then ret true
  else
    swb_crank_tick c ;;
    let! e := swb_sleep (swb_sleep_fuel interval) 0 interval in
    ret (default false e).

Lemma bind_run_eq {A B} (m : M X A) (f : A -> M X B) w :
  bind m f w = match m w with
               | (Ok a, w') => f a w' | (Err e, w') => (Err e, w') | (Panic s, w') => (Panic s, w')
               end.
Proof. done. Qed.

(** The wait never runs out of fuel. *)
Lemma wait_ends total w :
  (0 <= total)%Z -> exists e w', sleep_until_or_stop total w = (Ok e, w') /\ e <> WOutOfFuel.
Proof.
  intros Ht. destruct Hc as [H1 H2 H3].
  destruct (sleep_ends clock total w H1 H2 H3 Ht) as (tr & _ & _ & _ & Hr).
  destruct (sleep_until_or_stop total w) as [r w']. cbn in Hr.
  destruct Hr as [->|[-> _]]; by eexists _, _.
Qed.

Lemma task_loop_rounds tick interval :
  (0 <= interval)%Z -> Loop (fun n => task_loop n tick interval) (task_round tick interval).
Proof.
  intros Hi. split; [done|]. intros n w. cbn [task_loop]. unfold task_round.
  rewrite !bind_run_eq. destruct (load_stop w) as [[[]|e|s] w1]; [done| |done..].
  rewrite !bind_run_eq. destruct (tick w1) as [[u|e|s] w2]; [|done..].
  rewrite !bind_run_eq. destruct (wait_ends interval w2 Hi) as (e & w3 & -> & He).
  by destruct e.
Qed.

(** The supervisor's wait is the background tasks' one. *)
Lemma sleep_bind {A} total (k : WaitEnd -> M X A) w :
  (let! e := sleep_until_or_stop total in k e) w =
  (let! now := now_instant in let! e := wait_loop (wait_fuel total) (now + total) in k e) w.
Proof. unfold sleep_until_or_stop, bind. by destruct (now_instant w) as [[now|e|s] w1]. Qed.

Lemma supervised_rounds hd ctx interval :
  (0 <= interval)%Z ->
  Loop (fun n => spawn n hd ctx interval) (supervised_round hd ctx interval).
Proof.
  intros Hi. split; [done|]. intros n w. cbn [spawn]. unfold supervised_round.
  rewrite !bind_run_eq. destruct (load_stop w) as [[[]|e|s] w1]; [done| |done..].
  rewrite !bind_run_eq. destruct (supervise_once hd ctx w1) as [[u|e|s] w2]; [|done..].
  rewrite <-sleep_bind, !bind_run_eq.
  destruct (wait_ends interval w2 Hi) as (e & w3 & -> & He). by destruct e.
Qed.

Lemma warm_rounds c interval :
  Loop (fun n => swb_crank_loop n c interval) (warm_round c interval).
Proof.
  split; [done|]. intros n w. cbn [swb_crank_loop]. unfold warm_round.
  rewrite !bind_run_eq. destruct (load_stop w) as [[[]|e|s] w1]; [done| |done..].
  rewrite !bind_run_eq. destruct (swb_crank_tick c w1) as [[u|e|s] w2]; [|done..].
  rewrite !bind_run_eq. pose proof (swb_sleep_returns interval w2) as (tr & _ & b & k & Hr & _).
  destruct (swb_sleep _ 0 interval w2) as [r w3]. cbn in Hr. subst r. by destruct b.
Qed.

(** A round that finds the flag set is over. *)
Lemma round_stops (rest : M X bool) (w : World X) :
  (forall x s, sh_stop s = true -> sh_stop (interfere x s).2 = true) ->
  sh_stop (shared w) = true ->
  exists w', (let! st := load_stop in if st : bool then ret true else rest) w = (Ok true, w') /\
    trace w' = trace w.
Proof.
  intros Hst Hw. pose proof (Hst (ext w) (shared w) Hw) as H. unfold load_stop, shared_op.
  rewrite bind_run_eq. destruct (interfere (ext w) (shared w)) as [x' s'].
  cbn in H. rewrite H. by eexists.
Qed.
End rounds.

(** Every looping task is a loop of rounds that begin with the flag. *)
Section task_loops.
Context {X : Type} `{!Env X} {CR : Crates} {YD : YDelta}.
Context (clock : X -> Instant) (Hc : SaneClock clock).

Lemma enabled_intervals (h : HandlersConfig) :
  Forall (fun d => 0 <= d)%Z
    [promoter_interval h; claimer_interval h; liquidator_interval h;
     curator_fee_claimer_interval h; match_cranker_interval h] ->
  Forall (fun hi => 0 <= hi.2)%Z (@enabled_handlers X _ _ _ h).
Proof.
  intros H. repeat (apply Forall_cons in H as [? H]). unfold enabled_handlers.
  repeat apply Forall_app_2; case_match; repeat constructor; done.
Qed.

Lemma task_rounds pl t :
  t <> TSignal -> t <> THealth -> plan_intervals pl ->
  (exists rest, Loop (task_body (X := X) pl t)
     (let! st := load_stop in if st : bool then ret true else rest)) \/
  (forall n w, task_body (X := X) pl t n w = (Ok true, w)).
Proof.
  intros Ht Ht' Hp. apply Forall_cons in Hp as [Hb Hh]. unfold task_body.
  destruct t as [| | | | | |i]; [..|done|done|].
  - left. eexists. by apply (task_loop_rounds clock Hc).
  - left. eexists. by apply (task_loop_rounds clock Hc).
  - left. eexists. by apply (task_loop_rounds clock Hc).
  - destruct (pl_warm pl) as [[c d]|]; [left|by right]. eexists. apply warm_rounds.
  - destruct (_ !! i) as [[hd d]|] eqn:E; [left|by right]. eexists.
    apply (supervised_rounds clock Hc).
    apply enabled_intervals in Hh. by apply (Forall_lookup_1 _ _ _ _ Hh) in E.
Qed.
End task_loops.

(** ** Properties *)

Section stopping.
Context {X : Type} `{!Env X} {CR : Crates} {YD : YDelta}.

(** C22. The process ends: among tasks that keep to their guarantees and on a clock that
    advances, any task that still runs after some rounds, when the stop flag is set,
    returns, however much longer it may run, and does nothing more before it does. *)
Theorem tasks_end_after_stop clock pl t n m (w w' : World X) :
  SaneClock clock -> Peers (X := X) t -> t <> TSignal -> t <> THealth -> plan_intervals pl ->
  task_body pl t n w = (Ok false, w') -> sh_stop (shared w') = true ->
  exists w'', task_body pl t (n + S m) w = (Ok true, w'') /\ trace w'' = trace w'.
Proof.
  intros Hc HP Ht Ht' Hp Hrun Hst.
  destruct (task_rounds clock Hc pl t Ht Ht' Hp) as [[rest L]|Hdone].
  - rewrite (loop_more _ _ L _ _ _ _ Hrun), (loop_S _ _ L).
    destruct (round_stops rest w' (peers_sticky t) Hst) as (w'' & -> & Htr). by exists w''.
  - rewrite Hdone in Hrun. done.
Qed.

(** The tasks' hypotheses on each other hold among peers: the refresh only adds, the
    low-balance flag says what its task read last, and no handler submits once it sees
    the flag. *)
Theorem sol_flag_among_peers signers min_balance (w : World X) :
  Peers (X := X) TSol ->
  wp (sol_balance_tick signers min_balance) (fun tr r w' =>
    r = Ok tt /\ sh_fee_payer_low (shared w') =
      match (cl_get_balance (keypair_pubkey (sg_fee_payer signers)) (ext w)).1 with
      | inr lamports => (lamports <? min_balance)%Z
      | inl _ => sh_fee_payer_low (shared w)
      end) w.
Proof.
  intros HP. eapply wp_mono; [apply sol_balance_flag|by intros tr r w' (_ & _ & -> & H)].
  intros x s. apply (peers_own TSol). intros t' s1 s2 Hne. by destruct 1.
Qed.
End stopping.
