(* ===== verification/Testbed.v ===== *)
(** A concrete node and concrete third-party functions, on which the theorems
    with hypotheses are instantiated. *)

From Stdlib Require Import ZArith Lia Ascii.
From stdpp Require Import gmap strings list.
From S2P Require Import Prelude Solana State Effects BankRegistry.

Local Open Scope crank_scope.

Definition bytes_string (bs : bytes) : string :=
  String.string_of_list_ascii (map (fun b => ascii_of_nat (Z.to_nat (byte_Z b))) bs).

Definition key (n : Z) : Pubkey := mkPubkey (le_bytes 32 n).

(** A node whose accounts and program accounts never change, with a clock that
    only sleeping advances, one task, and an honest signature status. *)
Definition node (accounts : Pubkey -> option Account) (programs : list (Pubkey * Account)) : Env Z := {|
  cl_get_account p t :=
    (match accounts p with
     | Some a => inr a
     | None => inl (mkClientError CeOther ["AccountNotFound"])
     end, t);
  cl_get_multiple_accounts ps t := (inr (map accounts ps), t);
  cl_get_program_accounts _ _ t := (inr programs, t);
  cl_get_signature_statuses sigs t := (inr (map (fun _ => false) sigs), t);
  cl_get_latest_blockhash t := (inr [], t);
  cl_send_and_confirm tx t := (inr (default [] (head (tx_signatures tx))), t);
  cl_simulate _ t := (inr (mkSim None None), t);
  cl_get_balance _ t := (inr 1000%Z, t);
  cl_get_slot t := (inr 1%Z, t);
  gw_fetch_update _ _ _ t := (inr ([], []), t);
  instant_now t := (t, t);
  system_now t := (Some t, t);
  do_sleep d t := (t + d)%Z;
  join_order n t := (seq 0 n, t);
  interfere t s := (t, s) |}.

Definition test_crates : Crates := {|
  bs58_encode := bytes_string;
  bs58_decode s := inr (string_bytes s);
  base64_decode s := Some (string_bytes s);
  json_string_array _ := inr [];
  json_u8_array bs := inr bs;
  pubkey_from_str s := inr (mkPubkey (string_bytes s));
  pubkey_literal s := mkPubkey (string_bytes s);
  keypair_try_from bs := inr (mkKeypair bs);
  keypair_pubkey k := mkPubkey (kp_secret k);
  find_program_address seeds p := (mkPubkey (concat seeds ++ to_bytes p), 255%Z);
  create_program_address seeds p := inr (mkPubkey (concat seeds ++ to_bytes p));
  system_program_id := key 0;
  set_compute_unit_limit z := mkIx (key 1) [] (le_bytes 4 z);
  set_compute_unit_price z := mkIx (key 1) [] (le_bytes 8 z);
  v0_compile_error _ := None;
  num_required_signatures _ := 1%nat;
  sign_legacy _ ks := Some (map kp_secret ks);
  sign_v0 _ ks := inr (map kp_secret ks) |}.

Definition test_record (disc : Z) : MarketFixed :=
  {| mf_discriminator := disc; mf_debt_mint := key 2; mf_collateral_mint := key 3;
     mf_debt_lending_pool := key 4; mf_collateral_lending_pool := key 5; mf_is_paused := 0;
     mf_admin := key 6; mf_grace_period_seconds := 60; mf_liquidation_keeper_bps := 100;
     mf_liquidation_protocol_bps := 50; mf_matched_loans_root_index := 1;
     mf_claimed_seats_root_index := 1; mf_asks_root_index := 1; mf_asks_best_index := 1;
     mf_bids_best_index := 1 |}.

(** The one resting order of every book: it crosses itself. *)
Definition test_order : RestingOrder :=
  {| ro_sequence_number := 1; ro_side := 0; ro_rate_bps := 500; ro_term_seconds := 3600;
     ro_principal_atoms := 10; ro_trader_seat_index := 1 |}.

Definition test_ydelta : YDelta := {|
  ydelta_id := key 7;
  LoanState_Active := 1; LoanState_Repaid := 2; LoanType_P2Pool := 1;
  MATCHED_LOAN_FLAG_VAULT_LENDER := 1; MATCHED_LOAN_FLAG_VAULT_PRESETTLED := 2;
  OWNER_KIND_SUB_VAULT := 1; NIL := U32_MAX;
  MARKET_FIXED_SIZE := 8%nat; LOAN_FIXED_SIZE := 8%nat; GLOBAL_VAULT_FIXED_SIZE := 8%nat;
  MARKET_FIXED_DISCRIMINANT := 11; LOAN_FIXED_DISCRIMINANT := 12;
  GLOBAL_VAULT_FIXED_DISCRIMINANT := 13;
  MatchCrankLog_discriminant := le_bytes 8 14;
  market_from_bytes bs := Some (test_record (le_Z bs));
  loan_from_bytes _ := None;
  global_vault_try_from_bytes _ := None;
  iter_matched_loans _ _ _ :=
    Some [{| ml_sequence := 7; ml_flags := 0; ml_loan_type := 1; ml_lender_seat_index := 1;
             ml_borrower_seat_index := 2; ml_principal_atoms := 100; ml_origination_atoms := 1 |}];
  iter_sub_vaults _ _ _ := Some [];
  iter_claimed_seats _ _ _ :=
    Some [{| cs_owner := key 28; cs_owner_kind := 0; cs_sub_vault_id := 0;
             cs_debt_withdrawable_shares := 4 |};
          {| cs_owner := key 8; cs_owner_kind := 1; cs_sub_vault_id := 0;
             cs_debt_withdrawable_shares := 9 |};
          {| cs_owner := key 29; cs_owner_kind := 1; cs_sub_vault_id := 1;
             cs_debt_withdrawable_shares := 0 |}];
  iter_bookside _ _ _ := Some [];
  get_helper_seat _ _ := None; get_helper_order _ _ := Some test_order;
  global_vault_pda p := (p, 255%Z); global_vault_signer_pda p := (p, 255%Z);
  global_vault_staging_pda p := (p, 255%Z);
  global_vault_integration_account_pda p := (p, 255%Z);
  get_vault_address p _ := (p, 255%Z);
  get_lender_integration_account_address p := (p, 255%Z);
  get_market_signer_address p := (p, 255%Z);
  process_matched_loan_instruction _ _ _ _ s _ _ := mkIx (key 7) [] (le_bytes 8 s);
  check_maturity_liquidatable_instruction _ _ s _ _ := mkIx (key 7) [] (le_bytes 8 s);
  check_ltv_liquidatable_instruction _ _ s _ _ _ _ _ := mkIx (key 7) [] (le_bytes 8 s);
  settle_matured_loan_instruction _ _ s _ _ da ca db cb _ _ _ _ _ _ _ _ repay _ _ :=
    mkIx (key 7) (map (fun p => mkMeta p false true) [da; ca; db; cb]) (le_bytes 8 s ++ le_bytes 8 repay);
  liquidate_loan_instruction _ _ s _ _ da ca db cb _ _ _ _ _ _ _ _ repay _ _ :=
    mkIx (key 7) (map (fun p => mkMeta p true true) [da; ca; db; cb]) (le_bytes 8 s ++ le_bytes 8 repay);
  claim_repayment_for_sub_vault_instruction _ _ i _ _ _ _ _ _ _ _ _ _ :=
    mkIx (key 7) [] (le_bytes 8 i);
  claim_curator_fee_instruction _ _ _ _ _ _ _ _ _ _ _ i := mkIx (key 7) [] (le_bytes 8 i);
  match_crank_instruction _ _ _ _ _ _ _ _ n := mkIx (key 7) [] (le_bytes 8 n) |}.

(** *** A configuration and a context *)

Definition test_env (name : string) : option string :=
  if decide (name = "NETWORK") then Some "mainnet"
  else if decide (name = "RPC_URL") then Some "https://u:p@host/?api-key=k"
  else if decide (name = "MARGINFI_PROGRAM_ID") then Some "marginfi"
  else if decide (name = "MARGINFI_GROUP") then Some "group"
  else if decide (name = "FEE_PAYER_KEYPAIR") then Some "/keys/payer.json"
  else if decide (name = "MATCH_CRANKER_MAX_FILLS") then Some "+12"
  else None.

Definition test_handlers : HandlersConfig :=
  {| promoter_enabled := true; claimer_enabled := true; liquidator_enabled := true;
     curator_fee_claimer_enabled := false; match_cranker_enabled := true;
     promoter_interval := from_secs 5; claimer_interval := from_secs 30;
     liquidator_interval := from_secs 10; curator_fee_claimer_interval := from_secs 3600;
     match_cranker_interval := from_secs 15; match_cranker_max_fills := 12 |}.

Definition test_config : Config :=
  {| cfg_network := Mainnet; cfg_rpc_url := "https://u:p@host/?api-key=k";
     cfg_program_id := mkPubkey (string_bytes (bytes_string (le_bytes 32 7)));
     cfg_marginfi_program_id := mkPubkey (string_bytes "marginfi");
     cfg_marginfi_group := mkPubkey (string_bytes "group");
     cfg_fee_payer_keypair := Path "/keys/payer.json"; cfg_fee_payer_expected_pubkey := None;
     cfg_handlers := test_handlers;
     cfg_thresholds := {| min_liquidation_profit_atoms := 1000000;
                          maturity_extra_buffer := from_secs 30;
                          min_curator_fee_claim_atoms := 100000 |};
     cfg_priority_fee_micro_lamports := 1000; cfg_compute_unit_limit := 400000;
     cfg_min_signer_balance_lamports := 50000000;
     cfg_banks_refresh_interval := from_secs 300; cfg_curator_keypairs_base58 := [] |}.

Definition test_payer : Keypair := mkKeypair (le_bytes 64 42).
Definition test_signers : Signers := {| sg_fee_payer := test_payer; sg_curators := ∅ |}.
Definition test_rpc : Rpc :=
  {| rpc_priority_fee_micro_lamports := 1000; rpc_compute_unit_limit := 400000;
     rpc_has_stop := true |}.
Definition test_chain : ChainReader := {| cr_rpc := test_rpc; cr_program_id := key 7 |}.
Definition test_ctx : HandlerContext :=
  {| ctx_cfg := test_config; ctx_rpc := test_rpc; ctx_chain := test_chain;
     ctx_signers := test_signers; ctx_swb_cranker := None |}.

Definition test_bank : BankInfo :=
  {| bi_mint := key 2; bi_bank := key 4; bi_liquidity_vault := key 20;
     bi_liquidity_vault_authority := key 21; bi_oracles := [key 22];
     bi_token_program := mkPubkey (string_bytes "TokenkegQfeZyiNwAJbNbGKPFXCWuBvf9Ss623VQ5DA");
     bi_oracle_setup := 3 |}.
Definition test_registry : BankRegistry := {| by_mint := {[ key 2 := test_bank ]} |}.

Definition no_inflight : Inflight := mkInflight ∅ ∅ ∅ ∅ ∅.

(** The start of a run at time [t]. *)
Definition start (t : Z) (stop low : bool) (markets : option MarketCache) (banks : BankRegistry) :
  World Z := mkWorld t (mkShared stop low markets banks ∅) no_inflight [].

Definition test_market : MarketView :=
  {| mv_address := key 10; mv_debt_mint := key 2; mv_collateral_mint := key 3;
     mv_debt_bank := key 4; mv_collateral_bank := key 5; mv_is_paused := false;
     mv_admin := key 6; mv_grace_period_seconds := 60; mv_liquidation_keeper_bps := 100;
     mv_liquidation_protocol_bps := 50 |}.
