(* ===== verification/Witness.v ===== *)
(** The properties that carry hypotheses, applied at concrete inputs: the node,
    the program crate and the configuration of [Testbed]. *)

From Stdlib Require Import ZArith Lia Ascii.
From stdpp Require Import gmap strings list.
From S2P Require Import Prelude Solana State Effects Logic Rpc Liveness Util MarginfiBank ChainReader BankRegistry Config Signer SwbCranker Metrics Handlers Promoter Claimer CuratorFeeClaimer MatchCranker Liquidator HealthServer Main Keeper Progress Boot Shutdown Testbed.

Local Open Scope crank_scope.

#[local] Existing Instance test_crates.
#[local] Existing Instance test_ydelta.

(** A node with no account and no program account. *)
Definition empty_node : Env Z := node (fun _ => None) [].

(** ** Liquidator *)

Definition test_loan (outstanding : Z) : LoanView :=
  {| lv_address := key 30; lv_market := key 10; lv_state := 1; lv_loan_type := 0;
     lv_principal_debt_atoms := outstanding; lv_outstanding_debt_atoms := outstanding;
     lv_matures_at_unix := 1000; lv_matched_loan_sequence := 1; lv_lender_kind := 0;
     lv_lender_global_vault := key 31; lv_lender_sub_vault_id := 0;
     lv_borrower_rate_bps := 500; lv_lender_rate_bps := 400 |}.

Lemma repay_for_balance_spec_witness :
  repay_for_balance (test_loan 100000) 5000 = Some 5000%Z /\
  repay_for_balance (test_loan 100000) 999 = None /\
  (5000 <= 5000 /\ min_partial_repay_atoms (outstanding_est (test_loan 100000)) <= 5000)%Z.
Proof.
  assert (is_u64 100000 /\ is_u64 5000) as [H1 H2] by (unfold is_u64, U64_MAX; lia).
  assert (repay_for_balance (test_loan 100000) 5000 = Some 5000%Z) as E by (vm_compute; reflexivity).
  split; [exact E|]. split; [vm_compute; reflexivity|].
  destruct (repay_for_balance_spec (test_loan 100000) 5000 H1 H1 H2 ltac:(cbn; lia)) as (_ & _ & H).
  destruct (H 5000%Z E ltac:(unfold REPAY_FULL, U64_MAX; lia)) as (_ & [_ Hb] & _ & Hf).
  split; [exact Hb|]. apply Hf. reflexivity.
Defined.

(** A loan that matures at 1000 with a grace of 60 and a buffer of 30 seconds. *)
Lemma is_matured_exact_witness :
  (is_matured (effective_grace 60 (from_secs 30)) 1090 (test_loan 5) = true <->
     (1000 + 60 + 30 <= 1090)%Z) /\
  (is_matured (effective_grace 60 (from_secs 30)) 1089 (test_loan 5) = true <->
     (1000 + 60 + 30 <= 1089)%Z).
Proof.
  split; apply is_matured_exact;
    first [unfold is_u32, U32_MAX; lia | unfold I64_MAX, U32_MAX; lia
          | cbn; unfold is_i64, I64_MIN, I64_MAX; lia].
Defined.

(** ** Match cranker *)

(** A crank log that reports [n] fills: discriminant, market, cranker, count
    and the tail of the record. *)
Definition crank_log (n : Z) : bytes :=
  le_bytes 8 14 ++ le_bytes 32 1 ++ le_bytes 32 2 ++ le_bytes 4 n ++ le_bytes 4 0.

Lemma parse_fills_roundtrip_witness :
  parse_match_crank_fills
    ["Program log: hi"; ("Program data: " +:+ bytes_string (crank_log 5))%string; "later"]%string
    = Some 5%Z.
Proof.
  apply (parse_fills_roundtrip ["Program log: hi"]%string (bytes_string (crank_log 5))
           (le_bytes 32 1) (le_bytes 32 2) 5 (le_bytes 4 0) ["later"]%string).
  - apply Forall_singleton. vm_compute. reflexivity.
  - vm_compute. reflexivity.
  - reflexivity.
  - reflexivity.
  - reflexivity.
  - vm_compute. lia.
  - unfold is_u32, U32_MAX. lia.
  - vm_compute. reflexivity.
Defined.

(** ** Shutdown and the supervisor *)

Lemma no_submission_after_stop_witness :
  length (@enabled_handlers Z empty_node _ _ test_handlers) = 4%nat /\
  Forall (fun hi => @wp Z _ (h_tick hi.1 test_ctx) (fun tr _ w' =>
      Forall no_submit tr /\ sh_stop (shared w') = true)
      (start 0 true false None test_registry))
    (@enabled_handlers Z empty_node _ _ test_handlers).
Proof.
  split; [reflexivity|].
  apply (@no_submission_after_stop Z empty_node _ _ test_handlers test_ctx).
  - intros x s H. exact H.
  - reflexivity.
  - reflexivity.
Defined.

Lemma supervisor_idle_while_low_witness :
  @wp Z _ (spawn 3 (@PromoterHandler Z empty_node _ _) test_ctx (from_secs 5))
    (fun tr r w' => Forall passive tr /\ sh_fee_payer_low (shared w') = true)
    (start 0 false true None test_registry).
Proof.
  apply (@supervisor_idle_while_low Z empty_node _ 3).
  - reflexivity.
  - intros x s H. exact H.
  - reflexivity.
Defined.

Definition nanos (t : Z) : Instant := t.

Lemma sleep_until_or_stop_returns_witness :
  @wp Z _ (@sleep_until_or_stop Z empty_node (from_secs 5)) (fun tr r w' =>
      inflight w' = no_inflight /\ Forall short_sleep tr /\
      (r = Ok WStopped \/ r = Ok WElapsed /\ (nanos 0 + from_secs 5 <= nanos (ext w'))%Z))
    (start 0 false false None test_registry).
Proof.
  apply (@sleep_until_or_stop_returns Z empty_node nanos (from_secs 5)
           (start 0 false false None test_registry)).
  - intros x. unfold nanos. cbn. split; [reflexivity|apply Z.le_refl].
  - intros x s. apply Z.le_refl.
  - intros x d Hd. apply Z.le_refl.
  - unfold from_secs. lia.
Defined.

(** The low-balance flag is set when the node reports fewer lamports than asked for. *)
Lemma sol_balance_flag_witness :
  @wp Z _ (@sol_balance_tick Z empty_node _ test_signers 5000) (fun tr r w' =>
      inflight w' = no_inflight /\ Forall no_submit tr /\ r = Ok tt /\
      sh_fee_payer_low (shared w') = true) (start 0 false false None test_registry).
Proof.
  apply (@sol_balance_flag Z empty_node _ test_signers 5000
           (start 0 false false None test_registry)).
  intros x s. reflexivity.
Defined.

(** ** Accounts in batches *)

(** A node that holds one token account of 77 atoms at the payer's associated
    account for the test bank's mint. *)
Definition payer_ata : Pubkey := ata_for test_bank (keypair_pubkey test_payer).
Definition token_account : Account :=
  mkAccount (replicate 64 Byte.x00 ++ le_bytes 8 77 ++ replicate 93 Byte.x00) (key 40).
Definition holding (p : Pubkey) : option Account :=
  if decide (p = payer_ata) then Some token_account else None.
Definition holding_node : Env Z := node holding [].

Lemma batch_get_multiple_accounts_pointwise_witness :
  @wp Z _ (@batch_get_multiple_accounts Z holding_node [key 1; payer_ata]) (fun tr r _ =>
      r = Ok [None; Some token_account] /\ length tr = 1%nat /\
      Forall (fun ev => exists ps, ev = EvRead (RdMultiple ps) /\ length ps <= CHUNK_SIZE)%nat tr)
    (start 0 false false None test_registry).
Proof.
  apply (@batch_get_multiple_accounts_pointwise Z holding_node holding [key 1; payer_ata]).
  - intros ps x. exists x. reflexivity.
  - intros n x. reflexivity.
Defined.

Lemma ata_balances_published_witness :
  @wp Z _ (@ata_balance_tick Z holding_node _ test_signers) (fun tr r w' =>
      r = Ok tt /\ sh_ata_balances (shared w') = {[ key 2 := 77%Z ]})
    (start 0 false false None test_registry).
Proof.
  eapply wp_mono.
  - apply (@ata_balances_published Z holding_node _ holding test_signers
             (start 0 false false None test_registry)).
    + intros ps x. exists x. reflexivity.
    + intros n x. reflexivity.
    + intros x s. reflexivity.
  - intros tr r w' (Hr & _ & _ & H). split; [exact Hr|].
    cbn [start shared sh_banks test_registry by_mint] in H.
    rewrite H by apply map_non_empty_singleton. rewrite map_fmap_singleton.
    apply (f_equal (fun z => {[ key 2 := z ]})). vm_compute. reflexivity.
Defined.

(** A second bank, and a registry of both: the node holds the payer's account for the first
    mint only. *)
Definition other_bank : BankInfo :=
  {| bi_mint := key 3; bi_bank := key 5; bi_liquidity_vault := key 23;
     bi_liquidity_vault_authority := key 24; bi_oracles := [key 25];
     bi_token_program := bi_token_program test_bank; bi_oracle_setup := 3 |}.
Definition two_banks : BankRegistry := {| by_mint := {[ key 2 := test_bank; key 3 := other_bank ]} |}.

Lemma ensure_atas_exact_witness :
  @wp Z _ (@ensure_atas_for Z holding_node _ two_banks test_rpc test_payer)
    (fun tr r w' => Forall (submit_sat (carries (keypair_pubkey test_payer)
        (priority_fee_preamble test_rpc (rpc_compute_unit_limit test_rpc) ++
         [mkIx (pubkey_literal "ATokenGPvbdGVxr1b2hvZbsiqW5xWH25efTNsLJA8knL")
            [mkMeta (keypair_pubkey test_payer) true true;
             mkMeta (ata_address (keypair_pubkey test_payer) (bi_token_program test_bank) (key 3))
               false true;
             mkMeta (keypair_pubkey test_payer) false false; mkMeta (key 3) false false;
             mkMeta (key 0) false false; mkMeta (bi_token_program test_bank) false false]
            [Byte.x01]]) [])) tr /\
      (r = Ok tt -> exists s, delivered s tr))
    (start 0 false false None two_banks).
Proof.
  assert (without_ata holding two_banks (keypair_pubkey test_payer) = [other_bank]) as E
    by (vm_compute; reflexivity).
  eapply wp_mono.
  - apply (@ensure_atas_exact Z holding_node _ holding two_banks test_rpc test_payer).
    intros ps _. exists 0%Z. reflexivity.
  - intros tr r w' (_ & _ & H). rewrite E in H. destruct (H ltac:(discriminate)) as (_ & Hs & Hd).
    split; [exact Hs|exact Hd].
Defined.

(** On the other branch, nothing is missing and nothing is sent. *)
Example ensure_atas_nothing_missing :
  submits (trace (@ensure_atas_for Z holding_node _ test_registry test_rpc test_payer
    (start 0 false false None test_registry)).2) = 0%nat.
Proof. vm_compute. reflexivity. Qed.

(** ** Markets, claims and banks *)

Definition market_account : Account := mkAccount (le_bytes 8 11) Pubkey_default.
Definition market_read (p : Pubkey) : option Account :=
  if decide (p = key 10) then Some market_account else None.
Definition market_node : Env Z := node market_read [(key 10, market_account)].

(** A fresh cache answers without a call; without a cache the node is asked, and the answer
    is cached with the time of the read. The theorem has no hypothesis to discharge. *)
Example list_markets_cases :
  @wp Z _ (@list_markets Z market_node _ _ test_chain)
    (fun tr r _ => tr = [] /\ r = Ok [test_market])
    (start 10 false false (Some {| mc_fetched_at := 0; mc_markets := [test_market] |})
       test_registry) /\
  @wp Z _ (@list_markets Z market_node _ _ test_chain)
    (fun tr r w' => length tr = 1%nat /\ r = Ok [test_market] /\
       sh_markets (shared w') = Some {| mc_fetched_at := 10; mc_markets := [test_market] |})
    (start 10 false false None test_registry).
Proof. split; (eexists; split; [reflexivity|]); vm_compute; split_and!; reflexivity. Qed.

(** Of the market's three seats, one is not a vault's and one has no shares. *)
Lemma pending_claims_exact_witness :
  @wp Z _ (@list_pending_vault_claims Z market_node _ [test_market]) (fun tr r _ =>
      tr = [EvRead (RdAccount (key 10))] /\
      r = Ok [{| pc_market := key 10; pc_debt_mint := key 2; pc_debt_bank := key 4;
                 pc_lender_global_vault := key 8; pc_sub_vault_id := 0;
                 pc_debt_withdrawable_shares := 9 |}])
    (start 0 false false None test_registry).
Proof.
  eapply wp_mono.
  - apply (@pending_claims_exact Z market_node _ market_read [test_market]).
    + intros p x. exists x. reflexivity.
    + intros p acct. unfold market_read. case_decide; [|discriminate].
      intros [= <-]. discriminate.
  - intros tr r w' [H _]. destruct H as [-> ->].
    + apply Forall_singleton. vm_compute. by eexists.
    + split; reflexivity.
Defined.

Lemma refresh_banks_only_adds_witness :
  @wp Z _ (@refresh_banks Z market_node _ _ test_config test_chain) (fun _ _ w' =>
      registry_get (sh_banks (shared w')) (key 2) = Some test_bank)
    (start 0 false false None test_registry).
Proof.
  eapply wp_mono.
  - apply (@refresh_banks_only_adds Z market_node _ _).
    intros x s. split; [apply map_subseteq_po|exact (fun H => H)].
  - intros tr r w' [H _]. apply H. vm_compute. reflexivity.
Defined.

(** ** Boot *)

Lemma from_env_wf_witness :
  from_env test_env = Ok test_config /\ cfg_wf test_config /\
  cfg_fee_payer_keypair test_config = Path "/keys/payer.json".
Proof.
  assert (from_env test_env = Ok test_config) as E by (vm_compute; reflexivity).
  split; [exact E|]. destruct (from_env_wf test_env test_config E) as (H1 & H2 & _).
  split; [exact H1|exact H2].
Defined.

(** A key file of mode 0600 whose bytes are the payer's. *)
Definition test_mode (_ : string) : string + Z := inr 33152%Z.
Definition test_file (_ : string) : string + bytes := inr (le_bytes 64 42).

Lemma signers_load_sound_witness :
  Signers_load test_mode test_file test_config = Ok test_signers /\
  load_keypair test_mode test_file (cfg_fee_payer_keypair test_config) = Ok test_payer /\
  exists mode, test_mode "/keys/payer.json" = inr mode /\ Z.land mode 63 = 0%Z.
Proof.
  assert (Signers_load test_mode test_file test_config = Ok test_signers) as E
    by (vm_compute; reflexivity).
  destruct (signers_load_sound test_mode test_file test_config test_signers E)
    as (H1 & _ & H3 & _).
  split; [exact E|]. split; [exact H1|]. apply (H3 "/keys/payer.json"%string). reflexivity.
Defined.

(** ** Health server *)

(** Every code of a literal is in its range. *)
Ltac ascii_range :=
  lazymatch goal with |- Forall ?P ?l => let l' := eval vm_compute in l in change (Forall P l') end;
  repeat (apply Forall_cons; split; [lia|]); apply Forall_nil; exact I.

Definition get (path : string) : bytes :=
  map Z_byte (chars "GET" ++ [32%Z] ++ chars path ++ [32%Z] ++ chars "HTTP/1.1").
Definition peer (path : string) (write : option string) : Socket :=
  {| sk_read := inr (get path); sk_write_all := write; sk_shutdown := None |}.

Lemma health_routes_witness :
  handle_conn (peer "/healthz" None) false =
    ([OpRead; OpWrite RESP_HEALTHY; OpShutdown], Ok tt) /\
  handle_conn (peer "/readyz" (Some "broken pipe")) true =
    ([OpRead; OpWrite RESP_READY], Err ["broken pipe"]).
Proof.
  split.
  - eapply (health_routes (chars "GET") (chars "/healthz") (chars "HTTP/1.1") false
              (peer "/healthz" None)).
    + split; [discriminate|ascii_range].
    + split; [discriminate|ascii_range].
    + ascii_range.
    + vm_compute. lia.
    + reflexivity.
  - eapply (health_routes (chars "GET") (chars "/readyz") (chars "HTTP/1.1") true
              (peer "/readyz" (Some "broken pipe"))).
    + split; [discriminate|ascii_range].
    + split; [discriminate|ascii_range].
    + ascii_range.
    + vm_compute. lia.
    + reflexivity.
Defined.

(** ** A whole boot

    A node with one market over two marginfi banks, neither of which has a token
    account for the fee payer yet: the boot discovers both banks, creates the two
    accounts in one transaction, and ends with four supervised handlers. *)

Definition bank_account (mint : Pubkey) : Account :=
  mkAccount (BANK_DISCRIMINATOR ++ to_bytes mint ++ replicate (BANK_BODY_SIZE - 32) Byte.x01)
    (cfg_marginfi_program_id test_config).
Definition boot_accounts (p : Pubkey) : option Account :=
  if decide (p = key 10) then Some market_account
  else if decide (p = key 4) then Some (bank_account (key 2))
  else if decide (p = key 5) then Some (bank_account (key 3))
  else if decide (p = key 2 \/ p = key 3) then Some (mkAccount [] (@spl_token_legacy_id test_crates))
  else None.
Definition boot_node : Env Z := node boot_accounts [(key 10, market_account)].

Definition test_prometheus : Prometheus string := {|
  pb_builder := unit; pb_new := tt; pb_with_http_listener _ b := b;
  pb_set_buckets_for_metric _ buckets b := match buckets with [] => None | _ => Some b end;
  pb_install _ := None |}.

Definition test_host : Host unit string := {|
  host_env := test_env; host_mode := test_mode; host_read := test_file;
  host_parse_addr s := inr s; host_prometheus := test_prometheus;
  host_load_queue _ := inr tt; host_fetch_gateways _ := inr [] |}.

Example main_boots_on_testbed :
  let '(r, w) := @main Z boot_node _ _ unit string test_host
                   (start 0 false false None BankRegistry_default) in
  submits (trace w) = 1%nat /\ registry_len (sh_banks (shared w)) = 2%nat /\
  match r with
  | Ok b => map (fun hi => h_name hi.1) (bt_handlers b) =
              ["promoter"; "claimer"; "liquidator"; "match_cranker"]%string /\
            bt_health b = "0.0.0.0:8080"%string
  | _ => False
  end.
Proof. vm_compute. repeat split. Qed.

(** The table of that market, resolved against the same accounts. *)
Lemma resolve_exact_witness :
  @wp Z _ (@resolve_from_chain Z boot_node _ (cfg_marginfi_program_id test_config)
      (<[key 2 := key 4]> {[ key 3 := key 5 ]})) (fun tr r _ =>
      (length tr <= 2)%nat /\ exists reg b, r = Ok reg /\
      registry_get reg (key 2) = Some b /\ bi_bank b = key 4)
    (start 0 false false None BankRegistry_default).
Proof.
  eapply wp_mono.
  - apply (@resolve_exact Z boot_node _ (fun _ => True) boot_accounts).
    + intros ps x _ _ _. exists x. split; reflexivity.
    + exact I.
  - intros tr r w' (_ & Hn & Hr & Hiff). split; [exact Hn|].
    destruct (proj2 Hiff) as [reg ->].
    + apply map_Forall_insert_2; [|apply map_Forall_singleton]; vm_compute; by eexists.
    + eexists reg, _. split; [reflexivity|]. unfold registry_get. rewrite Hr. split.
      * rewrite lookup_insert_eq. vm_compute. reflexivity.
      * reflexivity.
Defined.

(** ** Recovery

    A node whose state is the number of sends it still refuses for an I/O error. *)

Definition io_error : ClientError := mkClientError CeIo ["connection reset"%string].
Definition flaky_node (accounts : Pubkey -> option Account) : Env nat := {|
  cl_get_account p x := (match accounts p with Some a => inr a | None => inl io_error end, x);
  cl_get_multiple_accounts ps x := (inr (map accounts ps), x);
  cl_get_program_accounts _ _ x := (inr [(key 10, market_account)], x);
  cl_get_signature_statuses sigs x := (inr (map (fun _ => false) sigs), x);
  cl_get_latest_blockhash x := (inr [], x);
  cl_send_and_confirm tx x :=
    match x with
    | O => (inr (default [] (head (tx_signatures tx))), O)
    | S n => (inl io_error, n)
    end;
  cl_simulate _ x := (inr (mkSim None None), x);
  cl_get_balance _ x := (inl io_error, x);
  cl_get_slot x := (inr 1%Z, x);
  gw_fetch_update _ _ _ x := (inr ([], []), x);
  instant_now x := (0%Z, x);
  system_now x := (Some 0%Z, x);
  do_sleep _ x := x;
  join_order n x := (seq 0 n, x);
  interfere x s := (x, s) |}.

(** The shared memory of a running process that knows two banks. *)
Definition running (s : Shared) : Prop := sh_stop s = false /\ sh_banks s = two_banks.
Definition failures (x : nat) : nat := x.

Lemma flaky_recovers accounts : @recovering nat (flaky_node accounts) running failures.
Proof.
  split.
  - intros s H. exact (proj1 H).
  - intros x s H. split; [exact H|reflexivity].
  - intros x. exists [], x. split; reflexivity.
  - reflexivity.
  - reflexivity.
  - intros tx [|n]; cbn; eexists _, _; (split; [reflexivity|]).
    + split; [reflexivity|]. by eexists.
    + split; [reflexivity|]. exists io_error. split; reflexivity.
Qed.

Lemma flaky_accepts accounts : @accepting nat (flaky_node accounts) _ running failures.
Proof.
  split.
  - apply flaky_recovers.
  - intros m x. eexists _, _. split; [reflexivity|]. split; reflexivity.
  - reflexivity.
  - reflexivity.
  - reflexivity.
  - intros m kp. cbn. by eexists _, _.
  - intros m kp. cbn. by eexists _, _.
Qed.

Definition flaky_start : World nat :=
  mkWorld 2%nat (mkShared false false None two_banks ∅) no_inflight [].

Lemma submission_recovers_witness :
  @wp nat _ (@send_signed_labeled nat (flaky_node (fun _ => None)) _ test_rpc "t" [] [test_payer])
    (fun tr r _ => (1 <= submits tr <= 3)%nat /\ exists s, r = Ok s) flaky_start.
Proof.
  refine (proj1 (@submission_recovers nat (flaky_node (fun _ => None)) _ running failures test_rpc
                   "t" [] [] test_payer flaky_start (flaky_recovers _) (conj eq_refl eq_refl) _ _ _)).
  - cbn. lia.
  - intros m. cbn. eexists _, _. reflexivity.
  - intros m. split; [reflexivity|]. cbn. eexists _, _. reflexivity.
Defined.

(** *** Posting an update, on the same node

    A post that the node refuses for an I/O error is followed, without a status check, by
    one through the next gateway: two transactions are handed over, one is acknowledged. *)
Example crank_posts_again :
  let c := {| swb_gateways := [{| gw_url := "g1" |}; {| gw_url := "g2" |}]; swb_payer := test_payer |} in
  let '(r, w) := @crank nat (flaky_node (fun _ => None)) _ c [key 9]
                   (mkWorld 1%nat (mkShared false false None two_banks ∅) no_inflight []) in
  match r with Ok (Some _) => True | _ => False end /\
  submits (trace w) = 2%nat /\ acknowledged (trace w) = 1%nat /\
  Forall (fun ev => match ev with EvStatus _ _ => False | _ => True end) (trace w).
Proof. vm_compute. by repeat constructor. Qed.

(** *** The boot, on the same node

    Its first two sends fail; the banks of the one market and their mints are there, and
    no token account is. *)

Lemma flaky_honest :
  @honest nat (flaky_node boot_accounts) _ _ 100 failures (fun _ => boot_accounts)
    (cfg_program_id test_config) [(key 10, market_account)] [test_market] boot_accounts.
Proof.
  split.
  - split; [done|done|..].
    + intros x. exists [], x. split; reflexivity.
    + reflexivity.
    + reflexivity.
    + apply (flaky_recovers boot_accounts).
  - split; reflexivity.
  - split; reflexivity.
  - intros x. exists x. split_and!; reflexivity.
  - intros ps x _. exists x. split_and!; reflexivity.
  - vm_compute. reflexivity.
  - reflexivity.
  - intros x. exists 1%Z. reflexivity.
  - intros m kp. cbn. by eexists _, _.
Qed.

Lemma flaky_few :
  (size (list_to_set (map fst (market_bindings [test_market])) : gset Pubkey) <= 100)%nat.
Proof. apply Nat.leb_le. vm_compute. reflexivity. Qed.

Lemma test_bootable :
  bootable boot_accounts (cfg_marginfi_program_id test_config) [test_market].
Proof.
  assert (market_bindings [test_market] = [(key 2, key 4); (key 3, key 5)]) as E
    by (vm_compute; reflexivity).
  unfold bootable. rewrite E. split.
  - intros k b b' H1 H2. apply list_elem_of_In in H1, H2. cbn [In] in H1, H2.
    destruct H1 as [H1|[H1|[]]], H2 as [H2|[H2|[]]]; pose proof (f_equal fst H1) as K1;
      pose proof (f_equal fst H2) as K2; apply (f_equal snd) in H1, H2; cbn [fst snd] in *;
      subst; try done; exfalso; revert K2; vm_compute; discriminate.
  - intros mint bank H. apply list_elem_of_In in H. cbn [In] in H.
    destruct H as [H|[H|[]]]; injection H as <- <-; vm_compute; by eexists.
Qed.

Definition boot_start : World nat :=
  mkWorld 2%nat (mkShared false false None BankRegistry_default ∅) no_inflight [].

Lemma boot_outcome_witness :
  @wp nat _ (@main nat (flaky_node boot_accounts) _ _ unit string test_host) (fun tr r w' =>
      (exists b, r = Ok b) /\ sh_stop (shared w') = false /\
      exists b, registry_get (sh_banks (shared w')) (key 3) = Some b /\ bi_bank b = key 5)
    boot_start.
Proof.
  eapply wp_mono.
  - eapply (@boot_outcome nat (flaky_node boot_accounts) _ _ 100 failures (fun _ => boot_accounts)
              (cfg_program_id test_config) [(key 10, market_account)] [test_market] boot_accounts
              flaky_honest flaky_few unit string test_host test_config test_signers
              "127.0.0.1:9091"%string "0.0.0.0:8080"%string boot_start);
      vm_compute; try reflexivity; lia.
  - intros tr r w' [H Hiff]. destruct (proj2 Hiff test_bootable) as [b ->].
    destruct H as (_ & Hs & Hr & _). split; [by exists b|]. split; [exact Hs|].
    eexists. rewrite (Hr (key 3)). split.
    + exists (key 5). split; [vm_compute; right; left|vm_compute; reflexivity].
    + vm_compute. reflexivity.
Defined.

(** ** Progress of the handlers *)

Definition test_claim : PendingVaultClaim :=
  {| pc_market := key 10; pc_debt_mint := key 2; pc_debt_bank := key 4;
     pc_lender_global_vault := key 8; pc_sub_vault_id := 0; pc_debt_withdrawable_shares := 9 |}.

Lemma claimer_sweeps_all_witness :
  @wp nat _ (@sweep_all nat (flaky_node (fun _ => None)) _ _ test_ctx [test_claim]) (fun tr r _ =>
      r = Ok 1%nat /\ exists tx r', EvSubmit tx r' ∈ tr /\ sweep_tx test_ctx test_claim tx)
    flaky_start.
Proof.
  eapply wp_mono.
  - apply (@claimer_sweeps_all nat (flaky_node (fun _ => None)) _ _ running failures test_ctx
             [test_claim] flaky_start).
    + apply flaky_accepts.
    + split; reflexivity.
    + cbn. lia.
    + reflexivity.
    + intros s e [_ ->] He. apply list_elem_of_singleton in He as ->.
      exists test_bank. vm_compute. reflexivity.
  - intros tr r w' [-> H]. split; [reflexivity|]. apply H. by left.
Defined.

Definition at_market (p : Pubkey) : option Account :=
  if decide (p = key 10) then Some market_account else None.
Definition test_pending : PendingMatchedLoan :=
  {| pm_market := key 10; pm_sequence := 7; pm_flags := 0; pm_loan_type := 1;
     pm_lender_seat_index := 1; pm_borrower_seat_index := 2; pm_principal_atoms := 100;
     pm_origination_atoms := 1 |}.

Lemma promoter_promotes_all_witness :
  @wp nat _ (@promote_market nat (flaky_node at_market) _ _ test_ctx (0, 0)%nat test_market)
    (fun tr r _ => r = Ok (1, 1)%nat /\
       exists tx r', EvSubmit tx r' ∈ tr /\ promotion_tx test_ctx (key 10) test_pending tx)
    flaky_start.
Proof.
  eapply wp_mono.
  - apply (@promoter_promotes_all nat (flaky_node at_market) _ _ running failures test_ctx
             test_market test_bank market_account [test_pending] flaky_start).
    + apply flaky_accepts.
    + split; reflexivity.
    + cbn. lia.
    + reflexivity.
    + reflexivity.
    + intros s [_ ->]. vm_compute. reflexivity.
    + intros x. vm_compute. reflexivity.
    + discriminate.
    + vm_compute. reflexivity.
    + apply Forall_singleton. intros (H & _). exfalso. apply H. reflexivity.
  - intros tr r w' [-> H]. split; [reflexivity|]. apply H. by left.
Defined.

(** The keeper holds 5000 atoms; the loan owes 100000 and has matured. *)
Definition keeper_account : Account :=
  mkAccount (replicate 64 Byte.x00 ++ le_bytes 8 5000 ++ replicate 93 Byte.x00) (key 40).
Definition at_keeper (p : Pubkey) : option Account :=
  if decide (p = payer_ata) then Some keeper_account else None.

Lemma liquidator_acts_on_due_witness :
  @wp nat _ (@scan_loans nat (flaky_node at_keeper) _ _ test_ctx test_market 5000 [test_loan 100000])
    (fun tr r _ => r = Ok 1%nat /\ exists tx r', EvSubmit tx r' ∈ tr /\
       (@settle_tx nat (flaky_node at_keeper) _ _ (known running) test_ctx test_market (test_loan 100000) tx \/
        @liquidate_tx nat (flaky_node at_keeper) _ _ (known running) test_ctx test_market (test_loan 100000) tx)) flaky_start.
Proof.
  eapply wp_mono.
  - apply (@liquidator_acts_on_due nat (flaky_node at_keeper) _ _ running failures test_ctx
             test_market 5000 [test_loan 100000] test_bank other_bank (eq 5000%Z) flaky_start).
    + apply flaky_accepts.
    + split; reflexivity.
    + cbn. lia.
    + reflexivity.
    + split.
      * intros s [_ ->]. vm_compute. reflexivity.
      * intros x. exists keeper_account, 5000%Z. split; [vm_compute; reflexivity|].
        split; [vm_compute; reflexivity|reflexivity].
    + apply Forall_singleton. split; [reflexivity|]. split; [discriminate|].
      split; [left; vm_compute; reflexivity|]. intros b <-. vm_compute. discriminate.
  - intros tr r w' [-> H]. split; [reflexivity|]. apply H. by left.
Defined.

(** What it sends settles that loan, with the two banks every state of the process knows,
    and the 5000 atoms. *)
Lemma scan_loans_sound_witness :
  @wp nat _ (@scan_loans nat (flaky_node at_keeper) _ _ test_ctx test_market 5000 [test_loan 100000])
    (fun tr _ _ => Forall (submit_sat (fun tx => exists swb_ixs luts,
       carries (keypair_pubkey test_payer)
         (priority_fee_preamble test_rpc V0_COMPUTE_UNIT_LIMIT ++ (swb_ixs ++
           [mkIx (key 7)
              (map (fun p => mkMeta p false true)
                 [payer_ata; ata_for other_bank (keypair_pubkey test_payer); key 4; key 5])
              (le_bytes 8 1 ++ le_bytes 8 5000)])) luts tx)) tr)
    flaky_start.
Proof.
  eapply wp_mono.
  - apply (@scan_loans_sound nat (flaky_node at_keeper) _ _ running test_ctx test_market 5000
             [test_loan 100000] flaky_start).
    + intros x s H. exact H.
    + split; reflexivity.
  - intros tr r w'. apply submit_sat_mono. intros tx (loan & Hin & _ & _ & [H|H]);
      apply list_elem_of_singleton in Hin as ->.
    + destruct H as (_ & banks & db & cb & bal & repay & ixs & luts & (s & (_ & Hs) & <-) & Hd & Hc
        & (x & acct & Hx & _ & <-) & Hr & Htx).
      rewrite Hs in Hd, Hc. vm_compute in Hd. injection Hd as <-. vm_compute in Hc.
      injection Hc as <-. vm_compute in Hx. injection Hx as <-. vm_compute in Hr.
      injection Hr as <-. exists ixs, luts. exact Htx.
    + destruct H as ([H|H] & _); exfalso; revert H; vm_compute; [discriminate|].
      intros H. by apply H.
Defined.
