(* ===== verification/ProcessWitness.v ===== *)
(** The properties of the whole process, applied to a concrete interleaving: a
    supervised promoter lists the market, checks the stop flag and submits, while the
    signal task stores the flag right after that check. *)

From Stdlib Require Import ZArith Lia.
From stdpp Require Import gmap strings list relations.
From S2P Require Import Prelude Solana State Effects Logic Rpc Liveness Util ChainReader BankRegistry Config Signer SwbCranker Metrics Handlers HealthServer Promoter MatchCranker CuratorFeeClaimer Progress CrankProgress Main Footprint Guarantee Process Stopping Testbed Witness.

Local Open Scope crank_scope.

#[local] Existing Instances test_crates test_ydelta.

(** ** The interleaving *)

Definition test_plan : Plan :=
  {| pl_ctx := test_ctx; pl_warm := None; pl_installs _ := true; pl_arrived := Some SIGTERM;
     pl_bind := None; pl_accept _ := Ceiling |}.

Definition s_start : Shared := mkShared false false None two_banks ∅.
Definition s_cached : Shared := with_markets 0 [test_market] s_start.
Definition s_stopped : Shared := with_stop s_cached.

(** The supervisor's and the tick's reads, the cache write, and the stop check. *)
Definition promoter_accesses : list Access :=
  [(s_start, s_start); (s_start, s_start); (s_start, s_start); (s_start, s_cached);
   (s_cached, s_cached); (s_cached, s_cached)].

Definition before_stop : list Step := map (pair (THandler 0)) promoter_accesses.
Definition until_stop : list Step := before_stop ++ [(TSignal, (s_cached, s_stopped))].
Definition after_stop : list Step := [(THandler 0, (s_stopped, s_stopped))].

Definition test_run (t : Task) : World (Recorded Z) :=
  (@task_body (Recorded Z) (@recording Z boot_node) _ _ test_plan t
     (match t with THandler 0 => 1 | _ => 0 end)%nat
     (record_from 0%Z (map fst (made_by t (until_stop ++ after_stop))) s_start no_inflight)).2.

Lemma test_runs t : @runs Z boot_node _ _ test_plan t (made_by t (until_stop ++ after_stop)) (test_run t).
Proof.
  eexists _, 0%Z, no_inflight, s_start. split; [reflexivity|].
  exists (drop (S (length (made_by t (until_stop ++ after_stop)))) (accesses (test_run t))).
  destruct t as [| | | | | |[|[|[|[|i]]]]];
    lazymatch goal with |- ?a = _ => vm_cast_no_check (eq_refl a) end.
Qed.

Lemma test_interleaving : interleaving test_plan s_start (until_stop ++ after_stop) s_stopped.
Proof.
  split; [repeat constructor|]. intros t. exists Z, boot_node, (test_run t). apply test_runs.
Qed.

Lemma two_banks_wf : registry_wf two_banks.
Proof.
  apply map_Forall_insert_2; [|apply map_Forall_singleton];
    (constructor; [reflexivity|cbn; lia|by left]).
Qed.

Lemma start_wf : process_wf s_start.
Proof. split; [apply two_banks_wf|exact I]. Qed.

(** ** The process *)

Lemma process_invariant_witness :
  process_wf s_start /\
  exists s, chain s_start until_stop s /\ process_wf s /\ sh_stop s = true.
Proof.
  split; [apply start_wf|].
  destruct (process_invariant test_plan s_start until_stop after_stop s_stopped
    start_wf test_interleaving) as (s & Hc & Hc2 & Hwf & _).
  exists s. split; [exact Hc|]. split; [exact Hwf|]. inversion Hc2; subst. reflexivity.
Defined.

Lemma process_single_writers_witness :
  sh_stop s_stopped = true /\ sh_fee_payer_low s_stopped = false.
Proof.
  destruct (process_single_writers test_plan s_start (until_stop ++ after_stop) s_stopped
    test_interleaving) as (Hlow & _ & _ & Hstop).
  rewrite Hlow, Hstop. split; reflexivity.
Defined.

(** The promoter's transaction follows its sixth access, the last before the flag. *)
Lemma submissions_precede_stop_witness :
  exists tx n, (tx, n) ∈ rc_sent (ext (test_run (THandler 0))) /\
    (n <= length (made_by (THandler 0) until_stop))%nat.
Proof.
  destruct (rc_sent (ext (test_run (THandler 0)))) as [|[tx n] l] eqn:E;
    [vm_compute in E; discriminate E|].
  assert (Hin : (tx, n) ∈ rc_sent (ext (test_run (THandler 0)))) by (rewrite E; by left).
  exists tx, n. split; [by left|].
  apply (@submissions_precede_stop _ _ test_plan s_start until_stop after_stop s_stopped s_stopped
           (THandler 0) Z boot_node (test_run (THandler 0)) tx n test_interleaving).
  - repeat constructor.
  - repeat constructor.
  - reflexivity.
  - discriminate.
  - reflexivity.
  - apply test_runs.
  - exact Hin.
  - assert (Hn : n = 6%nat); [|subst n; vm_compute; lia].
    assert (map snd (rc_sent (ext (test_run (THandler 0)))) = [6%nat]) as Hs by (vm_compute; reflexivity).
    rewrite E in Hs. cbn in Hs. by injection Hs as -> _.
Defined.

(** ** The end of the process *)

(** The test node, stopped by a signal that arrives during its first second. *)
Definition signalled (E : Env Z) : Env Z := {|
  cl_get_account := @cl_get_account Z E;
  cl_get_multiple_accounts := @cl_get_multiple_accounts Z E;
  cl_get_program_accounts := @cl_get_program_accounts Z E;
  cl_get_signature_statuses := @cl_get_signature_statuses Z E;
  cl_get_latest_blockhash := @cl_get_latest_blockhash Z E;
  cl_send_and_confirm := @cl_send_and_confirm Z E;
  cl_simulate := @cl_simulate Z E;
  cl_get_balance := @cl_get_balance Z E;
  cl_get_slot := @cl_get_slot Z E;
  gw_fetch_update := @gw_fetch_update Z E;
  instant_now := @instant_now Z E;
  system_now := @system_now Z E;
  do_sleep := @do_sleep Z E;
  join_order := @join_order Z E;
  interfere t s := (t, if (from_secs 1 <=? t)%Z then with_stop s else s) |}.

Lemma signalled_clock accounts programs :
  @SaneClock Z (signalled (node accounts programs)) (fun t => t).
Proof.
  split.
  - intros t. cbn. lia.
  - intros t s. cbn. lia.
  - intros t d H. cbn. lia.
Qed.

Lemma signalled_peers E t : t <> TSignal -> @Peers Z (signalled E) _ t.
Proof.
  intros Ht x s. cbn. destruct (from_secs 1 <=? x)%Z; [|apply rtc_refl].
  apply rtc_once. exists TSignal. split; [auto|constructor].
Qed.

(** The balance task raises the low-balance flag in its first round, sleeps, sees the
    stop flag, and ends. *)
Definition sol_start : World Z := start 0 false false None two_banks.
Definition sol_after : World Z :=
  (@task_body Z (signalled boot_node) _ _ test_plan TSol 1 sol_start).2.

Lemma tasks_end_after_stop_witness :
  sh_fee_payer_low (shared sol_after) = true /\
  exists w, @task_body Z (signalled boot_node) _ _ test_plan TSol 3 sol_start = (Ok true, w) /\
    trace w = trace sol_after.
Proof.
  split; [vm_compute; reflexivity|].
  apply (@tasks_end_after_stop Z (signalled boot_node) _ _ (fun t => t) test_plan TSol 1 1
           sol_start sol_after).
  - apply signalled_clock.
  - apply signalled_peers. discriminate.
  - discriminate.
  - discriminate.
  - repeat constructor; vm_compute; discriminate.
  - vm_compute. reflexivity.
  - vm_compute. reflexivity.
Defined.

(** ** Progress *)

Lemma match_cranks_all_crossed_witness :
  @wp nat _ (@match_markets nat (flaky_node at_market) _ _ test_ctx [test_market])
    (fun tr r _ => r = Ok 1%nat /\ exists tx r', EvSubmit tx r' ∈ tr /\
       match_tx test_ctx (key 10) tx) flaky_start.
Proof.
  eapply wp_mono.
  - apply (@match_cranks_all_crossed nat (flaky_node at_market) _ _ running failures test_ctx
             [test_market] flaky_start).
    + apply flaky_accepts.
    + split; reflexivity.
    + cbn. lia.
    + reflexivity.
    + intros m x sv x' E. injection E as <- <-. vm_compute. reflexivity.
    + intros market Hin _. apply list_elem_of_singleton in Hin as ->. split.
      * intros s [_ ->]. split; [exists test_bank|exists other_bank]; vm_compute; reflexivity.
      * exists market_account. split; [intros x; vm_compute; reflexivity|].
        split; [discriminate|vm_compute; reflexivity].
  - intros tr r w' [-> H]. split; [reflexivity|]. apply (H test_market); [by left|reflexivity].
Defined.

Definition curator_key : Keypair := mkKeypair (le_bytes 64 77).
Definition curator_ctx : HandlerContext :=
  {| ctx_cfg := test_config; ctx_rpc := test_rpc; ctx_chain := test_chain;
     ctx_signers := {| sg_fee_payer := test_payer;
                       sg_curators := {[ keypair_pubkey curator_key := curator_key ]} |};
     ctx_swb_cranker := None |}.
(** Two sub-vaults of the bank of [test_bank], the second without a held key. *)
Definition sub_vault (curator : Pubkey) (id : Z) : SubVaultView :=
  {| vw_vault := key 50; vw_vault_mint := key 2; vw_vault_bank := key 4; vw_sub_vault_id := id;
     vw_curator := curator; vw_accumulated_curator_fee_atoms := 200000;
     vw_vault_is_paused := false; vw_pending_claim_atoms := 0; vw_is_sunset := false |}.
Definition two_sub_vaults : list SubVaultView :=
  [sub_vault (keypair_pubkey curator_key) 1; sub_vault (key 99) 2].

Lemma curator_claims_all_due_witness :
  @wp nat _ (@claim_sub_vaults nat (flaky_node at_market) _ _ curator_ctx two_banks two_sub_vaults)
    (fun tr r _ => (exists skipped, r = Ok (1%nat, skipped)) /\
       exists tx r', EvSubmit tx r' ∈ tr) flaky_start.
Proof.
  eapply wp_mono.
  - apply (@curator_claims_all_due nat (flaky_node at_market) _ _ running failures curator_ctx
             two_banks two_sub_vaults flaky_start).
    + apply flaky_accepts.
    + split; reflexivity.
    + cbn. lia.
    + reflexivity.
    + intros v Hin _. exists test_bank. unfold two_sub_vaults in Hin.
      apply elem_of_cons in Hin as [->|Hin]; [split; vm_compute; reflexivity|].
      apply list_elem_of_singleton in Hin as ->. split; vm_compute; reflexivity.
  - intros tr r w' [[skipped ->] H]. split; [exists skipped; vm_compute; reflexivity|].
    destruct (H (sub_vault (keypair_pubkey curator_key) 1)) as (tx & r' & _ & _ & Hin & _).
    + by left.
    + vm_compute. reflexivity.
    + by exists tx, r'.
Defined.

(** ** The boot *)

Lemma boot_starts_well_formed_witness :
  @wp Z _ (@main Z boot_node _ _ unit string test_host) (fun _ _ w' => process_wf (shared w'))
    (start 0 false false None BankRegistry_default).
Proof.
  apply (@boot_starts_well_formed _ _ Z boot_node unit string test_host).
  - intros x s H. exact H.
  - reflexivity.
  - reflexivity.
Defined.
